(* ===== verification/_CoqProject ===== *)
-Q . S2P
Prelude.v
Py.v
Pairing.v
PairingBackend.v
Measurement.v
Digest.v
Interfaces.v
World.v
Constants.v
Frame.v
Fragmentation.v
BleClient.v
Runs.v
Sas.v
Policy.v
Dict.v
Session.v
Runner.v
CentralChannel.v
SessionStore.v
Handshake.v
PeripheralServer.v
PeripheralHandshake.v
PeripheralChannel.v
HandshakeAgreement.v
Phase5.v
Phase5Auth.v
Phase6Central.v
Phase7.v
V1Smp.v
Phase7Auth.v
Phase7Hybrid.v
MlkemE2E.v
Phase3Secure.v
V1Central.v
Cp2Central.v
V1Cp3.v
Resumption.v
V1Cp4.v
Cp3Central.v
ResumeFull.v
ResumeHybrid.v
ResumeStore.v
ResumeCentral.v
ResumeEvidence.v
ResumeSafety.v
CommandLine.v
CentralCli.v
CliShapes.v
CliSafety.v
