(* ===== verification/Prelude.v ===== *)
(** * The PQ-BLE handshake: a verification of its Python Central

    The program is one end of a post-quantum handshake over Bluetooth Low
    Energy: src/src/common holds the protocol (frames, transcripts, key
    schedules, state machines, stores), src/src/central the coroutines that run
    it over the [bleak] client and the command line that starts them. The other
    end is firmware, and is here whatever it likes to be; for the first protocol
    version there is a Peripheral in Python as well, src/experimental/peripheral,
    which is modelled.

    ** How the program is modelled

    - Values. Python [bytes] are lists of bytes with Python's slices ([Prelude]);
      integers are [Z], and a conversion that raises in Python raises here
      ([Py.to_bytes], [Py.mk_bytes]). A time is an integer of nanoseconds.
    - Errors. A function is a value of [Py.result], a method of an object a
      state transformer that keeps the changes it made before it raised
      ([Py.method]); the exceptions are [Py.exn]. A wiped [bytearray] is zeros
      of the same length ([Py.wipe]).
    - Digests. SHA-256, HMAC and CRC-32 are executable ([Digest]); AES-GCM,
      HKDF, P-256 and ML-KEM are classes of operations with the laws their
      documentation states, instantiated by [Interfaces.Toy] in the witnesses.
    - Coroutines ([World]). A coroutine is a method over the state of an
      environment, its own objects and a trace. Every [await] is [perform]: the
      environment answers as it likes, an exception included (a cancellation and
      a control-C are exceptions), after any list of events (notifications and disconnects), which the
      registered callbacks handle before the coroutine goes on. What is read
      without awaiting is [query_env]. Every theorem about a coroutine quantifies
      over all environments, hence over all peers, orders, losses and failures.
    - Shared objects. A session that the coroutine, the client and a callback
      share is one field of the runner's variables; the client keeps a reference
      to it ([BleClient.ref]), and [BleClient.Program] says what clearing the
      object and receiving a notification do.
    - Policies ([Policy]). What a coroutine may request at each point of its
      trace is a predicate on the trace so far and the request; [obeys] says that
      every request satisfied it. The rules of [Policy] carry such a permission,
      and an invariant of the variables and the trace, through a coroutine; an
      invariant has to be kept by callbacks and by clearing shared objects
      (class [Kept], and [V1Central.V1Kept] for the runners of v1).
    - Runs inside runs ([Runs]). What a runner promises whoever awaits it is an
      instance of the class [Contract]; a coroutine never reads the trace (class
      [Framed], proved by following its structure), so a contract about a run of
      its own holds of the same run after other requests. The requests a coroutine
      can make whatever it is answered are the class [Asks].

    ** Files and sources

    Foundations: [Prelude], [Py], [Digest], [Interfaces], [World], [Policy], [Runs].

    Protocol, src/src/common:
    - [Constants] (constants.py); [Fragmentation] (fragmentation.py); [Frame],
      the lemmas of the 8-byte header that five frame formats share;
    - [Sas] (sas.py, ml_kem.py, phase2_diagnostic.py); [Session] (session.py);
      [Dict] and [SessionStore] (session_store.py);
    - [Phase5] (phase5.py, phase6.py): v0.5 keys, frames, Central state machine;
      [Phase7] (phase7.py): the hybrid primitives of v0.7;
    - [V1Smp] (v1_smp_mlkem.py, v1_cp2.py); [V1Cp3] (v1_cp3.py); [V1Cp4]
      (v1_cp4.py): the v1.0 frames, handshake and application data;
    - [Resumption] (resumption.py), both roles; [ResumeFull] (resume_full.py);
      [ResumeHybrid] (resume_hybrid.py); [ResumeStore] (resume_store.py).

    Runners, src/src/central:
    - [BleClient] (ble_client.py); [CentralChannel] (secure_channel.py);
      [Handshake] (handshake.py); [Phase5Auth] (phase5_auth.py);
    - [Runner]: the queue, the subscription, the buffers and the traffic that
      the runners of the later phases share, with the rules of their blocks;
      [MlkemE2E] (mlkem_e2e.py); [Phase3Secure] (phase3_secure.py);
      [Phase6Central] (phase6_c2p.py); [Phase7Auth] (phase7_auth.py);
      [Phase7Hybrid] (phase7_hybrid.py);
    - [Pairing] (winrt_pairing.py): the ceremony as a machine of its own;
      [PairingBackend]: the console line by which the person answers it, and the
      device whose pairing state is inspected;
      [V1Central] (v1_smp_mlkem.py), generic in the exchange behind the gate;
      [Cp2Central] (v1_cp2.py); [Cp3Central] (v1_cp3.py, v1_cp4.py);
    - [ResumeCentral] (resumption.py): the runner of v0.8 and v1.1, under v1.1 as
      an exchange of [V1Central]; [ResumeEvidence], what it has to know before it
      sends, and [ResumeSafety], its theorem, proved once over the interface
      [V1Cp4.AppSession] of both kinds of session.

    - [Measurement] (measurement.py): the recorder and the hooks, which the other
      files leave out of the code they translate.

    Command line, src/src/central/main.py:
    - [CommandLine]: the options, the combinations [parse_args] refuses and the
      runner [main] chooses; [CentralCli]: the coroutine of each runner, from a
      new client to the exit status, and the legacy run; [CliShapes] and
      [CliSafety]: what a status means.

    Peripheral, src/experimental/peripheral:
    - [PeripheralServer] (ble_server.py and the tasks of the event loop);
      [PeripheralHandshake] (handshake.py); [PeripheralChannel]
      (secure_channel.py); [HandshakeAgreement]: both ends of the first version.

    A definition has the name of the Python function it translates; a method
    whose name is taken is prefixed ([Ticket_issue], [full_begin]). A long
    coroutine is cut at its comments ([Phase5Auth.exchange_keys],
    [Cp3Central.send_start]) and composed in the order of the source.

    ** What the theorems show

    - What may leave the Central, and on what evidence: [phase2_run_safe],
      [phase3_run_safe], [phase5_run_safe],
      [phase6_run_safe], [phase7_run_safe], [phase7_hybrid_run_safe],
      [v1_cp1_gated], [v1_cp2_matches], [v1_cp3_secured], [v1_cp4_rounds],
      [resume_run_safe], [handshake_key_reason], [pairing_needs_consent]; what a run leaves behind:
      [phase5_run_wipes], the second half of the [run_safe] theorems, and the
      session invariant of the v1 theorems.
    - What the command line starts, and what its status says: [command_explicit]
      (it runs exactly the consistent lines, as they say, and refuses the others
      with status 2; negative only when asked for, and never without the person's
      comparison where it matters); [exit_zero_earned] (a status 0 comes with one
      connection, a run that obeyed its policy and did what its theorem says, and
      a disconnection; or a negative test that passed, or a control-C in the
      legacy run); [exit_settled] (every failure becomes a status, except a
      cancellation or a control-C); [consent_typed_after_prompt] (the answer to a Numeric
      Comparison is typed after its question).
    - Observation: [measurement_transparent] (a program with hooks does what it
      does without them, which is why they can be left out elsewhere).
    - The Python Peripheral: [peripheral_run_safe] (a key of its own only after a
      confirmed SAS or for a session of its store), [ciphertext_stream] (which
      writes make a ciphertext), [resumption_counts_twice] (a defect: the last
      use of a session is accepted and then refused).
    - The state machines reach their final state only along the protocol and
      with verified messages: [cp3_secure_trace], [resume_central_trace],
      [peripheral_trace], [full_handshake_trace], [phase5_authenticated_trace],
      [phase5_machine_refines] (the abstract machine of the protocol), and stay
      closed after a failure ([cp3_failure_final]).
    - Two honest ends agree: [resumption_agreement], [cp3_honest_run], [handshake_ends_agree] (the two Python ends, with each
      other's messages as environment), [peripheral_messages_arrive].
    - Sequence numbers and replay: [cp4_trace], [receive_all_no_replay],
      [send_all_sequence], [receiving_refines] (the queue of received messages
      refines the sequence of accepted records), [hybrid_round]; the key schedule
      of v0.7 uses both secrets and splits its block ([derive_phase7_keys_split]).
    - Wire formats: every frame parser accepts exactly what its encoder emits
      ([v1_frames_exact], [phase7_messages_exact], [pqs5_pqs6_frames_exact],
      [resume_frames_exact]); [fragment_reassemble_any_order],
      [write_fragmented_ciphertext_delivers].
    - Stores: [store_invariant], [resume_budget], [load_returns_live],
      [reopen_restores_live], [save_load_roundtrip], [load_exact].

    ** Bounds and fuel

    The loops of the source are structural here: over the fragments, the records
    and the rounds. Those that are not run on fuel. [Handshake.poll] takes the
    31 polls that its deadline allows, and [wait_for_notification_fuel] shows
    that more change nothing; [CentralChannel.receive_fuel], which
    [PeripheralChannel.receive] uses too, is the number of polls of a tenth of a
    second that the timeout allows. [PeripheralHandshake.wait_loop] has 1201 polls
    for its 120 s, enough by [wait_for_either_or_fuel]. The console loop and the
    interactive loop of the legacy run follow what the person types, which is an
    argument.

    ** Not modelled

    Logging and printing, which change no result; the parsing of the words of a command line, which is argparse's; the
    prompts of the SAS, whose answer is one of the environment; loading WinRT,
    the calls to Windows and to liboqs and cryptography; bleak and the event loop
    of asyncio, which are the environment (tasks other than the coroutine are
    part of it: a timer or a guard ends as a cancellation). In the legacy run the
    task that prints received messages is left out. The text of an exception
    keeps the constant part of its message. The Peripheral's firmware is C, and
    the theorems quantify over every peripheral; the terminal loop of the Python
    Peripheral (experimental/peripheral/main.py), its BleakServer, the benchmarks
    and the scripts are not part of the development. *)

From Stdlib Require Export ZArith Lia ZifyBool.
From stdpp Require Export base tactics option list strings decidable numbers.
From Corelib Require Export Init.Byte.
From Stdlib Require Strings.Byte.

#[global] Open Scope Z_scope.

(** * Bytes

    A Python [bytes] object is a list of [byte]; [len] is [blen], an integer
    of Python (a [Z]); slices take [Z] positions, which the source always
    gives as non-negative constants. *)

Abbreviation bytes := (list byte).

#[global] Instance byte_eq_dec : EqDecision byte := Byte.byte_eq_dec.

Definition Z_of_byte (x : byte) : Z := Z.of_N (Byte.to_N x).

Definition byte_of_Z (z : Z) : byte :=
  default x00 (Byte.of_N (Z.to_N (z mod 256))).

Definition blen (l : bytes) : Z := Z.of_nat (length l).

(** [data[:j]], [data[i:]] and [data[i:j]]. *)
Definition bto (j : Z) (l : bytes) : bytes := take (Z.to_nat j) l.
Definition bfrom (i : Z) (l : bytes) : bytes := drop (Z.to_nat i) l.
Definition bslice (i j : Z) (l : bytes) : bytes := bto (j - i) (bfrom i l).

(** [b"\x00" * n], also [bytes(n)]. *)
Definition zeros (n : Z) : bytes := replicate (Z.to_nat n) x00.

(** An ASCII byte literal [b"..."]. *)
Definition lit (s : string) : bytes := String.list_byte_of_string s.
Arguments lit _%_string_scope.

(** Unsigned big-endian integers: the value of [int.from_bytes(l, "big")] and
    the [n] low-order bytes of an integer. *)
Fixpoint from_be (l : bytes) : Z :=
  match l with
  | [] => 0
  | x :: r => Z_of_byte x * 256 ^ Z.of_nat (length r) + from_be r
  end.

Fixpoint be_bytes (n : nat) (v : Z) : bytes :=
  match n with
  | O => []
  | S m => byte_of_Z (v / 256 ^ Z.of_nat m) :: be_bytes m v
  end.

Lemma Z_of_byte_range x : 0 <= Z_of_byte x < 256.
Proof.
  unfold Z_of_byte. pose proof (Byte.to_N_bounded x). lia.
Qed.

Lemma Z_of_byte_inj x y : Z_of_byte x = Z_of_byte y -> x = y.
Proof.
  unfold Z_of_byte. intros H%N2Z.inj.
  pose proof (Byte.of_to_N x) as Hx. pose proof (Byte.of_to_N y) as Hy.
  rewrite H, Hy in Hx. congruence.
Qed.

Lemma Z_of_byte_of_Z z : Z_of_byte (byte_of_Z z) = z mod 256.
Proof.
  unfold byte_of_Z, Z_of_byte.
  pose proof (Z.mod_pos_bound z 256 ltac:(lia)) as Hb.
  destruct (Byte.of_N (Z.to_N (z mod 256))) as [x|] eqn:E; cbn [from_option].
  - apply Byte.to_of_N in E. change (Z.of_N (Byte.to_N x) = z mod 256). rewrite E. lia.
  - apply Byte.of_N_None_iff in E. lia.
Qed.

Lemma byte_of_Z_of_byte x : byte_of_Z (Z_of_byte x) = x.
Proof.
  apply Z_of_byte_inj. rewrite Z_of_byte_of_Z.
  apply Z.mod_small, Z_of_byte_range.
Qed.

Lemma from_be_range l : 0 <= from_be l < 256 ^ blen l.
Proof.
  unfold blen. induction l as [|x l IH]; cbn [from_be length].
  - lia.
  - pose proof (Z_of_byte_range x). rewrite Nat2Z.inj_succ, Z.pow_succ_r by lia. nia.
Qed.

Lemma length_be_bytes n v : length (be_bytes n v) = n.
Proof. induction n; cbn [be_bytes length]; congruence. Qed.

Lemma from_be_bytes n v : from_be (be_bytes n v) = v mod 256 ^ Z.of_nat n.
Proof.
  induction n as [|n IH]; cbn [be_bytes from_be].
  - now rewrite Z.mod_1_r.
  - rewrite IH, Z_of_byte_of_Z, length_be_bytes, Nat2Z.inj_succ, Z.pow_succ_r by lia.
    rewrite (Z.mul_comm 256), Z.rem_mul_r by lia. lia.
Qed.

Lemma be_bytes_mod n v : be_bytes n (v mod 256 ^ Z.of_nat n) = be_bytes n v.
Proof.
  enough (forall k, (k <= n)%nat ->
            be_bytes k (v mod 256 ^ Z.of_nat n) = be_bytes k v) by auto.
  induction k as [|k IH]; intros Hk; cbn [be_bytes]; [done|].
  rewrite IH by lia. f_equal. apply Z_of_byte_inj. rewrite !Z_of_byte_of_Z.
  replace (Z.of_nat n) with (Z.of_nat k + Z.of_nat (n - k)) by lia.
  rewrite Z.pow_add_r, Z.rem_mul_r by lia.
  rewrite (Z.mul_comm (256 ^ Z.of_nat k) (_ mod _)), Z.div_add by lia.
  rewrite (Z.div_small (v mod _)) by (apply Z.mod_pos_bound; lia).
  destruct (n - k)%nat as [|m] eqn:Em; [lia|].
  rewrite Z.add_0_l, Nat2Z.inj_succ, Z.pow_succ_r, Z.rem_mul_r by lia.
  rewrite Z.mul_comm, Z_mod_plus_full. apply Z.mod_mod; lia.
Qed.

Lemma be_bytes_from_be l : be_bytes (length l) (from_be l) = l.
Proof.
  induction l as [|x l IH]; cbn [length be_bytes from_be]; [done|].
  pose proof (from_be_range l) as Hl. unfold blen in Hl. f_equal.
  - rewrite Z.div_add_l, (Z.div_small (from_be l)), Z.add_0_r by lia.
    apply byte_of_Z_of_byte.
  - rewrite <- be_bytes_mod, Z.add_comm, Z_mod_plus_full, be_bytes_mod. exact IH.
Qed.

Lemma from_be_inj l1 l2 : blen l1 = blen l2 -> from_be l1 = from_be l2 -> l1 = l2.
Proof.
  unfold blen. intros Hl H.
  rewrite <- (be_bytes_from_be l1), <- (be_bytes_from_be l2), H.
  f_equal. lia.
Qed.

(** ** Lengths and slices *)

Lemma blen_nonneg l : 0 <= blen l.
Proof. unfold blen. lia. Qed.

Lemma blen_nil : blen [] = 0.
Proof. done. Qed.

Lemma blen_cons x l : blen (x :: l) = 1 + blen l.
Proof. unfold blen. cbn [length]. lia. Qed.

Lemma blen_app l1 l2 : blen (l1 ++ l2) = blen l1 + blen l2.
Proof. unfold blen. rewrite length_app. lia. Qed.

Lemma blen_zeros n : 0 <= n -> blen (zeros n) = n.
Proof. unfold blen, zeros. rewrite length_replicate. lia. Qed.

Lemma blen_be_bytes n v : blen (be_bytes n v) = Z.of_nat n.
Proof. unfold blen. now rewrite length_be_bytes. Qed.

Lemma blen_bto j l : 0 <= j -> blen (bto j l) = Z.min j (blen l).
Proof. unfold blen, bto. rewrite length_take. lia. Qed.

Lemma blen_bfrom i l : 0 <= i -> blen (bfrom i l) = Z.max 0 (blen l - i).
Proof. unfold blen, bfrom. rewrite length_drop. lia. Qed.

Lemma blen_bslice i j l :
  0 <= i -> i <= j -> blen (bslice i j l) = Z.max 0 (Z.min j (blen l) - i).
Proof. intros. unfold bslice. rewrite blen_bto, blen_bfrom by lia. lia. Qed.

Lemma blen_0_nil l : blen l = 0 -> l = [].
Proof. destruct l; [done|]. rewrite blen_cons. pose proof (blen_nonneg l). lia. Qed.

Lemma bto_app n l1 l2 : blen l1 = n -> bto n (l1 ++ l2) = l1.
Proof. unfold blen, bto. intros <-. rewrite Nat2Z.id. apply take_app_length. Qed.

Lemma bfrom_app n l1 l2 : blen l1 = n -> bfrom n (l1 ++ l2) = l2.
Proof. unfold blen, bfrom. intros <-. rewrite Nat2Z.id. apply drop_app_length. Qed.

Lemma bfrom_app_plus n m l1 l2 :
  blen l1 = n -> 0 <= m -> bfrom (n + m) (l1 ++ l2) = bfrom m l2.
Proof.
  unfold blen, bfrom. intros <- Hm. rewrite Z2Nat.inj_add, Nat2Z.id by lia.
  rewrite drop_app_add'; done.
Qed.

Lemma bto_all n l : blen l <= n -> bto n l = l.
Proof. unfold blen, bto. intros. apply take_ge. lia. Qed.

Lemma bto_bfrom n l : bto n l ++ bfrom n l = l.
Proof. apply take_drop. Qed.

Lemma bfrom_0 l : bfrom 0 l = l.
Proof. done. Qed.

Lemma bfrom_bfrom i j l : 0 <= i -> 0 <= j -> bfrom i (bfrom j l) = bfrom (j + i) l.
Proof. intros. unfold bfrom. rewrite drop_drop. f_equal. lia. Qed.

Lemma bslice_bfrom i j l : 0 <= i <= j -> bslice i j l ++ bfrom j l = bfrom i l.
Proof.
  intros. unfold bslice. replace j with (i + (j - i)) at 2 by lia.
  rewrite <- bfrom_bfrom by lia. apply bto_bfrom.
Qed.

(** [data[i:j]] when the data is cut as [l1 ++ l2 ++ l3] at [i] and [j]. *)
Lemma bslice_app i j l1 l2 l3 :
  blen l1 = i -> blen l2 = j - i -> bslice i j (l1 ++ l2 ++ l3) = l2.
Proof. intros H1 H2. unfold bslice. rewrite bfrom_app by done. now apply bto_app. Qed.

(** ** Automation for lengths

    [bytes_len] normalises every [blen] of the goal through the rewrite base
    [bytes] and leaves the arithmetic to [lia]. *)
Create HintDb bytes.
Create Rewrite HintDb bytes.
#[export] Hint Rewrite blen_app blen_cons blen_nil blen_be_bytes : bytes.
#[export] Hint Rewrite blen_zeros blen_bto blen_bfrom blen_bslice using lia : bytes.
#[export] Hint Resolve blen_nonneg : bytes.

Ltac blen_const l :=
  let n := eval vm_compute in (blen l) in
  lazymatch n with
  | Z0 => change (blen l) with n in *
  | Zpos _ => change (blen l) with n in *
  end.

(** Evaluates the length of the named byte constants and literals. *)
Ltac blen_consts :=
  repeat match goal with
         | |- context [blen (lit ?s)] => blen_const (lit s)
         | H : context [blen (lit ?s)] |- _ => blen_const (lit s)
         | |- context [blen ?l] => is_const l; blen_const l
         | H : context [blen ?l] |- _ => is_const l; blen_const l
         end.

Ltac bytes_len :=
  repeat match goal with
         | H : context [blen ?l] |- _ =>
             lazymatch goal with
             | _ : 0 <= blen l |- _ => fail
             | _ => pose proof (blen_nonneg l)
             end
         | |- context [blen ?l] =>
             lazymatch goal with
             | _ : 0 <= blen l |- _ => fail
             | _ => pose proof (blen_nonneg l)
             end
         end;
  autorewrite with bytes in *; blen_consts; try lia.

(** Case analysis on the innermost [match] or [if] of a hypothesis or of the
    goal, keeping the equation. *)
Ltac case_match_in H :=
  match type of H with
  | context [match ?x with _ => _ end] =>
      lazymatch x with
      | context [match _ with _ => _ end] => fail
      | _ => destruct x eqn:?
      end
  end.

Ltac case_match_goal :=
  match goal with
  | |- context [match ?x with _ => _ end] =>
      lazymatch x with
      | context [match _ with _ => _ end] => fail
      | _ => destruct x eqn:?
      end
  end.

(** A prefix that stays inside the first part of a concatenation. *)
Lemma bto_app_le n l1 l2 : n <= blen l1 -> bto n (l1 ++ l2) = bto n l1.
Proof. unfold bto, blen. intros. apply take_app_le. lia. Qed.

Lemma last_cons_default {A} (x d : A) l : List.last (x :: l) d = List.last l x.
Proof.
  revert x d. induction l as [|y l IH]; intros x d; [done|].
  change (List.last (y :: l) d = List.last (y :: l) x). by rewrite !IH.
Qed.

Arguments from_be : simpl never.
Arguments be_bytes : simpl never.
Arguments bto : simpl never.
Arguments bfrom : simpl never.
Arguments bslice : simpl never.
Arguments zeros : simpl never.
Arguments blen : simpl never.
Arguments lit : simpl never.

(** A 128-byte block of four 32-byte keys. *)
Lemma key_block_split (kb : bytes) :
  blen kb = 128 ->
  kb = bslice 0 32 kb ++ bslice 32 64 kb ++ bslice 64 96 kb ++ bslice 96 128 kb.
Proof.
  intros H. rewrite <- (bfrom_0 kb) at 1.
  rewrite <- (bslice_bfrom 0 32), <- (bslice_bfrom 32 64), <- (bslice_bfrom 64 96) by lia.
  do 3 f_equal. unfold bslice. symmetry. apply bto_all. rewrite blen_bfrom by lia. lia.
Qed.

Lemma key_block_parts (a b c d kb : bytes) :
  a ++ b ++ c ++ d = kb -> blen a = 32 -> blen b = 32 -> blen c = 32 -> blen d = 32 ->
  bslice 0 32 kb = a /\ bslice 32 64 kb = b /\ bslice 64 96 kb = c /\ bslice 96 128 kb = d.
Proof.
  intros <- Ha Hb Hc Hd. split_and!.
  - by apply (bto_app 32).
  - by apply bslice_app.
  - rewrite (app_assoc a). apply bslice_app; [bytes_len|done].
  - rewrite !app_assoc. rewrite <- (app_nil_r d). unfold bslice.
    rewrite app_nil_r, bfrom_app by bytes_len. apply bto_all. lia.
Qed.
