(* ===== verification/Py.v ===== *)
(** The Python layer the components share: exceptions, results of functions,
    methods that change an object before they return or raise, and the few
    operations of the standard library the source uses on [bytes] and [int].

    The text of a message keeps the constant part of the source's message; the
    values an f-string would insert are left out. *)

From S2P Require Import Prelude.
From stdpp Require Import pretty.
Open Scope Z_scope.

Declare Scope py_scope.
Delimit Scope py_scope with py.

(** * Exceptions *)

(** [resumption.Reason], an [IntEnum]. *)
Inductive Reason :=
  | NO_TICKET | EXPIRED | MAX_USES | PROFILE_MISMATCH | BAD_AUTH
  | REPLAY | L4_REQUIRED | MALFORMED | INTERNAL_ERROR | REPLAY_CACHE_FULL.

#[global] Instance Reason_eq_dec : EqDecision Reason.
Proof. solve_decision. Defined.

Definition reason_value (r : Reason) : Z :=
  match r with
  | NO_TICKET => 1 | EXPIRED => 2 | MAX_USES => 3 | PROFILE_MISMATCH => 4
  | BAD_AUTH => 5 | REPLAY => 6 | L4_REQUIRED => 7 | MALFORMED => 8
  | INTERNAL_ERROR => 9 | REPLAY_CACHE_FULL => 10
  end.

Inductive exn :=
  | ValueError (msg : string)
  | ResumeError (reason : Reason)        (* class ResumeError(ValueError) *)
  | RuntimeError (msg : string)
  | Phase5StateError (msg : string)      (* class Phase5StateError(RuntimeError) *)
  | Phase5AuthError (msg : string)       (* class Phase5AuthError(RuntimeError) *)
  | Phase5NegativeTestFailed (msg : string) (* subclass of Phase5AuthError *)
  | Phase5NegativeTestPassed (msg : string)
  | Phase7AuthError (msg : string)
  | Phase7NegativeTestPassed (msg : string)
  | V1Error (msg : string)
  | V1ErrorFrom (msg : string) (cause : exn) (* raise V1Error(msg) from cause *)
  | V1NegativeTestInconclusive (msg : string) (* subclass of V1Error *)
  | V1NegativeTestPassed (msg : string)
  | NegativePassed (msg : string)
  | PairingError (msg : string)          (* class PairingError(RuntimeError) *)
  | Phase6BidirectionalError (msg : string)
  | Phase6NegativeTestFailed (msg : string) (* subclass of Phase6BidirectionalError *)
  | Phase6NegativeTestPassed (msg : string)
  | ExperimentError (msg : string)       (* Phase2E2EError, Phase3SecureError, Phase7HybridError *)
  | TypeError (msg : string)
  | OverflowError
  | KeyError
  | IndexError
  | AttributeError                       (* a method of None *)
  | ZeroDivisionError
  | StructError
  | InvalidTag                           (* cryptography.exceptions.InvalidTag *)
  | FileNotFoundError
  | OSError
  | AsyncTimeoutError                    (* asyncio.TimeoutError *)
  | CancelledError                       (* asyncio.CancelledError, a BaseException *)
  | KeyboardInterrupt                    (* control-C, a BaseException *)
  | BleakGATTProtocolError (code : Z)    (* bleak: a GATT error with its ATT code *)
  | BleakError (message : string)        (* any other error of bleak, with its (ASCII) message *)
  | OtherException (winerror : option Z). (* of WinRT, liboqs or cryptography *)

#[global] Instance exn_eq_dec : EqDecision exn.
Proof. solve_decision. Defined.

(** [isinstance(exc, ValueError)]. *)
Definition is_value_error (e : exn) : bool :=
  match e with ValueError _ | ResumeError _ => true | _ => false end.

(** [isinstance(exc, Exception)]: what [except Exception] catches. *)
Definition is_exception (e : exn) : bool :=
  match e with CancelledError | KeyboardInterrupt => false | _ => true end.

(** [isinstance(exc, Phase5StateError)]. *)
Definition is_phase5_state_error (e : exn) : bool :=
  match e with Phase5StateError _ => true | _ => false end.

(** [str(exc)]. *)
Definition exn_message (e : exn) : string :=
  match e with
  | ValueError m | RuntimeError m | Phase5StateError m | Phase5AuthError m
  | Phase5NegativeTestFailed m | Phase5NegativeTestPassed m | Phase7AuthError m
  | Phase7NegativeTestPassed m | V1Error m | V1NegativeTestInconclusive m
  | V1ErrorFrom m _ | V1NegativeTestPassed m | NegativePassed m | ExperimentError m | TypeError m
  | PairingError m | Phase6BidirectionalError m | Phase6NegativeTestFailed m
  | Phase6NegativeTestPassed m | BleakError m => m
  | _ => ""
  end.

(** [isinstance(exc, Phase5AuthError)]. *)
Definition is_phase5_auth_error (e : exn) : bool :=
  match e with Phase5AuthError _ | Phase5NegativeTestFailed _ => true | _ => false end.

(** [isinstance(exc, V1Error)]. *)
Definition is_v1_error (e : exn) : bool :=
  match e with V1Error _ | V1ErrorFrom _ _ | V1NegativeTestInconclusive _ => true | _ => false end.

(** [isinstance(exc, Phase6BidirectionalError)]. *)
Definition is_phase6_error (e : exn) : bool :=
  match e with Phase6BidirectionalError _ | Phase6NegativeTestFailed _ => true | _ => false end.

(** * Results of functions *)

Inductive result (A : Type) :=
  | Ok (a : A)
  | Err (e : exn).
Arguments Ok {A} a.
Arguments Err {A} e.

#[global] Instance result_eq_dec {A} `{EqDecision A} : EqDecision (result A).
Proof. solve_decision. Defined.

#[global] Instance result_ret : MRet result := fun A a => Ok a.
#[global] Instance result_bind : MBind result :=
  fun A B f m => match m with Ok a => f a | Err e => Err e end.
#[global] Instance result_fmap : FMap result :=
  fun A B f m => match m with Ok a => Ok (f a) | Err e => Err e end.

(** [if cond: raise e]. *)
Definition raise_if (cond : bool) (e : exn) : result unit :=
  if cond then Err e else Ok tt.

Lemma raise_if_Ok c e u : raise_if c e = Ok u <-> c = false.
Proof. destruct c, u; cbn; split; congruence. Qed.

Lemma raise_if_false c e : c = false -> raise_if c e = Ok tt.
Proof. by intros ->. Qed.

Lemma raise_if_true c e : c = true -> raise_if c e = Err e.
Proof. by intros ->. Qed.

Lemma Ok_inj {A} (x y : A) : (mret x : result A) = Ok y -> x = y.
Proof. by intros [= ->]. Qed.

(** Splits [x ← m; k = r] hypotheses into the steps that succeeded. *)
Lemma bind_Ok {A B} (m : result A) (k : A -> result B) b :
  (x ← m; k x) = Ok b <-> exists a, m = Ok a /\ k a = Ok b.
Proof.
  destruct m as [a|e]; cbn; split; [eauto| |congruence|].
  - intros (a' & [= ->] & ?). done.
  - intros (? & ? & _). congruence.
Qed.

Lemma bind_Err {A B} (m : result A) (k : A -> result B) e :
  (x ← m; k x) = Err e <-> m = Err e \/ exists a, m = Ok a /\ k a = Err e.
Proof.
  destruct m as [a|e']; cbn; split.
  - intros H. right. eauto.
  - intros [H|(a' & [= ->] & ?)]; done.
  - intros [= ->]. by left.
  - intros [[= ->]|(? & ? & _)]; done.
Qed.

Ltac ok_inv :=
  repeat match goal with
         | H : mbind _ _ = Ok _ |- _ =>
             apply bind_Ok in H;
             let a := fresh "a" in let Ha := fresh "Hok" in
             destruct H as (a & Ha & H)
         | H : raise_if _ _ = Ok _ |- _ => apply raise_if_Ok in H
         | H : mret _ = Ok _ |- _ => injection H as H
         | H : Ok _ = Ok _ |- _ => injection H as H
         | H : Err _ = Ok _ |- _ => discriminate H
         | u : unit |- _ => destruct u
         end.

(** The check at the head of the goal passes: its condition, to be shown
    false, becomes the first goal. *)
Ltac pass :=
  lazymatch goal with
  | |- mbind ?k (raise_if ?c ?e) = _ =>
      let H := fresh in
      assert (c = false) as H;
      [|rewrite (raise_if_false c e H); clear H; cbn [mbind result_bind]]
  | |- raise_if ?c ?e = _ => rewrite (raise_if_false c e)
  end.

(** Every exception of a computation satisfies [P]. *)
Definition raises {A} (P : exn -> Prop) (m : result A) : Prop := forall x, m = Err x -> P x.

Lemma raises_bind {A B} (P : exn -> Prop) (m : result A) (k : A -> result B) :
  raises P m -> (forall a, raises P (k a)) -> raises P (x ← m; k x).
Proof. intros Hm Hk x [H|(a & _ & H)]%bind_Err; [by apply Hm|by eapply Hk]. Qed.

Lemma raises_Ok {A} (P : exn -> Prop) (a : A) : raises P (Ok a).
Proof. by intros x. Qed.

Lemma raises_Err {A} (P : exn -> Prop) x : P x -> raises P (Err x : result A).
Proof. by intros H y [= <-]. Qed.

Lemma raises_if (P : exn -> Prop) c x : P x -> raises P (raise_if c x).
Proof. intros H. destruct c; [by apply raises_Err|by apply raises_Ok]. Qed.

(** * Methods: the object may have changed when an exception leaves it *)

Definition method (S A : Type) : Type := S -> result A * S.

#[global] Instance method_ret S : MRet (method S) := fun A a s => (Ok a, s).
#[global] Instance method_bind S : MBind (method S) :=
  fun A B f m s =>
    match m s with
    | (Ok a, s') => f a s'
    | (Err e, s') => (Err e, s')
    end.

Definition get_self {S} : method S S := fun s => (Ok s, s).
Definition update {S} (f : S -> S) : method S unit := fun s => (Ok tt, f s).
Definition raise {S A} (e : exn) : method S A := fun s => (Err e, s).
Definition run {S A} (r : result A) : method S A := fun s => (r, s).
Definition raise_when {S} (cond : bool) (e : exn) : method S unit :=
  fun s => (raise_if cond e, s).

(** [try: m; except BaseException: cleanup; raise]. *)
Definition cleanup_on_error {S A} (cleanup : S -> S) (m : method S A) : method S A :=
  fun s => match m s with
           | (Err e, s') => (Err e, cleanup s')
           | r => r
           end.

Lemma cleanup_on_error_Err {S A} (cleanup : S -> S) (m : method S A) s e s' :
  cleanup_on_error cleanup m s = (Err e, s') -> exists t, s' = cleanup t.
Proof. unfold cleanup_on_error. destruct (m s) as [[a|x] t]; [done|]. intros [= <- <-]. eauto. Qed.

(** [try: m; finally: cleanup]. *)
Definition finally {S A} (cleanup : S -> S) (m : method S A) : method S A :=
  fun s => let (r, s') := m s in (r, cleanup s').

(** [try: m; except (matching): handler]. *)
Definition try_except {St A} (catches : exn -> bool) (handler : exn -> method St A)
  (m : method St A) : method St A :=
  fun s => match m s with
           | (Err x, t) => if catches x then handler x t else (Err x, t)
           | r => r
           end.

(** [try: m; finally: cleanup]: an exception of [cleanup] replaces the result. *)
Definition try_finally {St A} (cleanup : method St unit) (m : method St A) : method St A :=
  fun s => let (r, t) := m s in
           match cleanup t with
           | (Ok _, u) => (r, u)
           | (Err x, u) => (Err x, u)
           end.

(** [for x in l: body(x)]. *)
Fixpoint for_each {St A} (body : A -> method St unit) (l : list A) : method St unit :=
  match l with
  | [] => mret tt
  | x :: r => body x;; for_each body r
  end.

(** Runs a method of a component held in a field of the object. *)
Definition on_field {S T A} (get : S -> T) (set : T -> S -> S) (m : method T A)
  : method S A :=
  fun s => let (r, t) := m (get s) in (r, set t s).

(** * Standard library: [bytes] and [int] *)

(** [data[i]] with [i >= 0]: an [int], [IndexError] out of range. *)
Definition idx (l : bytes) (i : Z) : result Z :=
  match l !! Z.to_nat i with
  | Some x => Ok (Z_of_byte x)
  | None => Err IndexError
  end.

(** [bytes((v0, v1, ...))]: [ValueError] when a value is not a byte. *)
Definition is_byte (v : Z) : bool := (0 <=? v) && (v <=? 255).

Definition mk_bytes (vs : list Z) : result bytes :=
  if forallb is_byte vs then Ok (map byte_of_Z vs)
  else Err (ValueError "bytes must be in range(0, 256)").

(** [v.to_bytes(n, "big")]: [OverflowError] when [v] does not fit. *)
Definition to_bytes (n : nat) (v : Z) : result bytes :=
  if (0 <=? v) && (v <? 256 ^ Z.of_nat n) then Ok (be_bytes n v)
  else Err OverflowError.

(** [data.startswith(prefix)]. *)
Definition startswith (l prefix : bytes) : bool :=
  bool_decide (bto (blen prefix) l = prefix).

(** [hmac.compare_digest(a, b)] on byte strings. *)
Definition compare_digest (x y : bytes) : bool := bool_decide (x = y).

(** Bitwise exclusive or of two byte values. *)
Definition byte_xor (x y : byte) : byte :=
  byte_of_Z (Z.lxor (Z_of_byte x) (Z_of_byte y)).

(** A wiped buffer: [buffer[:] = b"\x00" * len(buffer)]. *)
Definition wipe (l : bytes) : bytes := zeros (blen l).
Arguments wipe : simpl never.

Lemma wipe_wipe l : wipe (wipe l) = wipe l.
Proof. unfold wipe. by rewrite blen_zeros by apply blen_nonneg. Qed.

(** * Clocks: a time in seconds is an integer number of nanoseconds *)

Definition SECOND : Z := 10 ^ 9.

(** * Lists of results *)

Lemma mapM_Ok_map {A B} (f : A -> result B) (g : A -> B) l :
  (forall x, x ∈ l -> f x = Ok (g x)) -> mapM f l = Ok (map g l).
Proof.
  induction l as [|x l IH]; intros H; [done|]. cbn.
  rewrite H by left. cbn. rewrite IH by (intros; apply H; now right). done.
Qed.

Lemma mapM_Ok_Forall2 {A B} (f : A -> result B) l k :
  mapM f l = Ok k <-> Forall2 (fun x y => f x = Ok y) l k.
Proof.
  revert k. induction l as [|x l IH]; intros k; cbn.
  - split; [intros [= <-]; constructor|]. intros H. inversion H. done.
  - rewrite bind_Ok. setoid_rewrite bind_Ok. split.
    + intros (y & Hy & r & Hr%IH & [= <-]). now constructor.
    + intros H. inversion H as [|? y ? r Hy Hr]; subst.
      exists y. split; [done|]. exists r. rewrite IH. done.
Qed.

Lemma mapM_Err_head {A B} (f : A -> result B) x l e :
  f x = Err e -> mapM f (x :: l) = Err e.
Proof. intros H. cbn. now rewrite H. Qed.

(** Computes the method combinators and nothing else. *)
Ltac meth :=
  cbv beta iota zeta delta
    [mbind method_bind result_bind mret method_ret result_ret run get_self update
     raise_when raise cleanup_on_error finally on_field].
