(* ===== verification/Pairing.v ===== *)
(** src/src/central/winrt_pairing.py: what the WinRT pairing backend reports, and
    the ceremony that owns one PairingRequested event, its deferral and the task
    that asks the person. WinRT may call the handler at any time; the calls the
    ceremony makes back are logged, and a parameter says which of them raise.
    What the console and the lookup of the device return is an argument; they
    are modelled in PairingBackend.v. *)

From Stdlib Require Import Ascii.
From stdpp Require Import sets.
From S2P Require Import Prelude Py.
Open Scope Z_scope.

Definition PROTECTION_ENCRYPTION_AND_AUTHENTICATION : string := "ENCRYPTION_AND_AUTHENTICATION".

Record PairingState := mkPairingState {
  is_paired : bool;
  can_pair : bool;
  protection_level : string;
}.

Record PairingOutcome := mkPairingOutcome {
  status : string;
  paired : bool;
  used_protection : string;
  pin_shown : option string;
  outcome_ceremony : option string;
  outcome_decision : option bool;
  outcome_accept_invoked : bool;
}.

Definition authenticated (self : PairingOutcome) : bool :=
  paired self && bool_decide (used_protection self = PROTECTION_ENCRYPTION_AND_AUTHENTICATION).

(** * The ceremony *)

(** The arguments of a PairingRequested event; a kind is the name of its enum
    member. *)
Record request := mkRequest { request_id : Z; pairing_kind : string; request_pin : string }.

#[global] Instance request_eq_dec : EqDecision request.
Proof. solve_decision. Defined.

Inductive winrt_call :=
  | Accept (r : request)
  | GetDeferral (r : request)
  | Complete (r : request).

#[global] Instance winrt_call_eq_dec : EqDecision winrt_call.
Proof. solve_decision. Defined.

(** [task] is the request of a decision task that has not ended, [scheduled]
    the callbacks handed to [call_soon_threadsafe], [calls] what WinRT saw. *)
Record _Ceremony := mkCeremony {
  kind : string;
  interactive : bool;                (* [confirm] is not None *)
  active : bool;
  received : bool;
  pin : option string;
  ceremony : option string;
  decision : option bool;
  accept_invoked : bool;
  deferral : option request;
  task : option request;
  error : option exn;
  scheduled : list request;
  calls : list winrt_call;
}.

Definition _Ceremony_init (kind : string) (interactive : bool) : _Ceremony :=
  mkCeremony kind interactive true false None None None false None None None [] [].

Section Ceremony.
(** Whether a call back into WinRT raises. *)
Variable winrt : winrt_call -> option exn.

Definition set_active (v : bool) (c : _Ceremony) : _Ceremony :=
  mkCeremony (kind c) (interactive c) v (received c) (pin c) (ceremony c) (decision c)
    (accept_invoked c) (deferral c) (task c) (error c) (scheduled c) (calls c).
Definition set_received (k : string) (c : _Ceremony) : _Ceremony :=
  mkCeremony (kind c) (interactive c) (active c) true (pin c) (Some k) (decision c)
    (accept_invoked c) (deferral c) (task c) (error c) (scheduled c) (calls c).
Definition set_pin (p : string) (c : _Ceremony) : _Ceremony :=
  mkCeremony (kind c) (interactive c) (active c) (received c) (Some p) (ceremony c) (decision c)
    (accept_invoked c) (deferral c) (task c) (error c) (scheduled c) (calls c).
Definition set_decision (d : bool) (c : _Ceremony) : _Ceremony :=
  mkCeremony (kind c) (interactive c) (active c) (received c) (pin c) (ceremony c) (Some d)
    (accept_invoked c) (deferral c) (task c) (error c) (scheduled c) (calls c).
Definition set_accept_invoked (c : _Ceremony) : _Ceremony :=
  mkCeremony (kind c) (interactive c) (active c) (received c) (pin c) (ceremony c) (decision c)
    true (deferral c) (task c) (error c) (scheduled c) (calls c).
Definition set_deferral (d : option request) (c : _Ceremony) : _Ceremony :=
  mkCeremony (kind c) (interactive c) (active c) (received c) (pin c) (ceremony c) (decision c)
    (accept_invoked c) d (task c) (error c) (scheduled c) (calls c).
Definition set_task (t : option request) (c : _Ceremony) : _Ceremony :=
  mkCeremony (kind c) (interactive c) (active c) (received c) (pin c) (ceremony c) (decision c)
    (accept_invoked c) (deferral c) t (error c) (scheduled c) (calls c).
Definition set_error (e : exn) (c : _Ceremony) : _Ceremony :=
  mkCeremony (kind c) (interactive c) (active c) (received c) (pin c) (ceremony c) (decision c)
    (accept_invoked c) (deferral c) (task c) (Some e) (scheduled c) (calls c).
Definition set_scheduled (l : list request) (c : _Ceremony) : _Ceremony :=
  mkCeremony (kind c) (interactive c) (active c) (received c) (pin c) (ceremony c) (decision c)
    (accept_invoked c) (deferral c) (task c) (error c) l (calls c).
Definition log_call (w : winrt_call) (c : _Ceremony) : _Ceremony :=
  mkCeremony (kind c) (interactive c) (active c) (received c) (pin c) (ceremony c) (decision c)
    (accept_invoked c) (deferral c) (task c) (error c) (scheduled c) (calls c ++ [w]).

Definition invoke (w : winrt_call) : method _Ceremony unit :=
  update (log_call w);;
  match winrt w with None => mret tt | Some x => raise x end.

(** Detach the deferral before completing it; keep the error. *)
Definition _complete : method _Ceremony unit :=
  self ← get_self;
  match deferral self with
  | None => mret tt
  | Some r =>
      update (set_deferral None);;
      try_except is_exception (fun x => update (set_error x)) (invoke (Complete r))
  end.

Definition is_digit (a : ascii) : bool :=
  let n := N_of_ascii a in ((48 <=? n) && (n <=? 57))%N.

(** [re.fullmatch(r"[0-9]{6}", s)]. *)
Definition six_digits (s : string) : bool :=
  (String.length s =? 6)%nat && forallb is_digit (String.list_ascii_of_string s).

Definition handler (args : request) : method _Ceremony unit :=
  self ← get_self;
  if negb (active self) then mret tt
  else
    try_except is_exception (fun x => update (set_error x);; _complete) (
      raise_when (received self) (PairingError "duplicate PairingRequested event");;
      update (set_received (pairing_kind args));;
      raise_when (negb (bool_decide (pairing_kind args = kind self)))
        (PairingError "unsupported pairing kind");;
      if negb (interactive self) then
        invoke (Accept args);;
        update set_accept_invoked
      else
        update (set_pin (request_pin args));;
        raise_when (negb (six_digits (request_pin args)))
          (PairingError "Numeric Comparison PIN is not six digits");;
        invoke (GetDeferral args);;
        update (set_deferral (Some args));;
        update (fun c => set_scheduled (scheduled c ++ [args]) c)).

Definition _start_decision (args : request) : method _Ceremony unit :=
  self ← get_self;
  if active self && bool_decide (error self = None) then update (set_task (Some args)) else mret tt.

(** [answer] is what awaiting [self.confirm(self.pin)] gave. *)
Definition _decide (args : request) (answer : result bool) : method _Ceremony unit :=
  try_finally _complete (
    try_except is_exception (fun x => update (set_error x)) (
      d ← run answer;
      self ← get_self;
      if negb (active self) || negb (bool_decide (error self = None)) then mret tt
      else
        update (set_decision d);;
        if (d : bool) then invoke (Accept args);; update set_accept_invoked else mret tt)).

(** A live task is cancelled where it waits for the person. *)
Definition stop : method _Ceremony unit :=
  update (set_active false);;
  self ← get_self;
  _complete;;
  match task self with
  | None => mret tt
  | Some r =>
      update (set_task None);;
      try_except (fun _ => true) (fun _ => mret tt) (_decide r (Err CancelledError))
  end.

(** ** What may happen while the ceremony is registered *)

Inductive pairing_event :=
  | Requested (args : request)          (* WinRT calls the handler *)
  | Scheduled                           (* the loop runs the next callback *)
  | Answered (answer : result bool).    (* the decision task resumes *)

Definition on_event (e : pairing_event) : method _Ceremony unit :=
  match e with
  | Requested r => handler r
  | Scheduled =>
      self ← get_self;
      match scheduled self with
      | [] => mret tt
      | r :: rest => update (set_scheduled rest);; _start_decision r
      end
  | Answered a =>
      self ← get_self;
      match task self with
      | None => mret tt
      | Some r => update (set_task None);; _decide r a
      end
  end.

(** Exceptions of a callback or of the task do not reach [pair_async]. *)
Definition deliver (es : list pairing_event) (c : _Ceremony) : _Ceremony :=
  fold_left (fun c e => (on_event e c).2) es c.

(** * One pairing attempt *)

Record pair_result := mkPairResult { pair_status : string; protection_level_used : string }.

(** [info] and [refreshed] are what the two lookups of the device gave, [during]
    and [late] what happened before and after the ceremony was stopped, and
    [pairing] the end of [pair_async], a timeout of [wait_for] included. *)
Definition _run_custom_pairing (kind : string) (interactive : bool) (timeout : Z)
    (info : result PairingState) (during : list pairing_event) (pairing : result pair_result)
    (late : list pairing_event) (refreshed : result PairingState)
  : result PairingOutcome * _Ceremony :=
  (raise_when (timeout <=? 0) (ValueError "pairing timeout must be positive");;
   i ← run info;
   raise_when (is_paired i)
     (PairingError "device became paired before custom pairing; clear both bonds");;
   raise_when (negb (can_pair i)) (PairingError "Windows reports the device cannot be paired");;
   result ←
     try_finally (stop;; update (deliver late))
       (update (deliver during);;
        run match pairing with
            | Err AsyncTimeoutError => Err (PairingError "pairing did not complete")
            | r => r
            end);
   self ← get_self;
   raise_when (negb (bool_decide (error self = None))) (PairingError "custom pairing handler failed");;
   after ← run refreshed;
   let reported_success :=
     bool_decide (pair_status result = "PAIRED") || bool_decide (pair_status result = "ALREADY_PAIRED") in
   raise_when (reported_success && negb (is_paired after))
     (PairingError "pairing result and refreshed Windows bond state disagree");;
   raise_when (interactive && reported_success &&
               negb (bool_decide (pair_status result = "PAIRED") &&
                     bool_decide (decision self = Some true) && accept_invoked self))
     (PairingError "cold pairing succeeded without this handler's explicit NC acceptance");;
   mret (mkPairingOutcome (pair_status result) (is_paired after || reported_success)
           (protection_level after) (pin self) (ceremony self) (decision self)
           (accept_invoked self)))
  (_Ceremony_init kind interactive).

Definition pair_numeric_comparison := _run_custom_pairing "CONFIRM_PIN_MATCH" true.
Definition pair_just_works_test_only := _run_custom_pairing "CONFIRM_ONLY" false.
End Ceremony.

(** * Consent *)

Section Consent.
Variable winrt : winrt_call -> option exn.
Variable k : string.

(** The request the ceremony handles: of its kind, announced, with a PIN of six
    digits. *)
Definition handles (es : list pairing_event) (r : request) : Prop :=
  Requested r ∈ es /\ pairing_kind r = k /\ six_digits (request_pin r) = true.

(** The decision is still to come: its callback is scheduled, or its task runs. *)
Definition asking (r : request) (tk : option request) (sc : list request) : Prop :=
  tk = None /\ sc = [r] \/ tk = Some r /\ sc = [].

Definition resting (tk : option request) (sc : list request) : Prop := tk = None /\ sc = [].

(** The states of an interactive ceremony after the events [es]. *)
Inductive reached (es : list pairing_event) : _Ceremony -> Prop :=
  | reached_idle a rc p ce er :
      (rc = false -> er = None) ->
      reached es (mkCeremony k true a rc p ce None false None None er [] [])
  | reached_refused r a er :
      handles es r -> winrt (GetDeferral r) <> None ->
      reached es (mkCeremony k true a true (Some (request_pin r)) (Some k) None false None None er []
                    [GetDeferral r])
  | reached_waiting r tk sc :
      handles es r -> winrt (GetDeferral r) = None -> asking r tk sc ->
      reached es (mkCeremony k true true true (Some (request_pin r)) (Some k) None false (Some r) tk
                    None sc [GetDeferral r])
  | reached_closed r a d er tk sc :
      handles es r -> winrt (GetDeferral r) = None ->
      d = None /\ (a = false \/ er <> None) /\ asking r tk sc \/ d <> Some true /\ resting tk sc ->
      reached es (mkCeremony k true a true (Some (request_pin r)) (Some k) d false None tk er sc
                    [GetDeferral r; Complete r])
  | reached_consented r a ai er :
      handles es r -> winrt (GetDeferral r) = None -> Answered (Ok true) ∈ es ->
      (ai = true -> winrt (Accept r) = None) ->
      reached es (mkCeremony k true a true (Some (request_pin r)) (Some k) (Some true) ai None None er
                    [] [GetDeferral r; Accept r; Complete r]).

Lemma handles_more es es' r : es ⊆ es' -> handles es r -> handles es' r.
Proof. intros Hs (? & ? & ?). split_and!; [by apply Hs|done..]. Qed.

Lemma reached_more es es' c : es ⊆ es' -> reached es c -> reached es' c.
Proof. intros Hs Hc. destruct Hc; econstructor; eauto using handles_more. Qed.

(** Computes a callback on a state whose fields are known. *)
Ltac callback :=
  unfold on_event, handler, _start_decision, _decide, _complete, invoke, try_except, try_finally;
  meth; cbn.

(** The next call into WinRT, and whether its exception is caught. *)
Ltac call_case :=
  match goal with
  | |- context [winrt ?w] => destruct (winrt w) as [?x|] eqn:?; cbn
  | |- context [is_exception ?x] => destruct (is_exception x); cbn
  end.

Lemma reached_requested es c r : reached es c -> reached (es ++ [Requested r]) (handler winrt r c).2.
Proof.
  intros Hc. apply (reached_more _ (es ++ [Requested r])) in Hc; [|set_solver].
  assert (Requested r ∈ es ++ [Requested r]) as Hr by set_solver.
  set (es' := es ++ _) in *. clearbody es'.
  destruct Hc as [a rc p ce er He|q a er Hh Hf|q tk sc Hh Hf Ha|q a d er tk sc Hh Hf Ha|q a ai er Hh Hf Ha Hw];
    callback.
  - destruct a; cbn; [|by constructor]. destruct rc; cbn; [by constructor|].
    case_bool_decide as Hk; cbn; [|by constructor].
    destruct (six_digits (request_pin r)) eqn:Hs; cbn; [|by constructor].
    rewrite Hk. rewrite He by done. destruct (winrt (GetDeferral r)) as [x|] eqn:Hg; cbn.
    + destruct (is_exception x); cbn; apply reached_refused; try done; congruence.
    + apply reached_waiting; [done|done|by left].
  - destruct a; cbn; by apply reached_refused.
  - repeat call_case; (apply reached_closed; [done|done|left; auto]).
  - destruct a; cbn; (apply reached_closed; [done|done|]); [|exact Ha].
    destruct Ha as [(-> & _ & Ha)|Ha]; [left; auto|by right].
  - destruct a; cbn; by apply reached_consented.
Qed.

Lemma reached_scheduled es c : reached es c -> reached es (on_event winrt Scheduled c).2.
Proof.
  intros Hc. destruct Hc as [a rc p ce er He|q a er Hh Hf|q tk sc Hh Hf Ha|q a d er tk sc Hh Hf Ha|q a ai er Hh Hf Ha Hw];
    callback; [by constructor..| | |by constructor].
  - destruct Ha as [[-> ->]|[-> ->]]; callback; (apply reached_waiting; [done|done|by right]).
  - destruct Ha as [(-> & He & [[-> ->]|[-> ->]])|[Hd [-> ->]]]; callback;
      [destruct (a && _); cbn|..]; apply reached_closed; try done; unfold asking, resting; cbn; first [by left; auto|by right; auto|naive_solver].
Qed.

Lemma reached_answered es c ans :
  reached es c -> reached (es ++ [Answered ans]) (on_event winrt (Answered ans) c).2.
Proof.
  intros Hc. apply (reached_more _ (es ++ [Answered ans])) in Hc; [|set_solver].
  assert (Answered ans ∈ es ++ [Answered ans]) as Hr by set_solver.
  set (es' := es ++ _) in *. clearbody es'.
  destruct Hc as [a rc p ce er He|q a er Hh Hf|q tk sc Hh Hf Ha|q a d er tk sc Hh Hf Ha|q a ai er Hh Hf Ha Hw];
    callback; [by constructor..| | |by constructor].
  - destruct Ha as [[-> ->]|[-> ->]]; [apply reached_waiting; [done|done|by left]|].
    destruct ans as [[|]|x]; callback; repeat call_case;
      (apply reached_consented; [done|done|done|cbn; congruence]) || (apply reached_closed; [done|done|right; done]).
  - destruct Ha as [(-> & He & [[-> ->]|[-> ->]])|[Hd [-> ->]]]; callback;
      [apply reached_closed; [done|done|left; unfold asking; auto]| |apply reached_closed; [done|done|by right]].
    destruct ans as [[|]|x]; callback; [destruct a; cbn; [case_bool_decide; [destruct He; congruence|]|]..|]; cbn;
      repeat call_case; (apply reached_closed; [done|done|right; done]).
Qed.

Lemma reached_deliver es es' c :
  reached es c -> reached (es ++ es') (deliver winrt es' c).
Proof.
  revert es c. induction es' as [|e es' IH]; intros es c Hc; cbn; [by rewrite app_nil_r|].
  rewrite cons_middle, app_assoc. apply IH. destruct e as [r| |ans].
  - by apply reached_requested.
  - eapply reached_more; [|by apply reached_scheduled]. set_solver.
  - by apply reached_answered.
Qed.

Lemma reached_init es : reached es (_Ceremony_init k true).
Proof. by constructor. Qed.

Lemma reached_stop es c : reached es c -> reached es (stop winrt c).2 /\ active (stop winrt c).2 = false.
Proof.
  intros Hc. unfold stop. destruct Hc as [a rc p ce er He|q a er Hh Hf|q tk sc Hh Hf Ha|q a d er tk sc Hh Hf Ha|q a ai er Hh Hf Ha Hw];
    callback.
  - split; [by constructor|done].
  - split; [by constructor|done].
  - destruct Ha as [[-> ->]|[-> ->]]; callback; repeat call_case; (split; [|done]);
      (apply reached_closed; [done|done|unfold asking, resting; naive_solver]).
  - destruct Ha as [(-> & He & [[-> ->]|[-> ->]])|[Hd [-> ->]]]; callback; (split; [|done]);
      (apply reached_closed; [done|done|unfold asking, resting; naive_solver]).
  - split; [by constructor|done].
Qed.

(** What no event can change once the ceremony is stopped. *)
Definition record_of (c : _Ceremony) :=
  (active c, pin c, ceremony c, decision c, accept_invoked c, calls c).

Lemma stopped_event es c e :
  reached es c -> active c = false -> record_of (on_event winrt e c).2 = record_of c.
Proof.
  intros Hc Hoff. unfold record_of. destruct Hc as [a rc p ce er He|q a er Hh Hf|q tk sc Hh Hf Ha|q a d er tk sc Hh Hf Ha|q a ai er Hh Hf Ha Hw];
    cbn in Hoff; subst; destruct e as [r| |ans]; callback; try done.
  - by destruct Ha as [(-> & He & [[-> ->]|[-> ->]])|[Hd [-> ->]]].
  - destruct Ha as [(-> & He & [[-> ->]|[-> ->]])|[Hd [-> ->]]]; callback; try done.
    destruct ans as [d|x]; callback; [done|]. by call_case.
Qed.

Lemma stopped_deliver es es' c :
  reached es c -> active c = false -> record_of (deliver winrt es' c) = record_of c.
Proof.
  revert es c. induction es' as [|e es' IH]; intros es c Hc Hoff; [done|].
  pose proof (stopped_event es c e Hc Hoff) as He.
  change (deliver winrt (e :: es') c) with (deliver winrt es' (on_event winrt e c).2).
  rewrite <- He. apply (IH (es ++ [e])).
  - by apply (reached_deliver es [e]).
  - unfold record_of in He. congruence.
Qed.

(** The calls of a stopped ceremony. *)
Definition calls_made (es : list pairing_event) (l : list winrt_call) : Prop :=
  l = [] \/ exists q, handles es q /\
    (l = [GetDeferral q] /\ winrt (GetDeferral q) <> None \/
     l = [GetDeferral q; Complete q] \/
     l = [GetDeferral q; Accept q; Complete q] /\ Answered (Ok true) ∈ es).

Lemma stopped_calls es c : reached es c -> active c = false -> calls_made es (calls c).
Proof.
  intros Hc Hoff. unfold calls_made. destruct Hc; cbn in *; try done; [by left|right..];
    eexists; (split; [done|]); auto.
Qed.

Lemma stopped_consent es c :
  reached es c -> decision c = Some true -> accept_invoked c = true ->
  exists q, handles es q /\ calls c = [GetDeferral q; Accept q; Complete q] /\
    Answered (Ok true) ∈ es /\ winrt (Accept q) = None /\ pin c = Some (request_pin q).
Proof.
  intros Hc Hd Ha. destruct Hc; cbn in *; try done. exists r. by split_and!; auto.
Qed.
End Consent.

(** The ceremony of a whole attempt, once [pair_async] has ended. *)
Lemma attempt_ceremony winrt kind info timeout during pairing late refreshed :
  let '(r, c) := _run_custom_pairing winrt kind true timeout info during pairing late refreshed in
  calls_made winrt kind during (calls c) /\
  forall o, r = Ok o ->
    outcome_decision o = decision c /\ outcome_accept_invoked o = accept_invoked c /\
    pin_shown o = pin c /\
    (exists c0, reached winrt kind during c0 /\ record_of c0 = record_of c) /\
    exists res after, pairing = Ok res /\ refreshed = Ok after /\ status o = pair_status res /\
      (status o = "PAIRED"%string \/ status o = "ALREADY_PAIRED"%string ->
       is_paired after = true /\ paired o = true /\ status o = "PAIRED"%string /\
       decision c = Some true /\ accept_invoked c = true).
Proof.
  unfold _run_custom_pairing. meth.
  assert (calls_made winrt kind during []) as H0 by by left.
  destruct (timeout <=? 0); cbn; [split; [exact H0|done]|].
  destruct info as [i|x]; cbn; [|split; [exact H0|done]].
  destruct (is_paired i); cbn; [split; [exact H0|done]|].
  destruct (can_pair i); cbn; [|split; [exact H0|done]].
  pose proof (reached_deliver winrt kind [] during _ (reached_init winrt kind [])) as Hd.
  cbn [app] in Hd.
  destruct (reached_stop winrt kind during _ Hd) as [Hs Hoff]. revert Hs Hoff.
  unfold try_finally. meth. cbn.
  destruct (stop winrt (deliver winrt during (_Ceremony_init kind true))) as [st c1]. cbn. intros Hs Hoff.
  pose proof (stopped_deliver winrt kind during late c1 Hs Hoff) as Hl.
  assert (calls (deliver winrt late c1) = calls c1) as Hcalls by (unfold record_of in Hl; congruence).
  pose proof (stopped_calls winrt kind during c1 Hs Hoff) as Hmade.
  destruct st as [u|x]; cbn; [|by split].
  set (c2 := deliver winrt late c1) in *. clearbody c2.
  destruct pairing as [res|x]; [|destruct x; cbn; rewrite Hcalls; by split].
  cbn. destruct (decide (error c2 = None)) as [He|He]; cycle 1.
  { rewrite (bool_decide_false _ He). cbn. rewrite Hcalls. by split. }
  rewrite (bool_decide_true _ He). cbn.
  destruct refreshed as [after|x]; cbn; [|rewrite Hcalls; by split].
  set (ok := bool_decide (pair_status res = "PAIRED"%string) || _).
  destruct (ok && negb (is_paired after)) eqn:Hdis; cbn; [rewrite Hcalls; by split|].
  destruct (ok && negb (_ && _ && _)) eqn:Hnc; cbn; (split; [by rewrite Hcalls|]); [done|].
  intros o [= <-]. cbn. split_and!; [done..|by exists c1|]. exists res, after. split_and!; [done..|].
  intros Hst. assert (ok = true) as Hok.
  { unfold ok. destruct Hst as [->| ->]; [done|by rewrite orb_true_r]. }
  rewrite Hok in Hdis, Hnc. cbn in Hdis, Hnc. apply negb_false_iff in Hdis, Hnc.
  apply andb_true_iff in Hnc as [[Hp Hde]%andb_true_iff Hai].
  apply bool_decide_eq_true in Hp, Hde. rewrite Hok, orb_true_r. auto.
Qed.

(** C14. Pairing needs consent: for every behaviour of WinRT (any events at any
    time, duplicates and calls that raise included), a Numeric Comparison
    attempt calls WinRT back about at most one request, announced before the
    ceremony was stopped; it accepts it only after the person answered yes to
    its six-digit PIN, at most once, and completes the deferral it took exactly
    once. An outcome whose status is a success is PAIRED, confirmed by the
    refreshed bond state, and was accepted that way. *)
Theorem pairing_needs_consent winrt timeout info during pairing late refreshed :
  let '(r, c) := pair_numeric_comparison winrt timeout info during pairing late refreshed in
  calls_made winrt "CONFIRM_PIN_MATCH" during (calls c) /\
  forall o, r = Ok o -> status o = "PAIRED"%string \/ status o = "ALREADY_PAIRED"%string ->
    status o = "PAIRED"%string /\ paired o = true /\ (is_paired <$> refreshed) = Ok true /\
    exists q, handles "CONFIRM_PIN_MATCH" during q /\
      calls c = [GetDeferral q; Accept q; Complete q] /\ winrt (Accept q) = None /\
      Answered (Ok true) ∈ during /\ pin_shown o = Some (request_pin q).
Proof.
  pose proof (attempt_ceremony winrt "CONFIRM_PIN_MATCH" info timeout during pairing late refreshed) as Ha.
  unfold pair_numeric_comparison.
  destruct (_run_custom_pairing winrt _ true timeout info during pairing late refreshed) as [r c].
  destruct Ha as [Hm Ho]. split; [exact Hm|]. intros o Hr Hst.
  destruct (Ho o Hr) as (_ & _ & Hpin & (c0 & Hc & Hrec) & res & after & _ & -> & _ & Hok).
  destruct (Hok Hst) as (Hp & Hpd & Hs & Hd & Hai). unfold record_of in Hrec. injection Hrec as _ Hp0 _ Hd0 Ha0 Hc0.
  destruct (stopped_consent winrt _ during c0 Hc) as (q & Hh & Hq & Hans & Hw & Hpq); [congruence..|].
  cbn. split_and!; [done|done|by rewrite Hp|]. exists q. split_and!; try done; congruence.
Qed.

(** The person accepts the PIN 012345; the same request arrives once more late. *)
Definition demo_request : request := mkRequest 1 "CONFIRM_PIN_MATCH" "012345".
Definition demo_attempt :=
  pair_numeric_comparison (fun _ => None) 90 (Ok (mkPairingState false true "NONE"))
    [Requested demo_request; Scheduled; Answered (Ok true)]
    (Ok (mkPairResult "PAIRED" "ENCRYPTION_AND_AUTHENTICATION")) [Requested demo_request]
    (Ok (mkPairingState true false "ENCRYPTION_AND_AUTHENTICATION")).

Lemma pairing_needs_consent_witness :
  exists o, demo_attempt.1 = Ok o /\ authenticated o = true /\
  calls demo_attempt.2 = [GetDeferral demo_request; Accept demo_request; Complete demo_request] /\
  exists q, handles "CONFIRM_PIN_MATCH" [Requested demo_request; Scheduled; Answered (Ok true)] q /\
    pin_shown o = Some (request_pin q).
Proof.
  pose proof (pairing_needs_consent (fun _ => None) 90 (Ok (mkPairingState false true "NONE"))
    [Requested demo_request; Scheduled; Answered (Ok true)]
    (Ok (mkPairResult "PAIRED" "ENCRYPTION_AND_AUTHENTICATION")) [Requested demo_request]
    (Ok (mkPairingState true false "ENCRYPTION_AND_AUTHENTICATION"))) as Hp.
  unfold demo_attempt. set (x := pair_numeric_comparison _ _ _ _ _ _ _) in *.
  assert (exists o c, x = (Ok o, c) /\ authenticated o = true /\ status o = "PAIRED"%string /\
    calls c = [GetDeferral demo_request; Accept demo_request; Complete demo_request])
    as (o & c & Hx & Ho & Hs & Hc) by (do 2 eexists; split; [vm_compute; reflexivity|done]).
  rewrite Hx in Hp |- *. exists o. split_and!; [done..|].
  destruct Hp as [_ Hp]. destruct (Hp o eq_refl (or_introl Hs)) as (_ & _ & _ & q & Hq & _ & _ & _ & Hpin).
  exists q. split; [exact Hq|exact Hpin].
Defined.
