(* ===== verification/PairingBackend.v ===== *)
(** src/src/central/winrt_pairing.py around the ceremony of Pairing.v: the console
    line by which the person answers, with the confirmation of
    src/src/central/main.py that reads it, and the device whose pairing state is
    inspected. *)

From Stdlib Require Import Ascii.
From S2P Require Import Prelude Py Pairing.
Open Scope Z_scope.

(** * The console *)

(** What [kbhit] and [sleep] meet, in order: a key that is waiting, a poll at which
    none is, or one during whose sleep the task is cancelled. Characters are code
    points. *)
Inductive tick := Key (c : Z) | Idle | Cancel.

#[global] Instance tick_eq_dec : EqDecision tick.
Proof. solve_decision. Defined.

Section Console.
(** [str.isprintable] of one character outside ASCII. *)
Variable unicode_printable : Z -> bool.

Definition isprintable (c : Z) : bool :=
  if c <? 128 then (32 <=? c) && (c <=? 126) else unicode_printable c.

(** [while msvcrt.kbhit(): msvcrt.getwch()]. The poll that ends it is left to the
    loop below, whose first poll it may be. *)
Fixpoint discard (s : list tick) : list tick :=
  match s with
  | Key _ :: r => discard r
  | _ => s
  end.

(** [chars.pop()] when there is one. *)
Definition backspace (chars : list Z) : list Z := removelast chars.

(** The loop, with the characters so far. [extended] is the blocking [getwch] of
    an extended key, during which a cancellation can only be [requested]. [None]:
    the console has nothing more, and the loop goes on polling. *)
Fixpoint edit (chars : list Z) (extended requested : bool) (s : list tick) : option (result (list Z)) :=
  match s with
  | [] => None
  | Idle :: r => if negb extended && requested then Some (Err CancelledError)
                 else edit chars extended requested r
  | Cancel :: r => if extended then edit chars true true r else Some (Err CancelledError)
  | Key c :: r =>
      if extended then edit chars false requested r
      else if c =? 0x03 then Some (Err CancelledError)
      else if (c =? 0x00) || (c =? 0xE0) then edit chars true requested r
      else if (c =? 0x0D) || (c =? 0x0A) then Some (Ok chars)
      else if c =? 0x08 then edit (backspace chars) false requested r
      else if isprintable c then edit (chars ++ [c]) false requested r
      else edit chars false requested r
  end.

Definition read_console_line (interactive : bool) (s : list tick) : option (result (list Z)) :=
  if negb interactive
  then Some (Err (PairingError "Numeric Comparison requires an interactive Windows terminal"))
  else edit [] false false (discard s).

(** [answer.strip().lower() in ("y", "yes")]: no character outside ASCII has a
    lower case in these words; whitespace outside ASCII is a parameter. *)
Variable unicode_space : Z -> bool.

Definition isspace (c : Z) : bool :=
  if c <? 128 then (9 <=? c) && (c <=? 13) || (28 <=? c) && (c <=? 32) else unicode_space c.

Fixpoint lstrip (l : list Z) : list Z :=
  match l with
  | c :: r => if isspace c then lstrip r else l
  | [] => []
  end.

Definition strip (l : list Z) : list Z := rev (lstrip (rev (lstrip l))).

Definition lower (c : Z) : Z := if (65 <=? c) && (c <=? 90) then c + 32 else c.

(** The code points of an ASCII string. *)
Definition text (s : string) : list Z :=
  map (fun a => Z.of_N (N_of_ascii a)) (String.list_ascii_of_string s).

Definition is_yes (answer : list Z) : bool :=
  let a := map lower (strip answer) in
  bool_decide (a = text "y") || bool_decide (a = text "yes").

Definition _confirm_numeric_comparison (interactive : bool) (s : list tick) : option (result bool) :=
  match read_console_line interactive s with
  | None => None
  | Some (Ok answer) => Some (Ok (is_yes answer))
  | Some (Err x) => Some (Err x)
  end.

(** * What an answer shows *)

(** The keys of a stretch of the console. *)
Definition keys (s : list tick) : list Z :=
  omap (fun t => match t with Key c => Some c | _ => None end) s.

Lemma discard_split s : exists stale, s = map Key stale ++ discard s /\
  (discard s = [] \/ exists t r, discard s = t :: r /\ forall c, t <> Key c).
Proof.
  induction s as [|[c| |] s IH]; cbn.
  - exists []. split; [done|by left].
  - destruct IH as (stale & Hs & Hd). exists (c :: stale). split; [cbn; by rewrite <- Hs|done].
  - exists []. split; [done|]. right. by exists Idle, s.
  - exists []. split; [done|]. right. by exists Cancel, s.
Qed.

Lemma sublist_backspace chars l : sublist chars l -> sublist (backspace chars) l.
Proof.
  intros Hs. etrans; [|exact Hs]. unfold backspace. clear Hs. induction chars as [|c [|d r] IH]; [done|by constructor|].
  change (removelast (c :: d :: r)) with (c :: removelast (d :: r)). apply sublist_skip, IH.
Qed.

(** A line that is read: an Enter was pressed, and the characters were typed before
    it, in their order, after those there were. *)
Lemma edit_typed chars before e q s answer :
  sublist chars before -> edit chars e q s = Some (Ok answer) ->
  exists s1 c s2, s = s1 ++ Key c :: s2 /\ (c = 0x0D \/ c = 0x0A) /\ sublist answer (before ++ keys s1).
Proof.
  revert chars before e q. induction s as [|t s IH]; intros chars before e q Hs; [done|].
  assert (forall chars' e' q', sublist chars' (before ++ keys [t]) ->
    edit chars' e' q' s = Some (Ok answer) ->
    exists s1 c s2, t :: s = s1 ++ Key c :: s2 /\ (c = 0x0D \/ c = 0x0A) /\ sublist answer (before ++ keys s1)) as Hgo.
  { intros chars' e' q' Hs' Hed. destruct (IH chars' _ e' q' Hs' Hed) as (s1 & c & s2 & -> & Hcr & Hsub).
    exists (t :: s1), c, s2. split; [done|]. split; [done|]. rewrite <- app_assoc in Hsub. by destruct t. }
  assert (forall chars', sublist chars' before -> sublist chars' (before ++ keys [t])) as Hold
    by (intros; by apply sublist_inserts_r).
  destruct t as [c| |]; cbn [edit].
  - destruct e; [by apply Hgo, Hold|]. destruct (c =? 3); [done|].
    destruct ((c =? 0) || (c =? 224)); [by apply Hgo, Hold|].
    destruct ((c =? 13) || (c =? 10)) eqn:Hcr.
    { intros [= <-]. exists [], c, s. split; [done|]. split; [|by rewrite app_nil_r].
      apply orb_true_iff in Hcr as [H|H]; apply Z.eqb_eq in H; auto. }
    destruct (c =? 8); [by apply Hgo, Hold, sublist_backspace|].
    destruct (isprintable c); apply Hgo; [by apply sublist_app|by apply Hold].
  - destruct (negb e && q); [done|]. by apply Hgo, Hold.
  - destruct e; [|done]. by apply Hgo, Hold.
Qed.

(** Plain characters are read as they are typed, whatever the pauses. *)
Definition plain (c : Z) : bool :=
  isprintable c && negb (c =? 0xE0).

Lemma plain_not_control c : plain c = true -> 32 <= c /\ c <> 0xE0.
Proof.
  unfold plain, isprintable. intros [Hp Hn]%andb_true_iff. apply negb_true_iff, Z.eqb_neq in Hn. split; [|done].
  destruct (Z.ltb_spec c 128); [|lia]. apply andb_true_iff in Hp as [Hp%Z.leb_le _]. lia.
Qed.

Lemma edit_plain chars s r :
  Cancel ∉ s -> forallb plain (keys s) = true ->
  edit chars false false (s ++ Key 0x0D :: r) = Some (Ok (chars ++ keys s)).
Proof.
  revert chars. induction s as [|[c| |] s IH]; intros chars Hn Hp.
  - cbn. by rewrite app_nil_r.
  - apply not_elem_of_cons in Hn as [_ Hn]. cbn in Hp. apply andb_true_iff in Hp as [Hc Hp].
    pose proof (plain_not_control c Hc) as [H32 He0]. cbn [app edit].
    destruct (Z.eqb_spec c 3); [lia|]. destruct (Z.eqb_spec c 0); [lia|]. destruct (Z.eqb_spec c 224); [lia|].
    destruct (Z.eqb_spec c 13); [lia|]. destruct (Z.eqb_spec c 10); [lia|]. destruct (Z.eqb_spec c 8); [lia|].
    cbn [orb]. apply andb_true_iff in Hc as [-> _]. rewrite IH by done. cbn. by rewrite <- app_assoc.
  - apply not_elem_of_cons in Hn as [_ Hn]. cbn [app edit negb andb]. by apply IH.
  - apply not_elem_of_cons in Hn as [Hn _]. done.
Qed.

Lemma confirm_fresh interactive s :
  _confirm_numeric_comparison interactive s = Some (Ok true) ->
  interactive = true /\
  exists stale t fresh c rest answer,
    s = map Key stale ++ t :: fresh ++ Key c :: rest /\ (forall k, t <> Key k) /\
    (c = 0x0D \/ c = 0x0A) /\ sublist answer (keys fresh) /\ is_yes answer = true.
Proof.
  unfold _confirm_numeric_comparison, read_console_line. destruct interactive; [cbn [negb]|done]. split; [done|].
  destruct (edit [] false false (discard s)) as [[answer|x]|] eqn:He; try done. injection H as Hy.
  apply (edit_typed [] []) in He as (s1 & c & s2 & Hd & Hc & Hs); [|done].
  destruct (discard_split s) as (stale & Hst & Hhead). rewrite Hd in Hst, Hhead.
  destruct Hhead as [Hnil|(t & r & Heq & Hk)]; [by destruct s1|].
  destruct s1 as [|t' s1]; cbn in Heq; injection Heq as Ht _; [by destruct (Hk c)|]. subst t'.
  exists stale, t, s1, c, s2, answer. split; [done|]. split; [done|]. split; [done|]. split; [|done].
  by destruct t as [k| |]; [destruct (Hk k)|..].
Qed.

Lemma confirm_yes stale s rest :
  Cancel ∉ s -> keys s = text "yes" ->
  _confirm_numeric_comparison true (map Key stale ++ Idle :: s ++ Key 0x0D :: rest) = Some (Ok true).
Proof.
  intros Hn Hk. unfold _confirm_numeric_comparison, read_console_line. cbn [negb].
  assert (discard (map Key stale ++ Idle :: s ++ Key 0x0D :: rest) = Idle :: s ++ Key 0x0D :: rest) as ->
    by by induction stale.
  cbn [edit negb andb]. rewrite edit_plain by (rewrite ?Hk; done). by rewrite Hk.
Qed.

(** C15. Consent is typed after the question. When the Numeric Comparison is
    confirmed, the input is an interactive terminal, the keys that were waiting
    when the prompt appeared were thrown away, and after them came a poll with no
    key, the characters, in their order, of an answer that is "y" or "yes" up to
    case and surrounding space, and an Enter: no key of an earlier ceremony, no
    cancellation and no redirected input confirms anything. And a "yes" typed
    with any pauses does confirm. *)
Theorem consent_typed_after_prompt :
  (forall interactive s, _confirm_numeric_comparison interactive s = Some (Ok true) ->
     interactive = true /\
     exists stale t fresh c rest answer,
       s = map Key stale ++ t :: fresh ++ Key c :: rest /\ (forall k, t <> Key k) /\
       (c = 0x0D \/ c = 0x0A) /\ sublist answer (keys fresh) /\ is_yes answer = true) /\
  (forall stale s rest, Cancel ∉ s -> keys s = text "yes" ->
     _confirm_numeric_comparison true (map Key stale ++ Idle :: s ++ Key 0x0D :: rest) = Some (Ok true)).
Proof. split; [apply confirm_fresh|apply confirm_yes]. Qed.
End Console.

(** A "yes" and Enter that were already waiting, and then a hesitant one. *)
Definition hesitant : list tick :=
  map Key (text "yes" ++ [0x0D]) ++ Idle :: [Key 121; Idle; Idle; Key 101; Key 115] ++ [Key 0x0D].

Lemma consent_typed_after_prompt_witness :
  _confirm_numeric_comparison (fun _ => false) (fun _ => false) true (map Key (text "yes" ++ [0x0D])) = None /\
  _confirm_numeric_comparison (fun _ => false) (fun _ => false) true hesitant = Some (Ok true).
Proof.
  split; [reflexivity|].
  apply (proj2 (consent_typed_after_prompt (fun _ => false) (fun _ => false)) (text "yes" ++ [0x0D])
           [Key 121; Idle; Idle; Key 101; Key 115] []); [|reflexivity].
  intros Hc. repeat (apply elem_of_cons in Hc as [Hc|Hc]; [discriminate Hc|]). by apply elem_of_nil in Hc.
Defined.

(** * The device *)

(** What Windows says of a device. *)
Record device_information := mkDeviceInformation {
  info_id : string;
  info_is_paired : bool;
  info_can_pair : bool;
  info_protection : string;
}.

Section Device.
(** [DeviceInformation.create_from_id_async]. *)
Variable create_from_id : string -> result (option device_information).

(** The object is [client._v1_device_id]; the argument is the id of the connected
    requester, when the backend has one. *)
Definition _device_information (requester : option string) : method (option string) device_information :=
  (match requester with Some device_id => update (fun _ => Some device_id) | None => mret tt end);;
  device_id ← get_self;
  match device_id with
  | None | Some EmptyString => raise (PairingError "cannot resolve the connected Bleak WinRT device identity")
  | Some device_id =>
      info ← run (create_from_id device_id);
      match info with
      | Some i =>
          if bool_decide (info_id i = device_id) then mret i
          else raise (PairingError "Windows returned no matching DeviceInformation")
      | None => raise (PairingError "Windows returned no matching DeviceInformation")
      end
  end.

Definition inspect_pairing (requester : option string) : method (option string) PairingState :=
  info ← _device_information requester;
  mret (mkPairingState (info_is_paired info) (info_can_pair info) (info_protection info)).

(** The state of another device is never reported: the information is that of the
    connected requester, or after a disconnection of the last one. *)
Lemma device_information_same requester retained i retained' :
  _device_information requester retained = (Ok i, retained') ->
  retained' = match requester with Some d => Some d | None => retained end /\
  retained' = Some (info_id i) /\ create_from_id (info_id i) = Ok (Some i).
Proof.
  unfold _device_information. destruct requester as [d|]; meth.
  - destruct d as [|a d]; [done|]. destruct (create_from_id _) as [[j|]|x] eqn:Hc; try done.
    case_bool_decide as Hj; [|done]. intros [= <- <-]. by rewrite Hj.
  - destruct retained as [[|a d]|]; [done| |done]. destruct (create_from_id _) as [[j|]|x] eqn:Hc; try done.
    case_bool_decide as Hj; [|done]. intros [= <- <-]. by rewrite Hj.
Qed.
End Device.
