(* ===== verification/Measurement.v ===== *)
(** src/src/central/measurement.py: the recorder, the hooks the runners and the
    client call, and that they observe without changing anything. The other files
    translate the code they are called from without them. *)

From S2P Require Import Prelude Py.
Open Scope Z_scope.

(** * The recorder *)

(** A row of [gatt_operations]: a dict that is appended when the operation starts
    and filled in when it ends. *)
Record gatt_row := mkGattRow {
  operation : string;
  characteristic : string;
  start_ns : Z;
  end_ns : option Z;
  success : bool;
  value_bytes : option Z;
}.

Record phase_timing := mkPhaseTiming {
  phase_name : string;
  phase_start_ns : Z;
  phase_end_ns : Z;
  complete : bool;
}.

Record Recorder := mkRecorder {
  origin_ns : Z;
  events : list (string * Z);
  phase_timings : list phase_timing;
  gatt_operations : list gatt_row;
  mtu_observations : list (Z * Z);
  observed_scenario : option string;
}.

Definition add_event (e : string * Z) (r : Recorder) : Recorder :=
  mkRecorder (origin_ns r) (events r ++ [e]) (phase_timings r) (gatt_operations r) (mtu_observations r)
    (observed_scenario r).

Definition add_phase (p : phase_timing) (r : Recorder) : Recorder :=
  mkRecorder (origin_ns r) (events r) (phase_timings r ++ [p]) (gatt_operations r) (mtu_observations r)
    (observed_scenario r).

Definition set_rows (f : list gatt_row -> list gatt_row) (r : Recorder) : Recorder :=
  mkRecorder (origin_ns r) (events r) (phase_timings r) (f (gatt_operations r)) (mtu_observations r)
    (observed_scenario r).

Definition add_mtu (m : Z * Z) (r : Recorder) : Recorder :=
  mkRecorder (origin_ns r) (events r) (phase_timings r) (gatt_operations r) (mtu_observations r ++ [m])
    (observed_scenario r).

Definition set_scenario (v : string) (r : Recorder) : Recorder :=
  mkRecorder (origin_ns r) (events r) (phase_timings r) (gatt_operations r) (mtu_observations r) (Some v).

(** * The state the hooks see *)

(** The program's own state, the recorders that were made (a reference is a
    position), the context variable [_active], and how often the clock was read. *)
Record measured (W : Type) := mkMeasured {
  program : W;
  recorders : list Recorder;
  active : option nat;
  readings : nat;
}.
Arguments mkMeasured {W}.
Arguments program {W}.
Arguments recorders {W}.
Arguments active {W}.
Arguments readings {W}.

Section Hooks.
Context {W : Type}.
(** What the clock says when it is read for the n-th time. *)
Variable clock : nat -> Z.
(** [getattr(client, "mtu_size", None)]. *)
Variable mtu_size : W -> option Z.

Local Abbreviation hook := (method (measured W)).

(** A step of the program itself. *)
Definition step {A} (p : method W A) : hook A :=
  fun s => let (r, w) := p (program s) in (r, mkMeasured w (recorders s) (active s) (readings s)).

Definition read_clock : hook Z :=
  fun s => (Ok (clock (readings s)), mkMeasured (program s) (recorders s) (active s) (S (readings s))).

(** Changes the recorder [i] refers to. *)
Definition record (i : nat) (f : Recorder -> Recorder) : hook unit :=
  update (fun s => mkMeasured (program s) (alter f i (recorders s)) (active s) (readings s)).

Definition set_active (i : option nat) : hook unit :=
  update (fun s => mkMeasured (program s) (recorders s) i (readings s)).

Definition get_active : hook (option nat) := s ← get_self; mret (active s).

(** [Recorder()]: a reference to a new one. *)
Definition Recorder_init : hook nat :=
  origin ← read_clock;
  s ← get_self;
  update (fun s => mkMeasured (program s) (recorders s ++ [mkRecorder origin [] [] [] [] None])
                     (active s) (readings s));;
  mret (length (recorders s)).

Definition now (i : nat) : hook Z :=
  t ← read_clock;
  s ← get_self;
  mret (t - from_option origin_ns 0 (recorders s !! i)).

Definition Recorder_mark (i : nat) (name : string) : hook unit :=
  t ← now i;
  record i (add_event (name, t)).

Definition activate {A} (i : nat) (m : hook A) : hook A :=
  token ← get_active;
  set_active (Some i);;
  try_finally (set_active token) m.

(** * The hooks *)

Definition mark (name : string) : hook unit :=
  recorder ← get_active;
  match recorder with
  | Some i => Recorder_mark i name
  | None => mret tt
  end.

Definition scenario (value : string) : hook unit :=
  recorder ← get_active;
  match recorder with
  | Some i => record i (set_scenario value)
  | None => mret tt
  end.

Definition mtu (value : Z) : hook unit :=
  recorder ← get_active;
  match recorder with
  | Some i => t ← now i; record i (add_mtu (t, value))
  | None => mret tt
  end.

Definition observe_mtu : hook unit :=
  recorder ← get_active;
  match recorder with
  | Some _ =>
      s ← get_self;
      match mtu_size (program s) with
      | Some value => mtu value
      | None => mret tt
      end
  | None => mret tt
  end.

(** [try: result = m; finally: ...], for a block that looks at how [m] ended. *)
Definition attempt {A} (m : hook A) : hook (result A) := fun s => let (r, t) := m s in (Ok r, t).

Definition succeeded {A} (r : result A) : bool := match r with Ok _ => true | Err _ => false end.

(** [with phase(name): m]. [complete] is set when the block is left without an
    exception. *)
Definition phase {A} (name : string) (m : hook A) : hook A :=
  recorder ← get_active;
  match recorder with
  | Some i =>
      start ← now i;
      outcome ← attempt m;
      end_ ← now i;
      record i (add_phase (mkPhaseTiming name start end_ (succeeded outcome)));;
      run outcome
  | None => m
  end.

(** The changes to the row: [row["value_bytes"] = len(result)] of a read, with
    [row["success"] = True], and [row["end_ns"] = now()]. *)
Definition succeed (operation_name : string) (size : Z) (r : gatt_row) : gatt_row :=
  mkGattRow (operation r) (characteristic r) (start_ns r) (end_ns r) true
    (if bool_decide (operation_name = "read"%string) then Some size else value_bytes r).

Definition end_row (t : Z) (r : gatt_row) : gatt_row :=
  mkGattRow (operation r) (characteristic r) (start_ns r) (Some t) (success r) (value_bytes r).

(** [len] is the size of a result, which only reads have. *)
Definition io {A} (len : A -> Z) (operation_name characteristic_uuid : string) (awaitable : hook A)
  (size : option Z) : hook A :=
  recorder ← get_active;
  match recorder with
  | None => awaitable
  | Some i =>
      start ← now i;
      s ← get_self;
      let row := length (from_option gatt_operations [] (recorders s !! i)) in
      record i (set_rows (fun l => l ++ [mkGattRow operation_name characteristic_uuid start None false size]));;
      try_finally
        (t ← now i; record i (set_rows (alter (end_row t) row)))
        (result ← awaitable;
         record i (set_rows (alter (succeed operation_name (len result)) row));;
         mret result)
  end.

(** The callback that is registered; the recorder is the one of the context in
    which it is made. The synchronous and the asynchronous wrapper are one here. *)
Definition notification_callback {X} (callback : X -> bytes -> hook unit) : hook (X -> bytes -> hook unit) :=
  recorder ← get_active;
  match recorder with
  | None => mret callback
  | Some i =>
      mret (fun sender data =>
        t ← now i;
        record i (set_rows (fun l => l ++ [mkGattRow "notification" "data" t (Some t) true (Some (blen data))]));;
        callback sender data)
  end.

Definition bind_async {X A} (callback : X -> hook A) : hook (X -> hook A) :=
  recorder ← get_active;
  match recorder with
  | None => mret callback
  | Some i => mret (fun args => activate i (callback args))
  end.

(** * Programs with hooks *)

(** A coroutine of the Central as it is written: its own steps, the exceptions it
    catches, and hooks. *)
Inductive hooked : Type -> Type :=
  | Step {A} (p : method W A) : hooked A
  | Bind {A B} (m : hooked A) (k : A -> hooked B) : hooked B
  | Except {A} (catches : exn -> bool) (handler : exn -> hooked A) (m : hooked A) : hooked A
  | Finally {A} (cleanup : hooked unit) (m : hooked A) : hooked A
  | Mark (name : string) : hooked unit
  | Scenario (value : string) : hooked unit
  | Mtu (value : Z) : hooked unit
  | ObserveMtu : hooked unit
  | Phase {A} (name : string) (m : hooked A) : hooked A
  | Io {A} (len : A -> Z) (operation_name characteristic_uuid : string) (m : hooked A) (size : option Z)
    : hooked A.

(** The program as it is run. *)
Fixpoint perform {A} (m : hooked A) : hook A :=
  match m with
  | Step p => step p
  | Bind m k => a ← perform m; perform (k a)
  | Except catches handler m => try_except catches (fun x => perform (handler x)) (perform m)
  | Finally cleanup m => try_finally (perform cleanup) (perform m)
  | Mark name => mark name
  | Scenario value => scenario value
  | Mtu value => mtu value
  | ObserveMtu => observe_mtu
  | Phase name m => phase name (perform m)
  | Io len o c m size => io len o c (perform m) size
  end.

(** The program without its hooks. *)
Fixpoint erase {A} (m : hooked A) : method W A :=
  match m with
  | Step p => p
  | Bind m k => a ← erase m; erase (k a)
  | Except catches handler m => try_except catches (fun x => erase (handler x)) (erase m)
  | Finally cleanup m => try_finally (erase cleanup) (erase m)
  | Mark _ | Scenario _ | Mtu _ | ObserveMtu => mret tt
  | Phase _ m => erase m
  | Io _ _ _ m _ => erase m
  end.

(** * What a recorder keeps *)

Definition ended (w : gatt_row) : Prop := is_Some (end_ns w).

(** The recorder only grew; [rows] says how its operations did. *)
Definition grew (rows : relation (list gatt_row)) (r r' : Recorder) : Prop :=
  origin_ns r' = origin_ns r /\
  events r `prefix_of` events r' /\
  phase_timings r `prefix_of` phase_timings r' /\
  mtu_observations r `prefix_of` mtu_observations r' /\
  rows (gatt_operations r) (gatt_operations r').

(** Rows were added, and every one of them has ended. *)
Definition all_ended (l l' : list gatt_row) : Prop := exists new, l' = l ++ new /\ Forall ended new.

(** So they were, but the first of them may go on. *)
Definition one_open (l l' : list gatt_row) : Prop := exists w new, l' = l ++ w :: new /\ Forall ended new.

Definition grown : relation Recorder := grew all_ended.

(** Every recorder of a store is still there; that of [i] is related by [P], the
    others grew. *)
Definition kept_at (i : nat) (P : relation Recorder) (l l' : list Recorder) : Prop :=
  forall j r, l !! j = Some r -> exists r', l' !! j = Some r' /\ if decide (j = i) then P r r' else grown r r'.

Definition all_grown (l l' : list Recorder) : Prop :=
  forall j r, l !! j = Some r -> exists r', l' !! j = Some r' /\ grown r r'.

(** The hooked [m] does what [p] does, and the recorders only grow. *)
Class Observes {A} (m : hook A) (p : method W A) : Prop :=
  observes s : let (r, s') := m s in
    p (program s) = (r, program s') /\ active s' = active s /\ all_grown (recorders s) (recorders s').

(** With no recorder active, [m] is [p], and nothing else happens. *)
Class Inert {A} (m : hook A) (p : method W A) : Prop :=
  inert s : active s = None -> m s = step p s.

Lemma grew_weaken (rows rows' : relation (list gatt_row)) r r' :
  grew rows r r' -> (forall l l', rows l l' -> rows' l l') -> grew rows' r r'.
Proof. intros (H1 & H2 & H3 & H4 & H5) Hr. repeat split; auto. Qed.

Lemma grew_trans (rows1 rows2 rows : relation (list gatt_row)) r1 r2 r3 :
  (forall l1 l2 l3, rows1 l1 l2 -> rows2 l2 l3 -> rows l1 l3) ->
  grew rows1 r1 r2 -> grew rows2 r2 r3 -> grew rows r1 r3.
Proof.
  intros H (H1 & H2 & H3 & H4 & H5) (K1 & K2 & K3 & K4 & K5).
  split; [congruence|]. repeat split; [by etrans|by etrans|by etrans|by eapply H].
Qed.

#[export] Instance all_ended_preorder : PreOrder all_ended.
Proof.
  split.
  - intros l. exists []. by rewrite app_nil_r.
  - intros l1 l2 l3 (n1 & -> & H1) (n2 & -> & H2). exists (n1 ++ n2).
    rewrite <- app_assoc. split; [done|by apply Forall_app].
Qed.

Lemma one_open_then l1 l2 l3 : one_open l1 l2 -> all_ended l2 l3 -> one_open l1 l3.
Proof.
  intros (w & n1 & -> & H1) (n2 & -> & H2). exists w, (n1 ++ n2). rewrite <- app_assoc.
  split; [done|by apply Forall_app].
Qed.

#[export] Instance grown_preorder : PreOrder grown.
Proof.
  split.
  - intros r. repeat split; done.
  - intros r1 r2 r3. apply grew_trans. intros l1 l2 l3. apply transitivity.
Qed.

#[export] Instance all_grown_preorder : PreOrder all_grown.
Proof.
  split.
  - intros l j r Hj. by exists r.
  - intros l1 l2 l3 H1 H2 j r Hj. destruct (H1 j r Hj) as (r2 & Hj2 & Hr).
    destruct (H2 j r2 Hj2) as (r3 & Hj3 & Hr'). exists r3. split; [done|by etrans].
Qed.

(** Changing one recorder of a store. *)
Lemma kept_alter i (P Q : relation Recorder) f l l' :
  kept_at i P l l' -> (forall r r', P r r' -> Q r (f r')) -> kept_at i Q l (alter f i l').
Proof.
  intros Hk Hf j r Hj. destruct (Hk j r Hj) as (r' & Hj' & Hr). revert Hr.
  destruct (decide (j = i)) as [->|Hne]; intros Hr.
  - exists (f r'). rewrite list_lookup_alter_eq, Hj'. cbn. auto.
  - exists r'. by rewrite list_lookup_alter_ne by done.
Qed.

Lemma kept_at_grown i l l' : kept_at i grown l l' <-> all_grown l l'.
Proof.
  split; intros H j r Hj; destruct (H j r Hj) as (r' & Hj' & Hr); exists r'; split; try done;
    revert Hr; by destruct (decide (j = i)).
Qed.

Lemma kept_at_then i (P Q : relation Recorder) l1 l2 l3 :
  (forall r1 r2 r3, P r1 r2 -> grown r2 r3 -> Q r1 r3) ->
  kept_at i P l1 l2 -> all_grown l2 l3 -> kept_at i Q l1 l3.
Proof.
  intros HP H1 H2 j r Hj. destruct (H1 j r Hj) as (r2 & Hj2 & Hr).
  destruct (H2 j r2 Hj2) as (r3 & Hj3 & Hr3). exists r3. split; [done|].
  revert Hr. destruct (decide (j = i)); intros Hr; [by eapply HP|by etrans].
Qed.

Lemma alter_grown i f l : (forall r, grown r (f r)) -> all_grown l (alter f i l).
Proof.
  intros Hf. apply (kept_at_grown i). apply (kept_alter i eq); [|by intros r ? <-].
  intros j r Hj. exists r. split; [done|]. by destruct (decide (j = i)).
Qed.

(** ** The changes the hooks make *)

Lemma grown_event e r : grown r (add_event e r).
Proof. repeat split; try done. by apply prefix_app_r. Qed.

Lemma grown_phase p r : grown r (add_phase p r).
Proof. repeat split; try done. by apply prefix_app_r. Qed.

Lemma grown_mtu m r : grown r (add_mtu m r).
Proof. repeat split; try done. by apply prefix_app_r. Qed.

Lemma grown_scenario v r : grown r (set_scenario v r).
Proof. repeat split; done. Qed.

Lemma grown_row w r : ended w -> grown r (set_rows (fun l => l ++ [w]) r).
Proof. intros Hw. repeat split; try done. exists [w]. split; [done|by constructor]. Qed.

Lemma open_row w r : grew one_open r (set_rows (fun l => l ++ [w]) r).
Proof. repeat split; try done. by exists w, []. Qed.

(** The open row is the one after those there were. *)
Lemma change_open f l l' : one_open l l' -> one_open l (alter f (length l) l').
Proof.
  intros (w & new & -> & Hn). exists (f w), new. split; [|done].
  rewrite alter_app_r_alt, Nat.sub_diag by lia. done.
Qed.

Lemma close_open f l l' : (forall w, ended (f w)) -> one_open l l' -> all_ended l (alter f (length l) l').
Proof.
  intros Hf (w & new & -> & Hn). exists (f w :: new).
  rewrite alter_app_r_alt, Nat.sub_diag by lia. split; [done|by constructor].
Qed.

(** ** Steps and control *)

(** A hook that only records: it returns, and leaves the program alone. *)
Definition records {A} (m : hook A) : Prop := forall s,
  exists a s', m s = (Ok a, s') /\ program s' = program s /\ active s' = active s /\
    all_grown (recorders s) (recorders s').

Lemma records_observes (m : hook unit) : records m -> Observes m (mret tt).
Proof. intros Hm s. destruct (Hm s) as ([] & s' & -> & -> & Ha & Hg). by split_and!. Qed.

#[export] Instance observes_step {A} (p : method W A) : Observes (step p) p.
Proof. intros s. unfold step. by destruct (p (program s)). Qed.

#[export] Instance observes_bind {A B} (m : hook A) p (k : A -> hook B) q :
  Observes m p -> (forall a, Observes (k a) (q a)) -> Observes (a ← m; k a) (a ← p; q a).
Proof.
  intros Hm Hk s. specialize (Hm s). unfold mbind, method_bind. destruct (m s) as [[a|x] s1].
  - destruct Hm as (-> & Ha & Hg). specialize (Hk a s1). destruct (k a s1) as [r s2].
    destruct Hk as (-> & -> & Hg'). split_and!; [done|done|by etrans].
  - by destruct Hm as (-> & Ha & Hg).
Qed.

#[export] Instance observes_except {A} catches (handler : exn -> hook A) h m p :
  Observes m p -> (forall x, Observes (handler x) (h x)) -> Observes (try_except catches handler m) (try_except catches h p).
Proof.
  intros Hm Hh s. specialize (Hm s). unfold try_except. destruct (m s) as [[a|x] s1].
  - by destruct Hm as (-> & Ha & Hg).
  - destruct Hm as (-> & Ha & Hg). destruct (catches x); [|done].
    specialize (Hh x s1). destruct (handler x s1) as [r s2].
    destruct Hh as (-> & -> & Hg'). split_and!; [done|done|by etrans].
Qed.

#[export] Instance observes_finally {A} cleanup c (m : hook A) p :
  Observes cleanup c -> Observes m p -> Observes (try_finally cleanup m) (try_finally c p).
Proof.
  intros Hc Hm s. specialize (Hm s). unfold try_finally. destruct (m s) as [r s1].
  destruct Hm as (-> & Ha & Hg). specialize (Hc s1). destruct (cleanup s1) as [[u|x] s2];
    destruct Hc as (-> & -> & Hg'); split_and!; try done; by etrans.
Qed.

(** ** The hooks *)

Lemma records_bind {A B} (m : hook A) (k : A -> hook B) :
  records m -> (forall a, records (k a)) -> records (a ← m; k a).
Proof.
  intros Hm Hk s. destruct (Hm s) as (a & s1 & Hs & Hp & Ha & Hg).
  destruct (Hk a s1) as (b & s2 & Hs' & Hp' & Ha' & Hg'). exists b, s2. unfold mbind, method_bind. rewrite Hs.
  split_and!; [done|congruence|congruence|by etrans].
Qed.

Lemma records_now i : records (now i).
Proof. intros s. by eexists _, _. Qed.

Lemma records_record i f : (forall r, grown r (f r)) -> records (record i f).
Proof. intros Hf s. eexists _, _. split_and!; [done..|]. by apply alter_grown. Qed.

(** What a hook does to the recorder that is active. *)
Lemma records_active (h : nat -> hook unit) :
  (forall i, records (h i)) ->
  records (recorder ← get_active; match recorder with Some i => h i | None => mret tt end).
Proof.
  intros Hh s. assert (forall o, records (match o with Some i => h i | None => mret tt end)) as Ho.
  { intros [i|]; [apply Hh|]. intros t. by eexists _, _. }
  exact (Ho (active s) s).
Qed.

Lemma records_mark name : records (mark name).
Proof.
  apply records_active. intros i. apply records_bind; [apply records_now|]. intros t.
  apply records_record. intros r. apply grown_event.
Qed.

Lemma records_scenario v : records (scenario v).
Proof. apply records_active. intros i. apply records_record. intros r. apply grown_scenario. Qed.

Lemma records_mtu v : records (mtu v).
Proof.
  apply records_active. intros i. apply records_bind; [apply records_now|]. intros t.
  apply records_record. intros r. apply grown_mtu.
Qed.

Lemma records_observe_mtu : records observe_mtu.
Proof.
  apply (records_active (fun _ => s ← get_self; match mtu_size (program s) with
                                                | Some value => mtu value | None => mret tt end)).
  intros _ s. assert (forall o, records (match o with Some value => mtu value | None => mret tt end)) as Ho.
  { intros [v|]; [apply records_mtu|]. intros t. by eexists _, _. }
  exact (Ho (mtu_size (program s)) s).
Qed.

Lemma observes_active {A} (h : nat -> hook A) m p :
  Observes m p -> (forall i, Observes (h i) p) ->
  Observes (recorder ← get_active; match recorder with Some i => h i | None => m end) p.
Proof.
  intros Hm Hh s. assert (forall o, Observes (match o with Some i => h i | None => m end) p) as Ho by by intros [i|].
  exact (Ho (active s) s).
Qed.

(** Recording before a computation, and after it. *)
Lemma observes_after {A B} (m : hook A) (k : A -> hook B) p :
  records m -> (forall a, Observes (k a) p) -> Observes (a ← m; k a) p.
Proof.
  intros Hm Hk s. destruct (Hm s) as (a & s1 & Hs & Hp & Ha & Hg). unfold mbind, method_bind. rewrite Hs.
  specialize (Hk a s1). destruct (k a s1) as [r s2]. rewrite Hp, Ha in Hk. destruct Hk as (-> & -> & Hg').
  split_and!; [done|done|by etrans].
Qed.

Lemma observes_attempt {A} (m : hook A) (k : result A -> hook A) p :
  Observes m p ->
  (forall r s, exists s', k r s = (r, s') /\ program s' = program s /\ active s' = active s /\
     all_grown (recorders s) (recorders s')) ->
  Observes (outcome ← attempt m; k outcome) p.
Proof.
  intros Hm Hk s. unfold attempt, mbind, method_bind. specialize (Hm s). destruct (m s) as [r s1].
  destruct Hm as (-> & Ha & Hg). destruct (Hk r s1) as (s2 & -> & Hp' & Ha' & Hg').
  split_and!; [congruence|congruence|by etrans].
Qed.

#[export] Instance observes_phase {A} name (m : hook A) p : Observes m p -> Observes (phase name m) p.
Proof.
  intros Hm. apply observes_active; [done|]. intros i. apply observes_after; [apply records_now|]. intros start.
  apply observes_attempt; [done|]. intros r s. eexists. split_and!; [reflexivity|done..|].
  apply alter_grown. intros R. apply grown_phase.
Qed.

(** The store while the operation of row [length (gatt_operations r)] goes on. *)
Definition pending (n : nat) (r r' : Recorder) : Prop :=
  n = length (gatt_operations r) /\ grew one_open r r'.

Lemma pending_then n r1 r2 r3 : pending n r1 r2 -> grown r2 r3 -> pending n r1 r3.
Proof. intros [Hn H1] H2. split; [done|]. revert H1 H2. apply grew_trans. apply one_open_then. Qed.

Lemma pending_change n f r r' : pending n r r' -> pending n r (set_rows (alter f n) r').
Proof.
  intros [-> (H1 & H2 & H3 & H4 & H5)]. split; [done|]. repeat split; try done. by apply change_open.
Qed.

Lemma pending_close n f r r' :
  (forall w, ended (f w)) -> pending n r r' -> grown r (set_rows (alter f n) r').
Proof.
  intros Hf [-> (H1 & H2 & H3 & H4 & H5)]. repeat split; try done. by apply close_open.
Qed.

Lemma pending_start i l w :
  kept_at i (pending (length (from_option gatt_operations [] (l !! i)))) l (alter (set_rows (fun rows => rows ++ [w])) i l).
Proof.
  intros j r Hj. destruct (decide (j = i)) as [->|Hne].
  - rewrite list_lookup_alter_eq, Hj. eexists. split; [done|]. split; [done|]. apply open_row.
  - rewrite list_lookup_alter_ne by done. by exists r.
Qed.

#[export] Instance observes_io {A} (len : A -> Z) o c (m : hook A) size p :
  Observes m p -> Observes (io len o c m size) p.
Proof.
  intros Hm. apply observes_active; [done|]. intros i. apply observes_after; [apply records_now|]. intros start s.
  pose proof (pending_start i (recorders s) (mkGattRow o c start None false size)) as Hs.
  set (n := length _) in Hs. set (s0 := mkMeasured (program s) (alter (set_rows (fun l => l ++ [mkGattRow o c start None false size])) i (recorders s)) (active s) (readings s)).
  unfold try_finally. meth. fold n. specialize (Hm s0). unfold record. meth. fold s0.
  destruct (m s0) as [r s1]. destruct Hm as (Hr & Ha & Hg).
  pose proof (kept_at_then i _ _ _ _ _ (pending_then n) Hs Hg) as Hk. destruct r as [a|x]; cbn.
  - split_and!; [done|done|]. apply (kept_at_grown i). eapply kept_alter; [|intros ? ?; apply pending_close; by eexists].
    eapply kept_alter; [exact Hk|intros ? ?; apply pending_change].
  - split_and!; [done|done|]. apply (kept_at_grown i).
    eapply kept_alter; [exact Hk|intros ? ?; apply pending_close; by eexists].
Qed.

#[export] Instance observes_activate {A} i (m : hook A) p : Observes m p -> Observes (activate i m) p.
Proof.
  intros Hm s. unfold activate, get_active, set_active, try_finally. meth.
  specialize (Hm (mkMeasured (program s) (recorders s) (Some i) (readings s))). destruct (m _) as [r s1].
  destruct Hm as (Hr & Ha & Hg). by split_and!.
Qed.

(** ** With no recorder *)

#[export] Instance inert_bind {A B} (m : hook A) p (k : A -> hook B) q :
  Inert m p -> (forall a, Inert (k a) (q a)) -> Inert (a ← m; k a) (a ← p; q a).
Proof.
  intros Hm Hk s Hs. specialize (Hm s Hs). unfold step, mbind, method_bind in *. rewrite Hm.
  destruct (p (program s)) as [[a|x] w]; [|done]. by apply Hk.
Qed.

#[export] Instance inert_except {A} catches (handler : exn -> hook A) h m p :
  Inert m p -> (forall x, Inert (handler x) (h x)) -> Inert (try_except catches handler m) (try_except catches h p).
Proof.
  intros Hm Hh s Hs. specialize (Hm s Hs). unfold step, try_except in *. rewrite Hm.
  destruct (p (program s)) as [[a|x] w]; [done|]. destruct (catches x); [|done]. by apply Hh.
Qed.

#[export] Instance inert_finally {A} cleanup c (m : hook A) p :
  Inert cleanup c -> Inert m p -> Inert (try_finally cleanup m) (try_finally c p).
Proof.
  intros Hc Hm s Hs. specialize (Hm s Hs). unfold step, try_finally in *. rewrite Hm.
  destruct (p (program s)) as [r w]. rewrite Hc by done. unfold step. cbn. by destruct (c w) as [[]].
Qed.

(** Every hook looks for the recorder first. *)
Lemma inert_active {A} (h : nat -> hook A) m p :
  Inert m p -> Inert (recorder ← get_active; match recorder with Some i => h i | None => m end) p.
Proof. intros Hm s Hs. unfold get_active. meth. rewrite Hs. by apply Hm. Qed.

Lemma inert_nothing : Inert (mret tt) (mret tt).
Proof. by intros []. Qed.

Lemma perform_observes {A} (m : hooked A) : Observes (perform m) (erase m).
Proof.
  induction m; cbn [perform erase]; try apply _; apply records_observes.
  - apply records_mark.
  - apply records_scenario.
  - apply records_mtu.
  - apply records_observe_mtu.
Qed.

Lemma perform_inert {A} (m : hooked A) : Inert (perform m) (erase m).
Proof.
  induction m; cbn [perform erase]; try apply _; try (by apply inert_active); try apply (inert_active _ _ _ inert_nothing).
  by intros s.
Qed.

(** A callback that is registered does what it did, in whatever context it is called. *)
Lemma callback_observes {X} (callback : X -> bytes -> hook unit) (p : X -> bytes -> method W unit) s0 :
  (forall x d, Observes (callback x d) (p x d)) ->
  exists c, notification_callback callback s0 = (Ok c, s0) /\ forall x d, Observes (c x d) (p x d).
Proof.
  intros Hc. unfold notification_callback, get_active. meth. destruct (active s0) as [i|]; eexists; (split; [reflexivity|]).
  - intros x d. apply observes_after; [apply records_now|]. intros t. apply observes_after; [|done].
    apply records_record. intros R. apply grown_row. by exists t.
  - exact Hc.
Qed.

Lemma bind_async_observes {X A} (callback : X -> hook A) (p : X -> method W A) s0 :
  (forall x, Observes (callback x) (p x)) ->
  exists c, bind_async callback s0 = (Ok c, s0) /\ forall x, Observes (c x) (p x).
Proof.
  intros Hc. unfold bind_async, get_active. meth. destruct (active s0) as [i|]; eexists; (split; [reflexivity|]).
  - intros x. by apply observes_activate.
  - exact Hc.
Qed.

(** C34. Measuring changes nothing. A program with hooks anywhere in it returns or
    raises what it does without them and leaves its own state the same, whether a
    recorder is active or not, and the context as it found it. The recorders only
    grow: what was recorded stays, and every operation that was begun has ended,
    an exception or not. With no recorder active nothing is recorded, and the
    clock is not even read. A notification callback, wrapped in one context and
    called in any other, does what the callback itself does. *)
Theorem measurement_transparent :
  (forall A (m : hooked A) s,
     let (r, s') := perform m s in
     erase m (program s) = (r, program s') /\
     active s' = active s /\
     all_grown (recorders s) (recorders s') /\
     (active s = None -> recorders s' = recorders s /\ readings s' = readings s)) /\
  (forall X (callback : X -> bytes -> hooked unit) s0,
     exists c, notification_callback (fun x d => perform (callback x d)) s0 = (Ok c, s0) /\
       forall x d s,
         let (r, s') := c x d s in
         erase (callback x d) (program s) = (r, program s') /\
         active s' = active s /\ all_grown (recorders s) (recorders s')).
Proof.
  split.
  - intros A m s. pose proof (perform_observes m s) as Ho. pose proof (perform_inert m s) as Hi.
    destruct (perform m s) as [r s']. destruct Ho as (He & Ha & Hg). split_and!; try done.
    intros Hn. specialize (Hi Hn). unfold step in Hi. destruct (erase m (program s)) as [r0 w]. by injection Hi as -> ->.
  - intros X callback s0. destruct (callback_observes _ (fun x d => erase (callback x d)) s0
      (fun x d => perform_observes (callback x d))) as (c & Hc & Hobs). exists c. split; [done|]. exact Hobs.
Qed.
End Hooks.

(** A read inside a phase that raises, with a recorder: the program is the number
    of reads so far, and the clock ticks once a reading. *)
Definition demo_hooked : hooked (W := Z) bytes :=
  Phase "handshake" (Bind (Mark "start")
    (fun _ => Bind (Io blen "read" "sec_info" (Step (fun n => (Ok [x00; x01], n + 1))) None)
    (fun _ => Io blen "write" "control" (Step (fun n => (Err (BleakError "lost"), n + 1))) (Some 2)))).

Definition demo_measured : measured Z := mkMeasured 0 [mkRecorder 0 [] [] [] [] None] (Some 0%nat) 1.

Lemma measurement_transparent_witness :
  erase demo_hooked 0 = (Err (BleakError "lost"), 2) /\
  (perform Z.of_nat (fun _ => None) demo_hooked demo_measured).2 =
    mkMeasured 2
      [mkRecorder 0 [("start"%string, 2)] [mkPhaseTiming "handshake" 1 7 false]
         [mkGattRow "read" "sec_info" 3 (Some 4) true (Some 2); mkGattRow "write" "control" 5 (Some 6) false (Some 2)]
         [] None] (Some 0%nat) 8.
Proof.
  pose proof (proj1 (measurement_transparent Z.of_nat (fun _ => None)) bytes demo_hooked demo_measured) as H.
  destruct (perform Z.of_nat (fun _ => None) demo_hooked demo_measured) as [r s'] eqn:Hp.
  vm_compute in Hp. injection Hp as <- <-. destruct H as (He & _). split; [exact He|reflexivity].
Defined.
