(* ===== verification/Digest.v ===== *)
(** The digests of the Python standard library the source calls:
    [hashlib.sha256], [hmac.digest(key, msg, "sha256")] and [zlib.crc32].
    They are executable and total, so every protocol theorem that goes through
    a MAC or a transcript hash is about the real function and not about an
    abstract one. *)

From S2P Require Import Prelude Py.
Open Scope Z_scope.

(** * SHA-256 on 32-bit words held in [Z] *)

Definition low32 (z : Z) : Z := Z.land z (Z.ones 32).
Definition add32 (x y : Z) : Z := low32 (x + y).
Definition rotate (n x : Z) : Z := Z.lor (Z.shiftr x n) (low32 (Z.shiftl x (32 - n))).

Definition choose (e f g : Z) : Z := Z.lxor g (Z.land e (Z.lxor f g)).
Definition majority (a b c : Z) : Z := Z.lor (Z.land a b) (Z.land c (Z.lor a b)).
Definition big_sigma (i j k x : Z) : Z := Z.lxor (rotate i x) (Z.lxor (rotate j x) (rotate k x)).
Definition small_sigma (i j k x : Z) : Z := Z.lxor (rotate i x) (Z.lxor (rotate j x) (Z.shiftr x k)).

(** The fractional bits of the cube roots of the first 64 primes. *)
Definition round_constants : list Z := [
    1116352408; 1899447441; 3049323471; 3921009573; 961987163; 1508970993;
    2453635748; 2870763221; 3624381080; 310598401; 607225278; 1426881987;
    1925078388; 2162078206; 2614888103; 3248222580; 3835390401; 4022224774;
    264347078; 604807628; 770255983; 1249150122; 1555081692; 1996064986;
    2554220882; 2821834349; 2952996808; 3210313671; 3336571891; 3584528711;
    113926993; 338241895; 666307205; 773529912; 1294757372; 1396182291;
    1695183700; 1986661051; 2177026350; 2456956037; 2730485921; 2820302411;
    3259730800; 3345764771; 3516065817; 3600352804; 4094571909; 275423344;
    430227734; 506948616; 659060556; 883997877; 958139571; 1322822218;
    1537002063; 1747873779; 1955562222; 2024104815; 2227730452; 2361852424;
    2428436474; 2756734187; 3204031479; 3329325298].

Record working := Working { wa : Z; wb : Z; wc : Z; wd : Z; we : Z; wf : Z; wg : Z; wh : Z }.

(** The fractional bits of the square roots of the first 8 primes. *)
Definition initial_digest : working :=
  Working 1779033703 3144134277 1013904242 2773480762 1359893119 2600822924 528734635 1541459225.

(** One round: the message schedule is the sliding window of its last sixteen
    words. *)
Definition round (acc : working * list Z) (k : Z) : working * list Z :=
  let (s, window) := acc in
  let w i := nth i window 0 in
  let t1 := wh s + big_sigma 6 11 25 (we s) + choose (we s) (wf s) (wg s) + k + w 0%nat in
  let t2 := big_sigma 2 13 22 (wa s) + majority (wa s) (wb s) (wc s) in
  let next := low32 (small_sigma 17 19 10 (w 14%nat) + w 9%nat
                     + small_sigma 7 18 3 (w 1%nat) + w 0%nat) in
  (Working (low32 (t1 + t2)) (wa s) (wb s) (wc s) (add32 (wd s) t1) (we s) (wf s) (wg s),
   drop 1 window ++ [next]).

Fixpoint words (n : nat) (l : bytes) : list Z :=
  match n with
  | O => []
  | S m => from_be (take 4 l) :: words m (drop 4 l)
  end.

Definition compress (s : working) (block : bytes) : working :=
  let t := fst (fold_left round round_constants (s, words 16 block)) in
  Working (add32 (wa s) (wa t)) (add32 (wb s) (wb t)) (add32 (wc s) (wc t)) (add32 (wd s) (wd t))
          (add32 (we s) (we t)) (add32 (wf s) (wf t)) (add32 (wg s) (wg t)) (add32 (wh s) (wh t)).

Definition sha_padding (len : Z) : bytes :=
  x80 :: zeros ((55 - len) mod 64) ++ be_bytes 8 (8 * len).

Fixpoint compress_blocks (n : nat) (s : working) (l : bytes) : working :=
  match n with
  | O => s
  | S m => compress_blocks m (compress s (take 64 l)) (drop 64 l)
  end.

Definition digest_bytes (s : working) : bytes :=
  be_bytes 4 (wa s) ++ be_bytes 4 (wb s) ++ be_bytes 4 (wc s) ++ be_bytes 4 (wd s)
  ++ be_bytes 4 (we s) ++ be_bytes 4 (wf s) ++ be_bytes 4 (wg s) ++ be_bytes 4 (wh s).

(** [hashlib.sha256(msg).digest()]. *)
Definition sha256 (msg : bytes) : bytes :=
  let padded := msg ++ sha_padding (blen msg) in
  digest_bytes (compress_blocks (Z.to_nat (blen padded / 64)) initial_digest padded).

(** * HMAC-SHA256: [hmac.digest(key, msg, "sha256")] *)

Definition hmac_block_key (key : bytes) : bytes :=
  let k := if 64 <? blen key then sha256 key else key in
  k ++ zeros (64 - blen k).

Definition hmac_sha256 (key msg : bytes) : bytes :=
  let k := hmac_block_key key in
  sha256 (map (byte_xor x5c) k ++ sha256 (map (byte_xor x36) k ++ msg)).

(** * CRC-32/IEEE: [zlib.crc32(data)] *)

Definition crc_shift (c : Z) : Z :=
  if Z.testbit c 0 then Z.lxor (Z.shiftr c 1) 3988292384 else Z.shiftr c 1.

Definition crc_byte (c : Z) (x : byte) : Z :=
  Nat.iter 8 crc_shift (Z.lxor c (Z_of_byte x)).

Definition crc32 (l : bytes) : Z :=
  Z.lxor (fold_left crc_byte l (Z.ones 32)) (Z.ones 32).

(** * Sizes *)

Lemma blen_sha256 msg : blen (sha256 msg) = 32.
Proof. unfold sha256, digest_bytes. now autorewrite with bytes. Qed.

Lemma blen_hmac_sha256 key msg : blen (hmac_sha256 key msg) = 32.
Proof. apply blen_sha256. Qed.

(** The padded message is a whole number of 64-byte blocks, so
    [compress_blocks] consumes all of it. *)
Lemma sha_padding_blocks msg :
  let padded := msg ++ sha_padding (blen msg) in
  blen padded = 64 * (blen padded / 64).
Proof.
  cbn zeta. unfold sha_padding. autorewrite with bytes.
  pose proof (Z.mod_pos_bound (55 - blen msg) 64 ltac:(lia)).
  rewrite blen_zeros by lia.
  pose proof (Z.div_mod (55 - blen msg) 64 ltac:(lia)).
  set (q := (55 - blen msg) / 64) in *.
  replace (blen msg + _) with ((1 - q) * 64) by lia.
  rewrite Z.div_mul by lia. lia.
Qed.

Lemma crc_shift_range c : 0 <= c < 2 ^ 32 -> 0 <= crc_shift c < 2 ^ 32.
Proof.
  intros Hc. unfold crc_shift.
  assert (0 <= Z.shiftr c 1 < 2 ^ 32) as Hs.
  { rewrite Z.shiftr_div_pow2 by lia. change (2 ^ 1) with 2.
    split; [apply Z.div_pos; lia|apply Z.div_lt_upper_bound; lia]. }
  destruct (Z.testbit c 0); [|done].
  split; [apply Z.lxor_nonneg; lia|].
  destruct (decide (Z.lxor (Z.shiftr c 1) 3988292384 = 0)) as [->|Hne]; [lia|].
  apply Z.log2_lt_pow2; [pose proof (proj2 (Z.lxor_nonneg (Z.shiftr c 1) 3988292384)); lia|].
  eapply Z.le_lt_trans; [apply Z.log2_lxor; lia|].
  apply Z.max_lub_lt; [|now vm_compute].
  destruct (decide (Z.shiftr c 1 = 0)) as [->|]; [now vm_compute|].
  apply Z.log2_lt_pow2; lia.
Qed.

#[export] Hint Rewrite blen_sha256 blen_hmac_sha256 : bytes.

(** * Known answers (FIPS 180-4, RFC 4231, the CRC check value) *)

Example sha256_abc :
  from_be (sha256 (lit "abc")) =
  0xba7816bf8f01cfea414140de5dae2223b00361a396177a9cb410ff61f20015ad.
Proof. vm_compute. reflexivity. Qed.

Example hmac_sha256_jefe :
  from_be (hmac_sha256 (lit "Jefe") (lit "what do ya want for nothing?")) =
  0x5bdcc146bf60754e6a042426089575c75a003f089d2739839dec58b964ec3843.
Proof. vm_compute. reflexivity. Qed.

Example crc32_check : crc32 (lit "123456789") = 0xcbf43926.
Proof. vm_compute. reflexivity. Qed.

Arguments sha256 : simpl never.
Arguments hmac_sha256 : simpl never.
Arguments crc32 : simpl never.

(** Unification must never compute a digest; [vm_compute] still does. *)
#[global] Opaque sha256 hmac_sha256 crc32.
