(* ===== verification/Interfaces.v ===== *)
(** What the source relies on outside the repository: AES-256-GCM and HKDF of
    the [cryptography] package, P-256 of the same package, and ML-KEM-768 of
    liboqs. Each is a class of operations, a parameter of the model, and a
    class of laws that states the documented behaviour the theorems use.

    [Toy] instantiates every law, so no theorem that assumes them is empty. *)

From S2P Require Import Prelude Py Digest.
Open Scope Z_scope.

(** * AESGCM(key).encrypt(iv, data, aad) and .decrypt: [None] is [InvalidTag] *)

Class Aead := {
  aes_gcm_encrypt : bytes -> bytes -> bytes -> bytes -> bytes;
  aes_gcm_decrypt : bytes -> bytes -> bytes -> bytes -> option bytes;
}.

Class AeadLaws `{Aead} := {
  aes_gcm_roundtrip key iv data aad :
    aes_gcm_decrypt key iv (aes_gcm_encrypt key iv data aad) aad = Some data;
  aes_gcm_size key iv data aad :
    blen (aes_gcm_encrypt key iv data aad) = blen data + 16;
}.

(** * HKDF(SHA256, length, salt, info).derive(ikm) and HKDFExpand *)

Class Kdf := {
  hkdf_derive (length : Z) (salt info ikm : bytes) : bytes;
  hkdf_expand (length : Z) (info prk : bytes) : bytes;
}.

(** RFC 5869: T(i) = HMAC(PRK, T(i-1) | info | i). *)
Fixpoint rfc5869_blocks (n : nat) (i : Z) (prk prev info : bytes) : bytes :=
  match n with
  | O => []
  | S m =>
      let t := hmac_sha256 prk (prev ++ info ++ [byte_of_Z i]) in
      t ++ rfc5869_blocks m (i + 1) prk t info
  end.

Definition rfc5869_expand (length : Z) (info prk : bytes) : bytes :=
  bto length (rfc5869_blocks (Z.to_nat ((length + 31) / 32)) 1 prk [] info).

Class KdfLaws `{Kdf} := {
  hkdf_expand_rfc5869 length info prk :
    hkdf_expand length info prk = rfc5869_expand length info prk;
  hkdf_derive_rfc5869 length salt info ikm :
    hkdf_derive length salt info ikm = rfc5869_expand length info (hmac_sha256 salt ikm);
}.

(** * liboqs: [oqs.KeyEncapsulation("ML-KEM-768")]; the randomness it draws is
    an argument *)

Class Kem := {
  oqs_generate_keypair (coins : bytes) : bytes * bytes;
  oqs_encap_secret (public_key coins : bytes) : result (bytes * bytes);
  oqs_decap_secret (secret_key ciphertext : bytes) : result bytes;
}.

Class KemLaws `{Kem} := {
  oqs_keypair_size coins :
    blen (oqs_generate_keypair coins).1 = 1184 /\ blen (oqs_generate_keypair coins).2 = 2400;
  oqs_encap_size pk coins ct ss :
    oqs_encap_secret pk coins = Ok (ct, ss) -> blen ct = 1088 /\ blen ss = 32;
  oqs_correct kcoins coins ct ss :
    oqs_encap_secret (oqs_generate_keypair kcoins).1 coins = Ok (ct, ss) ->
    oqs_decap_secret (oqs_generate_keypair kcoins).2 ct = Ok ss;
}.

(** * [cryptography.hazmat.primitives.asymmetric.ec] on SECP256R1 *)

Class P256 := {
  ec_private : Type;
  ec_generate (coins : bytes) : ec_private;
  ec_derive (scalar : Z) : ec_private;
  ec_public_bytes (key : ec_private) : bytes;
  ec_valid_point (encoded : bytes) : bool;
  ec_exchange (key : ec_private) (peer : bytes) : bytes;
}.

(** * Sizes that follow from RFC 5869 *)

Lemma blen_rfc5869_blocks n i prk prev info :
  blen (rfc5869_blocks n i prk prev info) = 32 * Z.of_nat n.
Proof.
  revert i prev. induction n as [|n IH]; intros; cbn [rfc5869_blocks]; [done|].
  rewrite blen_app, blen_hmac_sha256, IH. lia.
Qed.

Lemma blen_rfc5869_expand length info prk :
  0 <= length -> blen (rfc5869_expand length info prk) = length.
Proof.
  intros. unfold rfc5869_expand. rewrite blen_bto, blen_rfc5869_blocks by lia.
  pose proof (Z.div_mod (length + 31) 32 ltac:(lia)).
  pose proof (Z.mod_pos_bound (length + 31) 32 ltac:(lia)).
  rewrite Z2Nat.id by (apply Z.div_pos; lia). lia.
Qed.

(** One block of [HKDF-Expand] is a single HMAC. *)
Lemma rfc5869_expand_32 info prk :
  rfc5869_expand 32 info prk = hmac_sha256 prk (info ++ [x01]).
Proof.
  unfold rfc5869_expand. change (Z.to_nat ((32 + 31) / 32)) with 1%nat.
  cbn [rfc5869_blocks]. rewrite app_nil_r.
  apply bto_all. rewrite blen_hmac_sha256. lia.
Qed.

(** * Concrete instances

    [Toy] is not cryptography: it is a family of small functions that satisfies
    every law above. *)
Module Toy.

Definition tag (key iv aad data : bytes) : bytes :=
  bto 16 (hmac_sha256 key (iv ++ aad ++ data)).

#[export] Instance aead : Aead := {|
  aes_gcm_encrypt key iv data aad := data ++ tag key iv aad data;
  aes_gcm_decrypt key iv sealed aad :=
    let data := bto (blen sealed - 16) sealed in
    let got := bfrom (blen sealed - 16) sealed in
    if compare_digest got (tag key iv aad data) then Some data else None;
|}.

Lemma blen_tag key iv aad data : blen (tag key iv aad data) = 16.
Proof. unfold tag. now rewrite blen_bto, blen_hmac_sha256 by lia. Qed.

#[export] Instance aead_laws : AeadLaws.
Proof.
  split; intros; cbn.
  - rewrite blen_app, blen_tag.
    replace (blen data + 16 - 16) with (blen data) by lia.
    rewrite bto_app, bfrom_app by done.
    unfold compare_digest. now rewrite bool_decide_true.
  - now rewrite blen_app, blen_tag.
Qed.

#[export] Instance kdf : Kdf := {|
  hkdf_derive length salt info ikm := rfc5869_expand length info (hmac_sha256 salt ikm);
  hkdf_expand := rfc5869_expand;
|}.

#[export] Instance kdf_laws : KdfLaws.
Proof. split; reflexivity. Qed.

Definition stretch (n : Z) (l : bytes) : bytes := bto n l ++ zeros (n - blen (bto n l)).

Lemma blen_stretch n l : 0 <= n -> blen (stretch n l) = n.
Proof.
  intros. unfold stretch. rewrite blen_app, blen_zeros, blen_bto by bytes_len.
  lia.
Qed.

(** Public and secret keys carry the same seed, the ciphertext carries the
    masked secret: correct by construction. *)
#[export] Instance kem : Kem := {|
  oqs_generate_keypair coins := (stretch 1184 (bto 32 coins), stretch 2400 (bto 32 coins));
  oqs_encap_secret pk coins := Ok (stretch 1088 (bto 32 coins), stretch 32 (bto 32 coins));
  oqs_decap_secret sk ct := Ok (bto 32 ct);
|}.

Lemma bto_stretch_stretch m n l :
  0 <= m <= n -> blen l <= m -> bto m (stretch n l) = stretch m l.
Proof.
  intros Hmn Hl. unfold stretch. rewrite !(bto_all _ l) by lia.
  unfold bto, zeros, blen in *. rewrite take_app, take_replicate.
  rewrite take_ge by lia. do 2 f_equal. lia.
Qed.

#[export] Instance kem_laws : KemLaws.
Proof.
  split; cbn; intros.
  - rewrite !blen_stretch by lia. done.
  - simplify_eq. rewrite !blen_stretch by lia. done.
  - simplify_eq. f_equal. apply bto_stretch_stretch; [lia|].
    rewrite blen_bto by lia. lia.
Qed.

(** A commutative exchange on 32-byte scalars: the scalar is the point. *)
Definition point (k : bytes) : bytes := x04 :: stretch 64 (stretch 32 k).

#[export] Instance p256 : P256 := {|
  ec_private := bytes;
  ec_generate coins := stretch 32 coins;
  ec_derive scalar := be_bytes 32 scalar;
  ec_public_bytes k := point k;
  ec_valid_point encoded := bool_decide (blen encoded = 65);
  ec_exchange k peer :=
    be_bytes 32 (Z.lxor (from_be (stretch 32 k)) (from_be (bto 32 (bfrom 1 peer))));
|}.

End Toy.

#[global] Opaque rfc5869_expand.
