(* ===== verification/World.v ===== *)
(** The world of the Central's asynchronous code: what src/src/central awaits
    (the bleak backend, timers, the person at the prompt) and what it reads
    without awaiting (connection state, MTU, randomness, clocks).

    An environment answers every request in any way it likes, and during every
    await it delivers any list of events: notifications and disconnects. A
    coroutine is a method on [io]: the state of the environment, the objects of
    the program, and the trace of what happened. Theorems quantify over all
    environments, so they hold for every peer, every timing of its messages and
    every failure of the backend. *)

From S2P Require Import Prelude Py Pairing.
Open Scope Z_scope.

(** A [BleakClient] object: its identity, and whether it was built with
    [disconnected_callback=self._on_v1_disconnect]. *)
Record link := mkLink { link_id : Z; link_v1 : bool }.

#[global] Instance link_eq_dec : EqDecision link.
Proof. solve_decision. Defined.

(** A [BLEDevice] of the scanner. *)
Record device := mkDevice { device_name : string; device_address : string }.

#[global] Instance device_eq_dec : EqDecision device.
Proof. solve_decision. Defined.

(** * Requests *)

Inductive action :=
  | FindByName (name : string)            (* BleakScanner.find_device_by_name *)
  | FindByAddress (address : string)      (* BleakScanner.find_device_by_address *)
  | Connect (c : link)
  | Disconnect (c : link)
  | ReadGatt (c : link) (uuid : string)
  | WriteGatt (c : link) (uuid : string) (data : bytes)
  | StartNotify (c : link) (uuid : string)
  | StopNotify (c : link) (uuid : string)
  | Wait                                  (* asyncio.sleep, or blocked on a queue *)
  | Confirm (text : string)               (* the SAS prompt or callback *)
  | InspectPairing                        (* pairing_backend.inspect_pairing *)
  | Unpair
  | PairNumericComparison                 (* with the prompt given to the backend *)
  | PairJustWorks.

#[global] Instance action_eq_dec : EqDecision action.
Proof. solve_decision. Defined.

Definition value (a : action) : Type :=
  match a with
  | FindByName _ | FindByAddress _ => option device
  | ReadGatt _ _ => bytes
  | Confirm _ => bool
  | InspectPairing => PairingState
  | PairNumericComparison | PairJustWorks => PairingOutcome
  | _ => unit
  end.

Inductive query :=
  | IsConnected (c : link)
  | MtuSize (c : link)
  | Urandom (n : Z)       (* os.urandom, secrets.token_bytes *)
  | Coins                 (* the randomness liboqs and cryptography draw *)
  | Now                   (* time.time, loop.time, perf_counter: nanoseconds *)
  | TimerFired            (* was it the timeout of an enclosing wait_for that cancelled us *)
  | GuardFailed.          (* has the watching task ended with an exception *)

Definition answer (q : query) : Type :=
  match q with
  | IsConnected _ | TimerFired | GuardFailed => bool
  | MtuSize _ | Now => Z
  | Urandom _ | Coins => bytes
  end.

Inductive event :=
  | Notified (data : bytes) (connected : bool) (* and [client.is_connected] at that time *)
  | Disconnected (c : link).

Class Env (W : Type) := {
  ask : forall q : query, W -> answer q * W;
  await : forall a : action, W -> list event * result (value a) * W;
}.

(** * The state of a run *)

Inductive observed :=
  | Did (a : action) (r : result (value a))
  | Heard (e : event).

Record io (W S : Type) := mkIo { world : W; self : S; trace : list observed }.
Arguments mkIo {W S} world self trace.
Arguments world {W S} _.
Arguments self {W S} _.
Arguments trace {W S} _.

(** What the callbacks the program registered do on an event. *)
Class Hears (S : Type) := hear : event -> S -> S.

Section Perform.
Context {W S : Type} `{Env W, Hears S}.

Definition query_env (q : query) : method (io W S) (answer q) :=
  fun s => let (a, w) := ask q (world s) in (Ok a, mkIo w (self s) (trace s)).

(** A request is in the trace before what is heard while it is awaited. *)
Definition perform (a : action) : method (io W S) (value a) :=
  fun s =>
    let '(evs, r, w) := await a (world s) in
    (r, mkIo w (fold_left (fun x e => hear e x) evs (self s))
             (trace s ++ Did a r :: map Heard evs)).

(** The fields of the program's own objects. *)
Definition get_own : method (io W S) S := fun s => (Ok (self s), s).

Definition update_own (f : S -> S) : method (io W S) unit :=
  fun s => (Ok tt, mkIo (world s) (f (self s)) (trace s)).

(** A method of an object the program holds. *)
Definition call {T A} (get : S -> T) (set : T -> S -> S) (m : method T A) : method (io W S) A :=
  fun s => let (r, t) := m (get (self s)) in (r, mkIo (world s) (set t (self s)) (trace s)).
End Perform.

(** * What a trace says *)

(** The requests, waits left out. *)
Fixpoint ops (t : list observed) : list action :=
  match t with
  | [] => []
  | Did Wait _ :: r => ops r
  | Did a _ :: r => a :: ops r
  | Heard _ :: r => ops r
  end.

Fixpoint heard (t : list observed) : list bytes :=
  match t with
  | [] => []
  | Heard (Notified b _) :: r => b :: heard r
  | _ :: r => heard r
  end.

Lemma ops_app t u : ops (t ++ u) = ops t ++ ops u.
Proof. induction t as [|[[] ?|?] t IH]; cbn; by rewrite ?IH. Qed.

Lemma heard_app t u : heard (t ++ u) = heard t ++ heard u.
Proof. induction t as [|[? ?|[]] t IH]; cbn; by rewrite ?IH. Qed.

Lemma ops_heard evs : ops (map Heard evs) = [].
Proof. by induction evs. Qed.

Definition notified (evs : list event) : list bytes :=
  omap (fun e => match e with Notified b _ => Some b | Disconnected _ => None end) evs.

Lemma heard_events evs : heard (map Heard evs) = notified evs.
Proof. induction evs as [|[] evs IH]; cbn; by rewrite ?IH. Qed.

(** ** Facts of a trace that stay true *)

Class Lasting (F : list observed -> Prop) : Prop := lasting t u : F t -> F (t ++ u).

#[export] Instance lasting_and F G : Lasting F -> Lasting G -> Lasting (fun t => F t /\ G t).
Proof. intros HF HG t u [? ?]. split; [by apply HF|by apply HG]. Qed.

#[export] Instance lasting_did o : Lasting (elem_of o).
Proof. intros t u Ht. apply elem_of_app. by left. Qed.

#[export] Instance lasting_heard b : Lasting (fun t => b ∈ heard t).
Proof. intros t u Ht. rewrite heard_app. apply elem_of_app. by left. Qed.

#[export] Instance lasting_pure (P : Prop) : Lasting (fun _ => P).
Proof. by intros t u Ht. Qed.

Lemma lasting_ex {A} (F : A -> list observed -> Prop) :
  (forall x, Lasting (F x)) -> Lasting (fun t => exists x, F x t).
Proof. intros HF t u [x Hx]. exists x. by apply HF. Qed.

(** What happened since the trace was [p]. *)
Definition since (p : list observed) (F : list observed -> Prop) (t : list observed) : Prop :=
  exists u, t = p ++ u /\ F u.

#[export] Instance lasting_since p F : Lasting F -> Lasting (since p F).
Proof. intros HF t v (u & -> & Hu). exists (u ++ v). rewrite app_assoc. split; [done|by apply HF]. Qed.

(** First [F] held, and [G] of what happened after that. *)
Definition followed (F G : list observed -> Prop) (t : list observed) : Prop :=
  exists p, F p /\ since p G t.

#[export] Instance lasting_followed F G : Lasting G -> Lasting (followed F G).
Proof. intros HG t v (p & Hf & Hg). exists p. split; [done|by apply lasting_since]. Qed.

(** * Triples

    [triple P m Q E]: from a state of [P], [m] returns into [Q] or raises into
    [E]. *)

Definition triple {St A} (P : St -> Prop) (m : method St A)
  (Q : A -> St -> Prop) (E : exn -> St -> Prop) : Prop :=
  forall s, P s -> match m s with (Ok a, t) => Q a t | (Err x, t) => E x t end.

Section Triples.
Context {St : Type}.
Implicit Types P : St -> Prop.

Lemma triple_conseq {A} P P' (m : method St A) Q Q' E E' :
  (forall s, P s -> P' s) -> triple P' m Q' E' ->
  (forall a s, Q' a s -> Q a s) -> (forall x s, E' x s -> E x s) -> triple P m Q E.
Proof.
  intros HP Hm HQ HE s Hs. specialize (Hm s (HP s Hs)).
  destruct (m s) as [[a|x] t]; [by apply HQ|by apply HE].
Qed.

Lemma triple_ret {A} P (a : A) Q E : (forall s, P s -> Q a s) -> triple P (mret a) Q E.
Proof. intros HQ s Hs. by apply HQ. Qed.

Lemma triple_bind {A B} P (m : method St A) (k : A -> method St B) R Q E :
  triple P m R E -> (forall a, triple (R a) (k a) Q E) -> triple P (x ← m; k x) Q E.
Proof.
  intros Hm Hk s Hs. specialize (Hm s Hs). unfold mbind, method_bind.
  destruct (m s) as [[a|x] t]; [by apply Hk|done].
Qed.

Lemma triple_raise {A} P x Q E : (forall s, P s -> E x s) -> triple P (raise x : method St A) Q E.
Proof. intros HE s Hs. by apply HE. Qed.

Lemma triple_raise_when P c x Q E :
  (c = true -> forall s, P s -> E x s) -> (c = false -> forall s, P s -> Q tt s) ->
  triple P (raise_when c x) Q E.
Proof. intros HE HQ s Hs. destruct c; cbn; [by apply HE|by apply HQ]. Qed.

Lemma triple_run {A} P (r : result A) Q E :
  (forall a, r = Ok a -> forall s, P s -> Q a s) ->
  (forall x, r = Err x -> forall s, P s -> E x s) -> triple P (run r) Q E.
Proof. intros HQ HE s Hs. unfold run. destruct r; [by apply HQ|by apply HE]. Qed.

(** A fact about the state that does not depend on it. *)
Lemma triple_pure {A} (phi : Prop) P (m : method St A) Q E :
  (phi -> triple P m Q E) -> triple (fun s => phi /\ P s) m Q E.
Proof. intros H s [Hp Hs]. by apply H. Qed.

Lemma triple_ex {A B} (P : B -> St -> Prop) (m : method St A) Q E :
  (forall b, triple (P b) m Q E) -> triple (fun s => exists b, P b s) m Q E.
Proof. intros H s [b Hs]. by apply (H b). Qed.

Lemma triple_finally {A} P (m : method St A) (c : method St unit) Q E Q' E' :
  triple P m Q' E' ->
  (forall a, triple (Q' a) c (fun _ => Q a) E) ->
  (forall x, triple (E' x) c (fun _ => E x) E) ->
  triple P (try_finally c m) Q E.
Proof.
  intros Hm Hq He s Hs. specialize (Hm s Hs). unfold try_finally.
  destruct (m s) as [[a|x] t]; [specialize (Hq a t Hm)|specialize (He x t Hm)];
    by destruct (c t) as [[[]|y] u].
Qed.

Lemma triple_except {A} P (m : method St A) catches h Q E E' :
  triple P m Q E' ->
  (forall x, catches x = true -> triple (E' x) (h x) Q E) ->
  (forall x s, catches x = false -> E' x s -> E x s) ->
  triple P (try_except catches h m) Q E.
Proof.
  intros Hm Hh Hn s Hs. specialize (Hm s Hs). unfold try_except.
  destruct (m s) as [[a|x] t]; [done|].
  destruct (catches x) eqn:Hc; [by apply Hh|by apply Hn].
Qed.

Lemma triple_for_each {A} (I : list A -> St -> Prop) (body : A -> method St unit) l Q E :
  (forall x r, triple (I (x :: r)) (body x) (fun _ => I r) E) ->
  (forall s, I [] s -> Q tt s) -> triple (I l) (for_each body l) Q E.
Proof.
  intros Hb Hq. induction l as [|x l IH]; cbn [for_each].
  - by apply triple_ret.
  - eapply triple_bind; [apply Hb|]. intros ?. exact IH.
Qed.

(** The first step of a block, by its kind. *)
Lemma step_run {A B} P (r : result A) (k : A -> method St B) Q E :
  (forall a, r = Ok a -> triple P (k a) Q E) ->
  (forall x, r = Err x -> forall s, P s -> E x s) -> triple P (x ← run r; k x) Q E.
Proof.
  intros Hk He s Hs. unfold mbind, method_bind, run.
  destruct r as [a|x]; [by apply Hk|by apply He].
Qed.

Lemma step_guard {B} P c x (k : method St B) Q E :
  (c = true -> forall s, P s -> E x s) -> (c = false -> triple P k Q E) ->
  triple P (raise_when c x;; k) Q E.
Proof.
  intros He Hk s Hs. unfold mbind, method_bind, raise_when.
  destruct c; cbn [raise_if]; [by apply He|by apply Hk].
Qed.

Lemma step {A B} P (m : method St A) (k : A -> method St B) R Q E E' :
  triple P m R E' -> (forall x s, E' x s -> E x s) ->
  (forall a, triple (R a) (k a) Q E) -> triple P (x ← m; k x) Q E.
Proof.
  intros Hm He Hk. eapply triple_bind; [|exact Hk].
  eapply triple_conseq; [|exact Hm|done|exact He]. done.
Qed.

Lemma triple_weaken {A} P P' (m : method St A) Q E :
  (forall s, P s -> P' s) -> triple P' m Q E -> triple P m Q E.
Proof. intros HP Hm s Hs. by apply Hm, HP. Qed.
End Triples.
