(* ===== verification/Constants.v ===== *)
(** The protocol constants of src/src/common/constants.py that the model uses. *)

From S2P Require Import Prelude.
Open Scope Z_scope.

Definition SERVICE_UUID : string := "12345678-1234-1234-1234-123456789abc".
Definition CHAR_PUBKEY_UUID : string := "12345678-1234-1234-1234-123456789abd".
Definition CHAR_CIPHERTEXT_UUID : string := "12345678-1234-1234-1234-123456789abe".
Definition CHAR_DATA_UUID : string := "12345678-1234-1234-1234-123456789abf".
Definition CHAR_CONTROL_UUID : string := "12345678-1234-1234-1234-123456789ac0".
Definition DEVICE_NAME : string := "PQ-BLE-Device".

Definition PK_SIZE : Z := 1184.
Definition CT_SIZE : Z := 1088.
Definition SS_SIZE : Z := 32.
Definition SK_SIZE : Z := 2400.

Definition BLE_MTU : Z := 512.
Definition FRAGMENT_PAYLOAD : Z := 508.
Definition FRAGMENT_HEADER_SIZE : Z := 4.

Definition SAS_DIGITS : Z := 6.
Definition SAS_MODULUS : Z := 10 ^ SAS_DIGITS.

Definition SESSION_KEY_SIZE : Z := 32.
Definition GCM_IV_SIZE : Z := 12.
Definition GCM_TAG_SIZE : Z := 16.
Definition SEQ_NUM_SIZE : Z := 8.

Definition CENTRAL_ROLE : bytes := [x01].
Definition PERIPHERAL_ROLE : bytes := [x02].

Definition MSG_TYPE_SIZE : Z := 1.
Definition MSG_TYPE_DATA : bytes := [x01].
Definition MSG_TYPE_CONTROL : bytes := [x02].
Definition MSG_TYPE_HANDSHAKE : bytes := [x03].

Definition HKDF_SALT : bytes := lit "PQ-BLE-HANDSHAKE-v1".
Definition HKDF_INFO : bytes := lit "BLE-PQ-SESSION-KEY".

Definition PHASE5_DOMAIN : bytes := lit "PQ-BLE-HANDSHAKE-v0.5".
Definition PHASE5_KDF_INFO : bytes := PHASE5_DOMAIN ++ lit "/key-schedule".
Definition PHASE5_SAS_LABEL : bytes := PHASE5_DOMAIN ++ lit "/SAS".
Definition PHASE5_FINISHED_C_LABEL : bytes := PHASE5_DOMAIN ++ lit "/FINISHED/C".
Definition PHASE5_FINISHED_P_LABEL : bytes := PHASE5_DOMAIN ++ lit "/FINISHED/P".

Definition TRANSCRIPT_HASH_SIZE : Z := 32.
Definition PHASE5_KEY_SIZE : Z := 32.
Definition PHASE5_KEY_BLOCK_SIZE : Z := 4 * PHASE5_KEY_SIZE.
Definition FINISHED_SIZE : Z := 32.

Definition PHASE5_START_MAGIC : bytes := lit "START5".
Definition PHASE5_FRAME_MAGIC : bytes := lit "PQS5".
Definition PHASE5_FRAME_VERSION : Z := 0x05.
Definition PHASE5_FRAME_HEADER_SIZE : Z := 8.

Definition PHASE5_READY_FOR_SAS : Z := 0x01.
Definition PHASE5_FINISHED_P : Z := 0x02.
Definition PHASE5_ERROR : Z := 0x7F.
Definition PHASE5_FINISHED_C : Z := 0x10.
Definition PHASE5_DATA_REQUEST : Z := 0x11.

Definition SESSION_ID_SIZE : Z := 16.
Definition REHANDSHAKE_HOURS : Z := 24.
Definition REHANDSHAKE_SESSIONS : Z := 100.

Definition RESUME_MAGIC : bytes := lit "PQBL".
Definition RESUME_REQ : bytes := [x01].
Definition RESUME_ACK : bytes := [x02].
Definition RESUME_NACK : bytes := [x03].
Definition RESUME_OK_NOTIFY : bytes := lit "RESUME_OK".
Definition RESUME_FAIL_NOTIFY : bytes := lit "RESUME_FAIL".

Definition SECURE_CHANNEL_OVERHEAD : Z :=
  SEQ_NUM_SIZE + MSG_TYPE_SIZE + GCM_IV_SIZE + GCM_TAG_SIZE.
