(* ===== verification/Frame.v ===== *)
(** The 8-byte header the PQS5, PQS6, PQS7, PQV1 and PQRS frames share:
    magic (4), version (1), subtype (1), payload length (2, big-endian),
    followed by the payload. The encoders and parsers of the components are
    translated one by one from their files; these lemmas carry their proofs. *)

From S2P Require Import Prelude Py.
Open Scope Z_scope.

Definition frame_wire (magic : bytes) (version subtype : Z) (payload : bytes) : bytes :=
  magic ++ [byte_of_Z version; byte_of_Z subtype] ++ be_bytes 2 (blen payload) ++ payload.

Arguments frame_wire : simpl never.

Lemma mk_bytes_2 x y :
  is_byte x = true -> is_byte y = true -> mk_bytes [x; y] = Ok [byte_of_Z x; byte_of_Z y].
Proof. intros Hx Hy. unfold mk_bytes. cbn. by rewrite Hx, Hy. Qed.

Lemma mk_bytes_1 x : is_byte x = true -> mk_bytes [x] = Ok [byte_of_Z x].
Proof. intros Hx. unfold mk_bytes. cbn. by rewrite Hx. Qed.

Lemma idx_lookup l i x : l !! Z.to_nat i = Some x -> idx l i = Ok (Z_of_byte x).
Proof. intros H. unfold idx. by rewrite H. Qed.

Lemma idx_Ok l i v :
  idx l i = Ok v <-> exists x, l !! Z.to_nat i = Some x /\ v = Z_of_byte x.
Proof.
  unfold idx. destruct (l !! Z.to_nat i) as [x|]; split.
  - intros [= <-]. eauto.
  - intros (y & [= ->] & ->). done.
  - done.
  - intros (y & ? & _). done.
Qed.

Lemma idx_in_range l i : 0 <= i < blen l -> exists v, idx l i = Ok v /\ 0 <= v < 256.
Proof.
  unfold blen. intros Hi.
  destruct (lookup_lt_is_Some_2 l (Z.to_nat i)) as [x Hx]; [lia|].
  exists (Z_of_byte x). split; [by apply idx_lookup|apply Z_of_byte_range].
Qed.

Lemma is_byte_range v : is_byte v = true <-> 0 <= v < 256.
Proof. unfold is_byte. lia. Qed.

Section Wire.
Variables (magic : bytes) (version subtype : Z) (payload : bytes).
Hypotheses (Hmagic : blen magic = 4)
           (Hversion : 0 <= version < 256) (Hsubtype : 0 <= subtype < 256)
           (Hpayload : blen payload < 65536).
Let w := frame_wire magic version subtype payload.

Lemma blen_frame_wire : blen w = 8 + blen payload.
Proof using Hmagic. unfold w, frame_wire. bytes_len. Qed.

Lemma frame_wire_magic : bto 4 w = magic.
Proof using Hmagic. by apply bto_app. Qed.

Lemma frame_wire_byte i x :
  0 <= i < 2 -> [byte_of_Z version; byte_of_Z subtype] !! Z.to_nat i = Some x ->
  idx w (4 + i) = Ok (Z_of_byte x).
Proof using Hmagic.
  intros Hi Hx. apply idx_lookup. unfold w, frame_wire, blen in *.
  rewrite lookup_app_r by lia. rewrite lookup_app_l by (cbn; lia).
  replace (Z.to_nat (4 + i) - length magic)%nat with (Z.to_nat i) by lia. done.
Qed.

Lemma frame_wire_version : idx w 4 = Ok version.
Proof using Hmagic Hversion.
  change 4 with (4 + 0). rewrite (frame_wire_byte 0 (byte_of_Z version)) by (done || lia).
  by rewrite Z_of_byte_of_Z, Z.mod_small by lia.
Qed.

Lemma frame_wire_subtype : idx w 5 = Ok subtype.
Proof using Hmagic Hsubtype.
  change 5 with (4 + 1). rewrite (frame_wire_byte 1 (byte_of_Z subtype)) by (done || lia).
  by rewrite Z_of_byte_of_Z, Z.mod_small by lia.
Qed.

Lemma frame_wire_length : from_be (bslice 6 8 w) = blen payload.
Proof using Hmagic Hpayload.
  unfold w, frame_wire. rewrite (app_assoc magic).
  rewrite bslice_app by bytes_len. rewrite from_be_bytes.
  apply Z.mod_small. pose proof (blen_nonneg payload).
  change (256 ^ Z.of_nat 2) with 65536. lia.
Qed.

Lemma frame_wire_payload : bfrom 8 w = payload.
Proof using Hmagic.
  unfold w, frame_wire. rewrite !app_assoc. apply bfrom_app. bytes_len.
Qed.

(** The exact 8-byte header, as [raw[:8]]. *)
Lemma frame_wire_header :
  bto 8 w = magic ++ [byte_of_Z version; byte_of_Z subtype] ++ be_bytes 2 (blen payload).
Proof using Hmagic.
  unfold w, frame_wire. rewrite !app_assoc. apply bto_app. bytes_len.
Qed.
End Wire.

(** Data that passes every check of a parser is the wire image of what the
    parser returns. *)
Lemma frame_wire_complete data magic version subtype :
  bto 4 data = magic -> blen magic = 4 ->
  idx data 4 = Ok version -> idx data 5 = Ok subtype ->
  blen data = 8 + from_be (bslice 6 8 data) ->
  data = frame_wire magic version subtype (bfrom 8 data).
Proof.
  intros Hm Hl (x & Hx & ->)%idx_Ok (y & Hy & ->)%idx_Ok Hlen.
  pose proof (from_be_range (bslice 6 8 data)).
  assert (blen (bslice 6 8 data) = 2) as H2 by (rewrite blen_bslice by lia; lia).
  unfold frame_wire. rewrite !byte_of_Z_of_byte.
  replace (blen (bfrom 8 data)) with (from_be (bslice 6 8 data))
    by (rewrite blen_bfrom by lia; lia).
  replace 2%nat with (length (bslice 6 8 data)) by (unfold blen in H2; lia).
  rewrite be_bytes_from_be, (bslice_bfrom 6 8) by lia.
  rewrite <- Hm. rewrite <- (bto_bfrom 4 data) at 1. f_equal.
  change (Z.to_nat 4) with 4%nat in Hx. change (Z.to_nat 5) with 5%nat in Hy.
  change (bfrom 4 data) with (drop 4 data). change (bfrom 6 data) with (drop 6 data).
  by rewrite (drop_S data x 4), (drop_S data y 5).
Qed.

Lemma frame_wire_inj m v1 s1 p1 v2 s2 p2 :
  0 <= v1 < 256 -> 0 <= v2 < 256 -> 0 <= s1 < 256 -> 0 <= s2 < 256 ->
  frame_wire m v1 s1 p1 = frame_wire m v2 s2 p2 -> v1 = v2 /\ s1 = s2 /\ p1 = p2.
Proof.
  unfold frame_wire. intros Hv1 Hv2 Hs1 Hs2 H. apply app_inv_head in H.
  apply app_inj_1 in H as [Hh H]; [|done]. injection Hh as Hv Hs. apply (f_equal Z_of_byte) in Hv, Hs.
  rewrite !Z_of_byte_of_Z, !Z.mod_small in Hv, Hs by lia.
  apply app_inj_1 in H as [_ ->]; [done|]. by rewrite !length_be_bytes.
Qed.

(** Applies the wire lemmas when the frame, its magic and its bytes are known. *)
Create Rewrite HintDb frame.
#[export] Hint Rewrite blen_frame_wire frame_wire_magic frame_wire_version
  frame_wire_subtype frame_wire_length frame_wire_payload frame_wire_header
  using (first [reflexivity | assumption | lia]) : frame.

(** [_require_size(name, value, expected)], the same helper in phase5.py and
    phase7.py. *)
Definition _require_size (name : string) (value : bytes) (expected : Z) : result bytes :=
  raise_if (negb (blen value =? expected)) (ValueError name);;
  mret value.

(** [_length_prefixed(value)], the same helper in phase5.py and phase7.py. *)
Definition _length_prefixed (value : bytes) : result bytes :=
  raise_if (0xFFFF <? blen value) (ValueError "transcript field exceeds the u16 length limit");;
  n ← to_bytes 2 (blen value);
  mret (n ++ value).

Lemma require_size_Ok name v n r :
  _require_size name v n = Ok r <-> blen v = n /\ r = v.
Proof.
  unfold _require_size. destruct (Z.eqb_spec (blen v) n); cbn; split.
  - intros [= <-]. done.
  - intros [_ ->]. done.
  - done.
  - intros []. done.
Qed.

Lemma require_size_eq name v n : blen v = n -> _require_size name v n = Ok v.
Proof. intros H. by apply require_size_Ok. Qed.

Lemma require_size_Err name v n :
  blen v <> n -> _require_size name v n = Err (ValueError name).
Proof. intros H. unfold _require_size. by rewrite raise_if_true by lia. Qed.

Lemma to_bytes_Ok n v : 0 <= v < 256 ^ Z.of_nat n -> to_bytes n v = Ok (be_bytes n v).
Proof. intros Hv. unfold to_bytes. replace (_ && _) with true by lia. done. Qed.

Lemma to_bytes_Err n v : ~ (0 <= v < 256 ^ Z.of_nat n) -> to_bytes n v = Err OverflowError.
Proof. intros Hv. unfold to_bytes. replace (_ && _) with false by lia. done. Qed.

Definition lp_wire (v : bytes) : bytes := be_bytes 2 (blen v) ++ v.
Arguments lp_wire : simpl never.

Lemma length_prefixed_eq v : blen v < 65536 -> _length_prefixed v = Ok (lp_wire v).
Proof.
  intros H. pose proof (blen_nonneg v). unfold _length_prefixed.
  rewrite raise_if_false by lia. cbn.
  rewrite to_bytes_Ok by (change (256 ^ Z.of_nat 2) with 65536; lia). done.
Qed.

Lemma blen_lp_wire v : blen (lp_wire v) = 2 + blen v.
Proof. unfold lp_wire. bytes_len. Qed.

(** Length prefixes make concatenations of fields uniquely decodable. *)
Lemma lp_wire_app_inj v1 v2 r1 r2 :
  blen v1 < 65536 -> blen v2 < 65536 ->
  lp_wire v1 ++ r1 = lp_wire v2 ++ r2 -> v1 = v2 /\ r1 = r2.
Proof.
  unfold lp_wire. intros H1 H2. rewrite <- !app_assoc. intros H.
  pose proof (blen_nonneg v1). pose proof (blen_nonneg v2).
  apply app_inj_1 in H as [Hn H]; [|by rewrite !length_be_bytes].
  apply (f_equal from_be) in Hn. rewrite !from_be_bytes in Hn.
  change (256 ^ Z.of_nat 2) with 65536 in Hn. rewrite !Z.mod_small in Hn by lia.
  apply app_inj_1 in H; [done|]. unfold blen in Hn. lia.
Qed.

Lemma concat_lp_inj l1 l2 :
  Forall (fun v => blen v < 65536) l1 -> Forall (fun v => blen v < 65536) l2 ->
  concat (map lp_wire l1) = concat (map lp_wire l2) -> l1 = l2.
Proof.
  intros H1. revert l2. induction H1 as [|v1 l1 Hv1 _ IH]; intros [|v2 l2] H2 H; cbn in H.
  - done.
  - apply (f_equal blen) in H. pose proof (blen_nonneg v2).
    pose proof (blen_nonneg (concat (map lp_wire l2))).
    rewrite blen_app, blen_lp_wire in H. cbn in H. unfold blen in *. cbn in *. lia.
  - apply (f_equal blen) in H. pose proof (blen_nonneg v1).
    pose proof (blen_nonneg (concat (map lp_wire l1))).
    rewrite blen_app, blen_lp_wire in H. cbn in H. unfold blen in *. cbn in *. lia.
  - inversion H2 as [|? ? Hv2 H2']; subst.
    apply lp_wire_app_inj in H as [-> H]; [|done..]. f_equal. by apply IH.
Qed.

#[export] Hint Rewrite blen_lp_wire : bytes.

(** * One reference codec

    Every encoder of the repository writes [frame_wire]; every parser accepts
    exactly the frames of its magic and version whose payload its own
    [validate] accepts. The reference parser names the five checks once. *)
Definition parse_reference (magic : bytes) (version : Z) (data : bytes) : option (Z * bytes) :=
  if (8 <=? blen data) && bool_decide (bto 4 data = magic)
     && bool_decide (idx data 4 = Ok version) && (blen data =? 8 + from_be (bslice 6 8 data))
  then match idx data 5 with Ok s => Some (s, bfrom 8 data) | Err _ => None end
  else None.

Lemma parse_reference_wire magic version s p :
  blen magic = 4 -> 0 <= version < 256 -> 0 <= s < 256 -> blen p < 65536 ->
  parse_reference magic version (frame_wire magic version s p) = Some (s, p).
Proof.
  intros. unfold parse_reference. pose proof (blen_nonneg p).
  autorewrite with frame. rewrite !bool_decide_eq_true_2 by done.
  replace (_ && _) with true by lia. by autorewrite with frame.
Qed.

Lemma parse_reference_Some magic version data s p :
  blen magic = 4 ->
  parse_reference magic version data = Some (s, p) ->
  0 <= s < 256 /\ blen p < 65536 /\ data = frame_wire magic version s p.
Proof.
  intros Hm. unfold parse_reference. destruct (_ && _) eqn:Hc; [|done].
  rewrite !andb_true_iff, !bool_decide_eq_true in Hc. destruct Hc as [[[Hl Hmag] Hv] Hlen].
  destruct (idx_in_range data 5) as (v & Hi & Hr); [lia|]. rewrite Hi. intros [= <- <-].
  pose proof (from_be_range (bslice 6 8 data)) as Hf.
  rewrite blen_bslice in Hf by lia. replace (Z.max 0 _) with 2 in Hf by lia.
  split_and!; [lia|lia| |].
  - rewrite blen_bfrom by lia. change (256 ^ 2) with 65536 in Hf. lia.
  - apply frame_wire_complete; [done..|lia].
Qed.

Lemma parse_reference_intro magic version data s :
  (blen data <? 8) = false -> bto 4 data = magic -> idx data 4 = Ok version ->
  blen data = 8 + from_be (bslice 6 8 data) -> idx data 5 = Ok s ->
  parse_reference magic version data = Some (s, bfrom 8 data).
Proof.
  intros Hl Hm Hv Hlen Hs. unfold parse_reference.
  rewrite !bool_decide_eq_true_2 by done. replace (_ && _) with true by lia. by rewrite Hs.
Qed.

(** What every encoder does once its own checks have passed. *)
Lemma frame_build_Ok magic v s p w :
  0 <= v < 256 ->
  (h ← mk_bytes [v; s]; n ← to_bytes 2 (blen p); mret (magic ++ h ++ n ++ p)) = Ok w <->
  0 <= s < 256 /\ blen p < 65536 /\ w = frame_wire magic v s p.
Proof.
  intros Hv. pose proof (blen_nonneg p). split.
  - intros Hb. ok_inv.
    assert (is_byte s = true) as Hs.
    { unfold mk_bytes in Hok. cbn [forallb] in Hok. destruct (is_byte s); [done|].
      by destruct (is_byte v). }
    rewrite mk_bytes_2 in Hok by (done || by apply is_byte_range). unfold to_bytes in Hok0.
    change (256 ^ Z.of_nat 2) with 65536 in Hok0. destruct (_ && _) eqn:Hl; simplify_eq.
    apply is_byte_range in Hs. split_and!; [lia..|done].
  - intros (Hs & Hp & ->). rewrite mk_bytes_2 by (by apply is_byte_range). cbn [mbind result_bind].
    by rewrite to_bytes_Ok by (change (256 ^ Z.of_nat 2) with 65536; lia).
Qed.

(** Replacing the version byte of a frame. *)
Lemma frame_wire_reversion m v v' s pl :
  blen m = 4 -> bto 4 (frame_wire m v s pl) ++ [byte_of_Z v'] ++ bfrom 5 (frame_wire m v s pl) = frame_wire m v' s pl.
Proof.
  intros Hm. unfold frame_wire.
  change ([byte_of_Z v; byte_of_Z s]) with ([byte_of_Z v] ++ [byte_of_Z s]). rewrite <- !(app_assoc [byte_of_Z v]).
  rewrite bto_app by done. rewrite (app_assoc m [byte_of_Z v]), bfrom_app by bytes_len. done.
Qed.

Lemma frame_wire_reversion_inv m v v' s pl raw :
  blen m = 4 -> idx raw 4 = Ok v ->
  bto 4 raw ++ [byte_of_Z v'] ++ bfrom 5 raw = frame_wire m v' s pl -> raw = frame_wire m v s pl.
Proof.
  intros Hm (x & Hx & ->)%idx_Ok He. change (Z.to_nat 4) with 4%nat in Hx.
  assert (raw = bto 4 raw ++ [x] ++ bfrom 5 raw) as Hraw by (symmetry; apply take_drop_middle; exact Hx).
  assert (blen (bto 4 raw) = 4) as Hl.
  { assert (4 < length raw)%nat by (by eapply lookup_lt_Some). rewrite blen_bto by lia. unfold blen. lia. }
  unfold frame_wire in *. apply app_inj_1 in He as [Hb He]; [|unfold blen in *; lia].
  cbn in He. injection He as Ht. rewrite Hraw, Hb, byte_of_Z_of_byte, Ht. done.
Qed.
