(* ===== verification/Fragmentation.v ===== *)
(** src/src/common/fragmentation.py: the GATT fragmentation of ML-KEM keys and
    ciphertexts, [Fragment], [fragment_data] and [reassemble_data]. *)

From S2P Require Import Prelude Py.
From stdpp Require Import sorting.
Open Scope Z_scope.

Definition HEADER_SIZE : Z := 4.

Record Fragment := mkFragment { index : Z; total : Z; payload : bytes }.

#[global] Instance Fragment_eq_dec : EqDecision Fragment.
Proof. solve_decision. Defined.

(** [struct.pack("!BBH", index, total, len(payload)) + payload]. *)
Definition Fragment_encode (f : Fragment) : result bytes :=
  raise_if (negb (is_byte (index f) && is_byte (total f) && (blen (payload f) <=? 65535)))
    StructError;;
  mret ([byte_of_Z (index f); byte_of_Z (total f)] ++ be_bytes 2 (blen (payload f)) ++ payload f).

Definition Fragment_decode (data : bytes) : result Fragment :=
  raise_if (blen data <? HEADER_SIZE) (ValueError "Fragment too short");;
  let header := bto HEADER_SIZE data in
  i ← idx header 0;
  t ← idx header 1;
  let payload_len := from_be (bslice 2 4 header) in
  mret (mkFragment i t (bslice HEADER_SIZE (HEADER_SIZE + payload_len) data)).

(** [data[start:end]] for any integers: a negative position counts from the
    end. *)
Definition py_slice (start stop : Z) (data : bytes) : bytes :=
  let clip k := if k <? 0 then Z.max 0 (k + blen data) else Z.min k (blen data) in
  bslice (clip start) (Z.max (clip start) (clip stop)) data.

(** [range(n)]. *)
Definition py_range (n : Z) : list Z := seqZ 0 n.

Definition fragment_data (data : bytes) (mtu : Z) : result (list bytes) :=
  let max_payload := mtu - HEADER_SIZE in
  raise_if (negb (blen data =? 0) && (max_payload =? 0)) ZeroDivisionError;;
  let total := if blen data =? 0 then 1
               else (blen data + max_payload - 1) / max_payload in
  mapM (fun i =>
          let start := i * max_payload in
          let stop := Z.min (start + max_payload) (blen data) in
          Fragment_encode (mkFragment i total (py_slice start stop data)))
       (py_range total).

Definition frag_le (f g : Fragment) : Prop := index f <= index g.
#[global] Instance frag_le_dec : RelDecision frag_le := fun f g => Z_le_dec _ _.

(** [sorted(decoded, key=lambda f: f.index)] is stable; the duplicate check
    above it leaves no equal keys, so [merge_sort] orders it the same way. *)
Definition reassemble_data (fragments : list bytes) : result bytes :=
  raise_if (bool_decide (fragments = [])) (ValueError "No fragments provided");;
  decoded ← mapM Fragment_decode fragments;
  let total_frags := match decoded with f :: _ => total f | [] => 0 end in
  raise_if (existsb (fun f => negb (total f =? total_frags)) decoded)
    (ValueError "Inconsistent total_frags");;
  let indices := map index decoded in
  raise_if (negb (bool_decide (NoDup indices))) (ValueError "Duplicate fragment indices");;
  raise_if (negb (Z.of_nat (length decoded) =? total_frags)) (ValueError "Missing fragments");;
  mret (concat (map payload (merge_sort frag_le decoded))).

(** * One fragment *)

Definition frag_ok (f : Fragment) : Prop :=
  0 <= index f <= 255 /\ 0 <= total f <= 255 /\ blen (payload f) <= 65535.

Definition frag_wire (f : Fragment) : bytes :=
  [byte_of_Z (index f); byte_of_Z (total f)] ++ be_bytes 2 (blen (payload f)) ++ payload f.

Lemma Fragment_encode_Ok f : frag_ok f -> Fragment_encode f = Ok (frag_wire f).
Proof.
  intros (Hi & Ht & Hp). unfold Fragment_encode, is_byte.
  rewrite raise_if_false; [done|]. lia.
Qed.

Lemma Fragment_encode_Err f : ~ frag_ok f -> Fragment_encode f = Err StructError.
Proof.
  intros Hn. unfold Fragment_encode, is_byte, frag_ok in *.
  pose proof (blen_nonneg (payload f)).
  replace (negb _) with true by lia. done.
Qed.

Lemma Fragment_decode_wire f : frag_ok f -> Fragment_decode (frag_wire f) = Ok f.
Proof.
  intros (Hi & Ht & Hp). unfold Fragment_decode, frag_wire, HEADER_SIZE.
  rewrite raise_if_false by bytes_len. cbn [mbind result_bind].
  rewrite (app_assoc [_; _] (be_bytes 2 _) (payload f)).
  rewrite bto_app by (autorewrite with bytes; done).
  unfold idx. change (Z.to_nat 0) with 0%nat. change (Z.to_nat 1) with 1%nat.
  cbn [lookup list_lookup app mbind result_bind mret result_ret].
  change (byte_of_Z (index f) :: byte_of_Z (total f) :: be_bytes 2 (blen (payload f)))
    with ([byte_of_Z (index f); byte_of_Z (total f)] ++ be_bytes 2 (blen (payload f))).
  unfold bslice. rewrite bfrom_app by done. rewrite (bto_all (4 - 2)) by bytes_len.
  rewrite from_be_bytes. change (256 ^ Z.of_nat 2) with 65536.
  pose proof (blen_nonneg (payload f)).
  change (byte_of_Z (index f) :: byte_of_Z (total f)
          :: be_bytes 2 (blen (payload f)) ++ payload f)
    with (([byte_of_Z (index f); byte_of_Z (total f)] ++ be_bytes 2 (blen (payload f)))
          ++ payload f).
  rewrite bfrom_app by bytes_len.
  rewrite !Z_of_byte_of_Z, !Z.mod_small, bto_all by lia. now destruct f.
Qed.

(** * Splitting *)

(** The reference definition: fragment [i] of [n] carries the [i]-th chunk. *)
Definition chunk (data : bytes) (mp i : Z) : bytes :=
  bslice (i * mp) (Z.min (i * mp + mp) (blen data)) data.

Definition frag_count (data : bytes) (mp : Z) : Z :=
  if blen data =? 0 then 1 else (blen data + mp - 1) / mp.

Definition frag_list (data : bytes) (mp : Z) : list Fragment :=
  map (fun i => mkFragment i (frag_count data mp) (chunk data mp i))
      (py_range (frag_count data mp)).

Lemma frag_count_bounds data mp :
  0 < mp ->
  1 <= frag_count data mp /\
  (frag_count data mp - 1) * mp <= blen data <= frag_count data mp * mp.
Proof.
  intros Hmp. unfold frag_count. pose proof (blen_nonneg data).
  destruct (Z.eqb_spec (blen data) 0) as [->|Hne]; [lia|].
  pose proof (Z.div_mod (blen data + mp - 1) mp ltac:(lia)) as Hdm.
  pose proof (Z.mod_pos_bound (blen data + mp - 1) mp ltac:(lia)).
  set (q := (blen data + mp - 1) / mp) in *. nia.
Qed.

Lemma py_slice_nonneg i j l :
  0 <= i <= blen l -> i <= j <= blen l -> py_slice i j l = bslice i j l.
Proof.
  intros Hi Hj. unfold py_slice.
  rewrite !(proj2 (Z.ltb_ge _ 0)) by lia. f_equal; lia.
Qed.

Lemma blen_chunk data mp i :
  0 < mp -> 0 <= i < frag_count data mp -> 0 <= blen (chunk data mp i) <= mp.
Proof.
  intros Hmp Hi. pose proof (frag_count_bounds data mp Hmp). unfold chunk.
  assert (i * mp <= blen data) by nia.
  rewrite blen_bslice by nia. lia.
Qed.

Lemma elem_of_py_range i n : i ∈ py_range n -> 0 <= i < n.
Proof. intros H%elem_of_seqZ. lia. Qed.

Lemma frag_list_ok data mp :
  0 < mp <= 65535 -> frag_count data mp <= 255 -> Forall frag_ok (frag_list data mp).
Proof.
  intros Hmp Hc. apply Forall_map, Forall_forall. intros i Hi%elem_of_py_range.
  pose proof (blen_chunk data mp i ltac:(lia) Hi).
  pose proof (frag_count_bounds data mp ltac:(lia)).
  unfold frag_ok. cbn [index total payload]. lia.
Qed.

(** [fragment_data] is the reference split, for every MTU that leaves room for
    a payload and every input of at most 255 fragments. *)
Lemma fragment_data_Ok data mtu :
  HEADER_SIZE < mtu <= 65535 + HEADER_SIZE ->
  frag_count data (mtu - HEADER_SIZE) <= 255 ->
  fragment_data data mtu = Ok (map frag_wire (frag_list data (mtu - HEADER_SIZE))).
Proof.
  intros Hmtu Hc. unfold fragment_data.
  set (mp := mtu - HEADER_SIZE) in *. assert (0 < mp <= 65535) by lia.
  rewrite raise_if_false by lia. cbn [mbind result_bind].
  fold (frag_count data mp). unfold frag_list. rewrite map_map.
  apply mapM_Ok_map. intros i Hi%elem_of_py_range.
  pose proof (frag_count_bounds data mp ltac:(lia)).
  pose proof (blen_chunk data mp i ltac:(lia) Hi).
  assert (i * mp <= blen data) by nia.
  rewrite py_slice_nonneg by lia. fold (chunk data mp i).
  apply Fragment_encode_Ok. unfold frag_ok. cbn [index total payload]. lia.
Qed.

(** * Reassembly *)

Lemma py_range_S n : 0 <= n -> py_range (n + 1) = py_range n ++ [n].
Proof.
  intros. unfold py_range. rewrite seqZ_app by lia. now rewrite Z.add_0_l.
Qed.

Lemma concat_chunks data mp n :
  0 < mp -> 0 <= n -> (n - 1) * mp <= blen data ->
  concat (map (chunk data mp) (py_range n)) = bto (n * mp) data.
Proof.
  intros Hmp. revert n.
  apply (natlike_ind (fun n => (n - 1) * mp <= blen data ->
           concat (map (chunk data mp) (py_range n)) = bto (n * mp) data)); [done|].
  intros n Hn IH Hle. rewrite <- Z.add_1_r, py_range_S by lia.
  rewrite map_app, concat_app, IH by nia. cbn [map concat]. rewrite app_nil_r.
  unfold chunk, bslice, bto, bfrom, blen in *. rewrite take_take_drop.
  destruct (decide (n * mp + mp <= Z.of_nat (length data))).
  - f_equal. nia.
  - rewrite !take_ge; [done|nia..].
Qed.

Lemma concat_frag_list data mp :
  0 < mp -> concat (map payload (frag_list data mp)) = data.
Proof.
  intros Hmp. pose proof (frag_count_bounds data mp Hmp) as (Hn & Hlo & Hhi).
  unfold frag_list. rewrite map_map. cbn [payload].
  rewrite concat_chunks by lia. apply bto_all. lia.
Qed.

#[global] Instance frag_le_total : Total frag_le.
Proof. intros f g. unfold frag_le. lia. Qed.
#[global] Instance frag_le_trans : Transitive frag_le.
Proof. intros f g h. unfold frag_le. lia. Qed.

(** With distinct indices there is one way to sort by index. *)
Lemma merge_sort_frags l k :
  NoDup (map index k) -> StronglySorted frag_le k -> l ≡ₚ k -> merge_sort frag_le l = k.
Proof.
  intros Hnd Hs Hp. apply (StronglySorted_unique_strong frag_le).
  - intros f g Hf Hg Hfg Hgf. rewrite merge_sort_Permutation, Hp in Hf.
    rewrite list_elem_of_In in *.
    apply (NoDup_ListNoDup) in Hnd.
    assert (index f = index g) as He by (unfold frag_le in *; lia).
    clear Hs Hp l Hfg Hgf. induction k as [|h k IH]; [done|].
    cbn in Hnd. apply NoDup_cons_iff in Hnd as [Hn Hnd].
    destruct Hf as [->|Hf], Hg as [->|Hg]; auto; exfalso; apply Hn.
    + rewrite He. by apply in_map.
    + rewrite <- He. by apply in_map.
  - apply StronglySorted_merge_sort; apply _.
  - done.
  - by rewrite merge_sort_Permutation.
Qed.

Lemma frag_list_indices data mp : map index (frag_list data mp) = py_range (frag_count data mp).
Proof. unfold frag_list. rewrite map_map. cbn [index]. apply map_id. Qed.

Lemma seqZ_sorted n : StronglySorted Z.le (seqZ 0 n).
Proof.
  unfold seqZ. apply (StronglySorted_fmap _ le); [lia|].
  generalize 0%nat. induction (Z.to_nat n) as [|k IH]; intros i; cbn; constructor; auto.
  apply Forall_forall. intros j Hj%elem_of_seq. lia.
Qed.

Lemma frag_list_sorted data mp : StronglySorted frag_le (frag_list data mp).
Proof.
  apply (StronglySorted_fmap _ Z.le); [|apply seqZ_sorted].
  intros x y Hxy. unfold frag_le. exact Hxy.
Qed.

Lemma length_frag_list data mp :
  0 < mp -> Z.of_nat (length (frag_list data mp)) = frag_count data mp.
Proof.
  intros Hmp. pose proof (frag_count_bounds data mp Hmp).
  unfold frag_list, py_range. rewrite length_map, length_seqZ. lia.
Qed.

(** What [reassemble_data] accepts, and what it then returns. *)
Definition reassembles (wires : list bytes) (out : bytes) : Prop :=
  exists fs,
    wires <> [] /\ Forall2 (fun w f => Fragment_decode w = Ok f) wires fs /\
    NoDup (map index fs) /\ (forall f, f ∈ fs -> total f = Z.of_nat (length fs)) /\
    out = concat (map payload (merge_sort frag_le fs)).

Lemma existsb_total fs t :
  existsb (fun f => negb (total f =? t)) fs = false <-> forall f, f ∈ fs -> total f = t.
Proof.
  induction fs as [|g fs IH]; cbn.
  - split; [intros _ f Hf; inversion Hf|done].
  - rewrite orb_false_iff, IH. split.
    + intros [Hg Hfs] f [->|Hf]%elem_of_cons; [lia|auto].
    + intros H. split; [rewrite (H g) by (left; done); lia|].
      intros f Hf. apply H. by right.
Qed.

Lemma reassemble_data_iff wires out :
  reassemble_data wires = Ok out <-> reassembles wires out.
Proof.
  unfold reassemble_data, reassembles. split.
  - intros H. ok_inv. apply mapM_Ok_Forall2 in Hok0. exists a0.
    apply bool_decide_eq_false in Hok. apply negb_false_iff, bool_decide_eq_true in Hok2.
    apply negb_false_iff, Z.eqb_eq in Hok3. rewrite <- Hok3 in Hok1.
    rewrite existsb_total in Hok1. auto 6.
  - intros (fs & Hne & Hdec & Hnd & Htot & ->).
    rewrite raise_if_false by (by apply bool_decide_eq_false).
    rewrite (proj2 (mapM_Ok_Forall2 _ _ _) Hdec). cbn [mbind result_bind].
    assert (match fs with [] => 0 | f :: _ => total f end = Z.of_nat (length fs)) as Ht.
    { destruct fs as [|f fs']; [done|]. apply Htot. by left. }
    rewrite Ht, (raise_if_false (existsb _ _)) by (by apply existsb_total).
    cbn [mbind result_bind]. rewrite bool_decide_true by done. cbn. by rewrite Z.eqb_refl.
Qed.

Lemma frag_list_wires_short data mp :
  0 < mp -> Forall (fun w => blen w <= mp + HEADER_SIZE) (map frag_wire (frag_list data mp)).
Proof.
  intros Hmp. apply Forall_map, Forall_map, Forall_forall. intros i Hi%elem_of_py_range.
  pose proof (blen_chunk data mp i ltac:(lia) Hi).
  unfold frag_wire. cbn [payload]. autorewrite with bytes. unfold HEADER_SIZE in *. lia.
Qed.

Lemma frag_list_reassembles data mp wires :
  0 < mp <= 65535 -> frag_count data mp <= 255 ->
  wires ≡ₚ map frag_wire (frag_list data mp) -> reassembles wires data.
Proof.
  intros Hmp Hc Hw. pose proof (frag_count_bounds data mp ltac:(lia)) as Hn.
  pose proof (frag_list_ok data mp Hmp Hc) as Hall.
  apply Permutation_map_inv in Hw as (fs & -> & Hp).
  exists fs. split_and!.
  - intros ->%map_eq_nil. apply Permutation_length in Hp.
    pose proof (length_frag_list data mp ltac:(lia)). cbn in Hp. lia.
  - apply Forall2_fmap_l, Forall_Forall2_diag. rewrite <- Hp.
    eapply Forall_impl; [exact Hall|]. intros f Hf. by apply Fragment_decode_wire.
  - rewrite <- Hp, frag_list_indices. apply NoDup_seqZ.
  - intros f. rewrite <- Hp. intros Hf. rewrite length_frag_list by lia.
    unfold frag_list in Hf. apply list_elem_of_fmap in Hf as (i & -> & _). done.
  - rewrite (merge_sort_frags fs (frag_list data mp)); [by rewrite concat_frag_list by lia| | |].
    + rewrite frag_list_indices. apply NoDup_seqZ.
    + apply frag_list_sorted.
    + done.
Qed.

(** C31. Round trip in any order: for an MTU that leaves room for a payload and
    data of at most 255 chunks, [fragment_data] returns fragments no longer than
    the MTU, and every reordering of them reassembles to the data. *)
Theorem fragment_reassemble_any_order data mtu :
  HEADER_SIZE < mtu <= 65535 + HEADER_SIZE ->
  frag_count data (mtu - HEADER_SIZE) <= 255 ->
  exists frags,
    fragment_data data mtu = Ok frags /\
    Z.of_nat (length frags) = frag_count data (mtu - HEADER_SIZE) /\
    Forall (fun w => blen w <= mtu) frags /\
    forall wires, wires ≡ₚ frags -> reassemble_data wires = Ok data.
Proof.
  intros Hmtu Hc. eexists. split; [by apply fragment_data_Ok|].
  rewrite length_map, length_frag_list by lia. split_and!; [done| |].
  - eapply Forall_impl; [apply frag_list_wires_short; lia|]. intros w. cbn. lia.
  - intros wires Hw. apply reassemble_data_iff.
    eapply frag_list_reassembles; [|exact Hc|exact Hw]. lia.
Qed.

(** Indices are never compared with the announced total, nor payload sizes with
    the announced length: a fragment numbered outside [range(total)] and a
    payload cut short in transit are both accepted. *)
Theorem reassemble_accepts_corrupted :
  reassemble_data [[x00; x02; x00; x01; x61]; [x07; x02; x00; x01; x62]] = Ok (lit "ab") /\
  reassemble_data [[x00; x01; x00; x05; x61; x62]] = Ok (lit "ab").
Proof. split; vm_compute; reflexivity. Qed.

(** More than 255 fragments cannot be numbered: [fragment_data] raises
    [struct.error] and returns no fragment. *)
Theorem fragment_data_too_many data mtu :
  HEADER_SIZE < mtu -> 255 < frag_count data (mtu - HEADER_SIZE) ->
  fragment_data data mtu = Err StructError.
Proof.
  intros Hmtu Hc. unfold fragment_data. set (mp := mtu - HEADER_SIZE) in *.
  rewrite raise_if_false by lia. cbn [mbind result_bind]. fold (frag_count data mp).
  unfold py_range. rewrite seqZ_cons by lia.
  apply mapM_Err_head, Fragment_encode_Err. unfold frag_ok. cbn [total]. lia.
Qed.

(** ** Witnesses *)

Lemma fragment_reassemble_any_order_witness :
  exists frags,
    fragment_data (lit "hello fragmented world") 9 = Ok frags /\
    Z.of_nat (length frags) = 5 /\
    Forall (fun w => blen w <= 9) frags /\
    forall wires, wires ≡ₚ frags -> reassemble_data wires = Ok (lit "hello fragmented world").
Proof.
  apply (fragment_reassemble_any_order (lit "hello fragmented world") 9);
    vm_compute; intuition congruence.
Defined.

Lemma fragment_data_too_many_witness :
  fragment_data (zeros 256) 5 = Err StructError.
Proof. apply (fragment_data_too_many (zeros 256) 5); vm_compute; reflexivity. Defined.
