(* ===== verification/BleClient.v ===== *)
(** src/src/central/ble_client.py: [BLECentralClient], over the bleak backend
    that an environment answers for. The measurement hooks of
    src/src/central/measurement.py wrap awaits without changing them and are
    left out, and so are log messages; the MTU reads they make are kept. *)

From S2P Require Import Prelude Py Pairing Constants Fragmentation World.
Open Scope Z_scope.

(** * The object *)

(** A session or application object the client shares with the coroutine that
    created it. *)
Definition ref : Type := Z.

Record BLECentralClient := mkClient {
  _device_name : string;
  _client : option link;
  _device : option device;
  _v1_notify_link : option link;
  _v1_cp4_session : option ref;
  _v1_cp3_session : option ref;
  _v1_cp3_link : option link;
  _v1_security_test : bool;
}.

Definition BLECentralClient_init (device_name : string) : BLECentralClient :=
  mkClient device_name None None None None None None false.

(** What the coroutine that uses the client supplies: [clear] of a shared
    object, and the callback it gave to [start_notify], which may read the client and
    whether it is connected. *)
Class Program (L : Type) := {
  clear_object : ref -> L -> L;
  on_data : BLECentralClient -> bool -> bytes -> L -> L;
}.

(** The client, the number of [BleakClient]s built so far, and the variables
    of the coroutine. *)
Record host (L : Type) := mkHost { client : BLECentralClient; links : Z; local : L }.
Arguments mkHost {L} client links local.
Arguments client {L} _.
Arguments links {L} _.
Arguments local {L} _.

Section Client.
Context {W L : Type} `{Env W, Program L}.

Definition on_client (f : BLECentralClient -> BLECentralClient) (h : host L) : host L :=
  mkHost (f (client h)) (links h) (local h).

Definition on_local (f : L -> L) (h : host L) : host L :=
  mkHost (client h) (links h) (f (local h)).

Definition set_client (c : option link) (d : option device) (x : BLECentralClient) :=
  mkClient (_device_name x) c d (_v1_notify_link x) (_v1_cp4_session x) (_v1_cp3_session x)
    (_v1_cp3_link x) (_v1_security_test x).

Definition set_notify_link (l : option link) (x : BLECentralClient) :=
  mkClient (_device_name x) (_client x) (_device x) l (_v1_cp4_session x) (_v1_cp3_session x)
    (_v1_cp3_link x) (_v1_security_test x).

Definition forget_application (x : BLECentralClient) :=
  mkClient (_device_name x) (_client x) (_device x) (_v1_notify_link x) None (_v1_cp3_session x)
    (_v1_cp3_link x) (_v1_security_test x).

Definition forget_session (x : BLECentralClient) :=
  mkClient (_device_name x) (_client x) (_device x) (_v1_notify_link x) (_v1_cp4_session x) None
    None (_v1_security_test x).

(** [client._v1_security_test = True]. *)
Definition enable_security_test (x : BLECentralClient) :=
  mkClient (_device_name x) (_client x) (_device x) (_v1_notify_link x) (_v1_cp4_session x)
    (_v1_cp3_session x) (_v1_cp3_link x) true.

(** [client._v1_cp3_session, client._v1_cp3_link = ...] and [client._v1_cp4_session = ...] *)
Definition set_shared_session (r : option ref) (lk : option link) (x : BLECentralClient) :=
  mkClient (_device_name x) (_client x) (_device x) (_v1_notify_link x) (_v1_cp4_session x) r lk
    (_v1_security_test x).

Definition set_shared_application (r : option ref) (x : BLECentralClient) :=
  mkClient (_device_name x) (_client x) (_device x) (_v1_notify_link x) r (_v1_cp3_session x)
    (_v1_cp3_link x) (_v1_security_test x).

Definition clear_v1_cp3 (self : host L) : host L :=
  let h := on_client (set_notify_link None) self in
  let h := match _v1_cp4_session (client h) with
           | Some app => on_client forget_application (on_local (clear_object app) h)
           | None => h
           end in
  match _v1_cp3_session (client h) with
  | Some session => on_client forget_session (on_local (clear_object session) h)
  | None => h
  end.

Definition _on_v1_disconnect (c : link) (self : host L) : host L :=
  if bool_decide (_v1_cp3_link (client self) = Some c) then clear_v1_cp3 self else self.

Definition _on_disconnect (c : link) (self : host L) : host L :=
  if _v1_security_test (client self) then _on_v1_disconnect c self else self.

(** The callbacks registered with bleak. *)
#[export] Instance hear_host : Hears (host L) := fun e h =>
  match e with
  | Notified data b => on_local (on_data (client h) b data) h
  | Disconnected c => if link_v1 c then _on_v1_disconnect c h else _on_disconnect c h
  end.

Abbreviation coroutine := (method (io W (host L))).

Definition raw_client : coroutine (option link) := h ← get_own; mret (_client (client h)).

Definition address : coroutine (option string) :=
  h ← get_own; mret (device_address <$> _device (client h)).

Definition is_connected : coroutine bool :=
  c ← raw_client;
  match c with Some c => query_env (IsConnected c) | None => mret false end.

Definition mtu_size : coroutine Z :=
  c ← raw_client;
  match c with Some c => query_env (MtuSize c) | None => mret 23 end.

(** [self._client] where the code calls a method of it. *)
Definition backend : coroutine link :=
  c ← raw_client;
  match c with Some c => mret c | None => raise AttributeError end.

(** [if not self._client or not self._client.is_connected: raise]. *)
Definition require_connected : coroutine unit :=
  b ← is_connected;
  raise_when (negb b) (RuntimeError "Not connected").

(** [BleakClient(...)]: a new object. *)
Definition new_link (v1 : bool) : coroutine link :=
  h ← get_own;
  update_own (fun h => mkHost (client h) (links h + 1) (local h));;
  mret (mkLink (links h) v1).

Definition scan_and_connect : coroutine bool :=
  h ← get_own;
  found ← perform (FindByName (_device_name (client h)));
  update_own (on_client (fun x => set_client (_client x) found x));;
  match found with
  | None => mret false
  | Some _ =>
      update_own clear_v1_cp3;;
      c ← new_link false;
      update_own (on_client (fun x => set_client (Some c) (_device x) x));;
      perform (Connect c);;
      mtu_size;;
      mret true
  end.

Definition disconnect : coroutine unit :=
  update_own clear_v1_cp3;;
  b ← is_connected;
  if (b : bool) then c ← backend; perform (Disconnect c) else mret tt.

Definition reconnect : coroutine bool :=
  try_except is_exception (fun _ => mret tt) disconnect;;
  scan_and_connect.

Definition reconnect_v1_peer : coroutine bool :=
  h ← get_own;
  match _device (client h) with
  | None => raise (RuntimeError "No known CP1 peer to reconnect")
  | Some d =>
      let old_client := _client (client h) in
      update_own clear_v1_cp3;;
      match old_client with Some c => perform (Disconnect c) | None => mret tt end;;
      peer ← perform (FindByAddress (device_address d));
      match peer with
      | None => mret false
      | Some _ =>
          c ← new_link true;
          update_own (on_client (set_client (Some c) peer));;
          perform (Connect c);;
          is_connected
      end
  end.

Definition read_fragmented_public_key : coroutine bytes :=
  require_connected;;
  mtu_size;;
  c ← backend;
  data ← perform (ReadGatt c CHAR_PUBKEY_UUID);
  mtu_size;;
  mret data.

Definition read_public_key : coroutine bytes := read_fragmented_public_key.

Definition write_fragmented_ciphertext (data : bytes) : coroutine Z :=
  require_connected;;
  negotiated_mtu ← mtu_size;
  let mtu := if 23 <? negotiated_mtu then Z.min negotiated_mtu BLE_MTU else BLE_MTU in
  fragments ← run (fragment_data data mtu);
  for_each (fun frag => c ← backend; perform (WriteGatt c CHAR_CIPHERTEXT_UUID frag)) fragments;;
  mret (Z.of_nat (length fragments)).

Definition write_raw_ciphertext_fragment (fragment : bytes) : coroutine unit :=
  require_connected;;
  c ← backend;
  perform (WriteGatt c CHAR_CIPHERTEXT_UUID fragment).

Definition write_ciphertext (data : bytes) : coroutine Z := write_fragmented_ciphertext data.

Definition send_control (data : bytes) : coroutine unit :=
  require_connected;;
  c ← backend;
  perform (WriteGatt c CHAR_CONTROL_UUID data).

Definition write_secure_data (data : bytes) : coroutine unit :=
  require_connected;;
  raise_when (bool_decide (data = [])) (ValueError "Secure Data write cannot be empty");;
  c ← backend;
  perform (WriteGatt c CHAR_DATA_UUID data).

Definition start_notify : coroutine unit :=
  require_connected;;
  c ← backend;
  perform (StartNotify c CHAR_DATA_UUID);;
  update_own (on_client (fun x => set_notify_link (_client x) x)).

Definition stop_notify : coroutine unit :=
  update_own clear_v1_cp3;;
  b ← is_connected;
  if (b : bool) then c ← backend; perform (StopNotify c CHAR_DATA_UUID) else mret tt.
End Client.

(** * Reasoning about coroutines

    [at_point I c T s]: the invariant [I] of objects and trace holds, the
    client's current [BleakClient] is [c], and [T] are the requests so far. *)
Section Points.
Context {W L : Type} `{Env W, Program L}.
Implicit Types (I : host L -> list observed -> Prop) (T : list action).

(** Preserved by everything an environment may do during an await. *)
Class Stable I : Prop := {
  stable_heard e h t : I h t -> I (hear e h) (t ++ [Heard e]);
  stable_did a r h t : I h t -> I h (t ++ [Did a r]);
}.

Definition at_point I (c : link) T (s : io W (host L)) : Prop :=
  I (self s) (trace s) /\ _client (client (self s)) = Some c /\ ops (trace s) = T.

(** Neither the callbacks nor [clear_v1_cp3] replace the [BleakClient]. *)
Lemma clear_v1_cp3_client h : _client (client (clear_v1_cp3 h)) = _client (client h).
Proof.
  unfold clear_v1_cp3, on_client, on_local. cbn.
  by repeat (case_match; cbn).
Qed.

Lemma hear_client e h : _client (client (hear e h)) = _client (client h).
Proof.
  destruct e as [b x|c]; [done|]. unfold hear, hear_host, _on_disconnect, _on_v1_disconnect.
  repeat case_match; by rewrite ?clear_v1_cp3_client.
Qed.

Lemma stable_events I evs h t :
  Stable I -> I h t -> I (fold_left (fun x e => hear e x) evs h) (t ++ map Heard evs).
Proof.
  intros HI. revert h t. induction evs as [|e evs IH]; intros h t Ht; cbn.
  - by rewrite app_nil_r.
  - rewrite cons_middle, app_assoc. by apply IH, stable_heard.
Qed.

Lemma events_client evs (h : host L) :
  _client (client (fold_left (fun x e => hear e x) evs h)) = _client (client h).
Proof.
  revert h. induction evs as [|e evs IH]; intros h; cbn; [done|]. by rewrite IH, hear_client.
Qed.

(** [I], and [o] has happened. *)
Definition seen I (o : observed) : host L -> list observed -> Prop :=
  fun h t => I h t /\ o ∈ t.

Lemma seen_stable I o : Stable I -> Stable (seen I o).
Proof.
  intros HI. split; intros ? ? ? ? [Hi Ho] || intros ? ? ? [Hi Ho];
    (split; [by apply HI|rewrite elem_of_app; by left]).
Qed.

Definition grow (a : action) T : list action :=
  match a with Wait => T | _ => T ++ [a] end.

Lemma triple_perform I c T a :
  Stable I ->
  triple (at_point I c T) (perform a)
    (fun v => at_point (seen I (Did a (Ok v))) c (grow a T))
    (fun _ => at_point I c (grow a T)).
Proof.
  intros HI s (Hi & Hc & Ht). unfold perform.
  destruct (await a (world s)) as [[evs r] w].
  assert (at_point I c (grow a T) (mkIo w (fold_left (fun x e => hear e x) evs (self s))
            (trace s ++ Did a r :: map Heard evs))) as Hp.
  { split_and!; cbn.
    - rewrite cons_middle, app_assoc. apply stable_events; [done|]. by apply stable_did.
    - by rewrite events_client.
    - rewrite ops_app, Ht. destruct a; cbn; by rewrite ops_heard, ?app_nil_r. }
  destruct r as [v|x]; [|done]. destruct Hp as (Hp & Hl & Ho). split_and!; [|done..].
  split; [done|]. cbn. rewrite elem_of_app. right. by left.
Qed.

Lemma triple_query I c T q E :
  triple (at_point I c T) (query_env q) (fun _ => at_point I c T) E.
Proof. intros s Hs. unfold query_env. by destruct (ask q (world s)). Qed.

Lemma step_query {B} q I c T (k : answer q -> method (io W (host L)) B) Q E :
  (forall a, triple (at_point I c T) (k a) Q E) ->
  triple (at_point I c T) (x ← query_env q; k x) Q E.
Proof. intros Hk. eapply triple_bind; [apply triple_query|exact Hk]. Qed.

Lemma triple_backend I c T E :
  triple (at_point I c T) backend (fun c' s => c' = c /\ at_point I c T s) E.
Proof. intros s (? & Hc & ?). unfold backend, raw_client, get_own. meth. by rewrite Hc. Qed.

Lemma triple_mtu_size I c T E :
  triple (at_point I c T) mtu_size (fun _ => at_point I c T) E.
Proof.
  intros s (Hi & Hc & Ht). unfold mtu_size, raw_client, get_own. meth. rewrite Hc.
  apply (triple_query I c T (MtuSize c) E s). by split_and!.
Qed.

Lemma triple_is_connected I c T E :
  triple (at_point I c T) is_connected (fun _ => at_point I c T) E.
Proof.
  intros s (Hi & Hc & Ht). unfold is_connected, raw_client, get_own. meth. rewrite Hc.
  apply (triple_query I c T (IsConnected c) E s). by split_and!.
Qed.

Lemma triple_require_connected I c T :
  triple (at_point I c T) require_connected (fun _ => at_point I c T) (fun _ => at_point I c T).
Proof.
  eapply triple_bind; [apply triple_is_connected|]. intros b. by apply triple_raise_when.
Qed.

(** An exception after some of the requests [todo]. *)
Definition stopped I c T (todo : list action) (s : io W (host L)) : Prop :=
  exists done, done `prefix_of` todo /\ at_point I c (T ++ done) s.

Lemma stopped_0 I c T todo s : at_point I c T s -> stopped I c T todo s.
Proof. intros Hs. exists []. rewrite app_nil_r. split; [apply prefix_nil|done]. Qed.

Lemma stopped_all I c T todo s : at_point I c (T ++ todo) s -> stopped I c T todo s.
Proof. intros Hs. by exists todo. Qed.

Lemma stopped_app I c T todo more s :
  stopped I c T todo s -> stopped I c T (todo ++ more) s.
Proof. intros (d & Hd & Hs). exists d. split; [by apply prefix_app_r|done]. Qed.

Lemma stopped_after I c T first todo s :
  stopped I c (T ++ first) todo s -> stopped I c T (first ++ todo) s.
Proof.
  intros (d & Hd & Hs). exists (first ++ d).
  split; [by apply prefix_app|]. by rewrite app_assoc.
Qed.

Lemma triple_on_backend {A} I c T (k : link -> method (io W (host L)) A) Q E :
  triple (at_point I c T) (k c) Q E -> triple (at_point I c T) (c' ← backend; k c') Q E.
Proof.
  intros Hk. eapply triple_bind; [apply triple_backend|]. intros c'.
  by apply triple_pure; intros ->.
Qed.

Definition awaited (a : action) : bool := match a with Wait => false | _ => true end.

Lemma triple_op I c T a :
  Stable I -> awaited a = true ->
  triple (at_point I c T) (perform a)
    (fun v => at_point (seen I (Did a (Ok v))) c (T ++ [a])) (fun _ => stopped I c T [a]).
Proof.
  intros HI Ha. assert (grow a T = T ++ [a]) as Hg by by destruct a.
  eapply triple_conseq; [by intros s Hs|by apply triple_perform| |].
  - intros v s Hs. by rewrite Hg in Hs.
  - intros x s Hs. rewrite Hg in Hs. by apply stopped_all.
Qed.

Lemma triple_checked {A} I c T todo (k : method (io W (host L)) A) Q :
  triple (at_point I c T) k Q (fun _ => stopped I c T todo) ->
  triple (at_point I c T) (require_connected;; k) Q (fun _ => stopped I c T todo).
Proof.
  intros Hk. eapply triple_bind; [|intros u; exact Hk].
  eapply triple_conseq; [by intros s Hs|apply triple_require_connected|by intros ? s Hs|].
  intros x. apply stopped_0.
Qed.

Lemma at_seen I o c T s : at_point (seen I o) c T s -> at_point I c T s.
Proof. by intros [[? _] ?]. Qed.

(** ** The operations of the client *)

Lemma triple_send_control_seen I c T data :
  Stable I ->
  triple (at_point I c T) (send_control data)
    (fun _ => at_point (seen I (Did (WriteGatt c CHAR_CONTROL_UUID data) (Ok tt))) c
                (T ++ [WriteGatt c CHAR_CONTROL_UUID data]))
    (fun _ => stopped I c T [WriteGatt c CHAR_CONTROL_UUID data]).
Proof.
  intros HI. apply triple_checked, triple_on_backend.
  eapply triple_conseq;
    [by intros s Hs|by apply (triple_op I c T (WriteGatt c CHAR_CONTROL_UUID data))| |done].
  by intros [] s Hs.
Qed.

Lemma triple_send_control I c T data :
  Stable I ->
  triple (at_point I c T) (send_control data)
    (fun _ => at_point I c (T ++ [WriteGatt c CHAR_CONTROL_UUID data]))
    (fun _ => stopped I c T [WriteGatt c CHAR_CONTROL_UUID data]).
Proof.
  intros HI. eapply triple_conseq; [by intros s Hs|by apply triple_send_control_seen| |done].
  intros v s. apply at_seen.
Qed.

Lemma triple_read_public_key I c T :
  Stable I ->
  triple (at_point I c T) read_fragmented_public_key
    (fun pk => at_point (seen I (Did (ReadGatt c CHAR_PUBKEY_UUID) (Ok pk))) c
                 (T ++ [ReadGatt c CHAR_PUBKEY_UUID]))
    (fun _ => stopped I c T [ReadGatt c CHAR_PUBKEY_UUID]).
Proof.
  intros HI. apply triple_checked. eapply triple_bind; [apply triple_mtu_size|]. intros ?.
  apply triple_on_backend. eapply triple_bind; [by apply (triple_op I c T (ReadGatt c CHAR_PUBKEY_UUID))|]. intros pk.
  eapply triple_bind; [apply triple_mtu_size|]. intros ?. by apply triple_ret.
Qed.

(** A change of the program's own objects. *)
Lemma triple_update_own I c T I' c' (f : host L -> host L) E :
  (forall h t, I h t -> _client (client h) = Some c -> I' (f h) t /\ _client (client (f h)) = Some c') ->
  triple (at_point I c T) (update_own f : method (io W (host L)) unit)
    (fun _ => at_point I' c' T) E.
Proof. intros Hf s (Hi & Hc & Ht). destruct (Hf _ _ Hi Hc) as [? ?]. by split_and!. Qed.

Lemma triple_start_notify I c T :
  Stable I -> (forall h t l, I h t -> I (on_client (set_notify_link l) h) t) ->
  triple (at_point I c T) start_notify
    (fun _ => at_point I c (T ++ [StartNotify c CHAR_DATA_UUID]))
    (fun _ => stopped I c T [StartNotify c CHAR_DATA_UUID]).
Proof.
  intros HI Hfree. apply triple_checked, triple_on_backend.
  eapply triple_bind; [by apply (triple_op I c T (StartNotify c CHAR_DATA_UUID))|]. intros v.
  eapply triple_weaken; [intros s; apply at_seen|].
  apply triple_update_own. intros h t Hi Hc. split; [by apply Hfree|done].
Qed.

Lemma triple_stop_notify I c T :
  Stable I -> (forall h t, I h t -> I (clear_v1_cp3 h) t) ->
  triple (at_point I c T) stop_notify
    (fun _ => stopped I c T [StopNotify c CHAR_DATA_UUID])
    (fun _ => stopped I c T [StopNotify c CHAR_DATA_UUID]).
Proof.
  intros HI Hclear. eapply triple_bind with (R := fun _ => at_point I c T).
  { apply triple_update_own. intros h t Hi Hc. rewrite clear_v1_cp3_client. auto. }
  intros ?. eapply triple_bind; [apply triple_is_connected|]. intros [|]; cycle 1.
  { apply triple_ret. intros s. apply stopped_0. }
  apply triple_on_backend.
  eapply triple_conseq; [by intros s Hs|by apply (triple_op I c T (StopNotify c CHAR_DATA_UUID))| |done].
  intros v s Hs%at_seen. by apply stopped_all.
Qed.

Definition ciphertext_frames (c : link) (frames : list bytes) : list action :=
  map (WriteGatt c CHAR_CIPHERTEXT_UUID) frames.

(** The logical frame size: the negotiated MTU, at most 512. *)
Definition frame_mtu (negotiated : Z) : Z :=
  if 23 <? negotiated then Z.min negotiated BLE_MTU else BLE_MTU.

Lemma triple_write_frames I c T frames :
  Stable I ->
  triple (at_point I c T)
    (for_each (fun frag => c' ← backend; perform (WriteGatt c' CHAR_CIPHERTEXT_UUID frag)) frames)
    (fun _ => at_point I c (T ++ ciphertext_frames c frames))
    (fun _ => stopped I c T (ciphertext_frames c frames)).
Proof.
  intros HI. revert T. induction frames as [|f frames IH]; intros T; cbn [for_each].
  - apply triple_ret. intros s Hs. cbn. by rewrite app_nil_r.
  - eapply triple_bind.
    + apply triple_on_backend. eapply triple_conseq;
        [by intros s Hs|by apply (triple_op I c T (WriteGatt c CHAR_CIPHERTEXT_UUID f))| |].
      * intros v s. apply at_seen.
      * intros x s Hs. by apply (stopped_app I c T [_]).
    + intros ?. eapply triple_conseq; [by intros s Hs|apply IH| |].
      * intros v s Hs. cbn. by rewrite <- app_assoc in Hs.
      * intros x s Hs. by apply (stopped_after I c T [_]).
Qed.

Lemma triple_write_ciphertext I c T data :
  Stable I ->
  triple (at_point I c T) (write_fragmented_ciphertext data)
    (fun n s => exists mtu frames, fragment_data data (frame_mtu mtu) = Ok frames /\
       n = Z.of_nat (length frames) /\ at_point I c (T ++ ciphertext_frames c frames) s)
    (fun _ s => stopped I c T [] s \/
       exists mtu frames, fragment_data data (frame_mtu mtu) = Ok frames /\
       stopped I c T (ciphertext_frames c frames) s).
Proof.
  intros HI. eapply triple_bind.
  { eapply triple_conseq; [by intros s Hs|apply triple_require_connected|by intros ? s Hs|].
    intros x s Hs. left. by apply stopped_0. }
  intros ?. eapply triple_bind; [apply triple_mtu_size|]. intros mtu.
  change (if 23 <? mtu then _ else _) with (frame_mtu mtu).
  destruct (fragment_data data (frame_mtu mtu)) as [frames|x] eqn:Hf; cycle 1.
  { eapply triple_bind with (R := fun _ _ => False); [|by intros ? ? []].
    apply triple_run; [done|]. intros ? [= <-] s Hs. left. by apply stopped_0. }
  eapply triple_bind with (R := fun fs s => fs = frames /\ at_point I c T s).
  { apply triple_run; [|done]. by intros ? [= <-]. }
  intros fs. apply triple_pure. intros ->. eapply triple_bind with
    (R := fun _ => at_point I c (T ++ ciphertext_frames c frames)).
  - eapply triple_conseq; [by intros s Hs|by apply triple_write_frames| |].
    + by intros u s Hs.
    + intros x s Hs. right. eauto.
  - intros ?. apply triple_ret. intros s Hs. eauto.
Qed.
End Points.

(** * The ciphertext transport *)

Lemma frame_mtu_bounds m : 24 <= frame_mtu m <= 512.
Proof. unfold frame_mtu, BLE_MTU. destruct (Z.ltb_spec 23 m); lia. Qed.

Lemma frame_mtu_fragments data m :
  blen data <= 5100 ->
  frag_count data (frame_mtu m - HEADER_SIZE) <= 255 /\
  fragment_data data (frame_mtu m) =
    Ok (map frag_wire (frag_list data (frame_mtu m - HEADER_SIZE))).
Proof.
  intros Hd. pose proof (frame_mtu_bounds m). pose proof (blen_nonneg data).
  assert (frag_count data (frame_mtu m - HEADER_SIZE) <= 255) as Hc.
  { unfold frag_count, HEADER_SIZE. destruct (Z.eqb_spec (blen data) 0); [lia|].
    apply Z.lt_succ_r, Z.div_lt_upper_bound; nia. }
  split; [done|]. apply fragment_data_Ok; [unfold HEADER_SIZE; lia|done].
Qed.

(** The Peripheral can rebuild [data] from these frames. *)
Definition delivers (data : bytes) (frames : list bytes) : Prop :=
  Forall (fun w => blen w <= BLE_MTU) frames /\
  forall wires, wires ≡ₚ frames -> reassemble_data wires = Ok data.

Lemma frame_mtu_delivers data m frames :
  blen data <= 5100 -> fragment_data data (frame_mtu m) = Ok frames -> delivers data frames.
Proof.
  intros Hd Hf. destruct (frame_mtu_fragments data m Hd) as [Hc Hok].
  rewrite Hok in Hf. injection Hf as <-. pose proof (frame_mtu_bounds m).
  unfold HEADER_SIZE, BLE_MTU in *. split.
  - apply Forall_forall. intros w Hw.
    pose proof (frag_list_wires_short data (frame_mtu m - 4) ltac:(lia)) as Hs.
    rewrite Forall_forall in Hs. specialize (Hs w Hw). unfold HEADER_SIZE in Hs. unfold BLE_MTU. lia.
  - intros wires Hw. apply reassemble_data_iff.
    eapply frag_list_reassembles; [|exact Hc|exact Hw]. lia.
Qed.

Lemma prefix_of_map {A B} (f : A -> B) d l :
  d `prefix_of` map f l -> exists k, d = map f k /\ k `prefix_of` l.
Proof.
  intros [r Hr]. apply map_eq_app in Hr as (l1 & l2 & -> & <- & _).
  exists l1. split; [done|]. by exists l2.
Qed.

#[export] Instance stable_true {L} `{Program L} :
  Stable (fun (_ : host L) (_ : list observed) => True).
Proof. by split. Qed.

Section Transport.
Context {W L : Type} `{Env W, Program L}.

(** C32. For any backend and any MTU, and for data of at most 5100 bytes, which
    255 frames carry at the smallest MTU (a ciphertext has 1088),
    [write_fragmented_ciphertext] sends to the ciphertext characteristic a prefix
    of a list of frames of at most 512 bytes that reassembles, in any order, to the
    data; when it returns, it has sent all of them and returns their number. *)
Theorem write_fragmented_ciphertext_delivers c data (s : io W (host L)) :
  _client (client (self s)) = Some c -> blen data <= 5100 ->
  let '(r, s') := write_fragmented_ciphertext data s in
  exists frames sent,
    delivers data frames /\ sent `prefix_of` frames /\
    ops (trace s') = ops (trace s) ++ map (WriteGatt c CHAR_CIPHERTEXT_UUID) sent /\
    forall n, r = Ok n -> sent = frames /\ n = Z.of_nat (length frames).
Proof.
  intros Hc Hd.
  pose proof (triple_write_ciphertext (fun _ _ => True) c (ops (trace s)) data _ s
                (conj I (conj Hc eq_refl))) as Ht.
  destruct (write_fragmented_ciphertext data s) as [[n|x] s'].
  - destruct Ht as (m & frames & Hf & -> & _ & _ & Hops). exists frames, frames.
    split_and!; [by eapply frame_mtu_delivers|done|exact Hops|]. by intros ? [= <-].
  - destruct Ht as [Hs|(m & frames & Hf & done & Hp & _ & _ & Hops)].
    + destruct Hs as (d & Hp & _ & _ & Hops). apply prefix_nil_inv in Hp as ->.
      destruct (frame_mtu_fragments data 512 Hd) as [_ Hf].
      eexists _, []. split_and!; [by eapply frame_mtu_delivers|apply prefix_nil|exact Hops|done].
    + apply prefix_of_map in Hp as (sent & -> & Hp). exists frames, sent.
      split_and!; [by eapply frame_mtu_delivers|done|exact Hops|done].
Qed.
End Transport.

(** * Reconnecting *)

Section Reconnect.
Context {W L : Type} `{Env W, Program L}.

(** No session or application object is shared with the client. *)
Definition idle (x : BLECentralClient) : Prop :=
  _v1_cp3_session x = None /\ _v1_cp4_session x = None.

Lemma clear_v1_cp3_idle (h : host L) :
  idle (client (clear_v1_cp3 h)) /\ links (clear_v1_cp3 h) = links h /\
  _device (client (clear_v1_cp3 h)) = _device (client h).
Proof.
  unfold clear_v1_cp3, on_client, on_local, idle. cbn.
  repeat (case_match; cbn); done.
Qed.

Lemma hear_idle e (h : host L) :
  idle (client h) ->
  idle (client (hear e h)) /\ links (hear e h) = links h /\
  _device (client (hear e h)) = _device (client h).
Proof.
  intros Hi. destruct e as [b x|c]; [done|].
  unfold hear, hear_host, _on_disconnect, _on_v1_disconnect.
  repeat case_match; try apply clear_v1_cp3_idle; done.
Qed.

Definition retired (n : Z) (d : option device) (h : host L) (t : list observed) : Prop :=
  idle (client h) /\ links h = n /\ _device (client h) = d.

#[export] Instance retired_stable n d : Stable (retired n d).
Proof.
  split; [|done]. intros e h t (Hi & Hn & Hd).
  destruct (hear_idle e h Hi) as (? & Hl & He). unfold retired. by rewrite Hl, He.
Qed.

Lemma triple_new_link n d c T v1 E :
  triple (at_point (retired n d) c T) (new_link v1 : method (io W (host L)) link)
    (fun c' s => c' = mkLink n v1 /\ at_point (retired (n + 1) d) c T s) E.
Proof.
  intros s ((Hi & Hn & Hd) & Hc & Ht). unfold new_link, get_own, update_own. meth. cbn.
  by rewrite Hn.
Qed.

(** The requests of a reconnection to the device at [a]. *)
Definition reconnect_script (old : link) (a : string) (new : link) : list action :=
  [Disconnect old; FindByAddress a; Connect new].

(** Some of the requests were made, and nothing is shared any more. *)
Definition reconnecting (T script : list action) (s : io W (host L)) : Prop :=
  exists sent c n p, sent `prefix_of` script /\ at_point (retired n p) c (T ++ sent) s.

Lemma stopped_reconnecting n p c T before todo script s :
  (before ++ todo) `prefix_of` script ->
  stopped (retired n p) c (T ++ before) todo s -> reconnecting T script s.
Proof.
  intros Hp (d & Hd & Hs). exists (before ++ d), c, n, p. rewrite app_assoc. split; [|done].
  etrans; [by apply prefix_app|done].
Qed.

Lemma triple_reconnect_v1_peer n old d T :
  let new := mkLink n true in
  let script := reconnect_script old (device_address d) new in
  triple (fun s => _client (client (self s)) = Some old /\ _device (client (self s)) = Some d /\
            links (self s) = n /\ ops (trace s) = T)
    (reconnect_v1_peer : method (io W (host L)) bool)
    (fun r s => reconnecting T script s /\
       (r = true -> exists p, at_point (retired (n + 1) p) new (T ++ script) s))
    (fun _ => reconnecting T script).
Proof.
  intros new script. unfold reconnect_v1_peer. eapply triple_bind with (R := fun h s =>
    (_client (client h) = Some old /\ _device (client h) = Some d) /\
    at_point (fun h _ => links h = n /\ _device (client h) = Some d) old T s).
  { intros s (Hc & Hd & Hn & Ht). by split_and!. }
  intros h. apply triple_pure. intros [-> ->].
  eapply triple_bind with (R := fun _ => at_point (retired n (Some d)) old T).
  { eapply triple_update_own. intros h' t [Hn Hd] Hc.
    destruct (clear_v1_cp3_idle h') as (Hi & Hl & He). unfold retired.
    rewrite clear_v1_cp3_client, Hl, He. by split_and!. }
  intros ?. eapply triple_bind.
  { eapply triple_conseq; [by intros s Hs|apply (triple_op _ old T (Disconnect old)); [apply _|done]|by intros v s Hs|].
    intros x s Hs. eapply (stopped_reconnecting _ _ _ T []); [|rewrite app_nil_r; exact Hs].
    by eexists [_; _]. }
  intros v. eapply triple_bind.
  { eapply triple_conseq; [intros s Hs; exact (at_seen _ _ _ _ _ Hs)
      |apply (triple_op _ old _ (FindByAddress (device_address d))); [apply _|done]|by intros p s Hs|].
    intros x s Hs. eapply (stopped_reconnecting _ _ _ T [_]); [|exact Hs]. by eexists [_]. }
  intros [p|]; cycle 1.
  { apply triple_ret. intros s Hs%at_seen. split; [|done].
    exists [Disconnect old; FindByAddress (device_address d)], old, n, (Some d).
    split; [by eexists [_]|]. by rewrite <- app_assoc in Hs. }
  eapply triple_bind with (R := fun c s => c = new /\
    at_point (retired (n + 1) (Some d)) old _ s).
  { intros s Hs%at_seen. exact (triple_new_link n (Some d) old _ true (fun _ => reconnecting T script) s Hs). }
  intros c. apply triple_pure. intros ->. rewrite <- app_assoc. eapply triple_bind.
  { eapply (triple_update_own _ _ _ (retired (n + 1) (Some p)) new).
    by intros h' t (Hi & Hn & Hd) Hc. }
  intros ?. eapply triple_bind.
  { eapply triple_conseq; [by intros s Hs|apply (triple_op _ new _ (Connect new)); [apply _|done]|by intros v' s Hs|].
    intros x s Hs. eapply (stopped_reconnecting _ _ _ T [_; _]); [|exact Hs]. by eexists []. }
  intros v'. eapply triple_conseq; [intros s Hs; exact (at_seen _ _ _ _ _ Hs)
    |apply triple_is_connected| |intros x s Hs; exact Hs].
  intros b s Hs. rewrite <- app_assoc in Hs. split; [|by exists (Some p)].
  by exists script, new, (n + 1), (Some p).
Qed.

(** Reconnecting keeps the peer: for any backend, [reconnect_v1_peer]
    first retires the shared session and application objects, then makes only
    these requests, in this order: disconnect the old [BleakClient], scan for
    the address of the known device (never for a name), connect a new
    [BleakClient]; [True] means it made all three, and nothing is shared. *)
Theorem reconnect_v1_peer_exact old d (s : io W (host L)) :
  _client (client (self s)) = Some old -> _device (client (self s)) = Some d ->
  let '(r, s') := reconnect_v1_peer s in
  let new := mkLink (links (self s)) true in
  let script := [Disconnect old; FindByAddress (device_address d); Connect new] in
  (exists sent, sent `prefix_of` script /\ ops (trace s') = ops (trace s) ++ sent) /\
  _v1_cp3_session (client (self s')) = None /\ _v1_cp4_session (client (self s')) = None /\
  (r = Ok true -> ops (trace s') = ops (trace s) ++ script /\
                  _client (client (self s')) = Some new).
Proof.
  intros Hc Hd.
  pose proof (triple_reconnect_v1_peer (links (self s)) old d (ops (trace s)) s
                (conj Hc (conj Hd (conj eq_refl eq_refl)))) as Ht.
  destruct (reconnect_v1_peer s) as [[b|x] s']; cbn zeta.
  - destruct Ht as [(sent & c & n & p & Hp & ((Hi & Hi') & _) & _ & Ho) Hb].
    split_and!; [by exists sent|done|done|]. intros [= ->].
    destruct (Hb eq_refl) as (p' & _ & Hn & Hs). done.
  - destruct Ht as (sent & c & n & p & Hp & ((Hi & Hi') & _) & _ & Ho).
    split_and!; [by exists sent|done|done|done].
Qed.
End Reconnect.

(** * Witnesses *)

(** A link on which everything succeeds, and a coroutine with no objects. *)
Module Ideal.
#[export] Instance environment : Env unit := {
  ask q w := match q as q return answer q * unit with
             | IsConnected _ => (true, w)
             | MtuSize _ => (247, w)
             | Urandom n => (zeros n, w)
             | Coins => ([], w)
             | TimerFired | GuardFailed => (false, w)
             | Now => (0, w)
             end;
  await a w := match a as a return list event * result (value a) * unit with
               | FindByName n => ([], Ok (Some (mkDevice n "00:11:22:33:44:55")), w)
               | FindByAddress d => ([], Ok (Some (mkDevice DEVICE_NAME d)), w)
               | ReadGatt _ _ => ([], Ok [], w)
               | Confirm _ => ([], Ok true, w)
               | InspectPairing => ([], Ok (mkPairingState false true "NONE"), w)
               | PairNumericComparison | PairJustWorks => ([], Err (OtherException None), w)
               | Connect _ | Disconnect _ | WriteGatt _ _ _ | StartNotify _ _ | StopNotify _ _
               | Wait | Unpair => ([], Ok tt, w)
               end;
}.

#[export] Instance program : Program unit := { clear_object _ l := l; on_data _ _ _ l := l }.

Definition connected : io unit (host unit) :=
  mkIo tt (mkHost (mkClient DEVICE_NAME (Some (mkLink 0 false))
                     (Some (mkDevice DEVICE_NAME "00:11:22:33:44:55")) None (Some 1) (Some 2)
                     (Some (mkLink 0 false)) false) 1 tt) [].
End Ideal.

Lemma write_fragmented_ciphertext_delivers_witness :
  exists frames,
    (@write_fragmented_ciphertext unit unit Ideal.environment Ideal.program (zeros 1088) Ideal.connected).1
      = Ok (Z.of_nat (length frames)) /\ length frames = 5%nat /\ delivers (zeros 1088) frames.
Proof.
  pose proof (@write_fragmented_ciphertext_delivers unit unit Ideal.environment Ideal.program (mkLink 0 false) (zeros 1088) Ideal.connected
                eq_refl ltac:(vm_compute; discriminate)) as Hw.
  assert ((@write_fragmented_ciphertext unit unit Ideal.environment Ideal.program (zeros 1088)
             Ideal.connected).1 = Ok 5) as Hr by (vm_compute; reflexivity).
  destruct (@write_fragmented_ciphertext unit unit Ideal.environment Ideal.program (zeros 1088)
              Ideal.connected) as [r s']. cbn [fst] in Hr |- *. subst r.
  destruct Hw as (frames & sent & Hd & _ & _ & Hn). destruct (Hn 5 eq_refl) as [_ Hlen].
  exists frames. split; [by rewrite <- Hlen|]. split; [lia|exact Hd].
Defined.

Lemma reconnect_v1_peer_exact_witness :
  (@reconnect_v1_peer unit unit Ideal.environment Ideal.program Ideal.connected).1 = Ok true /\
  ops (trace (@reconnect_v1_peer unit unit Ideal.environment Ideal.program Ideal.connected).2) =
    [Disconnect (mkLink 0 false); FindByAddress "00:11:22:33:44:55"; Connect (mkLink 1 true)].
Proof.
  pose proof (@reconnect_v1_peer_exact unit unit Ideal.environment Ideal.program (mkLink 0 false) (mkDevice DEVICE_NAME "00:11:22:33:44:55")
                Ideal.connected eq_refl eq_refl) as Hr.
  assert ((@reconnect_v1_peer unit unit Ideal.environment Ideal.program Ideal.connected).1 = Ok true)
    as Hok by (vm_compute; reflexivity).
  destruct (@reconnect_v1_peer unit unit Ideal.environment Ideal.program Ideal.connected) as [r s'].
  cbn [fst snd] in *. split; [exact Hok|]. exact (proj1 (proj2 (proj2 (proj2 Hr)) Hok)).
Defined.
