(* ===== verification/Runs.v ===== *)
(** Runs inside larger runs. A runner promises what its trace says, starting from
    no trace, to whoever awaits it: that is the class [Contract], which the runners
    instantiate and their clients use. A coroutine never reads the trace, so what
    it does after other requests is what it does on its own: that is the class
    [Framed], which the tactic [framed] proves along the structure of the code. The
    requests a coroutine can make at all are the class [Asks]. *)

From S2P Require Import Prelude Py World BleClient.
Open Scope Z_scope.

(** * The trace is no part of the program *)

Section Framed.
Context {W S : Type}.

(** The state with [t] before its trace. *)
Definition past (t : list observed) (s : io W S) : io W S := mkIo (world s) (self s) (t ++ trace s).

Class Framed {A} (m : method (io W S) A) : Prop :=
  framed t s : m (past t s) = (let (r, s') := m s in (r, past t s')).

Lemma framed_ret {A} (a : A) : Framed (mret a).
Proof. by intros t s. Qed.

Lemma framed_raise {A} x : Framed (raise x : method (io W S) A).
Proof. by intros t s. Qed.

Lemma framed_raise_when c x : Framed (raise_when c x : method (io W S) unit).
Proof. by intros t s. Qed.

Lemma framed_run {A} (r : result A) : Framed (run r).
Proof. by intros t s. Qed.

Lemma framed_bind {A B} (m : method (io W S) A) (k : A -> method (io W S) B) :
  Framed m -> (forall a, Framed (k a)) -> Framed (x ← m; k x).
Proof.
  intros Hm Hk t s. unfold mbind, method_bind. rewrite (framed (m := m) t s).
  destruct (m s) as [[a|x] s']; [apply Hk|done].
Qed.

Lemma framed_except {A} catches h (m : method (io W S) A) :
  Framed m -> (forall x, Framed (h x)) -> Framed (try_except catches h m).
Proof.
  intros Hm Hh t s. unfold try_except. rewrite (framed (m := m) t s).
  destruct (m s) as [[a|x] s']; [done|]. destruct (catches x); [apply Hh|done].
Qed.

Lemma framed_finally {A} c (m : method (io W S) A) :
  Framed m -> Framed c -> Framed (try_finally c m).
Proof.
  intros Hm Hc t s. unfold try_finally. rewrite (framed (m := m) t s).
  destruct (m s) as [r s']. rewrite (framed (m := c) t s'). by destruct (c s') as [[u|x] u'].
Qed.

Lemma framed_for_each {A} (body : A -> method (io W S) unit) l :
  (forall x, Framed (body x)) -> Framed (for_each body l).
Proof.
  intros Hb. induction l as [|x l IH]; [apply framed_ret|]. cbn [for_each].
  apply framed_bind; [apply Hb|intros _; exact IH].
Qed.

Section Environment.
Context `{Env W, Hears S}.

Lemma framed_perform a : Framed (perform a).
Proof.
  intros t s. unfold perform, past. cbn. destruct (await a (world s)) as [[evs r] w]. cbn.
  by rewrite app_assoc.
Qed.

Lemma framed_query q : Framed (query_env q).
Proof. intros t s. unfold query_env, past. cbn. by destruct (ask q (world s)). Qed.
End Environment.

Lemma framed_get : Framed get_own.
Proof. by intros t s. Qed.

Lemma framed_update f : Framed (update_own f).
Proof. by intros t s. Qed.

Lemma framed_call {T A} (get : S -> T) set (m : method T A) : Framed (call get set m).
Proof. intros t s. unfold call, past. cbn. by destruct (m (get (self s))). Qed.

(** The outcome of a run after a trace, from that of the run after none. *)
Lemma framed_apart {A} (m : method (io W S) A) s :
  Framed m ->
  m s = (let (r, s') := m (mkIo (world s) (self s) []) in (r, past (trace s) s')).
Proof.
  intros Hm. rewrite <- framed. f_equal. destruct s as [w h t]. unfold past. cbn. by rewrite app_nil_r.
Qed.
End Framed.

(** The constant a term applies. *)
Ltac head_of m :=
  lazymatch m with
  | ?f _ => head_of f
  | ?f => f
  end.

(** Follows the structure of a coroutine, unfolding what is not a combinator. *)
Ltac framed_step :=
  lazymatch goal with
  | |- forall _, _ => intros ?
  | |- Framed (match ?x with _ => _ end) => destruct x
  | |- Framed (mret _) => apply framed_ret
  | |- Framed (raise _) => apply framed_raise
  | |- Framed (raise_when _ _) => apply framed_raise_when
  | |- Framed (run _) => apply framed_run
  | |- Framed (mbind _ _) => apply framed_bind
  | |- Framed (try_except _ _ _) => apply framed_except
  | |- Framed (try_finally _ _) => apply framed_finally
  | |- Framed (for_each _ _) => apply framed_for_each
  | |- Framed (perform ?a) => exact (framed_perform a)
  | |- Framed (query_env ?q) => exact (framed_query q)
  | |- Framed get_own => apply framed_get
  | |- Framed (update_own _) => apply framed_update
  | |- Framed (call _ _ _) => apply framed_call
  | |- Framed (let _ := _ in _) => cbv zeta
  | |- Framed ?m => first [multimatch goal with Hm : _ |- _ => simple apply Hm end | let h := head_of m in unfold h; cbv beta]
  end.
Ltac framed := repeat framed_step.

(** * The requests of a coroutine *)

Section Asks.
Context {W S : Type} (P : action -> Prop).

(** Whatever the environment answers, [m] only makes requests of [P]. *)
Class Asks {A} (m : method (io W S) A) : Prop :=
  asks s : exists t, trace (m s).2 = trace s ++ t /\ Forall P (ops t).

Lemma asks_nothing {A} (m : method (io W S) A) : (forall s, trace (m s).2 = trace s) -> Asks m.
Proof. intros Hm s. exists []. by rewrite Hm, app_nil_r. Qed.

Lemma asks_ret {A} (a : A) : Asks (mret a).
Proof. by apply asks_nothing. Qed.

Lemma asks_raise {A} x : Asks (raise x : method (io W S) A).
Proof. by apply asks_nothing. Qed.

Lemma asks_raise_when c x : Asks (raise_when c x : method (io W S) unit).
Proof. by apply asks_nothing. Qed.

Lemma asks_run {A} (r : result A) : Asks (run r).
Proof. by apply asks_nothing. Qed.

Lemma asks_get : Asks get_own.
Proof. by apply asks_nothing. Qed.

Lemma asks_update f : Asks (update_own f).
Proof. by apply asks_nothing. Qed.

Lemma asks_call {T A} (get : S -> T) set (m : method T A) : Asks (call get set m).
Proof. apply asks_nothing. intros s. unfold call. by destruct (m (get (self s))). Qed.

Lemma asks_more {A B} (m : method (io W S) A) (m' : io W S -> result B * io W S) s :
  Asks m -> (forall s', exists t, trace (m' s').2 = trace s' ++ t /\ Forall P (ops t)) ->
  exists t, trace (m' (m s).2).2 = trace s ++ t /\ Forall P (ops t).
Proof.
  intros Hm Hk. destruct (Hm s) as (t & Ht & Hp), (Hk (m s).2) as (u & Hu & Hq).
  exists (t ++ u). rewrite Hu, Ht, app_assoc, ops_app. split; [done|by apply Forall_app].
Qed.

Lemma asks_bind {A B} (m : method (io W S) A) (k : A -> method (io W S) B) :
  Asks m -> (forall a, Asks (k a)) -> Asks (x ← m; k x).
Proof.
  intros Hm Hk s. pose proof (Hm s) as Hs. pose proof (fun a => asks_more m (k a) s Hm (Hk a)) as Hb.
  unfold mbind, method_bind. destruct (m s) as [[a|x] s']; [apply Hb|exact Hs].
Qed.

(** What a computation returned is known afterwards. *)
Lemma asks_run_bind {A B} (r : result A) (k : A -> method (io W S) B) :
  (forall a, r = Ok a -> Asks (k a)) -> Asks (a ← run r; k a).
Proof. intros Hk. destruct r as [a|x]; [exact (Hk a eq_refl)|apply (asks_raise (A := B) x)]. Qed.

Lemma asks_except {A} catches h (m : method (io W S) A) :
  Asks m -> (forall x, Asks (h x)) -> Asks (try_except catches h m).
Proof.
  intros Hm Hh s. pose proof (Hm s) as Hs. pose proof (fun x => asks_more m (h x) s Hm (Hh x)) as Hb.
  unfold try_except. destruct (m s) as [[a|x] s']; [exact Hs|]. destruct (catches x); [apply Hb|exact Hs].
Qed.

Lemma asks_finally {A} c (m : method (io W S) A) : Asks m -> Asks c -> Asks (try_finally c m).
Proof.
  intros Hm Hc s. pose proof (asks_more m c s Hm Hc) as Hb. unfold try_finally.
  destruct (m s) as [r s']. cbn in Hb. by destruct (c s') as [[u|x] u'].
Qed.

Lemma asks_for_each {A} (body : A -> method (io W S) unit) l :
  (forall x, Asks (body x)) -> Asks (for_each body l).
Proof.
  intros Hb. induction l as [|x l IH]; [apply asks_ret|]. cbn [for_each].
  apply asks_bind; [apply Hb|intros _; exact IH].
Qed.

Section Environment.
Context `{Env W, Hears S}.

Lemma asks_perform a : P a -> Asks (perform a).
Proof.
  intros Ha s. unfold perform. destruct (await a (world s)) as [[evs r] w]. cbn.
  eexists. split; [done|]. cbn. rewrite ops_heard. destruct a; by repeat constructor.
Qed.

Lemma asks_query q : Asks (query_env q).
Proof. apply asks_nothing. intros s. unfold query_env. by destruct (ask q (world s)). Qed.
End Environment.
End Asks.

(** Follows the structure of a coroutine; the requests themselves are left. *)
Ltac asks_step :=
  lazymatch goal with
  | |- Asks _ (match ?x with _ => _ end) => destruct x
  | |- Asks _ (mret _) => apply asks_ret
  | |- Asks _ (raise _) => apply asks_raise
  | |- Asks _ (raise_when _ _) => apply asks_raise_when
  | |- Asks _ (run _) => apply asks_run
  | |- Asks _ (mbind _ (run _)) => apply asks_run_bind; intros ? ?
  | |- Asks _ (mbind _ _) => apply asks_bind; [|intros ?]
  | |- Asks _ (try_except _ _ _) => apply asks_except; [|intros ?]
  | |- Asks _ (try_finally _ _) => apply asks_finally
  | |- Asks _ (for_each _ _) => apply asks_for_each; intros ?
  | |- Asks _ (perform ?a) => apply (asks_perform _ a)
  | |- Asks _ (query_env ?q) => exact (asks_query _ q)
  | |- Asks _ get_own => apply asks_get
  | |- Asks _ (update_own _) => apply asks_update
  | |- Asks _ (call _ _ _) => apply asks_call
  | |- Asks _ (let _ := _ in _) => cbv zeta
  | |- Asks _ ?m => first [multimatch goal with Hm : _ |- _ => simple apply Hm end | let h := head_of m in unfold h; cbv beta]
  end.
Ltac asks := repeat asks_step.

(** * What a runner promises *)

Section Contracts.
Context {W L : Type}.

(** From no trace and a state of [before], the run ends in [ends], and a run that
    returns [a] in [returns a] as well. *)
Class Contract {A} (before : host L -> Prop) (m : method (io W (host L)) A)
    (ends : L -> list observed -> Prop) (returns : A -> list observed -> Prop) : Prop :=
  contract s :
    trace s = [] -> before (self s) ->
    let '(r, s') := m s in
    ends (local (self s')) (trace s') /\ forall a, r = Ok a -> returns a (trace s').

(** The same run after other requests: what it adds to the trace is what the
    contract is about. *)
Lemma contract_after {A} before (m : method (io W (host L)) A) ends returns s :
  Framed m -> Contract before m ends returns -> before (self s) ->
  let '(r, s') := m s in
  exists t, trace s' = trace s ++ t /\ ends (local (self s')) t /\ forall a, r = Ok a -> returns a t.
Proof.
  intros Hf Hc Hb. rewrite (framed_apart m s Hf).
  pose proof (Hc (mkIo (world s) (self s) []) eq_refl Hb) as Hr.
  destruct (m (mkIo (world s) (self s) [])) as [r s']. by exists (trace s').
Qed.
End Contracts.
