(* ===== verification/Sas.v ===== *)
(** src/src/common/sas.py (the legacy SAS), src/src/common/phase2_diagnostic.py
    (the PQM2 diagnostic record) and src/src/common/ml_kem.py (the wrapper of
    liboqs). The decimal rendering of a SAS is shared with phases 5 and 7. *)

From S2P Require Import Prelude Py Digest Interfaces Constants Frame.
From stdpp Require Import pretty.
From Stdlib Require Import Ascii.
Open Scope Z_scope.

(** * Decimal rendering *)

Fixpoint zero_string (n : nat) (s : string) : string :=
  match n with O => s | S m => String "0"%char (zero_string m s) end.

(** [s.zfill(width)]: the sign, if any, stays in front. *)
Definition zfill (width : Z) (s : string) : string :=
  let pad := Z.to_nat (width - Z.of_nat (String.length s)) in
  match s with
  | String "-"%char r => String "-"%char (zero_string pad r)
  | String "+"%char r => String "+"%char (zero_string pad r)
  | _ => zero_string pad s
  end.

(** [str(z)]. *)
Definition py_str (z : Z) : string := pretty z.

(** [int(s)] of a string of decimal digits. *)
Definition digit_value (c : Ascii.ascii) : Z := Z.of_N (Ascii.N_of_ascii c) - 48.

Fixpoint dec_value (acc : Z) (s : string) : Z :=
  match s with
  | EmptyString => acc
  | String c r => dec_value (10 * acc + digit_value c) r
  end.

(** * SAS numeric comparison *)

Definition derive_sas (public_key ciphertext shared_secret : bytes) : Z :=
  let transcript := public_key ++ ciphertext ++ shared_secret in
  let commitment := sha256 transcript in
  let sas_raw := from_be (bto 4 commitment) in
  sas_raw mod SAS_MODULUS.

Definition format_sas (sas : Z) : string := zfill SAS_DIGITS (py_str sas).

Definition verify_sas (local remote : Z) : bool := local =? remote.

Definition derive_both_sas (public_key ciphertext shared_secret : bytes) : Z * string :=
  let sas := derive_sas public_key ciphertext shared_secret in
  (sas, format_sas sas).

(** * Phase 2 diagnostic *)

Definition PHASE2_DIAGNOSTIC_MAGIC : bytes := lit "PQM2".
Definition PHASE2_DIAGNOSTIC_SIZE : Z := 9.

Definition PHASE2_STATUS_SUCCESS : Z := 0x00.
Definition PHASE2_STATUS_KEYPAIR_UNAVAILABLE : Z := 0x01.
Definition PHASE2_STATUS_CIPHERTEXT_INCOMPLETE : Z := 0x02.
Definition PHASE2_STATUS_INTERNAL_FAILURE : Z := 0x03.
Definition PHASE2_STATUS_INVALID_STATE : Z := 0x04.

Record Phase2Diagnostic := mkPhase2Diagnostic { status : Z; checksum : Z }.

Definition shared_secret_diagnostic_checksum (shared_secret : bytes) : result Z :=
  raise_if (negb (blen shared_secret =? SS_SIZE)) (ValueError "Shared secret size mismatch");;
  mret (Z.land (crc32 shared_secret) 0xFFFFFFFF).

Definition encode_phase2_diagnostic (status checksum : Z) : result bytes :=
  raise_if (negb ((0 <=? status) && (status <=? 0xFF))) (ValueError "Status is not a byte");;
  raise_if (negb ((0 <=? checksum) && (checksum <=? 0xFFFFFFFF)))
    (ValueError "Checksum is not a uint32");;
  s ← mk_bytes [status];
  mret (PHASE2_DIAGNOSTIC_MAGIC ++ s ++ be_bytes 4 checksum).

Definition parse_phase2_diagnostic (data : bytes) : result Phase2Diagnostic :=
  raise_if (negb (blen data =? PHASE2_DIAGNOSTIC_SIZE))
    (ValueError "Malformed PQM2 diagnostic length");;
  raise_if (negb (bool_decide (bto 4 data = PHASE2_DIAGNOSTIC_MAGIC)))
    (ValueError "Malformed PQM2 diagnostic magic");;
  s ← idx data 4;
  mret (mkPhase2Diagnostic s (from_be (bslice 5 9 data))).

(** * The ML-KEM wrapper *)

Section MLKEM.
Context `{Kem}.

(** [self._kem] holds the secret key of the pair it generated; it is set by
    [generate_keypair] together with [self._secret_key]. *)
Record MLKEM := mkMLKEM { _kem : option bytes; _secret_key : option bytes }.

Definition MLKEM_init : MLKEM := mkMLKEM None None.

Definition MLKEM_generate_keypair (coins : bytes) : method MLKEM (bytes * bytes) :=
  let (pk, sk) := oqs_generate_keypair coins in
  update (fun _ => mkMLKEM (Some sk) (Some sk));;
  mret (pk, sk).

Definition MLKEM_encapsulate (public_key coins : bytes) : method MLKEM (bytes * bytes) :=
  run (oqs_encap_secret public_key coins).

Definition MLKEM_decapsulate (ciphertext : bytes) : method MLKEM bytes :=
  self ← get_self;
  match _kem self, _secret_key self with
  | Some sk, Some _ => run (oqs_decap_secret sk ciphertext)
  | _, _ => raise (RuntimeError "No keypair generated. Call generate_keypair() first.")
  end.

Definition generate_keypair (coins : bytes) : bytes * bytes := oqs_generate_keypair coins.

Definition encapsulate (public_key coins : bytes) : result (bytes * bytes) :=
  oqs_encap_secret public_key coins.

Definition decapsulate (secret_key ciphertext : bytes) : result bytes :=
  oqs_decap_secret secret_key ciphertext.
End MLKEM.

(** * Decimal rendering is exact *)

Lemma digit_value_char n : (n < 10)%N -> digit_value (pretty_N_char n) = Z.of_N n.
Proof.
  intros Hn. assert (n ∈ [0;1;2;3;4;5;6;7;8;9]%N) as Hin.
  { rewrite !elem_of_cons. lia. }
  repeat (apply elem_of_cons in Hin as [->|Hin]; [reflexivity|]). inversion Hin.
Qed.

Lemma pretty_N_go_value x s :
  dec_value 0 (pretty_N_go x s) = dec_value (Z.of_N x) s.
Proof.
  revert s. induction (N.lt_wf_0 x) as [x _ IH]; intros s.
  destruct (decide (x = 0%N)) as [->|Hx]; [done|].
  rewrite pretty_N_go_step by lia. rewrite IH by (apply N.div_lt; lia).
  cbn [dec_value]. rewrite digit_value_char by (apply N.mod_lt; lia).
  f_equal. pose proof (N.div_mod x 10 ltac:(lia)). lia.
Qed.

Lemma pretty_N_go_length x s k :
  (x < 10 ^ N.of_nat k)%N ->
  (String.length (pretty_N_go x s) <= k + String.length s)%nat.
Proof.
  revert x s. induction k as [|k IH]; intros x s Hx.
  - assert (x = 0%N) as -> by (cbn in Hx; lia). done.
  - destruct (decide (x = 0%N)) as [->|Hne]; [rewrite pretty_N_go_0; lia|].
    rewrite pretty_N_go_step by lia.
    etransitivity; [apply IH|cbn; lia].
    apply N.Div0.div_lt_upper_bound. rewrite Nat2N.inj_succ, N.pow_succ_r' in Hx. lia.
Qed.

Lemma length_zero_string n s : String.length (zero_string n s) = (n + String.length s)%nat.
Proof. induction n; cbn; congruence. Qed.

Lemma dec_value_zero_string n s : dec_value 0 (zero_string n s) = dec_value 0 s.
Proof. induction n as [|n IH]; [done|]. exact IH. Qed.

Lemma pretty_Z_nonneg z : 0 <= z -> pretty z = pretty (Z.to_N z).
Proof. intros Hz. destruct z as [|p|p]; [reflexivity|reflexivity|lia]. Qed.

Definition starts_with_digit (s : string) : Prop :=
  exists c r, s = String c r /\ 0 <= digit_value c.

Lemma pretty_N_go_first x s : starts_with_digit s -> starts_with_digit (pretty_N_go x s).
Proof.
  revert s. induction (N.lt_wf_0 x) as [x _ IH]; intros s Hs.
  destruct (decide (x = 0%N)) as [->|Hx]; [by rewrite pretty_N_go_0|].
  rewrite pretty_N_go_step by lia. apply IH; [apply N.div_lt; lia|].
  eexists _, _. split; [done|]. rewrite digit_value_char by (apply N.mod_lt; lia). apply N2Z.is_nonneg.
Qed.

Lemma pretty_N_first (x : N) : starts_with_digit (pretty x).
Proof.
  unfold pretty, pretty_N. case_decide as Hx; [by eexists _, _|].
  rewrite pretty_N_go_step by lia. apply pretty_N_go_first.
  eexists _, _. split; [done|]. rewrite digit_value_char by (apply N.mod_lt; lia). apply N2Z.is_nonneg.
Qed.

Lemma zfill_digits width s :
  starts_with_digit s ->
  zfill width s = zero_string (Z.to_nat (width - Z.of_nat (String.length s))) s.
Proof.
  intros (c & r & -> & Hc). unfold zfill.
  destruct c as [[] [] [] [] [] [] [] []]; try reflexivity; vm_compute in Hc; done.
Qed.

(** Zero-padding to six places renders a value below 10^6 in exactly six
    characters that read back as the value. *)
Lemma zfill_six_exact z :
  0 <= z < 10 ^ 6 ->
  String.length (zfill 6 (py_str z)) = 6%nat /\ dec_value 0 (zfill 6 (py_str z)) = z.
Proof.
  intros Hz. change (10 ^ 6) with 1000000 in Hz. unfold py_str. rewrite pretty_Z_nonneg by lia.
  rewrite zfill_digits by apply pretty_N_first.
  rewrite length_zero_string, dec_value_zero_string. unfold pretty, pretty_N.
  case_decide as Hx; [split; [done|change (0 = z); lia]|]. split.
  - assert (Z.to_N z < 10 ^ N.of_nat 6)%N by (change (10 ^ N.of_nat 6)%N with 1000000%N; lia).
    pose proof (pretty_N_go_length (Z.to_N z) "" 6 ltac:(done)).
    change (String.length "") with 0%nat in *. lia.
  - rewrite pretty_N_go_value. cbn [dec_value]. lia.
Qed.

(** * Properties *)

Lemma sas_modulus_range z : 0 <= z mod SAS_MODULUS < 10 ^ 6.
Proof. apply Z.mod_pos_bound. reflexivity. Qed.

(** The legacy SAS of every transcript is a number below 10^6 that is shown
    as exactly six characters, and the shown string reads back as the number, so
    two ends see the same string only if they derived the same number. *)
Theorem derive_both_sas_exact pk ct ss :
  let '(sas, shown) := derive_both_sas pk ct ss in
  0 <= sas < 1000000 /\ String.length shown = 6%nat /\ dec_value 0 shown = sas /\
  forall pk' ct' ss', (derive_both_sas pk' ct' ss').2 = shown ->
    verify_sas sas (derive_both_sas pk' ct' ss').1 = true.
Proof.
  unfold derive_both_sas, derive_sas, format_sas. cbn [fst snd].
  pose proof (sas_modulus_range (from_be (bto 4 (sha256 (pk ++ ct ++ ss))))) as Hr.
  destruct (zfill_six_exact _ Hr) as [Hlen Hval].
  split_and!; [apply Hr|apply Hr|done|done|]. intros pk' ct' ss' Heq.
  destruct (zfill_six_exact _ (sas_modulus_range (from_be (bto 4 (sha256 (pk' ++ ct' ++ ss')))))) as [_ Hval'].
  unfold verify_sas. apply Z.eqb_eq. change SAS_DIGITS with 6 in Heq. congruence.
Qed.

Definition diagnostic_ok (d : Phase2Diagnostic) : Prop :=
  0 <= status d < 256 /\ 0 <= checksum d < 2 ^ 32.

Lemma encode_phase2_Ok s c wire :
  encode_phase2_diagnostic s c = Ok wire <->
  diagnostic_ok (mkPhase2Diagnostic s c) /\
  wire = PHASE2_DIAGNOSTIC_MAGIC ++ [byte_of_Z s] ++ be_bytes 4 c.
Proof.
  unfold encode_phase2_diagnostic, diagnostic_ok. cbn [status checksum].
  destruct (decide (0 <= s < 256 /\ 0 <= c < 2 ^ 32)) as [Hok|Hno].
  - rewrite !raise_if_false by lia. cbn [mbind result_bind].
    rewrite mk_bytes_1 by (apply is_byte_range; lia). cbn.
    split; [intros [= <-]; done|intros [_ ->]; done].
  - split; [|intros []; tauto]. intros H. ok_inv. lia.
Qed.

(** The nine-byte PQM2 record: what is encoded parses back to the same
    status and checksum, and conversely whatever the strict parser accepts is
    the encoding of the record it returns. *)
Theorem phase2_diagnostic_exact data d :
  parse_phase2_diagnostic data = Ok d <-> encode_phase2_diagnostic (status d) (checksum d) = Ok data.
Proof.
  rewrite encode_phase2_Ok. unfold parse_phase2_diagnostic, PHASE2_DIAGNOSTIC_SIZE. split.
  - intros H. ok_inv. apply idx_Ok in Hok1 as (x & Hx & ->). subst d. cbn [status checksum].
    apply negb_false_iff, bool_decide_eq_true in Hok0.
    assert (blen (bslice 5 9 data) = 4) as H4 by (rewrite blen_bslice by lia; lia).
    unfold diagnostic_ok. cbn [status checksum].
    pose proof (Z_of_byte_range x). pose proof (from_be_range (bslice 5 9 data)) as Hr.
    rewrite H4 in Hr. change (256 ^ 4) with (2 ^ 32) in Hr. split; [done|].
    rewrite byte_of_Z_of_byte.
    replace 4%nat with (length (bslice 5 9 data)) by (unfold blen in H4; lia).
    rewrite be_bytes_from_be, <- Hok0. rewrite <- (bto_bfrom 4 data) at 1. f_equal.
    change (Z.to_nat 4) with 4%nat in Hx. change (bfrom 4 data) with (drop 4 data).
    rewrite (drop_S data x 4) by done. cbn [app]. f_equal. unfold bslice.
    change (drop 5 data) with (bfrom 5 data). rewrite bto_all; [done|]. rewrite blen_bfrom by lia. lia.
  - intros [Hok ->]. unfold diagnostic_ok in Hok. cbn [status checksum] in Hok.
    pass; [bytes_len|]. rewrite bto_app by done. rewrite bool_decide_eq_true_2 by done.
    cbn [negb raise_if mbind result_bind].
    rewrite (idx_lookup _ _ (byte_of_Z (status d))) by done.
    rewrite (app_assoc PHASE2_DIAGNOSTIC_MAGIC).
    unfold bslice. rewrite bfrom_app by done. rewrite bto_all by bytes_len.
    rewrite from_be_bytes, Z_of_byte_of_Z, !Z.mod_small by (change (256 ^ Z.of_nat 4) with (2 ^ 32); lia).
    by destruct d.
Qed.

(** The wrapper never decapsulates before a key pair exists, and after
    [generate_keypair] it recovers exactly the shared secret encapsulated to the
    public key it returned. *)
Theorem mlkem_wrapper_correct `{KemLaws} kcoins coins ct ss other :
  MLKEM_decapsulate other MLKEM_init =
    (Err (RuntimeError "No keypair generated. Call generate_keypair() first."), MLKEM_init) /\
  (encapsulate (oqs_generate_keypair kcoins).1 coins = Ok (ct, ss) ->
   exists self,
     MLKEM_generate_keypair kcoins MLKEM_init = (Ok (oqs_generate_keypair kcoins), self) /\
     MLKEM_decapsulate ct self = (Ok ss, self) /\ blen ct = CT_SIZE /\ blen ss = SS_SIZE).
Proof.
  split; [done|]. intros He. unfold encapsulate in He.
  unfold MLKEM_generate_keypair. destruct (oqs_generate_keypair kcoins) as [pk sk] eqn:Hk.
  eexists. split; [done|]. pose proof (oqs_correct kcoins coins ct ss) as Hc.
  rewrite Hk in Hc. cbn [fst snd] in *. apply oqs_encap_size in He as Hsize.
  unfold MLKEM_decapsulate. meth. cbn [_kem _secret_key]. by rewrite Hc.
Qed.

Lemma mlkem_wrapper_correct_witness :
  let kc := zeros 32 in
  let enc := @encapsulate Toy.kem (@oqs_generate_keypair Toy.kem kc).1 (lit "coins") in
  exists ct ss, enc = Ok (ct, ss) /\
  exists self,
     @MLKEM_generate_keypair Toy.kem kc MLKEM_init = (Ok (@oqs_generate_keypair Toy.kem kc), self) /\
     @MLKEM_decapsulate Toy.kem ct self = (Ok ss, self) /\ blen ct = CT_SIZE /\ blen ss = SS_SIZE.
Proof.
  cbn zeta. eexists _, _. split; [reflexivity|].
  apply (proj2 (@mlkem_wrapper_correct Toy.kem Toy.kem_laws (zeros 32) (lit "coins") _ _ [])).
  reflexivity.
Defined.
