(* ===== verification/Policy.v ===== *)
(** Permissions: which requests a coroutine may make, given what happened before.

    A policy says of every trace and every action whether the action is allowed
    there; a run obeys it when each of its requests was allowed by the trace
    that precedes it. [triple (at_ J) m ...] says that [m] keeps a condition [J]
    on the coroutine's variables and the trace, and obeys the policy, whatever
    the environment does; the rules below lift the client's operations. *)

From stdpp Require Import sets.
From S2P Require Import Prelude Py Interfaces Pairing Constants Fragmentation World BleClient Sas.
Open Scope Z_scope.

Section Policy.
Context {W L : Type} `{Env W, Program L}.
Variable allowed : list observed -> action -> Prop.
Implicit Types (J : L -> list observed -> Prop) (F : list observed -> Prop).

Definition obeys (t : list observed) : Prop :=
  forall t1 a r t2, t = t1 ++ Did a r :: t2 -> allowed t1 a.

Lemma obeys_nil : obeys [].
Proof. by intros [] ????. Qed.

Lemma obeys_heard t evs : obeys t -> obeys (t ++ map Heard evs).
Proof.
  intros Ht t1 a r t2 Heq. symmetry in Heq. apply app_eq_inv in Heq as [(k & -> & Hk)|(k & -> & Hk)].
  - assert (Did a r ∈ map Heard evs) as Hin by (rewrite Hk; set_solver).
    apply list_elem_of_fmap in Hin as (e & [=] & _).
  - destruct k as [|o k]; cbn in Hk.
    + destruct evs; discriminate Hk.
    + injection Hk as <- ->. by eapply Ht.
Qed.

Lemma obeys_did t a r : obeys t -> allowed t a -> obeys (t ++ [Did a r]).
Proof.
  intros Ht Ha t1 a' r' t2 Heq.
  destruct t2 as [|o t2 _] using rev_ind.
  - apply app_inj_tail in Heq as [-> [= -> _]]. exact Ha.
  - rewrite app_comm_cons, app_assoc in Heq. apply app_inj_tail in Heq as [-> _]. by eapply Ht.
Qed.

(** Kept by everything the environment and the client's own code may do to the
    variables: callbacks, and clearing the shared objects. *)
Class Kept J : Prop := {
  kept_notified x b data l t : J l t -> J (on_data x b data l) (t ++ [Heard (Notified data b)]);
  kept_disconnected c l t : J l t -> J l (t ++ [Heard (Disconnected c)]);
  kept_did a r l t : J l t -> J l (t ++ [Did a r]);
  kept_clear o l t : J l t -> J (clear_object o l) t;
}.

Definition at_ J (s : io W (host L)) : Prop := J (local (self s)) (trace s) /\ obeys (trace s).

(** [J], and a fact of the trace. *)
Definition along J F : L -> list observed -> Prop := fun l t => J l t /\ F t.

#[export] Instance along_kept J F : Kept J -> Lasting F -> Kept (along J F).
Proof.
  intros HJ HF. unfold along. split.
  - intros x b data l t [Hj Ho]. split; [by apply kept_notified|by apply HF].
  - intros c l t [Hj Ho]. split; [by apply kept_disconnected|by apply HF].
  - intros a r l t [Hj Ho]. split; [by apply kept_did|by apply HF].
  - intros q l t [Hj Ho]. split; [by apply kept_clear|done].
Qed.

(** A condition on the trace alone. *)
#[export] Instance trace_kept F : Lasting F -> Kept (fun _ t => F t).
Proof. intros HF. split; intros; [by apply HF..|done]. Qed.

(** The condition on the exceptional exit follows from the condition here. *)
Definition implies J J' : Prop := forall l t, J l t -> J' l t.

Lemma implies_refl J : implies J J.
Proof. by intros l t Hj. Qed.

Lemma implies_along J F J' : implies J J' -> implies (along J F) J'.
Proof. intros Hi l t [Hj _]. by apply Hi. Qed.
#[local] Hint Resolve implies_refl implies_along : core.

Lemma implies_trans J1 J2 J3 : implies J1 J2 -> implies J2 J3 -> implies J1 J3.
Proof. intros H12 H23 l t Hj. by apply H23, H12. Qed.

(** No condition. *)
Definition anywhere : L -> list observed -> Prop := fun _ _ => True.

Lemma any_implies J : implies J anywhere.
Proof. by intros l t. Qed.

Lemma at_implies J J' s : implies J J' -> at_ J s -> at_ J' s.
Proof. intros Hi [Hj Ho]. split; [by apply Hi|done]. Qed.

Lemma clear_v1_cp3_kept J (h : host L) t :
  Kept J -> J (local h) t -> J (local (clear_v1_cp3 h)) t.
Proof.
  intros HJ Hj. unfold clear_v1_cp3, on_client, on_local. cbn.
  repeat (case_match; cbn); repeat apply kept_clear; done.
Qed.

Lemma hear_kept J e (h : host L) t :
  Kept J -> J (local h) t -> J (local (hear e h)) (t ++ [Heard e]).
Proof.
  intros HJ Hj. destruct e as [data b|c].
  - by apply kept_notified.
  - apply (kept_disconnected c) in Hj. unfold hear, hear_host, _on_disconnect, _on_v1_disconnect.
    repeat case_match; by try apply clear_v1_cp3_kept.
Qed.

Lemma events_kept J evs (h : host L) t :
  Kept J -> J (local h) t ->
  J (local (fold_left (fun x e => hear e x) evs h)) (t ++ map Heard evs).
Proof.
  intros HJ. revert h t. induction evs as [|e evs IH]; intros h t Hj; cbn; [by rewrite app_nil_r|].
  rewrite cons_middle, app_assoc. by apply IH, hear_kept.
Qed.

(** ** Rules *)

(** A request, whose answer comes before whatever happens while it is awaited. *)
Lemma at_perform_next J a (J' : result (value a) -> L -> list observed -> Prop) :
  (forall r, Kept (J' r)) -> (forall l t, J l t -> allowed t a) ->
  (forall r l t, J l t -> J' r l (t ++ [Did a r])) ->
  triple (at_ J) (perform a) (fun v => at_ (J' (Ok v))) (fun x => at_ (J' (Err x))).
Proof.
  intros HJ Ha Hn s [Hj Ho]. unfold perform.
  destruct (await a (world s)) as [[evs r] w].
  set (s' := mkIo w _ _).
  assert (at_ (J' r) s') as Hs'.
  { split; cbn; rewrite cons_middle, app_assoc.
    - apply events_kept; [done|]. by apply Hn.
    - apply obeys_heard, obeys_did; [done|by eapply Ha]. }
  by destruct r as [v|x].
Qed.

Lemma at_perform_err J a :
  Kept J -> (forall l t, J l t -> allowed t a) ->
  triple (at_ J) (perform a) (fun v => at_ (along J (elem_of (Did a (Ok v)))))
    (fun x => at_ (along J (elem_of (Did a (Err x))))).
Proof.
  intros HJ Ha. apply (at_perform_next J a (fun r => along J (elem_of (Did a r)))); [apply _|done|].
  intros r l t Hj. split; [by apply kept_did|]. apply elem_of_app. right. by left.
Qed.

Lemma at_perform J a :
  Kept J -> (forall l t, J l t -> allowed t a) ->
  triple (at_ J) (perform a) (fun v => at_ (along J (elem_of (Did a (Ok v))))) (fun _ => at_ J).
Proof.
  intros HJ Ha.
  eapply triple_conseq; [intros s Hs; exact Hs|by apply at_perform_err|by intros v s Hs|].
  intros x s. apply at_implies. by intros l t [Hj _].
Qed.

Lemma at_query J q E : triple (at_ J) (query_env q) (fun _ => at_ J) E.
Proof. intros s Hs. unfold query_env. by destruct (ask q (world s)). Qed.

Lemma at_get J E : triple (at_ J) get_own (fun h s => h = self s /\ at_ J s) E.
Proof. by intros s Hs. Qed.

Lemma at_update J J' (f : host L -> host L) E :
  (forall h t, J (local h) t -> J' (local (f h)) t) ->
  triple (at_ J) (update_own f : method (io W (host L)) unit) (fun _ => at_ J') E.
Proof. intros Hf s [Hj Ho]. split; [by apply Hf|done]. Qed.

(** A method of one of the coroutine's objects. *)
Lemma at_call {T A} J (get : host L -> T) set (m : method T A) Q E :
  (forall h t, J (local h) t ->
     match m (get h) with
     | (Ok a, x) => Q a (local (set x h)) t
     | (Err e, x) => E (local (set x h)) t
     end) ->
  triple (at_ J) (call get set m : method (io W (host L)) A) (fun a => at_ (Q a)) (fun _ => at_ E).
Proof.
  intros Hm s [Hj Ho]. unfold call. specialize (Hm _ _ Hj).
  destruct (m (get (self s))) as [[a|e] x]; by split.
Qed.

(** The rules for the first step of a block; an exception leaves into [Jx]. *)
Section Steps.
Context {B : Type} (Jx : L -> list observed -> Prop) (Q : B -> io W (host L) -> Prop).

Abbreviation goes J k := (triple (at_ J) k Q (fun _ => at_ Jx)).

Lemma step_at {A} J (m : method (io W (host L)) A) (R : A -> L -> list observed -> Prop) J' k :
  triple (at_ J) m (fun a => at_ (R a)) (fun _ => at_ J') -> implies J' Jx ->
  (forall a, goes (R a) (k a)) -> goes J (x ← m; k x).
Proof.
  intros Hm Hi Hk. eapply step; [exact Hm| |exact Hk]. intros x s. by apply at_implies.
Qed.

(** A step that leaves the condition as it is. *)
Lemma step_same {A} J (m : method (io W (host L)) A) (k : A -> method (io W (host L)) B) :
  triple (at_ J) m (fun _ => at_ J) (fun _ => at_ J) -> implies J Jx ->
  (forall a, goes J (k a)) -> goes J (x ← m; k x).
Proof. intros Hm. by apply step_at with (R := fun _ => J). Qed.

Lemma step_perform J a k :
  Kept J -> (forall l t, J l t -> allowed t a) -> implies J Jx ->
  (forall v, goes (along J (elem_of (Did a (Ok v)))) (k v)) -> goes J (v ← perform a; k v).
Proof. intros HJ Ha. apply step_at. by apply at_perform. Qed.

Lemma step_ask J q (k : answer q -> _) :
  (forall a, goes J (k a)) -> goes J (a ← query_env q; k a).
Proof. intros Hk. eapply triple_bind; [apply at_query|exact Hk]. Qed.

(** Reading the variables: what [J] says of them. *)
Lemma step_get J k :
  (forall h, goes (fun l t => l = local h /\ J l t) (k h)) -> goes J (h ← get_own; k h).
Proof.
  intros Hk. eapply triple_bind; [apply at_get|]. intros h s [-> [Hj Ho]]. by apply Hk.
Qed.

Lemma step_update J J' f k :
  (forall h t, J (local h) t -> J' (local (f h)) t) ->
  goes J' k -> goes J (update_own f;; k).
Proof. intros Hf Hk. eapply triple_bind; [by apply at_update|]. by intros ?. Qed.

Lemma step_raise_when J (c : bool) x k :
  implies J Jx -> (c = false -> goes J k) -> goes J (raise_when c x;; k).
Proof. intros Hi. apply step_guard. intros _ s. by apply at_implies. Qed.

Lemma step_result {A} J (r : result A) k :
  implies J Jx -> (forall a, r = Ok a -> goes J (k a)) -> goes J (x ← run r; k x).
Proof. intros Hi Hk. apply step_run; [exact Hk|]. intros x _ s. by apply at_implies. Qed.

Lemma at_weaken J J' k : implies J J' -> goes J' k -> goes J k.
Proof. intros Hi. apply triple_weaken. intros s. by apply at_implies. Qed.

Lemma at_raise J x : implies J Jx -> goes J (raise x).
Proof. intros Hi. apply triple_raise. intros s. by apply at_implies. Qed.

Lemma at_ex {A} (J : A -> L -> list observed -> Prop) k :
  (forall x, goes (J x) k) -> goes (fun l t => exists x, J x l t) k.
Proof. intros Hk s [[x Hj] Ho]. by apply (Hk x). Qed.

Lemma at_pure (phi : Prop) J k : (phi -> goes J k) -> goes (fun l t => phi /\ J l t) k.
Proof. intros Hk s [[Hp Hj] Ho]. by apply Hk. Qed.
End Steps.

(** ** The client's operations *)

(** Some [BleakClient] acknowledged this request. *)
Definition wrote (uuid : string) (data : bytes) (t : list observed) : Prop :=
  exists c, Did (WriteGatt c uuid data) (Ok tt) ∈ t.

Definition read_key (pk : bytes) (t : list observed) : Prop :=
  exists c, Did (ReadGatt c CHAR_PUBKEY_UUID) (Ok pk) ∈ t.

Definition subscribed (t : list observed) : Prop :=
  exists c, Did (StartNotify c CHAR_DATA_UUID) (Ok tt) ∈ t.

#[export] Instance wrote_lasting uuid data : Lasting (wrote uuid data).
Proof. apply lasting_ex. intros c. apply lasting_did. Qed.
#[export] Instance forall_wrote_lasting uuid frames :
  Lasting (fun t => Forall (fun f => wrote uuid f t) frames).
Proof. intros t u Hf. eapply List.Forall_impl; [|exact Hf]. intros f. apply wrote_lasting. Qed.
#[export] Instance read_key_lasting pk : Lasting (read_key pk).
Proof. apply lasting_ex. intros c. apply lasting_did. Qed.
#[export] Instance subscribed_lasting : Lasting subscribed.
Proof. apply lasting_ex. intros c. apply lasting_did. Qed.

(** The policy lets every client make this request wherever [J] holds. *)
Definition may J (a : link -> action) : Prop := forall c l t, J l t -> allowed t (a c).

Section Operations.
Context {B : Type} (Jx : L -> list observed -> Prop) (Q : B -> io W (host L) -> Prop).
Abbreviation goes J k := (triple (at_ J) k Q (fun _ => at_ Jx)).

Lemma at_raw_client J E :
  triple (at_ J) (raw_client : method (io W (host L)) _) (fun _ => at_ J) E.
Proof. by intros s Hs. Qed.

Lemma at_is_connected J E :
  triple (at_ J) (is_connected : method (io W (host L)) bool) (fun _ => at_ J) E.
Proof.
  eapply triple_bind; [apply at_raw_client|]. intros [c|]; [apply (at_query J (IsConnected c))|].
  by apply triple_ret.
Qed.

Lemma at_mtu_size J E :
  triple (at_ J) (mtu_size : method (io W (host L)) Z) (fun _ => at_ J) E.
Proof.
  eapply triple_bind; [apply at_raw_client|]. intros [c|]; [apply (at_query J (MtuSize c))|].
  by apply triple_ret.
Qed.

Lemma step_connected J (k : bool -> method (io W (host L)) B) :
  (forall b, goes J (k b)) -> goes J (b ← is_connected; k b).
Proof. intros Hk. eapply triple_bind; [apply at_is_connected|exact Hk]. Qed.

Lemma step_mtu J (k : Z -> method (io W (host L)) B) :
  (forall m, goes J (k m)) -> goes J (m ← mtu_size; k m).
Proof. intros Hk. eapply triple_bind; [apply at_mtu_size|exact Hk]. Qed.

Lemma step_raw_client J (k : option link -> method (io W (host L)) B) :
  (forall c, goes J (k c)) -> goes J (c ← raw_client; k c).
Proof. intros Hk. eapply triple_bind; [apply at_raw_client|exact Hk]. Qed.

Lemma step_backend J (k : link -> method (io W (host L)) B) :
  implies J Jx -> (forall c, goes J (k c)) -> goes J (c ← backend; k c).
Proof.
  intros Hi Hk. eapply triple_bind with (R := fun _ => at_ J); [|exact Hk].
  eapply triple_bind; [apply at_raw_client|].
  intros [c|]; [by apply triple_ret|by apply at_raise].
Qed.

Lemma step_require_connected J (k : method (io W (host L)) B) :
  implies J Jx -> goes J k -> goes J (require_connected;; k).
Proof.
  intros Hi Hk. eapply triple_bind with (R := fun _ => at_ J); [|by intros ?].
  eapply triple_bind; [apply at_is_connected|]. intros b. apply triple_raise_when; [|done].
  intros _ s. by apply at_implies.
Qed.
End Operations.

Lemma at_write J c uuid data :
  Kept J -> (forall l t, J l t -> allowed t (WriteGatt c uuid data)) ->
  triple (at_ J) (perform (WriteGatt c uuid data)) (fun _ => at_ (along J (wrote uuid data)))
    (fun _ => at_ J).
Proof.
  intros HJ Hm.
  eapply triple_conseq; [intros s Hs; exact Hs|by apply (at_perform J (WriteGatt c uuid data))| |done].
  intros [] s [[Hj Ho] Hb]. split; [|done]. split; [done|]. by exists c.
Qed.

(** A request of which only the effect matters. *)
Lemma at_do J a :
  Kept J -> (forall l t, J l t -> allowed t a) ->
  triple (at_ J) (perform a) (fun _ => at_ J) (fun _ => at_ J).
Proof.
  intros HJ Ha. eapply triple_conseq; [intros s Hs; exact Hs|by apply at_perform| |done].
  intros v s. apply at_implies. by intros l t [Hj _].
Qed.

Lemma at_send_control J data :
  Kept J -> may J (fun c => WriteGatt c CHAR_CONTROL_UUID data) ->
  triple (at_ J) (send_control data : method (io W (host L)) unit)
    (fun _ => at_ (along J (wrote CHAR_CONTROL_UUID data))) (fun _ => at_ J).
Proof.
  intros HJ Hm. apply step_require_connected; [done|]. apply step_backend; [done|]. intros c.
  apply at_write; [done|apply Hm].
Qed.

(** The same, with what holds from the write on. *)
Lemma at_send_control_next J (R : L -> list observed -> Prop) data (J' : link -> L -> list observed -> Prop) :
  Kept J -> (forall c, Kept (J' c)) -> may J (fun c => WriteGatt c CHAR_CONTROL_UUID data) ->
  (forall c l t, J l t -> R l t -> J' c l (t ++ [Did (WriteGatt c CHAR_CONTROL_UUID data) (Ok tt)])) ->
  triple (at_ (fun l t => J l t /\ R l t)) (send_control data : method (io W (host L)) unit)
    (fun _ => at_ (fun l t => exists c, J' c l t)) (fun _ => at_ J).
Proof.
  intros HJ HJ' Hm Hn. assert (implies (fun l t => J l t /\ R l t) J) as Hi by by intros l t [Hj _].
  apply step_require_connected; [done|]. apply step_backend; [done|]. intros c.
  eapply triple_conseq; [intros s Hs; exact Hs|
    apply (at_perform_next (fun l t => J l t /\ R l t) (WriteGatt c CHAR_CONTROL_UUID data) (fun r => match r with Ok _ => J' c | Err _ => J end))| |].
  - by intros [[]|x].
  - intros l t [Hj _]. by eapply Hm.
  - intros [[]|x] l t [Hj Hr]; [by apply Hn|by apply kept_did].
  - intros v s. apply at_implies. intros l t Hj. by exists c.
  - by intros x s Hs.
Qed.

Lemma at_write_secure_data J data :
  Kept J -> may J (fun c => WriteGatt c CHAR_DATA_UUID data) ->
  triple (at_ J) (write_secure_data data : method (io W (host L)) unit)
    (fun _ => at_ (along J (wrote CHAR_DATA_UUID data))) (fun _ => at_ J).
Proof.
  intros HJ Hm. apply step_require_connected; [done|]. apply step_raise_when; [done|].
  intros _. apply step_backend; [done|]. intros c.
  apply at_write; [done|apply Hm].
Qed.

Lemma at_write_raw_fragment J data :
  Kept J -> may J (fun c => WriteGatt c CHAR_CIPHERTEXT_UUID data) ->
  triple (at_ J) (write_raw_ciphertext_fragment data : method (io W (host L)) unit)
    (fun _ => at_ (along J (wrote CHAR_CIPHERTEXT_UUID data))) (fun _ => at_ J).
Proof.
  intros HJ Hm. apply step_require_connected; [done|]. apply step_backend; [done|]. intros c.
  apply at_write; [done|apply Hm].
Qed.

Lemma at_read_public_key J :
  Kept J -> may J (fun c => ReadGatt c CHAR_PUBKEY_UUID) ->
  triple (at_ J) (read_fragmented_public_key : method (io W (host L)) bytes)
    (fun pk => at_ (along J (read_key pk))) (fun _ => at_ J).
Proof.
  intros HJ Hm. apply step_require_connected; [done|]. apply step_mtu. intros _.
  apply step_backend; [done|]. intros c. apply step_perform; [done|apply Hm|done|].
  intros pk. apply step_mtu. intros _. apply triple_ret.
  intros s [[Hj Ho] Hb]. split; [|done]. split; [done|]. by exists c.
Qed.

Lemma at_start_notify J :
  Kept J -> may J (fun c => StartNotify c CHAR_DATA_UUID) ->
  triple (at_ J) (start_notify : method (io W (host L)) unit)
    (fun _ => at_ (along J subscribed)) (fun _ => at_ J).
Proof.
  intros HJ Hm. apply step_require_connected; [done|]. apply step_backend; [done|]. intros c.
  apply step_perform; [done|apply Hm|done|]. intros []. apply at_update.
  intros h t [Hj Ho]. split; [done|]. by exists c.
Qed.

Lemma at_stop_notify J :
  Kept J -> may J (fun c => StopNotify c CHAR_DATA_UUID) ->
  triple (at_ J) (stop_notify : method (io W (host L)) unit) (fun _ => at_ J) (fun _ => at_ J).
Proof.
  intros HJ Hm. apply step_update with (J' := J); [intros h t; by apply clear_v1_cp3_kept|].
  apply step_connected. intros [|]; [|by apply triple_ret].
  apply step_backend; [done|]. intros c.
  apply (at_do J (StopNotify c CHAR_DATA_UUID)); [done|apply Hm].
Qed.

Lemma at_reconnect_v1_peer J :
  Kept J -> may J Disconnect -> may J Connect ->
  (forall a l t, J l t -> allowed t (FindByAddress a)) ->
  triple (at_ J) (reconnect_v1_peer : method (io W (host L)) bool) (fun _ => at_ J) (fun _ => at_ J).
Proof.
  intros HJ Hd Hc Hf.
  apply step_get. intros h. eapply at_weaken with (J' := J); [by intros l t [_ Hj]|].
  destruct (_device (client h)) as [d|]; [|by apply at_raise].
  apply step_update with (J' := J); [intros h' t; by apply clear_v1_cp3_kept|].
  eapply step_at with (R := fun _ => J) (J' := J); [|done|intros _].
  { destruct (_client (client h)) as [c|]; [|by apply triple_ret].
    apply (at_do J (Disconnect c)); [done|apply Hd]. }
  apply (step_perform J _ J (FindByAddress (device_address d))); [done|by intros; eapply Hf|done|]. intros p.
  eapply at_weaken with (J' := J); [by intros l t [Hj _]|].
  destruct p as [p|]; [|by apply triple_ret].
  eapply step_at with (R := fun _ => J) (J' := J); [by intros s Hs|done|]. intros c.
  apply step_update with (J' := J); [done|].
  apply (step_perform J _ J (Connect c)); [done|apply Hc|done|]. intros v.
  eapply at_weaken with (J' := J); [by intros l t [Hj _]|]. apply at_is_connected.
Qed.

(** The frames a ciphertext may travel in. *)
Definition ciphertext_frame (data f : bytes) : Prop :=
  exists mtu frames, fragment_data data (frame_mtu mtu) = Ok frames /\ f ∈ frames.

Lemma at_write_frames J frames :
  Kept J -> (forall f, f ∈ frames -> may J (fun c => WriteGatt c CHAR_CIPHERTEXT_UUID f)) ->
  triple (at_ J)
    (for_each (fun frag => c ← backend; perform (WriteGatt c CHAR_CIPHERTEXT_UUID frag)) frames
       : method (io W (host L)) unit)
    (fun _ => at_ (along J (fun t => Forall (fun f => wrote CHAR_CIPHERTEXT_UUID f t) frames)))
    (fun _ => at_ J).
Proof.
  intros HJ. revert J HJ. induction frames as [|f frames IH]; intros J HJ Hm; cbn [for_each].
  - apply triple_ret. intros s [Hj Ho]. by split.
  - eapply step_at with (J' := J) (R := fun _ => along J (wrote CHAR_CIPHERTEXT_UUID f)); [|done|].
    + apply step_backend; [done|]. intros c.
      apply at_write; [done|apply Hm; by left].
    + intros _. eapply triple_conseq; [intros s Hs; exact Hs|apply IH; [apply _|]| |].
      * intros g Hg c l t [Hj _]. assert (g ∈ f :: frames) as Hg' by by right.
        exact (Hm g Hg' c l t Hj).
      * intros v s [[[Hj Hf] Hfs] Hb]. split; [|done]. split; [done|]. by constructor.
      * by intros x s [[Hj _] Hb].
Qed.

Lemma at_write_ciphertext J data :
  Kept J -> (forall f, ciphertext_frame data f -> may J (fun c => WriteGatt c CHAR_CIPHERTEXT_UUID f)) ->
  triple (at_ J) (write_fragmented_ciphertext data : method (io W (host L)) Z)
    (fun _ => at_ (along J (fun t => exists mtu frames,
       fragment_data data (frame_mtu mtu) = Ok frames /\
       Forall (fun f => wrote CHAR_CIPHERTEXT_UUID f t) frames)))
    (fun _ => at_ J).
Proof.
  intros HJ Hm. apply step_require_connected; [done|]. apply step_mtu. intros m.
  change (if 23 <? m then _ else _) with (frame_mtu m). apply step_result; [done|].
  intros frames Hf. eapply step_at; [apply at_write_frames; [done|]|done|].
  - intros f Hin. apply Hm. by exists m, frames.
  - intros u. apply triple_ret. intros s [[Hj Hw] Ho]. split; [|done]. split; [done|]. by exists m, frames.
Qed.
End Policy.
#[export] Hint Resolve implies_refl implies_along : core.

(** Removes a step's result, of which nothing is needed. *)
Ltac forget := intros ?; eapply at_weaken; [intros l t [Hj _]; exact Hj|].

(** A condition implied through the [implies] facts of the context. *)
Ltac implied :=
  first
    [ done | assumption
    | match goal with
      | |- implies (along _ _) _ => apply implies_along; implied
      | Hi : implies ?J _ |- implies ?J _ => apply (implies_trans _ _ _ Hi); clear Hi; implied
      end ].

(** * A delivered ciphertext *)

(** A ciphertext for the key that was read, every frame of it sent. *)
Definition delivered_to (pk ct ss : bytes) `{Kem} (t : list observed) : Prop :=
  exists coins mtu frames, read_key pk t /\ encapsulate pk coins = Ok (ct, ss) /\
    fragment_data ct (frame_mtu mtu) = Ok frames /\
    Forall (fun f => wrote CHAR_CIPHERTEXT_UUID f t) frames.

#[export] Instance delivered_to_lasting pk ct ss `{Kem} : Lasting (delivered_to pk ct ss).
Proof.
  intros t u (coins & mtu & frames & Hr & He & Hf & Hw). exists coins, mtu, frames.
  split_and!; [by apply read_key_lasting|done|done|by apply forall_wrote_lasting].
Qed.

(** A frame of an encapsulation to the key that was read. *)
Definition fresh_ciphertext `{Kem} (t : list observed) (d : bytes) : Prop :=
  exists pk coins ct ss, read_key pk t /\ blen pk = PK_SIZE /\
    encapsulate pk coins = Ok (ct, ss) /\ ciphertext_frame ct d.
