(* ===== verification/Dict.v ===== *)
(** Python dicts with string keys, in insertion order, and the hexadecimal
    strings the stores use as keys and JSON values. *)

From S2P Require Import Prelude Py.
From Stdlib Require Import Ascii.
Open Scope Z_scope.

(** * Dicts *)

Abbreviation dict V := (list (string * V)).

Section Dict.
Context {V : Type}.

Fixpoint dict_get (k : string) (d : dict V) : option V :=
  match d with
  | [] => None
  | (k', v) :: r => if decide (k = k') then Some v else dict_get k r
  end.

(** [d[k] = v]: an existing key keeps its place. *)
Fixpoint dict_set (k : string) (v : V) (d : dict V) : dict V :=
  match d with
  | [] => [(k, v)]
  | (k', v') :: r => if decide (k = k') then (k, v) :: r else (k', v') :: dict_set k v r
  end.

(** [d.pop(k, None)]. *)
Fixpoint dict_del (k : string) (d : dict V) : dict V :=
  match d with
  | [] => []
  | (k', v) :: r => if decide (k = k') then r else (k', v) :: dict_del k r
  end.

Definition keys (d : dict V) : list string := map fst d.

Lemma dict_get_set k k' v d :
  dict_get k (dict_set k' v d) = if decide (k = k') then Some v else dict_get k d.
Proof.
  induction d as [|[j w] r IH]; cbn; [done|].
  destruct (decide (k' = j)) as [->|]; cbn.
  - by destruct (decide (k = j)).
  - rewrite IH. destruct (decide (k = j)) as [->|]; [|done].
    by rewrite decide_False by congruence.
Qed.

Lemma dict_get_None k d : dict_get k d = None <-> k ∉ keys d.
Proof.
  induction d as [|[j w] r IH]; cbn.
  - split; [intros _ H; inversion H|done].
  - rewrite not_elem_of_cons, <- IH. destruct (decide (k = j)); split; try done; try tauto.
Qed.

Lemma dict_get_del k k' d :
  NoDup (keys d) ->
  dict_get k (dict_del k' d) = if decide (k = k') then None else dict_get k d.
Proof.
  induction d as [|[j w] r IH]; cbn; intros Hnd.
  - by destruct (decide (k = k')).
  - inversion Hnd as [|? ? Hj Hnd']; subst.
    destruct (decide (k' = j)) as [->|]; cbn.
    + destruct (decide (k = j)) as [->|]; [by apply dict_get_None|done].
    + rewrite IH by done. destruct (decide (k = j)) as [->|]; [|done].
      by rewrite decide_False by congruence.
Qed.

Lemma keys_dict_set k v d :
  keys (dict_set k v d) = if decide (k ∈ keys d) then keys d else keys d ++ [k].
Proof.
  induction d as [|[j w] r IH]; cbn.
  - by rewrite decide_False by (intros H; inversion H).
  - destruct (decide (k = j)) as [->|]; cbn.
    + by rewrite decide_True by left.
    + fold (keys (dict_set k v r)) (keys r). rewrite IH.
      destruct (decide (k ∈ keys r)) as [Hin|Hin].
      * by rewrite decide_True by (by right).
      * rewrite decide_False by (rewrite not_elem_of_cons; done). done.
Qed.

Lemma NoDup_dict_set k v d : NoDup (keys d) -> NoDup (keys (dict_set k v d)).
Proof.
  rewrite keys_dict_set. case_decide; [done|]. intros. apply list.NoDup_app. split_and!; [done| |].
  - intros x Hx ->%list_elem_of_singleton. done.
  - apply NoDup_singleton.
Qed.

Lemma elem_of_dict_del x k d : x ∈ dict_del k d -> x ∈ d.
Proof.
  induction d as [|[j w] r IH]; cbn; [done|]. destruct (decide (k = j)).
  - by right.
  - intros [->|H]%elem_of_cons; [left|right; auto].
Qed.

Lemma NoDup_dict_del k d : NoDup (keys d) -> NoDup (keys (dict_del k d)).
Proof.
  induction d as [|[j w] r IH]; cbn; [done|]. intros Hnd.
  inversion Hnd as [|? ? Hj Hnd']; subst. destruct (decide (k = j)); [done|].
  cbn. constructor; [|auto]. intros Hin. apply Hj.
  unfold keys in *. apply list_elem_of_fmap in Hin as (y & -> & Hy%elem_of_dict_del).
  apply list_elem_of_fmap. eauto.
Qed.

Lemma dict_get_elem k v d : dict_get k d = Some v -> (k, v) ∈ d.
Proof.
  induction d as [|[j w] r IH]; cbn; [done|]. destruct (decide (k = j)) as [->|].
  - intros [= ->]. left.
  - intros. right. auto.
Qed.

Lemma elem_of_dict_set x k v d : x ∈ dict_set k v d -> x = (k, v) \/ x ∈ d.
Proof.
  induction d as [|[j w] r IH]; cbn.
  - intros ->%list_elem_of_singleton. by left.
  - destruct (decide (k = j)).
    + intros [->|H]%elem_of_cons; [by left|right; by right].
    + intros [->|H]%elem_of_cons; [right; left|].
      destruct (IH H); [by left|right; by right].
Qed.

(** Keeping the entries that satisfy a test. *)
Lemma dict_get_filter (P : string * V -> Prop) `{forall x, Decision (P x)} k d :
  NoDup (keys d) ->
  dict_get k (filter P d) =
    match dict_get k d with
    | Some v => if decide (P (k, v)) then Some v else None
    | None => None
    end.
Proof.
  induction d as [|[j w] r IH]; [done|]. intros Hnd.
  inversion Hnd as [|? ? Hj Hnd']; subst. rewrite filter_cons.
  destruct (decide (P (j, w))) as [Hp|Hp]; cbn; destruct (decide (k = j)) as [->|].
  - by rewrite decide_True.
  - by apply IH.
  - rewrite decide_False by done. rewrite IH by done.
    by rewrite (proj2 (dict_get_None j r)).
  - by apply IH.
Qed.

Lemma NoDup_keys_filter (P : string * V -> Prop) `{forall x, Decision (P x)} d :
  NoDup (keys d) -> NoDup (keys (filter P d)).
Proof.
  intros Hnd. eapply sublist_NoDup; [exact Hnd|].
  apply fmap_sublist, sublist_filter.
Qed.
End Dict.

(** * Hexadecimal *)

Definition hex_digit (n : Z) : ascii :=
  ascii_of_N (Z.to_N (if n <? 10 then 48 + n else 87 + n)).

(** [value.hex()]. *)
Fixpoint hex (l : bytes) : string :=
  match l with
  | [] => ""
  | x :: r => String (hex_digit (Z_of_byte x / 16))
                (String (hex_digit (Z_of_byte x mod 16)) (hex r))
  end.

Definition hex_value (c : ascii) : option Z :=
  let n := Z.of_N (N_of_ascii c) in
  if (48 <=? n) && (n <=? 57) then Some (n - 48)
  else if (97 <=? n) && (n <=? 102) then Some (n - 87)
  else if (65 <=? n) && (n <=? 70) then Some (n - 55)
  else None.

Definition is_space (c : ascii) : bool :=
  let n := Z.of_N (N_of_ascii c) in ((9 <=? n) && (n <=? 13)) || (n =? 32).

(** [bytes.fromhex(s)]: white space between bytes is skipped. *)
Fixpoint fromhex (s : string) : result bytes :=
  match s with
  | EmptyString => Ok []
  | String c r =>
      if is_space c then fromhex r
      else match r with
           | String c' r' =>
               match hex_value c, hex_value c' with
               | Some h, Some l => t ← fromhex r'; mret (byte_of_Z (16 * h + l) :: t)
               | _, _ => Err (ValueError "non-hexadecimal number found in fromhex() arg")
               end
           | EmptyString => Err (ValueError "non-hexadecimal number found in fromhex() arg")
           end
  end.

Lemma hex_digit_value n :
  0 <= n < 16 -> hex_value (hex_digit n) = Some n /\ is_space (hex_digit n) = false.
Proof.
  intros Hn. assert (n ∈ seqZ 0 16) as Hin by (apply elem_of_seqZ; lia).
  vm_compute in Hin.
  repeat (apply elem_of_cons in Hin as [->|Hin]; [done|]). inversion Hin.
Qed.

Lemma fromhex_hex l : fromhex (hex l) = Ok l.
Proof.
  induction l as [|x l IH]; [done|]. cbn [hex fromhex].
  pose proof (Z_of_byte_range x).
  destruct (hex_digit_value (Z_of_byte x / 16)) as [Hh Hs].
  { split; [apply Z.div_pos; lia|apply Z.div_lt_upper_bound; lia]. }
  destruct (hex_digit_value (Z_of_byte x mod 16)) as [Hl _]; [apply Z.mod_pos_bound; lia|].
  rewrite Hs, Hh, Hl, IH. cbn. do 2 f_equal.
  rewrite <- Z.div_mod by lia. apply byte_of_Z_of_byte.
Qed.

#[global] Instance hex_inj : Inj (=) (=) hex.
Proof. intros x y H. apply (f_equal fromhex) in H. rewrite !fromhex_hex in H. congruence. Qed.
