(* ===== verification/Session.v ===== *)
(** src/src/common/session.py: the session key, the legacy resume request and
    control messages, and [SecureChannel], the AES-256-GCM channel with
    sequence numbers that phases 3 to 7 and v0.8 use. *)

From S2P Require Import Prelude Py Digest Interfaces Constants Frame.
From stdpp Require Import sorting.
Open Scope Z_scope.

(** * Session key and control messages *)

Definition derive_session_key `{Kdf} (shared_secret : bytes) : bytes :=
  hkdf_derive SESSION_KEY_SIZE HKDF_SALT HKDF_INFO shared_secret.

(** [os.urandom(SESSION_ID_SIZE)]: the drawn bytes are an argument. *)
Definition generate_session_id (urandom : Z -> bytes) : bytes := urandom SESSION_ID_SIZE.

Definition build_resume_request (session_id : bytes) : result bytes :=
  raise_if (negb (blen session_id =? SESSION_ID_SIZE)) (ValueError "session_id must be 16 bytes");;
  mret (RESUME_MAGIC ++ RESUME_REQ ++ session_id).

(** The dict [parse_control_message] returns, by its "type" entry. *)
Inductive control_message :=
  | sas_confirm
  | resume_request (session_id : bytes)
  | unknown (raw : bytes).

Definition parse_control_message (data : bytes) : control_message :=
  if bool_decide (data = lit "OK") then sas_confirm
  else if (blen data =? 5 + SESSION_ID_SIZE)
          && bool_decide (bto 4 data = RESUME_MAGIC)
          && bool_decide (bslice 4 5 data = RESUME_REQ)
  then resume_request (bfrom 5 data)
  else unknown data.

(** * SecureChannel *)

Record SecureChannel := mkSecureChannel {
  _aesgcm : bytes;          (* the key inside AESGCM(session_key) *)
  _session_id : bytes;
  _role : bytes;
  _peer_role : bytes;
  _send_seq : Z;
  _last_recv_seq : Z;
  _sent_count : Z;
  _recv_count : Z;
}.

(** [x or default]: [None] and [b""] are false. *)
Definition bytes_or (x : option bytes) (d : bytes) : bytes :=
  match x with Some (a :: l) => a :: l | _ => d end.

Definition SecureChannel_init (session_key : bytes) (session_id role : option bytes)
  : result SecureChannel :=
  raise_if (negb (blen session_key =? SESSION_KEY_SIZE))
    (ValueError "Session key must be 32 bytes");;
  mret {|
    _aesgcm := session_key;
    _session_id := bytes_or session_id (zeros SESSION_ID_SIZE);
    _role := bytes_or role [x00];
    _peer_role := if decide (role = Some CENTRAL_ROLE) then PERIPHERAL_ROLE
                  else if decide (role = Some PERIPHERAL_ROLE) then CENTRAL_ROLE
                  else [x00];
    _send_seq := 0;
    _last_recv_seq := -1;
    _sent_count := 0;
    _recv_count := 0;
  |}.

Definition _build_aad (self : SecureChannel) (seq : Z) (role msg_type : bytes) : result bytes :=
  s ← to_bytes 8 seq;
  mret (_session_id self ++ role ++ s ++ msg_type).

Definition after_send (self : SecureChannel) : SecureChannel := {|
  _aesgcm := _aesgcm self; _session_id := _session_id self;
  _role := _role self; _peer_role := _peer_role self;
  _send_seq := _send_seq self + 1; _last_recv_seq := _last_recv_seq self;
  _sent_count := _sent_count self + 1; _recv_count := _recv_count self |}.

Definition after_recv (seq : Z) (self : SecureChannel) : SecureChannel := {|
  _aesgcm := _aesgcm self; _session_id := _session_id self;
  _role := _role self; _peer_role := _peer_role self;
  _send_seq := _send_seq self; _last_recv_seq := seq;
  _sent_count := _sent_count self; _recv_count := _recv_count self + 1 |}.

Section Channel.
Context `{Aead}.

(** [iv] is what [os.urandom(GCM_IV_SIZE)] returned. *)
Definition encrypt (plaintext msg_type iv : bytes) : method SecureChannel bytes :=
  self ← get_self;
  let seq := _send_seq self in
  aad ← run (_build_aad self seq (_role self) msg_type);
  let ciphertext_with_tag := aes_gcm_encrypt (_aesgcm self) iv plaintext aad in
  update after_send;;
  s ← run (to_bytes 8 seq);
  mret (s ++ msg_type ++ iv ++ ciphertext_with_tag).

Definition decrypt (wire_data msg_type : bytes) : method SecureChannel bytes :=
  let min_len := SEQ_NUM_SIZE + MSG_TYPE_SIZE + GCM_IV_SIZE + GCM_TAG_SIZE in
  raise_when (blen wire_data <? min_len) (ValueError "Wire data too short");;
  let seq := from_be (bto SEQ_NUM_SIZE wire_data) in
  let wire_msg_type := bslice SEQ_NUM_SIZE (SEQ_NUM_SIZE + MSG_TYPE_SIZE) wire_data in
  let iv_start := SEQ_NUM_SIZE + MSG_TYPE_SIZE in
  let iv := bslice iv_start (iv_start + GCM_IV_SIZE) wire_data in
  let ciphertext_with_tag := bfrom (iv_start + GCM_IV_SIZE) wire_data in
  raise_when (negb (bool_decide (wire_msg_type = msg_type))) (ValueError "Message type mismatch");;
  self ← get_self;
  raise_when (seq <=? _last_recv_seq self)
    (ValueError "Replay or out-of-order message detected");;
  aad ← run (_build_aad self seq (_peer_role self) wire_msg_type);
  plaintext ← run (match aes_gcm_decrypt (_aesgcm self) iv ciphertext_with_tag aad with
                   | Some p => Ok p
                   | None => Err InvalidTag
                   end);
  update (after_recv seq);;
  mret plaintext.
End Channel.

(** * Control messages *)

(** The peripheral parses what the central built: every 16-byte session id
    survives, any other length is refused, and the message is 21 bytes long. *)
Theorem resume_request_roundtrip session_id :
  (blen session_id = SESSION_ID_SIZE ->
   exists wire, build_resume_request session_id = Ok wire /\ blen wire = 21 /\
                parse_control_message wire = resume_request session_id) /\
  (blen session_id <> SESSION_ID_SIZE ->
   build_resume_request session_id = Err (ValueError "session_id must be 16 bytes")).
Proof.
  unfold build_resume_request, SESSION_ID_SIZE. split; intros Hl.
  - rewrite raise_if_false by lia. eexists. split; [done|].
    assert (blen (RESUME_MAGIC ++ RESUME_REQ ++ session_id) = 21) as Hw by bytes_len.
    split; [done|]. unfold parse_control_message, SESSION_ID_SIZE.
    rewrite bool_decide_eq_false_2 by (intros E; rewrite E in Hw; done).
    rewrite Hw, bto_app, bslice_app by done.
    rewrite !bool_decide_eq_true_2 by done. cbn [andb].
    rewrite (app_assoc RESUME_MAGIC), bfrom_app by done. done.
  - by rewrite raise_if_true by lia.
Qed.

(** * The wire layout *)

Definition channel_wire (seq : Z) (msg_type iv sealed : bytes) : bytes :=
  be_bytes 8 seq ++ msg_type ++ iv ++ sealed.

Definition channel_aad (session_id role : bytes) (seq : Z) (msg_type : bytes) : bytes :=
  session_id ++ role ++ be_bytes 8 seq ++ msg_type.

Arguments channel_wire : simpl never.
Arguments channel_aad : simpl never.

Lemma build_aad_Ok self seq role mt :
  0 <= seq < 2 ^ 64 ->
  _build_aad self seq role mt = Ok (channel_aad (_session_id self) role seq mt).
Proof. intros. unfold _build_aad. rewrite to_bytes_Ok by (change (256 ^ Z.of_nat 8) with (2^64); lia). done. Qed.

(** The associated data determines what it binds: two AADs of channels with
    16-byte session ids and one-byte roles and types are equal only for the same
    session, the same sender role, the same sequence number and the same
    message type. *)
Theorem channel_aad_binds sid1 sid2 role1 role2 seq1 seq2 mt1 mt2 :
  blen sid1 = SESSION_ID_SIZE -> blen sid2 = SESSION_ID_SIZE ->
  blen role1 = 1 -> blen role2 = 1 ->
  0 <= seq1 < 2 ^ 64 -> 0 <= seq2 < 2 ^ 64 ->
  channel_aad sid1 role1 seq1 mt1 = channel_aad sid2 role2 seq2 mt2 ->
  sid1 = sid2 /\ role1 = role2 /\ seq1 = seq2 /\ mt1 = mt2.
Proof.
  unfold channel_aad, blen, SESSION_ID_SIZE. intros Hs1 Hs2 Hr1 Hr2 Hq1 Hq2 H.
  apply app_inj_1 in H as [-> H]; [|lia].
  apply app_inj_1 in H as [-> H]; [|lia].
  apply app_inj_1 in H as [Hq ->]; [|by rewrite !length_be_bytes].
  apply (f_equal from_be) in Hq. rewrite !from_be_bytes in Hq.
  change (256 ^ Z.of_nat 8) with (2 ^ 64) in Hq. rewrite !Z.mod_small in Hq by lia. done.
Qed.

Section ChannelProofs.
Context `{AeadLaws}.

Lemma encrypt_eq s pt mt iv :
  0 <= _send_seq s < 2 ^ 64 ->
  encrypt pt mt iv s =
    (Ok (channel_wire (_send_seq s) mt iv
           (aes_gcm_encrypt (_aesgcm s) iv pt
              (channel_aad (_session_id s) (_role s) (_send_seq s) mt))), after_send s).
Proof.
  intros Hs. unfold encrypt. meth. rewrite build_aad_Ok by done.
  rewrite to_bytes_Ok by (change (256 ^ Z.of_nat 8) with (2^64); lia). done.
Qed.

Lemma encrypt_overflow s pt mt iv :
  ~ (0 <= _send_seq s < 2 ^ 64) -> encrypt pt mt iv s = (Err OverflowError, s).
Proof.
  intros Hs. unfold encrypt. meth. unfold _build_aad.
  rewrite to_bytes_Err by (change (256 ^ Z.of_nat 8) with (2^64); lia). done.
Qed.

(** What [decrypt] does on data that has the layout of a wire message. *)
Lemma decrypt_wire r seq mt iv sealed mt' :
  0 <= seq < 2 ^ 64 -> blen mt' = 1 -> blen iv = 12 -> 16 <= blen sealed ->
  decrypt (channel_wire seq mt' iv sealed) mt r =
    if negb (bool_decide (mt' = mt)) then (Err (ValueError "Message type mismatch"), r)
    else if seq <=? _last_recv_seq r
    then (Err (ValueError "Replay or out-of-order message detected"), r)
    else match aes_gcm_decrypt (_aesgcm r) iv sealed
                 (channel_aad (_session_id r) (_peer_role r) seq mt') with
         | Some p => (Ok p, after_recv seq r)
         | None => (Err InvalidTag, r)
         end.
Proof.
  intros Hq Hmt Hiv Hs. unfold decrypt, channel_wire. cbn [Z.add SEQ_NUM_SIZE MSG_TYPE_SIZE GCM_IV_SIZE GCM_TAG_SIZE].
  unfold SEQ_NUM_SIZE, MSG_TYPE_SIZE, GCM_IV_SIZE, GCM_TAG_SIZE.
  meth.
  rewrite raise_if_false by bytes_len.
  rewrite bto_app, bslice_app by (autorewrite with bytes; lia).
  rewrite (app_assoc _ mt'), bslice_app by (autorewrite with bytes; lia).
  rewrite (app_assoc _ iv), bfrom_app by (autorewrite with bytes; lia).
  rewrite from_be_bytes. change (256 ^ Z.of_nat 8) with (2 ^ 64). rewrite Z.mod_small by lia.
  destruct (negb (bool_decide (mt' = mt))); [done|]. cbn [raise_if].
  destruct (seq <=? _last_recv_seq r); [done|]. cbn [raise_if].
  rewrite build_aad_Ok by done.
  by destruct (aes_gcm_decrypt _ _ _ _).
Qed.

(** Round trip between the two ends: a receiver with the same key and
    session id, whose peer role is the sender's role and which has accepted
    nothing from this sequence number on, recovers the plaintext; the wire is
    37 bytes longer, and each end advances its own counter. *)
Theorem secure_channel_roundtrip s r pt mt iv :
  _aesgcm r = _aesgcm s -> _session_id r = _session_id s -> _peer_role r = _role s ->
  0 <= _send_seq s < 2 ^ 64 -> _last_recv_seq r < _send_seq s ->
  blen mt = 1 -> blen iv = GCM_IV_SIZE ->
  exists wire,
    encrypt pt mt iv s = (Ok wire, after_send s) /\
    decrypt wire mt r = (Ok pt, after_recv (_send_seq s) r) /\
    blen wire = blen pt + SECURE_CHANNEL_OVERHEAD.
Proof.
  unfold GCM_IV_SIZE. intros Hk Hsid Hrole Hseq Hlast Hmt Hiv. eexists.
  split; [by apply encrypt_eq|]. split.
  - rewrite decrypt_wire; [|done..|rewrite aes_gcm_size; bytes_len].
    rewrite bool_decide_eq_true_2 by done. cbn [negb].
    rewrite (proj2 (Z.leb_gt _ _)) by lia.
    by rewrite Hk, Hsid, Hrole, aes_gcm_roundtrip.
  - unfold channel_wire. autorewrite with bytes. rewrite aes_gcm_size.
    change SECURE_CHANNEL_OVERHEAD with 37. lia.
Qed.

(** A failed [decrypt] leaves the channel as it was; a successful one
    moves the accepted sequence number strictly forward to the one on the
    wire. *)
Theorem decrypt_advances_or_fails wire mt r :
  (exists e, decrypt wire mt r = (Err e, r)) \/
  (exists p, decrypt wire mt r = (Ok p, after_recv (from_be (bto SEQ_NUM_SIZE wire)) r) /\
             _last_recv_seq r < from_be (bto SEQ_NUM_SIZE wire)).
Proof.
  unfold decrypt. meth.
  destruct (blen wire <? _); cbn [raise_if]; [eauto|].
  destruct (negb _); cbn [raise_if]; [eauto|].
  destruct (Z.leb_spec (from_be (bto SEQ_NUM_SIZE wire)) (_last_recv_seq r)); cbn [raise_if]; [eauto|].
  destruct (_build_aad _ _ _ _); [|eauto].
  destruct (aes_gcm_decrypt _ _ _ _); eauto.
Qed.
End ChannelProofs.

(** * One wire of a direction *)

(** [d] is what a channel with this key, session and role seals at [seq]. *)
Definition sealed `{Aead} (key session_id role : bytes) (seq : Z) (plaintext d : bytes) : Prop :=
  exists iv, d = channel_wire seq MSG_TYPE_DATA iv
                   (aes_gcm_encrypt key iv plaintext (channel_aad session_id role seq MSG_TYPE_DATA)).

(** The sequence number on a wire. *)
Definition wire_seq (w : bytes) : Z := from_be (bto SEQ_NUM_SIZE w).

(** [raw] opens to [plaintext] as a message of [role] numbered [seq]. *)
Definition opened `{Aead} (key session_id role : bytes) (seq : Z) (plaintext raw : bytes) : Prop :=
  wire_seq raw = seq /\ bslice 8 9 raw = MSG_TYPE_DATA /\
  aes_gcm_decrypt key (bslice 9 21 raw) (bfrom 21 raw)
    (channel_aad session_id role seq MSG_TYPE_DATA) = Some plaintext.

Lemma encrypt_sealed `{Aead} s pt iv d s' :
  encrypt pt MSG_TYPE_DATA iv s = (Ok d, s') ->
  sealed (_aesgcm s) (_session_id s) (_role s) (_send_seq s) pt d /\ s' = after_send s.
Proof.
  intros He. destruct (decide (0 <= _send_seq s < 2 ^ 64)) as [Hs|Hs].
  - rewrite encrypt_eq in He by done. injection He as <- <-. split; [by exists iv|done].
  - by rewrite encrypt_overflow in He.
Qed.

Lemma encrypt_err `{Aead} s pt iv x s' : encrypt pt MSG_TYPE_DATA iv s = (Err x, s') -> s' = s.
Proof.
  intros He. destruct (decide (0 <= _send_seq s < 2 ^ 64)) as [Hs|Hs].
  - by rewrite encrypt_eq in He.
  - rewrite encrypt_overflow in He by done. by injection He as _ <-.
Qed.

Lemma decrypt_opened `{Aead} r raw pt r' :
  decrypt raw MSG_TYPE_DATA r = (Ok pt, r') ->
  opened (_aesgcm r) (_session_id r) (_peer_role r) (wire_seq raw) pt raw /\
  r' = after_recv (wire_seq raw) r /\ _last_recv_seq r < wire_seq raw.
Proof.
  unfold decrypt, wire_seq. meth. destruct (blen raw <? _) eqn:Hl; cbn [raise_if]; [done|].
  destruct (bool_decide_reflect (bslice SEQ_NUM_SIZE (SEQ_NUM_SIZE + MSG_TYPE_SIZE) raw = MSG_TYPE_DATA)) as [Hm|];
    cbn [negb raise_if]; [|done].
  destruct (Z.leb_spec (from_be (bto SEQ_NUM_SIZE raw)) (_last_recv_seq r)); cbn [raise_if]; [done|].
  rewrite Hm. pose proof (from_be_range (bto SEQ_NUM_SIZE raw)) as Hr.
  rewrite build_aad_Ok; cycle 1.
  { rewrite blen_bto, Z.min_l in Hr by (revert Hl; unfold SEQ_NUM_SIZE, MSG_TYPE_SIZE, GCM_IV_SIZE, GCM_TAG_SIZE; lia).
    exact Hr. }
  destruct (aes_gcm_decrypt _ _ _ _) eqn:Hd; [|done]. intros [= -> <-]. by split_and!.
Qed.

(** * Sequences of operations *)

Section Sequences.
Context `{Aead}.

Fixpoint receive_all (mt : bytes) (wires : list bytes) (r : SecureChannel)
  : list (result bytes) * SecureChannel :=
  match wires with
  | [] => ([], r)
  | w :: ws =>
      let (res, r1) := decrypt w mt r in
      let (rest, r2) := receive_all mt ws r1 in
      (res :: rest, r2)
  end.

Fixpoint send_all (mt : bytes) (msgs : list (bytes * bytes)) (s : SecureChannel)
  : list (result bytes) * SecureChannel :=
  match msgs with
  | [] => ([], s)
  | (pt, iv) :: ms =>
      let (res, s1) := encrypt pt mt iv s in
      let (rest, s2) := send_all mt ms s1 in
      (res :: rest, s2)
  end.

(** The wires that were accepted, with their sequence numbers. *)
Definition accepted (wires : list bytes) (results : list (result bytes)) : list bytes :=
  flat_map (fun '(w, res) => match res with Ok _ => [w] | Err _ => [] end)
           (zip wires results).

End Sequences.

Section SequenceProofs.
Context `{AeadLaws}.

(** C30. Replay protection over any traffic, in any order and with any number
    of forged or repeated messages: the sequence numbers of the accepted
    messages are strictly increasing and above the last one accepted before,
    so no message is accepted twice; the receive counter counts them. *)
Theorem receive_all_no_replay mt wires r results r' :
  receive_all mt wires r = (results, r') ->
  let seqs := map wire_seq (accepted wires results) in
  StronglySorted Z.lt (_last_recv_seq r :: seqs) /\
  NoDup (accepted wires results) /\
  _recv_count r' = _recv_count r + Z.of_nat (length seqs) /\
  _last_recv_seq r' = List.last seqs (_last_recv_seq r).
Proof.
  cbn zeta. revert r results r'. induction wires as [|w ws IH]; intros r results r' Hr.
  - cbn in Hr. simplify_eq. cbn. split_and!; [repeat constructor|constructor|lia|done].
  - cbn in Hr. destruct (receive_all mt ws (decrypt w mt r).2) as [rest r2] eqn:Hrest.
    destruct (decrypt_advances_or_fails w mt r) as [(e & Hd)|(p & Hd & Hlt)];
      rewrite Hd in Hr, Hrest; cbn [snd] in Hrest; rewrite Hrest in Hr; simplify_eq;
      specialize (IH _ _ _ Hrest) as (Hsort & Hnd & Hc & Hl).
    + exact (conj Hsort (conj Hnd (conj Hc Hl))).
    + cbn [accepted zip zip_with flat_map app]. fold (accepted ws rest).
      change (_last_recv_seq (after_recv _ r)) with (wire_seq w) in *.
      change (_recv_count (after_recv _ r)) with (_recv_count r + 1) in *.
      cbn [map]. inversion Hsort as [|? ? Hsort' Hall]; subst. split_and!.
      * constructor; [done|]. constructor; [exact Hlt|].
        rewrite Forall_forall in *. intros x Hx. specialize (Hall x Hx). unfold wire_seq in *. lia.
      * constructor; [|done]. intros Hin. rewrite Forall_forall in Hall.
        specialize (Hall (wire_seq w)). apply (Z.lt_irrefl (wire_seq w)), Hall.
        apply list_elem_of_fmap. eauto.
      * cbn [length]. lia.
      * rewrite Hl. symmetry. apply last_cons_default.
Qed.

Lemma wire_seq_channel_wire seq mt iv c : 0 <= seq < 2 ^ 64 -> wire_seq (channel_wire seq mt iv c) = seq.
Proof.
  intros Hs. unfold wire_seq, channel_wire, SEQ_NUM_SIZE. rewrite bto_app by (autorewrite with bytes; lia).
  rewrite from_be_bytes. by apply Z.mod_small.
Qed.

Lemma send_all_exhausted mt msgs s :
  2 ^ 64 <= _send_seq s -> send_all mt msgs s = (map (fun _ => Err OverflowError) msgs, s).
Proof.
  intros Hs. induction msgs as [|[pt iv] ms IH]; [done|]. cbn. by rewrite encrypt_overflow, IH by lia.
Qed.

(** C38. Sequence numbers are consumed one per message and never reused: the
    message sent [n]-th carries [_send_seq + n] while that is below 2^64, and from
    there on every call raises [OverflowError]; the counter ends where the last
    message that was sent left it; and a channel whose counter has reached 2^64
    raises on every message and is left as it was. *)
Theorem send_all_sequence mt msgs s :
  0 <= _send_seq s ->
  (forall n pt iv, msgs !! n = Some (pt, iv) ->
     if _send_seq s + Z.of_nat n <? 2 ^ 64
     then exists wire, (send_all mt msgs s).1 !! n = Some (Ok wire) /\ wire_seq wire = _send_seq s + Z.of_nat n
     else (send_all mt msgs s).1 !! n = Some (Err OverflowError)) /\
  _send_seq (send_all mt msgs s).2 = Z.max (_send_seq s) (Z.min (2 ^ 64) (_send_seq s + Z.of_nat (length msgs))) /\
  (2 ^ 64 <= _send_seq s -> send_all mt msgs s = (map (fun _ => Err OverflowError) msgs, s)).
Proof.
  intros Hs. split; [|split; [|apply send_all_exhausted]].
  - revert s Hs. induction msgs as [|[pt0 iv0] ms IH]; intros s Hs n pt iv Hm; [done|].
    destruct (Z.lt_ge_cases (_send_seq s) (2 ^ 64)) as [Hlt|Hge].
    + cbn [send_all]. rewrite encrypt_eq by lia. specialize (IH (after_send s) ltac:(cbn; lia)).
      destruct (send_all mt ms (after_send s)) as [rest s2]. destruct n as [|n].
      * rewrite (proj2 (Z.ltb_lt _ _)) by lia. eexists. split; [done|]. rewrite wire_seq_channel_wire; lia.
      * specialize (IH n pt iv Hm). change (_send_seq (after_send s)) with (_send_seq s + 1) in IH.
        replace (_send_seq s + 1 + Z.of_nat n) with (_send_seq s + Z.of_nat (S n)) in IH by lia. exact IH.
    + rewrite (proj2 (Z.ltb_ge _ _)), send_all_exhausted by lia. cbn [fst]. by rewrite list_lookup_fmap, Hm.
  - revert s Hs. induction msgs as [|[pt0 iv0] ms IH]; intros s Hs; [cbn; lia|].
    destruct (Z.lt_ge_cases (_send_seq s) (2 ^ 64)) as [Hlt|Hge]; [|rewrite send_all_exhausted by lia; cbn [snd length]; lia].
    cbn [send_all]. rewrite encrypt_eq by lia. specialize (IH (after_send s) ltac:(cbn; lia)).
    destruct (send_all mt ms (after_send s)) as [rest s2]. cbn [snd length] in *. rewrite IH.
    change (_send_seq (after_send s)) with (_send_seq s + 1). lia.
Qed.
End SequenceProofs.

(** ** Witnesses: a Central and a Peripheral that share a key *)

Definition demo_key : bytes := zeros 32.
Definition demo_session : bytes := be_bytes 16 1.

Definition demo_channel (role : bytes) : SecureChannel :=
  match SecureChannel_init demo_key (Some demo_session) (Some role) with
  | Ok ch => ch
  | Err _ => mkSecureChannel [] [] [] [] 0 0 0 0
  end.

Definition demo_ping : bytes :=
  match (@encrypt Toy.aead (lit "PING 0") MSG_TYPE_DATA (zeros 12) (demo_channel CENTRAL_ROLE)).1 with
  | Ok w => w
  | Err _ => []
  end.

Lemma resume_request_roundtrip_witness :
  exists wire, build_resume_request demo_session = Ok wire /\ blen wire = 21 /\
               parse_control_message wire = resume_request demo_session.
Proof. apply (proj1 (resume_request_roundtrip demo_session)). vm_compute. reflexivity. Defined.

Lemma channel_aad_binds_witness :
  demo_session = demo_session /\ CENTRAL_ROLE = CENTRAL_ROLE /\ 7 = 7 /\ MSG_TYPE_DATA = MSG_TYPE_DATA.
Proof.
  apply (channel_aad_binds demo_session demo_session CENTRAL_ROLE CENTRAL_ROLE 7 7
           MSG_TYPE_DATA MSG_TYPE_DATA); vm_compute; intuition congruence.
Defined.

Lemma secure_channel_roundtrip_witness :
  exists wire,
    @encrypt Toy.aead (lit "PING 0") MSG_TYPE_DATA (zeros 12) (demo_channel CENTRAL_ROLE)
      = (Ok wire, after_send (demo_channel CENTRAL_ROLE)) /\
    @decrypt Toy.aead wire MSG_TYPE_DATA (demo_channel PERIPHERAL_ROLE)
      = (Ok (lit "PING 0"), after_recv 0 (demo_channel PERIPHERAL_ROLE)) /\
    blen wire = 6 + SECURE_CHANNEL_OVERHEAD.
Proof.
  apply (@secure_channel_roundtrip Toy.aead Toy.aead_laws (demo_channel CENTRAL_ROLE) (demo_channel PERIPHERAL_ROLE)
           (lit "PING 0") MSG_TYPE_DATA (zeros 12)); vm_compute; intuition congruence.
Defined.

(** A replayed message is refused the second time. *)
Lemma receive_all_no_replay_witness :
  let wires := [demo_ping; demo_ping] in
  let out := @receive_all Toy.aead MSG_TYPE_DATA wires (demo_channel PERIPHERAL_ROLE) in
  let seqs := map wire_seq (accepted wires out.1) in
  StronglySorted Z.lt (-1 :: seqs) /\ NoDup (accepted wires out.1) /\
  _recv_count out.2 = 0 + Z.of_nat (length seqs) /\ _last_recv_seq out.2 = List.last seqs (-1).
Proof.
  cbn zeta.
  apply (@receive_all_no_replay Toy.aead MSG_TYPE_DATA [demo_ping; demo_ping] (demo_channel PERIPHERAL_ROLE)).
  apply surjective_pairing.
Defined.

(** The last sequence number, and a message too many. *)
Definition demo_last : SecureChannel :=
  let s := demo_channel CENTRAL_ROLE in
  mkSecureChannel (_aesgcm s) (_session_id s) (_role s) (_peer_role s) (2 ^ 64 - 1) (_last_recv_seq s) (_sent_count s)
    (_recv_count s).

Lemma send_all_sequence_witness :
  let out := @send_all Toy.aead MSG_TYPE_DATA [(lit "PING 0", zeros 12); (lit "PING 1", zeros 12)] demo_last in
  (exists wire, out.1 !! 0%nat = Some (Ok wire) /\ wire_seq wire = 2 ^ 64 - 1 + Z.of_nat 0) /\
  out.1 !! 1%nat = Some (Err OverflowError) /\ _send_seq out.2 = 2 ^ 64.
Proof.
  cbn zeta.
  assert (0 <= _send_seq demo_last) as Hs by (vm_compute; discriminate).
  destruct (@send_all_sequence Toy.aead MSG_TYPE_DATA [(lit "PING 0", zeros 12); (lit "PING 1", zeros 12)]
    demo_last Hs) as (Hn & Hf & _).
  split; [exact (Hn 0%nat _ _ eq_refl)|]. split; [exact (Hn 1%nat _ _ eq_refl)|exact Hf].
Defined.

(** The reflected message of the Central is not accepted by the Central. *)
Example reflection_rejected :
  (@decrypt Toy.aead demo_ping MSG_TYPE_DATA (demo_channel CENTRAL_ROLE)).1 = Err InvalidTag.
Proof. vm_compute. reflexivity. Qed.
