(* ===== verification/Runner.v ===== *)
(** What the runners of phases 3, 6 and 7 share: a queue fed by notifications,
    the flag [notify_started], variables of their own, and application traffic
    over one [SecureChannel] per direction. *)

From stdpp Require Import sets.
From S2P Require Import Prelude Py Interfaces World Constants BleClient Runs Policy Sas Session.
Open Scope Z_scope.

Record runner (X : Type) := mkRunner {
  notifications : list bytes;
  notify_started : bool;
  vars : X;
}.
Arguments mkRunner {X}.
Arguments notifications {X}.
Arguments notify_started {X}.
Arguments vars {X}.

Definition set_queue {X} (q : list bytes) (l : runner X) : runner X :=
  mkRunner q (notify_started l) (vars l).
Definition set_vars {X} (f : X -> X) (l : runner X) : runner X :=
  mkRunner (notifications l) (notify_started l) (f (vars l)).

(** The notification handler puts the bytes in the queue; no session object is
    shared with the client. *)
#[export] Instance runner_program X : Program (runner X) := {
  clear_object _ l := l;
  on_data _ _ b l := set_queue (notifications l ++ [b]) l;
}.

Section Runner.
Context {W X : Type} `{Env W}.

Abbreviation coroutine := (method (io W (host (runner X)))).

Definition get_vars : coroutine X := h ← get_own; mret (vars (local h)).
Definition update_vars (f : X -> X) : coroutine unit := update_own (on_local (set_vars f)).

(** A method of an object that a variable holds, or [None]. *)
Definition on_object {T A} (get : X -> option T) (set : T -> X -> X) (m : method T A) : coroutine A :=
  x ← get_vars;
  match get x with
  | None => raise AttributeError
  | Some o => let (r, o') := m o in update_vars (set o');; run r
  end.

(** The variables at the start of a run. *)
Definition begin_run (x : X) : coroutine unit :=
  update_own (on_local (fun _ => mkRunner [] false x)).

(** [await client.start_notify(handler); notify_started = True]. *)
Definition subscribe : coroutine unit :=
  start_notify;;
  update_own (on_local (fun l => mkRunner (notifications l) true (vars l))).

(** [await asyncio.wait_for(notifications.get(), timeout=timeout)]. *)
Definition next_notification : coroutine bytes :=
  perform Wait;;
  h ← get_own;
  match notifications (local h) with
  | [] => raise AsyncTimeoutError
  | b :: q => update_own (on_local (set_queue q));; mret b
  end.

Definition is_timeout (x : exn) : bool := bool_decide (x = AsyncTimeoutError).

(** The same, with the exception a timeout becomes. *)
Definition _receive (timed_out : exn) : coroutine bytes :=
  try_except is_timeout (fun _ => raise timed_out) next_notification.

(** The end of the [finally] block. *)
Definition unsubscribe (failed : exn -> coroutine unit) : coroutine unit :=
  h ← get_own;
  if notify_started (local h) then try_except is_exception failed stop_notify else mret tt.
End Runner.

(** [f"PING {i}".encode("ascii")] and the answer. *)
Definition ping (i : Z) : bytes := lit ("PING " ++ py_str i).
Definition pong (i : Z) : bytes := lit ("PONG " ++ py_str i).

(** [wire[:-1] + bytes((wire[-1] ^ 1,))] of a wire that is not empty. *)
Definition flip_last_bit (wire : bytes) : bytes :=
  alter (fun x => byte_xor x x01) (length wire - 1)%nat wire.

(** * The queue holds what was heard *)

(** A rule for a call inside a block applies to the last call as well. *)
Lemma triple_last {S A} (P : S -> Prop) (m : method S A) Q E :
  triple P (a ← m; mret a) Q E -> triple P m Q E.
Proof.
  intros Hm s Hs. specialize (Hm s Hs). revert Hm. unfold mbind, method_bind, mret, method_ret.
  by destruct (m s) as [[a|e] s'].
Qed.

(** The queue is covered by the trace, and the variables satisfy [P]. *)
Definition stage {X} (P : X -> list observed -> Prop) (l : runner X) (t : list observed) : Prop :=
  (forall b, b ∈ notifications l -> b ∈ heard t) /\ P (vars l) t.

#[export] Instance stage_kept {X} (P : X -> list observed -> Prop) :
  (forall x, Lasting (P x)) -> Kept (stage P).
Proof.
  intros HP. split.
  - intros x b d l t [Hq Hp]. split; [|by apply HP]. cbn. intros c Hc.
    rewrite heard_app. apply elem_of_app. apply elem_of_app in Hc as [Hc|Hc]; [left; auto|].
    apply list_elem_of_singleton in Hc as ->. right. by left.
  - intros c l t [Hq Hp]. split; [|by apply HP]. intros b Hb. apply (lasting_heard b). auto.
  - intros a r l t [Hq Hp]. split; [|by apply HP]. intros b Hb. apply (lasting_heard b). auto.
  - by intros o l t Hl.
Qed.

Lemma stage_implies {X} (P P' : X -> list observed -> Prop) :
  (forall x t, P x t -> P' x t) -> implies (stage P) (stage P').
Proof. intros Hi l t [Hq Hp]. split; auto. Qed.

Lemma along_stage {X} (P P' : X -> list observed -> Prop) F :
  (forall x t, P x t -> F t -> P' x t) -> implies (along (stage P) F) (stage P').
Proof. intros Hi l t [[Hq Hp] Hf]. split; auto. Qed.

Section Rules.
Context {W X : Type} `{Env W}.
Variable allowed : list observed -> action -> Prop.
Abbreviation at_r := (at_ (W := W) (L := runner X) allowed).
Implicit Types P : X -> list observed -> Prop.

(** The requests every runner makes freely. *)
Class Listens : Prop := {
  may_wait t : allowed t Wait;
  may_subscribe t c : allowed t (StartNotify c CHAR_DATA_UUID);
  may_unsubscribe t c : allowed t (StopNotify c CHAR_DATA_UUID);
  may_read_key t c : allowed t (ReadGatt c CHAR_PUBKEY_UUID);
}.
Context {HL : Listens}.

Lemma at_next P :
  (forall x, Lasting (P x)) ->
  triple (at_r (stage P)) next_notification
    (fun b => at_r (stage (fun x t => P x t /\ b ∈ heard t))) (fun _ => at_r (stage P)).
Proof.
  intros HP. unfold next_notification.
  apply step_same; [apply (at_do allowed _ Wait); [apply _|intros; apply may_wait]|done|]. intros u.
  apply step_get. intros h. destruct (notifications (local h)) as [|b q] eqn:Hq.
  - apply at_raise. by intros l t [_ Hl].
  - eapply step_update with (J' := stage (fun x t => P x t /\ b ∈ heard t)); [|by apply triple_ret].
    intros h' t [He [Hc Hp]]. rewrite He, Hq in Hc. unfold stage. cbn.
    split; [intros c Hb; apply Hc; by right|split; [done|apply Hc; by left]].
Qed.

(** ** Runs whose variables are known

    [having x F]: the variables are [x], and [F] holds of the trace. An exception
    leaves into [covered], where nothing is known of the variables: the [finally]
    blocks overwrite them all. *)
Definition having (x : X) (F : list observed -> Prop) : runner X -> list observed -> Prop :=
  stage (fun y t => y = x /\ F t).
Definition covered : runner X -> list observed -> Prop := stage (fun _ _ => True).

#[export] Instance having_kept x F : Lasting F -> Kept (having x F).
Proof. intros HF. apply stage_kept. apply _. Qed.
#[export] Instance covered_kept : Kept covered.
Proof. apply stage_kept. apply _. Qed.

Lemma having_covered x F : implies (having x F) covered.
Proof. by intros l t [Hq _]. Qed.

Lemma having_implies x F F' : (forall t, F t -> F' t) -> implies (having x F) (having x F').
Proof. intros Hi. apply stage_implies. intros y t [-> Hf]. auto. Qed.

Lemma along_having x F F' G :
  (forall t, F t -> G t -> F' t) -> implies (along (having x F) G) (having x F').
Proof. intros Hi. apply along_stage. intros y t [-> Hf] Hg. auto. Qed.

Section Steps.
Context {B : Type} (Q : B -> io W (host (runner X)) -> Prop) (x : X) (F : list observed -> Prop).
Context {HF : Lasting F}.
Abbreviation goes J k := (triple (at_r J) k Q (fun _ => at_r covered)).
#[local] Hint Resolve having_covered : core.

(** A block, by what it establishes. *)
Lemma r_block {A} J (m : method (io W (host (runner X))) A) (R : A -> runner X -> list observed -> Prop) k :
  triple (at_r J) m (fun a => at_r (R a)) (fun _ => at_r covered) ->
  (forall a, goes (R a) (k a)) -> goes J (a ← m; k a).
Proof. intros Hm Hk. by eapply step_at; [exact Hm|done|]. Qed.

Lemma r_weaken F' k : (forall t, F t -> F' t) -> goes (having x F') k -> goes (having x F) k.
Proof. intros Hi Hk. eapply at_weaken; [by apply having_implies|exact Hk]. Qed.

(** A consequence of [F] that does not depend on the trace. *)
Lemma r_fact (phi : Prop) k :
  (forall t, F t -> phi) -> (phi -> goes (having x F) k) -> goes (having x F) k.
Proof. intros Hf Hk s Hs. apply Hk; [|done]. destruct Hs as [[_ [_ Ht]] _]. by eapply Hf. Qed.

Lemma r_raise e : goes (having x F) (raise e).
Proof. by apply at_raise. Qed.

Lemma r_when c e k : (c = false -> goes (having x F) k) -> goes (having x F) (raise_when c e;; k).
Proof. by apply step_raise_when. Qed.

Lemma r_run {A} (r : result A) k :
  (forall a, r = Ok a -> goes (having x F) (k a)) -> goes (having x F) (a ← run r; k a).
Proof. by apply step_result. Qed.

Lemma r_ask q (k : answer q -> _) :
  (forall a, goes (having x F) (k a)) -> goes (having x F) (a ← query_env q; k a).
Proof. apply step_ask. Qed.

Lemma r_connected k :
  (forall b, goes (having x F) (k b)) -> goes (having x F) (b ← is_connected; k b).
Proof. apply step_connected. Qed.

Lemma r_mtu k : (forall m, goes (having x F) (k m)) -> goes (having x F) (m ← mtu_size; k m).
Proof. apply step_mtu. Qed.

Lemma r_vars f k : goes (having (f x) F) k -> goes (having x F) (update_vars f;; k).
Proof. apply step_update. intros h t [Hq [He Hf]]. unfold having, stage. cbn. by rewrite He. Qed.

Lemma r_get k : goes (having x F) (k x) -> goes (having x F) (y ← get_vars; k y).
Proof.
  intros Hk s [[Hq [He Hf]] Ho]. unfold get_vars, get_own, mbind, method_bind, mret, method_ret in *.
  rewrite He. by apply Hk.
Qed.

(** The function around a block may convert its exceptions. *)
Lemma r_try {A} catches h (m : method (io W (host (runner X))) A) (R : A -> runner X -> list observed -> Prop) k :
  triple (at_r (having x F)) m (fun a => at_r (R a)) (fun _ => at_r (having x F)) ->
  (forall e, triple (at_r (having x F)) (h e) (fun a => at_r (R a)) (fun _ => at_r covered)) ->
  (forall a, goes (R a) (k a)) -> goes (having x F) (a ← try_except catches h m; k a).
Proof.
  intros Hm Hh. apply r_block. eapply triple_except; [exact Hm|auto|].
  intros e s _. by apply at_implies.
Qed.

(** The same when the variables may have changed before the exception. *)
Lemma r_guarded {A} catches h (m : method (io W (host (runner X))) A) (R : A -> runner X -> list observed -> Prop) k :
  triple (at_r (having x F)) m (fun a => at_r (R a)) (fun _ => at_r covered) ->
  (forall e, triple (at_r covered) (h e) (fun a => at_r (R a)) (fun _ => at_r covered)) ->
  (forall a, goes (R a) (k a)) -> goes (having x F) (a ← try_except catches h m; k a).
Proof. intros Hm Hh. apply r_block. by eapply triple_except. Qed.

(** A conversion of the errors of a function. *)
Lemma r_convert {A} catches e (r : result A) k :
  (forall a, r = Ok a -> goes (having x F) (k a)) ->
  goes (having x F) (a ← try_except catches (fun _ => raise e) (run r); k a).
Proof.
  intros Hk. apply r_try with (R := fun a l t => r = Ok a /\ having x F l t).
  - intros s Hs. unfold run. destruct r; [|done]. destruct Hs. by split.
  - intros _. by apply at_raise.
  - intros a. apply at_pure. apply Hk.
Qed.

Lemma r_next k :
  (forall b, goes (having x (fun t => F t /\ b ∈ heard t)) (k b)) ->
  goes (having x F) (b ← next_notification; k b).
Proof.
  intros Hk. apply step_at with (J' := having x F)
    (R := fun b => having x (fun t => F t /\ b ∈ heard t)); [|done|exact Hk].
  eapply triple_conseq; [intros s Hs; exact Hs|apply at_next; apply _| |done].
  intros b s. apply at_implies, stage_implies. by intros y t [[-> Hf] Hb].
Qed.

Lemma r_receive e k :
  (forall b, goes (having x (fun t => F t /\ b ∈ heard t)) (k b)) ->
  goes (having x F) (b ← _receive e; k b).
Proof.
  apply r_try; [|intros y; by apply at_raise].
  eapply triple_conseq; [intros s Hs; exact Hs|apply at_next; apply _| |done].
  intros b s. apply at_implies, stage_implies. by intros y t [[-> Hf] Hb].
Qed.

Lemma r_subscribe k : goes (having x F) k -> goes (having x F) (subscribe;; k).
Proof.
  intros Hk. apply r_block with (R := fun _ => having x F); [|by intros _].
  eapply step_at; [apply (at_start_notify allowed (having x F)); [apply _|intros c l t _; apply may_subscribe]|done|].
  intros u. apply at_update. intros h t [[Hq Hp] _]. by split.
Qed.

Lemma r_read_key k :
  (forall pk, goes (having x (fun t => F t /\ read_key pk t)) (k pk)) ->
  goes (having x F) (pk ← read_fragmented_public_key; k pk).
Proof.
  intros Hk. eapply step_at; [apply (at_read_public_key allowed (having x F));
    [apply _|intros c l t _; apply may_read_key]|done|].
  intros pk. eapply at_weaken; [|apply Hk]. by apply along_having.
Qed.

Lemma r_control data k :
  (forall t c, F t -> allowed t (WriteGatt c CHAR_CONTROL_UUID data)) ->
  goes (having x (fun t => F t /\ wrote CHAR_CONTROL_UUID data t)) k ->
  goes (having x F) (send_control data;; k).
Proof.
  intros Ha Hk. eapply step_at; [apply (at_send_control allowed (having x F));
    [apply _|intros c l t [_ [_ Hf]]; by apply Ha]|done|].
  intros u. eapply at_weaken; [|apply Hk]. by apply along_having.
Qed.

Lemma r_data data k :
  (forall t c, F t -> allowed t (WriteGatt c CHAR_DATA_UUID data)) ->
  goes (having x (fun t => F t /\ wrote CHAR_DATA_UUID data t)) k ->
  goes (having x F) (write_secure_data data;; k).
Proof.
  intros Ha Hk. eapply step_at; [apply (at_write_secure_data allowed (having x F));
    [apply _|intros c l t [_ [_ Hf]]; by apply Ha]|done|].
  intros u. eapply at_weaken; [|apply Hk]. by apply along_having.
Qed.

(** The ciphertext of an encapsulation to the key that was read. *)
Lemma r_ciphertext `{Kem} pk ct ss coins k :
  (forall t c f, F t -> fresh_ciphertext t f -> allowed t (WriteGatt c CHAR_CIPHERTEXT_UUID f)) ->
  (forall t, F t -> read_key pk t) -> blen pk = PK_SIZE -> encapsulate pk coins = Ok (ct, ss) ->
  (forall n, goes (having x (fun t => F t /\ delivered_to pk ct ss t)) (k n)) ->
  goes (having x F) (n ← write_fragmented_ciphertext ct; k n).
Proof.
  intros Ha Hr Hp He Hk. eapply step_at; [apply (at_write_ciphertext allowed (having x F) ct); [apply _|]|done|].
  { intros f Hf c l t [_ [_ Ht]]. apply (Ha t c f Ht). exists pk, coins, ct, ss. auto. }
  intros n. eapply at_weaken; [|apply Hk]. apply along_having.
  intros t Ht (mtu & frames & Hf & Hw). split; [done|]. exists coins, mtu, frames. auto.
Qed.

End Steps.

(** A method that leaves its object as it was when it raises. *)
Lemma at_object {T A} (get : X -> option T) set (m : method T A) o x F :
  Lasting F -> get x = Some o -> (forall e o', m o = (Err e, o') -> set o' x = x) ->
  triple (at_r (having x F)) (on_object get set m)
    (fun a => at_r (fun l t => exists o', m o = (Ok a, o') /\ having (set o' x) F l t))
    (fun _ => at_r (having x F)).
Proof.
  intros HF Hg He s [[Hq [Hx Hf]] Ho]. unfold on_object, get_vars, get_own, update_vars, update_own. meth. cbn.
  rewrite Hx, Hg. destruct (m o) as [[a|e] o'] eqn:Hm; cbn; (split; [|done]).
  - exists o'. split; [done|]. unfold having, stage. cbn. by rewrite Hx.
  - unfold having, stage. cbn. by rewrite Hx, (He _ _ eq_refl).
Qed.

(** A method of an object the variables hold. *)
Lemma r_object {B T A} (Q : B -> io W (host (runner X)) -> Prop) x F `{Lasting F} (get : X -> option T) set (m : method T A) o k :
  get x = Some o ->
  (forall a o', m o = (Ok a, o') ->
     triple (at_r (having (set o' x) F)) (k a) Q (fun _ => at_r covered)) ->
  triple (at_r (having x F)) (a ← on_object get set m; k a) Q (fun _ => at_r covered).
Proof.
  intros Hg Hk. apply r_block with
    (R := fun a l t => exists o', m o = (Ok a, o') /\ having (set o' x) F l t).
  - unfold on_object. apply r_get. rewrite Hg. destruct (m o) as [[a|e] o'].
    + apply step_update with (J' := having (set o' x) F).
      { intros h t [Hq [He Hf]]. unfold having, stage. cbn. by rewrite He. }
      apply triple_run; [|by intros e Hx]. intros a' [= <-] s. apply at_implies. by exists o'.
    + apply step_update with (J' := covered); [by intros h t [Hq _]|]. by apply at_raise.
  - intros a. apply at_ex. intros o'. apply at_pure. apply Hk.
Qed.

(** ** Blocks of which only the queue matters *)

Abbreviation keeps m := (triple (at_r covered) m (fun _ => at_r covered) (fun _ => at_r covered)).

Lemma keeps_object {T A} (get : X -> option T) set (m : method T A) : keeps (on_object get set m).
Proof.
  intros s Hs. unfold on_object, get_vars, get_own, update_vars, update_own. meth. cbn.
  destruct (get _) as [o|]; [|done]. by destruct (m o) as [[a|e] o'].
Qed.

Lemma keeps_raise {A} e : keeps (raise e : method _ A).
Proof. by apply at_raise. Qed.

Lemma keeps_bind {A B} (m : method _ A) (k : A -> method _ B) :
  keeps m -> (forall a, keeps (k a)) -> keeps (a ← m; k a).
Proof. intros Hm. by apply triple_bind. Qed.

Lemma keeps_try {A} catches h (m : method _ A) :
  keeps m -> (forall e, keeps (h e)) -> keeps (try_except catches h m).
Proof. intros Hm Hh. by eapply triple_except. Qed.

(** Such a block, before a block that ends the run. *)
Lemma lost_block {A B} (m : method _ A) (k : A -> method _ B) Q x F :
  keeps m -> (forall a, triple (at_r covered) (k a) Q (fun _ => at_r covered)) ->
  triple (at_r (having x F)) (a ← m; k a) Q (fun _ => at_r covered).
Proof.
  intros Hm Hk. eapply triple_weaken with (P' := at_r covered); [|by eapply triple_bind].
  intros s. apply at_implies, having_covered.
Qed.

(** The end of the [finally] block. *)
Lemma at_unsubscribe P failed :
  (forall x, Lasting (P x)) ->
  (forall x, triple (at_r (stage P)) (failed x) (fun _ => at_r (stage P)) (fun _ => at_r (stage P))) ->
  triple (at_r (stage P)) (unsubscribe failed) (fun _ => at_r (stage P)) (fun _ => at_r (stage P)).
Proof.
  intros HP Hf. unfold unsubscribe. apply step_get. intros h.
  eapply at_weaken with (J' := stage P); [by intros l t [_ Hl]|].
  destruct (notify_started (local h)); [|by apply triple_ret].
  eapply triple_except; [apply (at_stop_notify allowed (stage P));
    [apply _|intros c l t _; apply may_unsubscribe]|intros x _; apply Hf|done].
Qed.

(** ** Whole runs

    [C] is what the [finally] block leaves of the variables, [D] what a run that
    returns has done. *)
Section Runs.
Context {A : Type} (C : X -> Prop) (D : A -> list observed -> Prop).
Context {HD : forall a, Lasting (D a)}.

Lemma r_finally x F leave (body : method (io W (host (runner X))) A) :
  (forall G, Lasting G -> triple (at_r (stage (fun _ => G))) leave
     (fun _ => at_r (stage (fun y t => C y /\ G t))) (fun _ => at_r (stage (fun y t => C y /\ G t)))) ->
  triple (at_r (having x F)) body (fun a => at_r (stage (fun _ => D a))) (fun _ => at_r covered) ->
  triple (at_r (having x F)) (try_finally leave body)
    (fun a => at_r (stage (fun y t => C y /\ D a t))) (fun _ => at_r (stage (fun y _ => C y))).
Proof.
  intros Hl Hb. eapply triple_finally; [exact Hb|intros a|intros e].
  - eapply triple_conseq; [intros s Hs; exact Hs|apply (Hl (D a)), _|done|].
    intros e s. apply at_implies, stage_implies. by intros y t [Hc _].
  - eapply triple_conseq; [intros s Hs; exact Hs|apply (Hl (fun _ => True)), _| |];
      [intros u s|intros e' s]; apply at_implies, stage_implies; by intros y t [Hc _].
Qed.

(** A run starts without a trace, and sets its variables. *)
Lemma run_safe x0 (m : method (io W (host (runner X))) A) s :
  trace s = [] ->
  triple (at_r (having x0 (fun _ => True))) m
    (fun a => at_r (stage (fun y t => C y /\ D a t))) (fun _ => at_r (stage (fun y _ => C y))) ->
  let '(r, s') := (begin_run x0;; m) s in
  obeys allowed (trace s') /\ C (vars (local (self s'))) /\ forall a, r = Ok a -> D a (trace s').
Proof.
  intros Ht Hm. assert (at_r anywhere s) as Hs by (split; [done|rewrite Ht; apply obeys_nil]).
  assert (triple (at_r anywhere) (begin_run x0;; m)
    (fun a => at_r (stage (fun y t => C y /\ D a t))) (fun _ => at_r (stage (fun y _ => C y)))) as Hrun.
  { apply step_update with (J' := having x0 (fun _ => True)); [|exact Hm].
    intros h t _. split; [by intros b Hb%elem_of_nil|done]. }
  specialize (Hrun s Hs). destruct ((begin_run x0;; m) s) as [[a|x] s'].
  - destruct Hrun as [[_ [Hc Hd]] Ho]. split_and!; [done..|]. by intros ? [= <-].
  - destruct Hrun as [[_ Hc] Ho]. by split_and!.
Qed.

Lemma run_contract x0 (m : method (io W (host (runner X))) A) :
  triple (at_r (having x0 (fun _ => True))) m
    (fun a => at_r (stage (fun y t => C y /\ D a t))) (fun _ => at_r (stage (fun y _ => C y))) ->
  Contract (fun _ => True) (begin_run x0;; m) (fun l t => obeys allowed t /\ C (vars l)) D.
Proof.
  intros Hm s Ht _. pose proof (run_safe x0 m s Ht Hm) as Hr.
  destruct ((begin_run x0;; m) s) as [r s']. destruct Hr as (Ho & Hc & Hd). by split.
Qed.
End Runs.
End Rules.
Arguments Listens allowed : clear implicits.

(** Applies a rule and finds its instances. *)
Tactic Notation "rule" uconstr(H) := eapply H; try apply _.

(** * Application traffic in the trace *)

(** The Central's channels, after [n] messages of their direction. *)
Definition sender (key session_id : bytes) (n : Z) : SecureChannel :=
  mkSecureChannel key session_id CENTRAL_ROLE PERIPHERAL_ROLE n (-1) n 0.
Definition receiver (key session_id : bytes) (n : Z) : SecureChannel :=
  mkSecureChannel key session_id CENTRAL_ROLE PERIPHERAL_ROLE 0 (n - 1) 0 n.

Lemma channel_init_ok key sid c :
  blen sid = SESSION_ID_SIZE -> SecureChannel_init key (Some sid) (Some CENTRAL_ROLE) = Ok c ->
  c = sender key sid 0 /\ c = receiver key sid 0.
Proof.
  unfold SecureChannel_init. intros Hs (u & _ & Hc)%bind_Ok. injection Hc as <-.
  by destruct sid.
Qed.

Lemma send_next `{Aead} key sid n pt iv d c :
  encrypt pt MSG_TYPE_DATA iv (sender key sid n) = (Ok d, c) ->
  sealed key sid CENTRAL_ROLE n pt d /\ c = sender key sid (n + 1).
Proof. by intros [Hs ->]%encrypt_sealed. Qed.

Lemma receive_next `{Aead} key sid n raw pt c :
  decrypt raw MSG_TYPE_DATA (receiver key sid n) = (Ok pt, c) -> wire_seq raw = n ->
  opened key sid PERIPHERAL_ROLE n pt raw /\ c = receiver key sid (n + 1).
Proof.
  intros (Ho & -> & _)%decrypt_opened Hn. cbn in Ho. rewrite Hn in *. split; [done|].
  unfold receiver, after_recv. cbn. f_equal; lia.
Qed.

Lemma decrypt_err `{Aead} r raw e r' : decrypt raw MSG_TYPE_DATA r = (Err e, r') -> r' = r.
Proof.
  destruct (decrypt_advances_or_fails raw MSG_TYPE_DATA r) as [(x & ->)|(p & -> & _)]; [|done].
  by intros [= _ <-].
Qed.

(** [n] rounds over a key per direction: each PING was written under its
    sequence number, and a frame was heard that opens to its PONG. *)
Definition traffic `{Aead} (c2p p2c session_id : bytes) (n : Z) (t : list observed) : Prop :=
  forall i, 0 <= i < n -> exists d raw,
    sealed c2p session_id CENTRAL_ROLE i (ping i) d /\ wrote CHAR_DATA_UUID d t /\
    opened p2c session_id PERIPHERAL_ROLE i (pong i) raw /\ raw ∈ heard t.

#[export] Instance traffic_lasting `{Aead} c2p p2c sid n : Lasting (traffic c2p p2c sid n).
Proof.
  intros t u Ht i Hi. destruct (Ht i Hi) as (d & raw & Hs & Hw & Ho & Hr).
  exists d, raw. split_and!; [done|by apply wrote_lasting|done|by apply (lasting_heard raw)].
Qed.

Lemma traffic_next `{Aead} c2p p2c sid n t d raw :
  traffic c2p p2c sid n t ->
  sealed c2p sid CENTRAL_ROLE n (ping n) d -> wrote CHAR_DATA_UUID d t ->
  opened p2c sid PERIPHERAL_ROLE n (pong n) raw -> raw ∈ heard t ->
  traffic c2p p2c sid (n + 1) t.
Proof.
  intros Ht Hs Hw Ho Hr i Hi. destruct (decide (i = n)) as [->|]; [by exists d, raw|]. apply Ht. lia.
Qed.
