(* ===== verification/CentralChannel.v ===== *)
(** src/src/central/secure_channel.py: [CentralSecureChannel], the base channel
    of session.py with a queue of received messages fed by notifications. *)

From S2P Require Import Prelude Py Interfaces World BleClient Constants Session.
Open Scope Z_scope.

(** The base object, the queue, and the argument [start_receiving] captured in
    the handler it subscribed. [_received_data] is never used. *)
Record CentralSecureChannel := mkCentralChannel {
  base : SecureChannel;
  _receive_queue : list bytes;
  decrypt_notifications : bool;
}.

Definition CentralSecureChannel_init (session_key : bytes) (session_id : option bytes)
  : result CentralSecureChannel :=
  ch ← SecureChannel_init session_key session_id (Some CENTRAL_ROLE);
  mret (mkCentralChannel ch [] true).

Section Channel.
Context {W : Type} `{Env W, Aead}.

(** The handler: an authenticated message is queued; a bad tag is logged; any
    other exception leaves the callback, and bleak reports it. *)
Definition _notification_handler (raw : bytes) (l : CentralSecureChannel) : CentralSecureChannel :=
  if decrypt_notifications l then
    match decrypt raw MSG_TYPE_DATA (base l) with
    | (Ok plaintext, ch) => mkCentralChannel ch (_receive_queue l ++ [plaintext]) true
    | (Err _, ch) => mkCentralChannel ch (_receive_queue l) true
    end
  else mkCentralChannel (base l) (_receive_queue l ++ [raw]) false.

#[export] Instance channel_program : Program CentralSecureChannel := {
  clear_object _ l := l;
  on_data _ _ := _notification_handler;
}.

Abbreviation coroutine := (method (io W (host CentralSecureChannel))).

Definition get_channel : coroutine CentralSecureChannel := h ← get_own; mret (local h).

Definition update_channel (f : CentralSecureChannel -> CentralSecureChannel) : coroutine unit :=
  update_own (on_local f).

Definition start_receiving (flag : bool) : coroutine unit :=
  update_channel (fun l => mkCentralChannel (base l) (_receive_queue l) flag);;
  start_notify.

Definition send (plaintext : bytes) : coroutine unit :=
  iv ← query_env (Urandom GCM_IV_SIZE);
  wire_data ← call (fun h => base (local h))
    (fun ch => on_local (fun l => mkCentralChannel ch (_receive_queue l) (decrypt_notifications l)))
    (encrypt plaintext MSG_TYPE_DATA iv);
  send_control wire_data.

(** [self._receive_queue.pop(0)], when there is something to pop. *)
Definition pop_message : coroutine (option bytes) :=
  l ← get_channel;
  match _receive_queue l with
  | b :: q => update_channel (fun l => mkCentralChannel (base l) q (decrypt_notifications l));; mret (Some b)
  | [] => mret None
  end.

(** The loop of [receive], at most [fuel] times; the queue was empty before it. *)
Fixpoint receive_loop (fuel : nat) (deadline : Z) : coroutine (option bytes) :=
  match fuel with
  | O => mret None
  | S n =>
      now ← query_env Now;
      if now <? deadline then
        found ← pop_message;
        match found with
        | Some b => mret (Some b)
        | None => perform Wait;; receive_loop n deadline
        end
      else mret None
  end.

(** One poll per 0.1 s and one more: [timeout] is in nanoseconds. *)
Definition receive_fuel (timeout : Z) : nat := S (Z.to_nat ((timeout + SECOND / 10 - 1) / (SECOND / 10))).

Definition receive (timeout : Z) : coroutine (option bytes) :=
  found ← pop_message;
  match found with
  | Some b => mret (Some b)
  | None =>
      now ← query_env Now;
      receive_loop (receive_fuel timeout) (now + timeout)
  end.

Definition stop : coroutine unit := stop_notify.

(** * What is queued *)

(** The plaintexts of a list of results. *)
Definition opened (results : list (result bytes)) : list bytes :=
  omap (fun r => match r with Ok p => Some p | Err _ => None end) results.

Lemma handler_data evs (h : host CentralSecureChannel) :
  decrypt_notifications (local h) = true ->
  let '(results, ch) := receive_all MSG_TYPE_DATA (notified evs) (base (local h)) in
  local (fold_left (fun x e => hear e x) evs h) =
    mkCentralChannel ch (_receive_queue (local h) ++ opened results) true.
Proof.
  revert h. induction evs as [|e evs IH]; intros h Hd.
  { cbn. destruct h as [x n [b q d]]. cbn in *. subst d. by rewrite app_nil_r. }
  cbn [fold_left]. destruct e as [raw b|c].
  - specialize (IH (hear (Notified raw b) h)).
    change (local (hear (Notified raw b) h)) with (_notification_handler raw (local h)) in IH.
    unfold _notification_handler in IH. rewrite Hd in IH.
    change (notified (Notified raw b :: evs)) with (raw :: notified evs). cbn [receive_all].
    destruct (decrypt raw MSG_TYPE_DATA (base (local h))) as [[p|x] ch];
      cbn [base decrypt_notifications _receive_queue] in IH; specialize (IH eq_refl);
      destruct (receive_all MSG_TYPE_DATA (notified evs) ch) as [rs ch']; rewrite IH; [|done].
    cbn. by rewrite <- app_assoc.
  - assert (local (hear (Disconnected c) h) = local h) as Hl.
    { unfold hear, hear_host, _on_disconnect, _on_v1_disconnect, clear_v1_cp3, on_client, on_local.
      cbn. repeat (case_match; cbn); done. }
    specialize (IH (hear (Disconnected c) h)). rewrite Hl in IH. exact (IH Hd).
Qed.

(** The receiving side refines the base channel: whatever events an await
    delivers, the queue grows by the plaintexts that decrypting the
    notifications one after the other gives, in order, and the channel ends in
    the state of that sequence; messages that fail to open leave no trace. *)
Theorem receiving_refines evs (h : host CentralSecureChannel) :
  decrypt_notifications (local h) = true ->
  let l' := local (fold_left (fun x e => hear e x) evs h) in
  base l' = (receive_all MSG_TYPE_DATA (notified evs) (base (local h))).2 /\
  _receive_queue l' = _receive_queue (local h) ++
    opened (receive_all MSG_TYPE_DATA (notified evs) (base (local h))).1 /\
  decrypt_notifications l' = true.
Proof.
  intros Hd. pose proof (handler_data evs h Hd) as Hh. cbn zeta.
  destruct (receive_all MSG_TYPE_DATA (notified evs) (base (local h))) as [rs ch]. by rewrite Hh.
Qed.
End Channel.

(** * Witness *)

Definition demo_host : host CentralSecureChannel :=
  mkHost (BLECentralClient_init DEVICE_NAME) 0
    match CentralSecureChannel_init demo_key (Some (zeros 16)) with
    | Ok l => l
    | Err _ => mkCentralChannel (mkSecureChannel [] [] [] [] 0 0 0 0) [] false
    end.

(** One message of the peripheral, delivered twice, and noise. *)
Definition demo_events : list event :=
  match SecureChannel_init demo_key (Some (zeros 16)) (Some PERIPHERAL_ROLE) with
  | Ok ch => match (@encrypt Toy.aead (lit "hello") MSG_TYPE_DATA (zeros 12) ch).1 with
             | Ok wire => [Notified wire true; Disconnected (mkLink 0 false); Notified wire false; Notified (zeros 40) true]
             | Err _ => []
             end
  | Err _ => []
  end.

Lemma receiving_refines_witness :
  _receive_queue (local (fold_left (fun x e => @hear _ (@hear_host _ (@channel_program Toy.aead)) e x)
                           demo_events demo_host)) = [lit "hello"].
Proof.
  destruct (@receiving_refines Toy.aead demo_events demo_host eq_refl) as (_ & Hq & _).
  rewrite Hq. vm_compute. reflexivity.
Defined.
