(* ===== verification/SessionStore.v ===== *)
(** src/src/common/session_store.py: [SessionEntry] and [SessionStore], the
    JSON-backed store of session keys with an age and a use limit.

    Time is an integer number of nanoseconds; each call of [time.time()] is an
    argument. File access succeeds; the file is absent, unreadable as JSON, or a
    JSON object. *)

From S2P Require Import Prelude Py Constants Dict.
Open Scope Z_scope.

Record SessionEntry := mkSessionEntry {
  session_key : bytes;
  created_at : Z;
  usage_count : Z;
}.

(** The JSON object of one session; [None] is an absent member. *)
Record SessionJson := mkSessionJson {
  j_session_key : option string;
  j_created_at : option Z;
  j_usage_count : option Z;
}.

Definition to_dict (self : SessionEntry) : SessionJson :=
  mkSessionJson (Some (hex (session_key self))) (Some (created_at self)) (Some (usage_count self)).

Definition from_dict (now : Z) (d : SessionJson) : result SessionEntry :=
  k ← (match j_session_key d with Some h => fromhex h | None => Err KeyError end);
  mret (mkSessionEntry k (default now (j_created_at d)) (default 0 (j_usage_count d))).

Inductive json_file :=
  | Absent
  | Malformed
  | Json (entries : dict SessionJson).

Record SessionStore := mkSessionStore {
  _path : string;
  _max_age_hours : Z;
  _max_uses : Z;
  _sessions : dict SessionEntry;
  file : json_file;      (* the content of the file at [_path] *)
}.

Definition set_sessions (d : dict SessionEntry) (s : SessionStore) : SessionStore :=
  mkSessionStore (_path s) (_max_age_hours s) (_max_uses s) d (file s).

Definition payload (d : dict SessionEntry) : dict SessionJson :=
  map (fun '(sid, entry) => (sid, to_dict entry)) d.

(** [self._persist()]. *)
Definition _persist : method SessionStore unit :=
  update (fun s => mkSessionStore (_path s) (_max_age_hours s) (_max_uses s) (_sessions s)
                                  (Json (payload (_sessions s)))).

(** [[x for x in d.items() if cond]] followed by one [del] per element. *)
Definition drop_where (gone : SessionEntry -> bool) : method SessionStore Z :=
  self ← get_self;
  let dropped := List.filter (fun e => gone e.2) (_sessions self) in
  update (set_sessions (fold_left (fun d e => dict_del e.1 d) dropped (_sessions self)));;
  (if negb (bool_decide (dropped = [])) then _persist else mret tt);;
  mret (Z.of_nat (length dropped)).

#[global] Instance SessionEntry_eq_dec : EqDecision SessionEntry.
Proof. solve_decision. Defined.

(** [max_age_hours or self._max_age_hours]: [None] and [0] mean the default. *)
Definition hours_or (h : option Z) (d : Z) : Z :=
  match h with Some 0 | None => d | Some x => x end.

Definition expire_older_than (max_age_hours : option Z) (now : Z) : method SessionStore Z :=
  self ← get_self;
  let threshold := hours_or max_age_hours (_max_age_hours self) in
  let cutoff := now - threshold * 3600 * SECOND in
  drop_where (fun e => created_at e <? cutoff).

Definition expire_exhausted : method SessionStore Z :=
  self ← get_self;
  drop_where (fun e => _max_uses self <=? usage_count e).

Definition _expire_invalid (now : Z) : method SessionStore unit :=
  self ← get_self;
  expire_older_than (Some (_max_age_hours self)) now;;
  expire_exhausted;;
  mret tt.

Definition save (session_id session_key : bytes) (now : Z) : method SessionStore unit :=
  raise_when (negb (blen session_id =? SESSION_ID_SIZE)) (ValueError "session_id must be 16 bytes");;
  update (fun s => set_sessions
                     (dict_set (hex session_id) (mkSessionEntry session_key now 0) (_sessions s)) s);;
  _persist.

Definition mark_used (session_id : bytes) (now : Z) : method SessionStore bool :=
  _expire_invalid now;;
  self ← get_self;
  let sid_hex := hex session_id in
  match dict_get sid_hex (_sessions self) with
  | None => mret false
  | Some entry =>
      let entry' := mkSessionEntry (session_key entry) (created_at entry) (usage_count entry + 1) in
      update (set_sessions (dict_set sid_hex entry' (_sessions self)));;
      (if _max_uses self <=? usage_count entry'
       then update (fun s => set_sessions (dict_del sid_hex (_sessions s)) s)
       else mret tt);;
      _persist;;
      mret true
  end.

(** [now] is the time of the first expiry, [now'] that of [mark_used]. *)
Definition load (session_id : bytes) (increment_usage : bool) (now now' : Z)
  : method SessionStore (option bytes) :=
  _expire_invalid now;;
  self ← get_self;
  match dict_get (hex session_id) (_sessions self) with
  | None => mret None
  | Some entry =>
      let key := session_key entry in
      if increment_usage then
        used ← mark_used session_id now';
        (if negb used then mret None else mret (Some key))
      else mret (Some key)
  end.

Definition delete (session_id : bytes) : method SessionStore unit :=
  update (fun s => set_sessions (dict_del (hex session_id) (_sessions s)) s);;
  _persist.

Definition has (session_id : bytes) (now : Z) : method SessionStore bool :=
  _expire_invalid now;;
  self ← get_self;
  mret (bool_decide (hex session_id ∈ keys (_sessions self))).

Definition list_ids (now : Z) : method SessionStore (list (string * Z * Z)) :=
  _expire_invalid now;;
  self ← get_self;
  mret (map (fun '(sid, e) => (sid, created_at e, usage_count e)) (_sessions self)).

Definition count (now : Z) : method SessionStore Z :=
  _expire_invalid now;;
  self ← get_self;
  mret (Z.of_nat (length (_sessions self))).

(** The loop of [_load_from_disk]: a malformed entry raises out of it. *)
Fixpoint load_entries (now cutoff max_uses : Z) (raw : dict SessionJson) (d : dict SessionEntry)
  : result (dict SessionEntry) :=
  match raw with
  | [] => Ok d
  | (sid_hex, j) :: r =>
      entry ← from_dict now j;
      load_entries now cutoff max_uses r
        (if (cutoff <=? created_at entry) && (usage_count entry <? max_uses)
         then dict_set sid_hex entry d else d)
  end.

Definition _load_from_disk (now : Z) : method SessionStore unit :=
  self ← get_self;
  match file self with
  | Absent | Malformed => mret tt
  | Json raw =>
      let cutoff := now - _max_age_hours self * 3600 * SECOND in
      d ← run (load_entries now cutoff (_max_uses self) raw (_sessions self));
      update (set_sessions d)
  end.

Definition SessionStore_init (storage_path : string) (max_age_hours max_uses : Z)
  (content : json_file) (now : Z) : result SessionStore :=
  raise_if (max_uses <=? 0) (ValueError "max_uses must be greater than zero");;
  let s := mkSessionStore storage_path max_age_hours max_uses [] content in
  match _load_from_disk now s with
  | (Ok _, s') => Ok s'
  | (Err e, _) => Err e
  end.

(** * Expiry is a filter *)

Definition live (cutoff max_uses : Z) (e : SessionEntry) : bool :=
  (cutoff <=? created_at e) && (usage_count e <? max_uses).

Definition cutoff_of (now : Z) (s : SessionStore) : Z := now - _max_age_hours s * 3600 * SECOND.

Definition wf (s : SessionStore) : Prop := NoDup (keys (_sessions s)).
Definition in_sync (s : SessionStore) : Prop := file s = Json (payload (_sessions s)).
Definition within_uses (s : SessionStore) : Prop :=
  forall sid e, (sid, e) ∈ _sessions s -> 0 <= usage_count e < _max_uses s.

Lemma filter_all {A} (f : A -> bool) l : (forall x, x ∈ l -> f x = true) -> List.filter f l = l.
Proof.
  induction l as [|x l IH]; intros H; [done|]. cbn. rewrite H by left.
  f_equal. apply IH. intros y Hy. apply H. by right.
Qed.

Lemma elem_of_filter_bool {A} (f : A -> bool) l x : x ∈ List.filter f l <-> x ∈ l /\ f x = true.
Proof. rewrite !list_elem_of_In. apply filter_In. Qed.

Lemma fold_dict_del_not_in {V} (ks : list (string * V)) k v (d : dict V) :
  k ∉ keys ks ->
  fold_left (fun d e => dict_del e.1 d) ks ((k, v) :: d) =
  (k, v) :: fold_left (fun d e => dict_del e.1 d) ks d.
Proof.
  revert d. induction ks as [|[j w] ks IH]; intros d Hk; [done|].
  cbn in *. rewrite not_elem_of_cons in Hk. destruct Hk as [Hne Hk].
  rewrite decide_False by done. by apply IH.
Qed.

Lemma keys_filter_elem {V} (f : string * V -> bool) (d : dict V) k :
  k ∈ keys (List.filter f d) -> k ∈ keys d.
Proof.
  unfold keys. intros (x & -> & Hx)%list_elem_of_fmap. apply elem_of_filter_bool in Hx as [Hx _].
  apply list_elem_of_fmap. eauto.
Qed.

(** Deleting one by one the entries that satisfy [gone] keeps the others. *)
Lemma fold_dict_del_filter {V} (gone : string * V -> bool) (d : dict V) :
  NoDup (keys d) ->
  fold_left (fun d e => dict_del e.1 d) (List.filter gone d) d =
  List.filter (fun e => negb (gone e)) d.
Proof.
  induction d as [|[k v] d IH]; intros Hnd; [done|].
  inversion Hnd as [|? ? Hk Hnd']; subst. cbn.
  destruct (gone (k, v)) eqn:Hg; cbn.
  - rewrite decide_True by done. by apply IH.
  - rewrite fold_dict_del_not_in; [by rewrite IH|].
    intros Hin%keys_filter_elem. done.
Qed.

(** The store after an expiry at [now]: dead entries are gone, and the file is
    rewritten when something was dropped. *)
Definition kept (d : dict SessionEntry) (p : SessionEntry -> bool) : dict SessionEntry :=
  List.filter (fun e => p e.2) d.

Lemma drop_where_eq gone s :
  wf s ->
  exists n s', drop_where gone s = (Ok n, s') /\
    _sessions s' = kept (_sessions s) (fun e => negb (gone e)) /\
    _path s' = _path s /\ _max_age_hours s' = _max_age_hours s /\ _max_uses s' = _max_uses s /\
    (in_sync s -> in_sync s').
Proof.
  intros Hwf. unfold drop_where. meth.
  pose proof (fold_dict_del_filter (fun e => gone e.2) (_sessions s) Hwf) as Hf.
  destruct (bool_decide _) eqn:Hb; cbn [negb].
  - eexists _, _. split; [done|]. apply bool_decide_eq_true in Hb.
    cbn [set_sessions _sessions _path _max_age_hours _max_uses]. split_and!; [exact Hf|done..|].
    unfold in_sync. cbn [file _sessions set_sessions]. rewrite Hb. done.
  - eexists _, _. split; [done|]. cbn. split_and!; [exact Hf|done..].
Qed.

Lemma kept_keys_NoDup d p : NoDup (keys d) -> NoDup (keys (kept d p)).
Proof.
  unfold kept. induction d as [|[k v] d IH]; intros Hnd; [done|].
  inversion Hnd; subst. cbn. destruct (p v); cbn; [|auto].
  constructor; [|auto]. intros Hin%keys_filter_elem. done.
Qed.

Lemma kept_kept d p q : kept (kept d p) q = kept d (fun e => p e && q e).
Proof.
  unfold kept. induction d as [|[k v] d IH]; [done|]. cbn.
  destruct (p v); cbn; [|done]. by destruct (q v); cbn; rewrite IH.
Qed.

Lemma kept_ext d p q : (forall e, p e = q e) -> kept d p = kept d q.
Proof. intros H. unfold kept. apply filter_ext. intros []. apply H. Qed.

Lemma expire_invalid_eq now s :
  wf s ->
  exists s', _expire_invalid now s = (Ok tt, s') /\ wf s' /\
    _sessions s' = kept (_sessions s) (live (cutoff_of now s) (_max_uses s)) /\
    _path s' = _path s /\ _max_age_hours s' = _max_age_hours s /\ _max_uses s' = _max_uses s /\
    (in_sync s -> in_sync s').
Proof.
  intros Hwf. unfold _expire_invalid, expire_older_than, expire_exhausted. meth.
  replace (hours_or (Some (_max_age_hours s)) (_max_age_hours s)) with (_max_age_hours s)
    by (cbn; by destruct (_max_age_hours s)).
  destruct (drop_where_eq (fun e => created_at e <? cutoff_of now s) s Hwf)
    as (n1 & s1 & E1 & D1 & P1 & A1 & U1 & Y1).
  unfold cutoff_of in E1 |- *. rewrite E1.
  destruct (drop_where_eq (fun e => _max_uses s1 <=? usage_count e) s1)
    as (n2 & s2 & E2 & D2 & P2 & A2 & U2 & Y2).
  { unfold wf. rewrite D1. by apply kept_keys_NoDup. }
  rewrite E2. exists s2. split; [done|].
  assert (_sessions s2 = kept (_sessions s) (live (cutoff_of now s) (_max_uses s))) as HD.
  { rewrite D2, D1, kept_kept, U1. apply kept_ext. intros e. unfold live, cutoff_of. lia. }
  split_and!; [unfold wf; rewrite HD; by apply kept_keys_NoDup|exact HD|congruence..|auto].
Qed.

Lemma dict_get_kept k d p :
  NoDup (keys d) ->
  dict_get k (kept d p) =
  match dict_get k d with Some e => if p e then Some e else None | None => None end.
Proof.
  unfold kept. induction d as [|[j w] d IH]; intros Hnd; [done|].
  inversion Hnd as [|? ? Hj Hnd']; subst. cbn.
  destruct (decide (k = j)) as [->|Hne].
  - destruct (p w); cbn; [by rewrite decide_True|].
    rewrite IH by done. by rewrite (proj2 (dict_get_None j d)).
  - destruct (p w); cbn; [rewrite decide_False by done|]; by apply IH.
Qed.

(** One [mark_used] on a live entry and on anything else. *)
Definition counted (max_uses : Z) (sid : string) (e : SessionEntry) (d : dict SessionEntry)
  : dict SessionEntry :=
  let e' := mkSessionEntry (session_key e) (created_at e) (usage_count e + 1) in
  if max_uses <=? usage_count e' then dict_del sid (dict_set sid e' d) else dict_set sid e' d.

Lemma mark_used_eq sid now s :
  wf s ->
  exists s', wf s' /\
    mark_used sid now s =
      (Ok (match dict_get (hex sid) (_sessions s) with
           | Some e => live (cutoff_of now s) (_max_uses s) e
           | None => false end), s') /\
    _sessions s' =
      (let d := kept (_sessions s) (live (cutoff_of now s) (_max_uses s)) in
       match dict_get (hex sid) d with
       | Some e => counted (_max_uses s) (hex sid) e d
       | None => d
       end) /\
    _path s' = _path s /\ _max_age_hours s' = _max_age_hours s /\ _max_uses s' = _max_uses s /\
    (in_sync s -> in_sync s').
Proof.
  intros Hwf. destruct (expire_invalid_eq now s Hwf) as (s1 & E1 & W1 & D1 & P1 & A1 & U1 & Y1).
  unfold mark_used. meth. rewrite E1. cbn zeta. rewrite <- D1.
  pose proof (dict_get_kept (hex sid) _ (live (cutoff_of now s) (_max_uses s)) Hwf) as Hg.
  rewrite <- D1 in Hg.
  destruct (dict_get (hex sid) (_sessions s1)) as [e|] eqn:He.
  - destruct (dict_get (hex sid) (_sessions s)) as [e0|]; [|done].
    destruct (live _ _ e0) eqn:Hl; [|done]. simplify_eq. rewrite U1.
    unfold counted. cbn [usage_count].
    destruct (_max_uses s <=? usage_count e0 + 1); unfold _persist; meth;
      cbn [set_sessions _sessions _path _max_age_hours _max_uses file];
      (eexists; split; [|split; [reflexivity|]]; cbn; [|by split_and!]);
      unfold wf; cbn; repeat first [apply NoDup_dict_del|apply NoDup_dict_set]; exact W1.
  - exists s1. split_and!; [done| |done..].
    destruct (dict_get (hex sid) (_sessions s)) as [e0|]; [|done].
    by destruct (live _ _ e0).
Qed.

(** * Properties *)

(** A key leaves the store only while its session is live: [load] returns a
    key exactly when the session is stored, no older than the maximum age and
    below the use limit at the time of the call (and, when the use is counted,
    still live when it is counted). *)
Theorem load_returns_live sid inc now now' s :
  wf s ->
  (load sid inc now now' s).1 =
  Ok (match dict_get (hex sid) (_sessions s) with
      | Some e =>
          if live (cutoff_of now s) (_max_uses s) e &&
             (negb inc || live (cutoff_of now' s) (_max_uses s) e)
          then Some (session_key e) else None
      | None => None
      end).
Proof.
  intros Hwf. destruct (expire_invalid_eq now s Hwf) as (s1 & E1 & W1 & D1 & P1 & A1 & U1 & Y1).
  unfold load. meth. rewrite E1.
  pose proof (dict_get_kept (hex sid) _ (live (cutoff_of now s) (_max_uses s)) Hwf) as Hg.
  rewrite <- D1 in Hg. rewrite Hg.
  destruct (dict_get (hex sid) (_sessions s)) as [e|] eqn:He; [|done].
  destruct (live (cutoff_of now s) (_max_uses s) e) eqn:Hl; [|done].
  destruct inc; [|done]. cbn [negb orb andb].
  destruct (mark_used_eq sid now' s1 W1) as (s2 & _ & E2 & _). rewrite E2, Hg. cbn [fst].
  unfold cutoff_of in *. rewrite A1, U1.
  by destruct (live (now' - _max_age_hours s * 3600 * SECOND) (_max_uses s) e).
Qed.

(** [mark_used] called once per time of a list. *)
Fixpoint mark_all (sid : bytes) (times : list Z) (s : SessionStore) : list (result bool) * SessionStore :=
  match times with
  | [] => ([], s)
  | t :: ts =>
      let (r, s1) := mark_used sid t s in
      let (rs, s2) := mark_all sid ts s1 in
      (r :: rs, s2)
  end.

Definition budget (max_uses used n : Z) : list (result bool) :=
  replicate (Z.to_nat (Z.min n (max_uses - used))) (Ok true) ++
  replicate (Z.to_nat (n - (max_uses - used))) (Ok false).

Lemma mark_all_missing sid times s :
  wf s -> dict_get (hex sid) (_sessions s) = None ->
  (mark_all sid times s).1 = replicate (length times) (Ok false).
Proof.
  revert s. induction times as [|t ts IH]; intros s Hwf Hg; [done|].
  destruct (mark_used_eq sid t s Hwf) as (s' & W & E & D & _). cbn [mark_all].
  rewrite E, Hg. specialize (IH s' W). destruct (mark_all sid ts s') as [rs s2].
  cbn in *. rewrite IH; [done|]. rewrite D. cbn zeta.
  rewrite dict_get_kept by done. rewrite Hg.
  rewrite dict_get_kept by done. by rewrite Hg.
Qed.

Lemma mark_all_budget sid times s e :
  wf s -> dict_get (hex sid) (_sessions s) = Some e ->
  0 <= usage_count e < _max_uses s ->
  Forall (fun t => cutoff_of t s <= created_at e) times ->
  (mark_all sid times s).1 = budget (_max_uses s) (usage_count e) (Z.of_nat (length times)).
Proof.
  revert s e. induction times as [|t ts IH]; intros s e Hwf Hg Hu Ht.
  { unfold budget. cbn. replace (Z.to_nat _) with 0%nat by lia.
    by replace (Z.to_nat _) with 0%nat by lia. }
  inversion Ht as [|? ? Hc Ht']; subst.
  destruct (mark_used_eq sid t s Hwf) as (s' & W & E & D & P & A & U & _). cbn [mark_all].
  rewrite E, Hg. assert (live (cutoff_of t s) (_max_uses s) e = true) as Hl by (unfold live; lia).
  rewrite Hl. cbn zeta in D.
  assert (dict_get (hex sid) (kept (_sessions s) (live (cutoff_of t s) (_max_uses s))) = Some e) as Hk.
  { rewrite dict_get_kept by done. by rewrite Hg, Hl. }
  rewrite Hk in D. unfold counted in D. cbn [usage_count] in D.
  set (e' := mkSessionEntry (session_key e) (created_at e) (usage_count e + 1)) in *.
  destruct (mark_all sid ts s') as [rs s2] eqn:Hrs. cbn [fst].
  destruct (Z.leb_spec (_max_uses s) (usage_count e + 1)) as [Hle|Hlt].
  - pose proof (mark_all_missing sid ts s' W) as Hm. rewrite Hrs in Hm. cbn [fst] in Hm.
    rewrite Hm.
    + unfold budget. replace (Z.to_nat (Z.min _ _)) with 1%nat by (cbn [length]; lia).
      replace (Z.to_nat (_ - _)) with (length ts) by (cbn [length]; lia). done.
    + rewrite D, dict_get_del; [by rewrite decide_True|].
      apply NoDup_dict_set, kept_keys_NoDup, Hwf.
  - specialize (IH s' e' W). rewrite Hrs in IH. cbn [fst] in IH. rewrite IH.
    + rewrite U. unfold budget. cbn [usage_count e' length].
      replace (Z.to_nat (Z.min (Z.of_nat (S _)) _))
        with (S (Z.to_nat (Z.min (Z.of_nat (length ts)) (_max_uses s - (usage_count e + 1))))) by lia.
      cbn [replicate app]. do 3 f_equal. lia.
    + by rewrite D, dict_get_set, decide_True.
    + cbn. lia.
    + unfold cutoff_of in *. rewrite A. exact Ht'.
Qed.

(** C24. Use limit: in a well-formed store with a positive limit, a session that was
    just saved can be marked used exactly [max_uses] times while it is younger than
    the maximum age; every later [mark_used] returns [False], because the entry is
    gone. *)
Theorem resume_budget sid key t0 times s s1 :
  wf s -> 0 < _max_uses s -> save sid key t0 s = (Ok tt, s1) ->
  Forall (fun t => t - _max_age_hours s * 3600 * SECOND <= t0) times ->
  (mark_all sid times s1).1 = budget (_max_uses s) 0 (Z.of_nat (length times)).
Proof.
  intros Hwf Hu Hs Ht. unfold save, _persist in Hs. meth. revert Hs. meth.
  destruct (negb _); cbn [raise_if]; [done|]. intros [= <-].
  rewrite (mark_all_budget sid times _ (mkSessionEntry key t0 0)); [done|..].
  - by apply NoDup_dict_set.
  - cbn. by rewrite dict_get_set, decide_True.
  - cbn. lia.
  - exact Ht.
Qed.

Lemma load_entries_payload now cutoff max_uses d acc :
  NoDup (keys d) -> (forall k, k ∈ keys d -> k ∉ keys acc) ->
  load_entries now cutoff max_uses (payload d) acc = Ok (acc ++ kept d (live cutoff max_uses)).
Proof.
  revert acc. induction d as [|[k [key c u]] d IH]; intros acc Hnd Hdis.
  { cbn. by rewrite app_nil_r. }
  inversion Hnd as [|? ? Hk Hnd']; subst. cbn [payload map load_entries].
  unfold from_dict, to_dict. cbn [j_session_key j_created_at j_usage_count session_key created_at usage_count].
  rewrite fromhex_hex. cbn [mbind result_bind mret result_ret from_option default].
  change (map (fun '(sid, entry) => (sid, to_dict entry)) d) with (payload d).
  cbn [created_at usage_count].
  assert (dict_set k (mkSessionEntry key c u) acc = acc ++ [(k, mkSessionEntry key c u)]) as Hset.
  { assert (k ∉ keys acc) as Hn by (apply Hdis; left). clear -Hn.
    induction acc as [|[j w] acc IH]; [done|]. cbn in *. rewrite not_elem_of_cons in Hn.
    rewrite decide_False by tauto. rewrite IH by tauto. done. }
  change (id c) with c. change (id u) with u.
  unfold kept. cbn [List.filter]. unfold live at 1. cbn [created_at usage_count snd].
  destruct ((cutoff <=? c) && (u <? max_uses)); rewrite IH; try done.
  - rewrite Hset, <- app_assoc. done.
  - intros j Hj. rewrite Hset. unfold keys. rewrite map_app. cbn. rewrite elem_of_app.
    intros [Hj1|Hj1]; [by eapply Hdis; [right|]|]. apply list_elem_of_singleton in Hj1 as ->. done.
  - intros j Hj. apply Hdis. by right.
Qed.

(** Persistence: opening a store on the file another store has written
    yields the same sessions, in the same order, less those that are too old or
    used up at the time of opening. *)
Theorem reopen_restores_live s path hours uses now :
  wf s -> in_sync s -> 0 < uses ->
  exists s', SessionStore_init path hours uses (file s) now = Ok s' /\
    _sessions s' = kept (_sessions s) (live (now - hours * 3600 * SECOND) uses) /\
    _max_uses s' = uses /\ wf s'.
Proof.
  intros Hwf Hsync Hu. unfold SessionStore_init.
  rewrite (raise_if_false (uses <=? 0)) by lia. cbn [mbind result_bind].
  unfold _load_from_disk. meth. cbn [file _max_age_hours _max_uses _sessions]. rewrite Hsync.
  rewrite load_entries_payload; [|done|intros k _ H; inversion H].
  cbn [app]. eexists. split; [done|]. cbn. split_and!; [done|done|].
  unfold wf. cbn. by apply kept_keys_NoDup.
Qed.

(** The public operations, with their times. *)
Inductive store_op :=
  | OpSave (session_id key : bytes) (now : Z)
  | OpLoad (session_id : bytes) (increment : bool) (now now' : Z)
  | OpMarkUsed (session_id : bytes) (now : Z)
  | OpDelete (session_id : bytes)
  | OpHas (session_id : bytes) (now : Z)
  | OpListIds (now : Z)
  | OpExpireOlderThan (max_age_hours : option Z) (now : Z)
  | OpExpireExhausted
  | OpCount (now : Z).

Definition step_op (op : store_op) (s : SessionStore) : SessionStore :=
  match op with
  | OpSave sid key now => (save sid key now s).2
  | OpLoad sid inc now now' => (load sid inc now now' s).2
  | OpMarkUsed sid now => (mark_used sid now s).2
  | OpDelete sid => (delete sid s).2
  | OpHas sid now => (has sid now s).2
  | OpListIds now => (list_ids now s).2
  | OpExpireOlderThan h now => (expire_older_than h now s).2
  | OpExpireExhausted => (expire_exhausted s).2
  | OpCount now => (count now s).2
  end.

Definition store_inv (s : SessionStore) : Prop :=
  wf s /\ in_sync s /\ within_uses s /\ 0 < _max_uses s.

Lemma within_uses_kept s s' p :
  within_uses s -> _sessions s' = kept (_sessions s) p -> _max_uses s' = _max_uses s ->
  within_uses s'.
Proof.
  intros H D U sid e. rewrite D, U. unfold kept. rewrite elem_of_filter_bool. intros [Hin _].
  eauto.
Qed.

Lemma expire_invalid_inv now s : store_inv s -> store_inv (_expire_invalid now s).2.
Proof.
  intros (Hwf & Hsync & Hw & Hu).
  destruct (expire_invalid_eq now s Hwf) as (s1 & -> & W & D & P & A & U & Y). cbn.
  split_and!; [done|auto|by eapply within_uses_kept|lia].
Qed.

Lemma drop_where_inv gone s : store_inv s -> store_inv (drop_where gone s).2.
Proof.
  intros (Hwf & Hsync & Hw & Hu). destruct (drop_where_eq gone s Hwf) as (n & s1 & -> & D & P & A & U & Y).
  cbn. split_and!; [unfold wf; rewrite D; by apply kept_keys_NoDup|auto|by eapply within_uses_kept|lia].
Qed.

Lemma mark_used_inv sid now s : store_inv s -> store_inv (mark_used sid now s).2.
Proof.
  intros (Hwf & Hsync & Hw & Hu).
  destruct (mark_used_eq sid now s Hwf) as (s1 & W & -> & D & P & A & U & Y). cbn [snd].
  split_and!; [done|auto| |lia]. cbn zeta in D.
  set (d := kept (_sessions s) _) in *.
  assert (forall k e, (k, e) ∈ d -> 0 <= usage_count e < _max_uses s) as Hd.
  { intros k e. unfold d, kept. rewrite elem_of_filter_bool. intros [? _]. eauto. }
  intros k e. rewrite D, U. destruct (dict_get (hex sid) d) as [e0|] eqn:Hg; [|apply Hd].
  apply dict_get_elem, Hd in Hg. unfold counted. cbn [usage_count].
  destruct (Z.leb_spec (_max_uses s) (usage_count e0 + 1)).
  - intros Hin. destruct (decide ((k, e) ∈ d)) as [|Hnot]; [eauto|].
    apply elem_of_dict_del in Hin as Hin'. apply elem_of_dict_set in Hin' as [ [= -> ->] | ]; [|eauto].
    exfalso. pose proof (NoDup_dict_set (hex sid) (mkSessionEntry (session_key e0) (created_at e0)
      (usage_count e0 + 1)) d (kept_keys_NoDup _ _ Hwf)) as Hnd.
    pose proof (dict_get_del (hex sid) (hex sid) _ Hnd) as Hdel.
    rewrite decide_True in Hdel by done. apply dict_get_None in Hdel. apply Hdel.
    unfold keys. apply list_elem_of_fmap. by exists (hex sid, mkSessionEntry (session_key e0)
      (created_at e0) (usage_count e0 + 1)).
  - intros [ [= -> ->] | ]%elem_of_dict_set; [cbn; lia|eauto].
Qed.

(** C37. Every public operation, the two expiries included, keeps the keys distinct,
    the file equal to the serialised sessions, and every stored session below its
    use limit. *)
Theorem store_invariant op s : store_inv s -> store_inv (step_op op s).
Proof.
  intros Hinv. pose proof Hinv as (Hwf & Hsync & Hw & Hu).
  destruct op as [sid key now|sid inc now now'|sid now|sid|sid now|now|h now| |now]; cbn [step_op].
  - unfold save, _persist. meth. destruct (negb _); cbn; [done|]. split_and!; try done.
    + by apply NoDup_dict_set.
    + intros k e [ [= -> ->] | ]%elem_of_dict_set; [cbn; lia|eauto].
  - unfold load. meth. pose proof (expire_invalid_inv now s Hinv) as H1.
    destruct (_expire_invalid now s) as [[] s1]; cbn in *; [|done].
    destruct (dict_get _ _); [|done]. destruct inc; [|done].
    pose proof (mark_used_inv sid now' s1 H1) as H2.
    destruct (mark_used sid now' s1) as [[[]|] s2]; done.
  - by apply mark_used_inv.
  - unfold delete, _persist. meth. split_and!; cbn; try done.
    + by apply NoDup_dict_del.
    + intros k e Hin%elem_of_dict_del. eauto.
  - unfold has. meth. pose proof (expire_invalid_inv now s Hinv) as H1.
    by destruct (_expire_invalid now s) as [[] s1].
  - unfold list_ids. meth. pose proof (expire_invalid_inv now s Hinv) as H1.
    by destruct (_expire_invalid now s) as [[] s1].
  - unfold expire_older_than. meth. by apply drop_where_inv.
  - unfold expire_exhausted. meth. by apply drop_where_inv.
  - unfold count. meth. pose proof (expire_invalid_inv now s Hinv) as H1.
    by destruct (_expire_invalid now s) as [[] s1].
Qed.

(** ** Witnesses: a store that allows two uses *)

Definition demo_sid : bytes := be_bytes 16 7.
Definition demo_empty : SessionStore := mkSessionStore "store.json" 24 2 [] (Json []).
Definition demo_store : SessionStore := step_op (OpSave demo_sid (zeros 32) 1000) demo_empty.

Lemma load_returns_live_witness :
  (load demo_sid true 2000 2001 demo_store).1 = Ok (Some (zeros 32)).
Proof.
  rewrite (load_returns_live demo_sid true 2000 2001 demo_store); [reflexivity|].
  apply NoDup_singleton.
Defined.

Lemma resume_budget_witness :
  (mark_all demo_sid [2000; 3000; 4000] demo_store).1 = [Ok true; Ok true; Ok false].
Proof.
  apply (resume_budget demo_sid (zeros 32) 1000 [2000; 3000; 4000] demo_empty demo_store).
  - constructor.
  - reflexivity.
  - reflexivity.
  - repeat constructor; vm_compute; discriminate.
Defined.

Lemma reopen_restores_live_witness :
  exists s', SessionStore_init "store.json" 24 100 (file demo_store) 5000 = Ok s' /\
    _sessions s' = kept (_sessions demo_store) (live (5000 - 24 * 3600 * SECOND) 100) /\
    _max_uses s' = 100 /\ wf s'.
Proof.
  apply (reopen_restores_live demo_store "store.json" 24 100 5000).
  - apply NoDup_singleton.
  - reflexivity.
  - reflexivity.
Defined.

Lemma store_invariant_witness : store_inv (step_op (OpMarkUsed demo_sid 2000) demo_store).
Proof.
  apply (store_invariant (OpMarkUsed demo_sid 2000) demo_store). split_and!.
  - apply NoDup_singleton.
  - reflexivity.
  - intros sid e He. apply list_elem_of_singleton in He. injection He as -> ->.
    vm_compute. split; congruence.
  - reflexivity.
Defined.
