(* ===== verification/Handshake.v ===== *)
(** src/src/central/handshake.py: the Central of the first protocol version, a
    full ML-KEM handshake confirmed by a SAS, or the resumption of a session
    kept in the [SessionStore]; and src/src/central/secure_channel.py: the
    application channel of that version. *)

From S2P Require Import Prelude Py Pairing Digest Dict Interfaces World BleClient Runs Constants Sas Session SessionStore.
Open Scope Z_scope.

(** * CentralHandshake *)

Record CentralHandshake := mkCentralHandshake {
  resume_queue : list bytes;         (* of the last [_resume_handler] *)
  _store : option SessionStore;
  _shared_secret : option bytes;
  _session_key : option bytes;
  _session_id : option bytes;
}.

Definition CentralHandshake_init (session_store : option SessionStore) : CentralHandshake :=
  mkCentralHandshake [] session_store None None None.

Definition set_queue (q : list bytes) (l : CentralHandshake) : CentralHandshake :=
  mkCentralHandshake q (_store l) (_shared_secret l) (_session_key l) (_session_id l).

Definition set_store (st : SessionStore) (l : CentralHandshake) : CentralHandshake :=
  mkCentralHandshake (resume_queue l) (Some st) (_shared_secret l) (_session_key l) (_session_id l).

Definition set_keys (ss key sid : option bytes) (l : CentralHandshake) : CentralHandshake :=
  mkCentralHandshake (resume_queue l) (_store l) ss key sid.

#[export] Instance handshake_program : Program CentralHandshake := {
  clear_object _ l := l;
  on_data _ _ b l := set_queue (resume_queue l ++ [b]) l;
}.

(** [0.1 s] and [3.0 s]; the polls of [_wait_for_notification] that fit. *)
Definition POLL : Z := SECOND / 10.
Definition RESUME_TIMEOUT : Z := 3 * SECOND.
Definition POLLS : nat := 31.

Section Handshake.
Context {W : Type} `{Env W, Kem, Kdf}.

Abbreviation coroutine := (method (io W (host CentralHandshake))).

Definition get_local : coroutine CentralHandshake := h ← get_own; mret (local h).

Definition update_local (f : CentralHandshake -> CentralHandshake) : coroutine unit :=
  update_own (on_local f).

(** A method of [self._store], at the current time. *)
Definition on_store {A} (m : Z -> method SessionStore A) : coroutine A :=
  now ← query_env Now;
  l ← get_local;
  match _store l with
  | None => raise AttributeError
  | Some st => let (r, st') := m now st in update_local (set_store st');; run r
  end.

(** [while loop.time() < deadline: if queue: return queue.pop(0); await sleep(0.1)],
    at most [fuel] times. *)
Fixpoint poll (fuel : nat) (deadline : Z) : coroutine (option bytes) :=
  match fuel with
  | O => mret None
  | S n =>
      now ← query_env Now;
      if now <? deadline then
        l ← get_local;
        match resume_queue l with
        | b :: q => update_local (set_queue q);; mret (Some b)
        | [] => perform Wait;; poll n deadline
        end
      else mret None
  end.

Definition _wait_for_notification (timeout : Z) : coroutine (option bytes) :=
  now ← query_env Now;
  poll POLLS (now + timeout).

(** One pass of the loop of [_attempt_resume]: [Some key] leaves the loop. *)
Definition try_session (sid_hex : string) : coroutine (option bytes) :=
  session_id ← run (fromhex sid_hex);
  session_key ← on_store (fun now => load session_id false now now);
  match session_key with
  | None => mret None
  | Some session_key =>
      resume_msg ← run (build_resume_request session_id);
      update_local (set_queue []);;
      start_notify;;
      response ← try_finally stop_notify
        (send_control resume_msg;; _wait_for_notification RESUME_TIMEOUT);
      if bool_decide (response = Some RESUME_OK_NOTIFY) then
        used ← on_store (mark_used session_id);
        if negb used then mret None
        else
          update_local (fun l => set_keys (_shared_secret l) (_session_key l) (Some session_id) l);;
          mret (Some session_key)
      else
        (if bool_decide (response = Some RESUME_FAIL_NOTIFY)
         then on_store (fun _ => delete session_id) else mret tt);;
        mret None
  end.

Fixpoint try_sessions (ids : list (string * Z * Z)) : coroutine (option bytes) :=
  match ids with
  | [] => mret None
  | (sid_hex, _, _) :: rest =>
      found ← try_session sid_hex;
      match found with
      | Some key => mret (Some key)
      | None => try_sessions rest
      end
  end.

Definition _attempt_resume : coroutine (option bytes) :=
  l ← get_local;
  match _store l with
  | None => mret None
  | Some _ => ids ← on_store list_ids; try_sessions ids
  end.

(** The callback, or the prompt of the terminal. *)
Definition _prompt_sas (sas : Z) (sas_str : string) : coroutine bool := perform (Confirm sas_str).

Definition _run_full_handshake : coroutine bytes :=
  public_key ← read_fragmented_public_key;
  raise_when (negb (blen public_key =? PK_SIZE)) (RuntimeError "Public key size mismatch");;
  coins ← query_env Coins;
  encapsulated ← run (encapsulate public_key coins);
  let '(ciphertext, shared_secret) := encapsulated in
  raise_when (negb (blen shared_secret =? SS_SIZE)) (RuntimeError "Shared secret size mismatch");;
  write_fragmented_ciphertext ciphertext;;
  let sas := derive_sas public_key ciphertext shared_secret in
  let sas_str := format_sas sas in
  confirmed ← _prompt_sas sas sas_str;
  raise_when (negb confirmed) (RuntimeError "SAS verification failed");;
  let session_key := derive_session_key shared_secret in
  update_local (fun l => set_keys (Some shared_secret) (Some session_key) (_session_id l) l);;
  l ← get_local;
  match _store l with
  | None => mret session_key
  | Some _ =>
      urandom ← query_env (Urandom SESSION_ID_SIZE);
      let session_id := generate_session_id (fun _ => urandom) in
      update_local (fun l => set_keys (_shared_secret l) (_session_key l) (Some session_id) l);;
      on_store (save session_id session_key);;
      mret session_key
  end.

Definition run_handshake : coroutine bytes :=
  connected ← is_connected;
  raise_when (negb connected) (RuntimeError "BLE client not connected");;
  l ← get_local;
  resumed ← (match _store l with
             | None => mret None
             | Some _ =>
                 n ← on_store count;
                 if 0 <? n then _attempt_resume else mret None
             end);
  match resumed with
  | Some session_key =>
      update_local (fun l => set_keys (_shared_secret l) (Some session_key) (_session_id l) l);;
      mret session_key
  | None => _run_full_handshake
  end.
End Handshake.

(** * Why a run returns a key *)

Section Reasons.
Context {W : Type} `{Env W, Kem, Kdf}.
Variable c : link.
(** The keys of the store at the start: hexadecimal session id and key. *)
Variable stored : list (string * bytes).

(** The full handshake: [key] comes from an encapsulation to the public key
    that was read, and the person accepted the SAS of that exchange. *)
Definition confirmed_key (key : bytes) (t : list observed) : Prop :=
  exists pk coins ct ss,
    Did (ReadGatt c CHAR_PUBKEY_UUID) (Ok pk) ∈ t /\ blen pk = PK_SIZE /\
    oqs_encap_secret pk coins = Ok (ct, ss) /\ blen ss = SS_SIZE /\
    Did (Confirm (format_sas (derive_sas pk ct ss))) (Ok true) ∈ t /\
    key = derive_session_key ss.

(** Resumption: [key] is the one stored for a session id whose request went
    out, and RESUME_OK was heard. *)
Definition resumed_key (key : bytes) (t : list observed) : Prop :=
  exists sid,
    (hex sid, key) ∈ stored /\ blen sid = SESSION_ID_SIZE /\
    Did (WriteGatt c CHAR_CONTROL_UUID (RESUME_MAGIC ++ RESUME_REQ ++ sid)) (Ok tt) ∈ t /\
    RESUME_OK_NOTIFY ∈ heard t.

Definition keeps (st : SessionStore) : Prop :=
  wf st /\ forall sid e, (sid, e) ∈ _sessions st -> (sid, session_key e) ∈ stored.

(** ** The operations of the store keep to the stored keys *)

Lemma kept_keeps st st' p :
  keeps st -> wf st' -> _sessions st' = kept (_sessions st) p -> keeps st'.
Proof.
  intros [_ Hk] Hwf Hs. split; [done|]. intros sid e. rewrite Hs. unfold kept.
  rewrite elem_of_filter_bool. intros [Hin _]. by apply Hk.
Qed.

Lemma expire_keeps now st :
  keeps st -> exists st', _expire_invalid now st = (Ok tt, st') /\ keeps st'.
Proof.
  intros Hk. destruct (expire_invalid_eq now st (proj1 Hk)) as (st' & -> & Hwf & Hs & _).
  exists st'. split; [done|]. by eapply kept_keeps.
Qed.

Lemma list_ids_keeps now st :
  keeps st -> exists ids st', list_ids now st = (Ok ids, st') /\ keeps st'.
Proof.
  intros Hk. destruct (expire_keeps now st Hk) as (st' & He & Hk').
  unfold list_ids. meth. rewrite He. eauto.
Qed.

Lemma count_keeps now st :
  keeps st -> exists n st', count now st = (Ok n, st') /\ keeps st'.
Proof.
  intros Hk. destruct (expire_keeps now st Hk) as (st' & He & Hk').
  unfold count. meth. rewrite He. eauto.
Qed.

Lemma load_keeps sid now st :
  keeps st -> exists r st', load sid false now now st = (Ok r, st') /\ keeps st' /\
    forall key, r = Some key -> (hex sid, key) ∈ stored.
Proof.
  intros Hk. destruct (expire_keeps now st Hk) as (st' & He & Hk').
  unfold load. meth. rewrite He. destruct (dict_get (hex sid) (_sessions st')) as [e|] eqn:Hg.
  - eexists _, _. split; [done|]. split; [done|]. intros key [= <-].
    by apply Hk', dict_get_elem.
  - eexists _, _. by split_and!.
Qed.

Lemma delete_keeps sid st : keeps st -> exists st', delete sid st = (Ok tt, st') /\ keeps st'.
Proof.
  intros [Hwf Hk]. unfold delete, _persist. meth. eexists. split; [done|]. split.
  - by apply NoDup_dict_del.
  - intros k e Hin%elem_of_dict_del. by apply Hk.
Qed.

Lemma mark_used_keeps sid now st :
  keeps st -> exists b st', mark_used sid now st = (Ok b, st') /\ keeps st'.
Proof.
  intros Hk. pose proof Hk as [Hwf Hks].
  destruct (mark_used_eq sid now st Hwf) as (st' & Hwf' & -> & Hs & _). eexists _, _.
  split; [done|]. split; [done|]. intros k e. rewrite Hs. cbn zeta.
  set (d := kept _ _).
  assert (forall k e, (k, e) ∈ d -> (k, session_key e) ∈ stored) as Hd.
  { intros k' e'. unfold d, kept. rewrite elem_of_filter_bool. intros [Hin _]. by apply Hks. }
  destruct (dict_get (hex sid) d) as [e0|] eqn:Hg; [|by apply Hd].
  apply dict_get_elem in Hg. unfold counted.
  assert (forall x, x ∈ dict_set (hex sid) (mkSessionEntry (session_key e0) (created_at e0)
            (usage_count e0 + 1)) d -> (x.1, session_key x.2) ∈ stored) as Hset.
  { intros x [->|Hx]%elem_of_dict_set; [exact (Hd _ _ Hg)|]. destruct x as [k' e']. by apply Hd. }
  destruct (_ <=? _); [intros Hin%elem_of_dict_del|intros Hin]; by apply (Hset (k, e)).
Qed.

(** ** Invariant of the objects *)

(** The handlers' queue holds what was heard, the store keeps its keys. *)
Definition inv (h : host CentralHandshake) (t : list observed) : Prop :=
  (forall b, b ∈ resume_queue (local h) -> b ∈ heard t) /\
  forall st, _store (local h) = Some st -> keeps st.

Lemma hear_local_handshake e (h : host CentralHandshake) :
  local (hear e h) = match e with
                     | Notified b _ => set_queue (resume_queue (local h) ++ [b]) (local h)
                     | Disconnected _ => local h
                     end.
Proof.
  destruct e as [b|d]; [done|].
  unfold hear, hear_host, _on_disconnect, _on_v1_disconnect, clear_v1_cp3, on_client, on_local.
  cbn. repeat (case_match; cbn); done.
Qed.

#[local] Instance inv_stable : Stable inv.
Proof.
  split.
  - intros e h t [Hq Hst]. unfold inv. rewrite hear_local_handshake, heard_app.
    split; [|by destruct e]. intros b Hb. apply elem_of_app.
    destruct e as [d|d]; [|left; by apply Hq].
    apply elem_of_app in Hb as [Hb|Hb]; [left; by apply Hq|by right].
  - intros a r h t [Hq Hst]. split; [|done]. intros b Hb. rewrite heard_app.
    apply elem_of_app. left. by apply Hq.
Qed.

(** At some point of the run the invariant and the facts [F] hold. *)
Definition pt (F : list observed -> Prop) (s : io W (host CentralHandshake)) : Prop :=
  inv (self s) (trace s) /\ _client (client (self s)) = Some c /\ F (trace s).

Class Stays (F : list observed -> Prop) : Prop := stays t u : F t -> F (t ++ u).

#[local] Instance stays_did o : Stays (elem_of o).
Proof. intros t u Ht. apply elem_of_app. by left. Qed.
#[local] Instance stays_true : Stays (fun _ => True).
Proof. done. Qed.
#[local] Instance stays_and F o : Stays F -> Stays (fun t => F t /\ o ∈ t).
Proof. intros HF t u [? ?]. split; [by apply HF|apply elem_of_app; by left]. Qed.
#[local] Instance stays_heard F b : Stays F -> Stays (fun t => F t /\ b ∈ heard t).
Proof. intros HF t u [? ?]. rewrite heard_app. split; [by apply HF|apply elem_of_app; by left]. Qed.

Definition with_facts F : host CentralHandshake -> list observed -> Prop := fun h t => inv h t /\ F t.

#[local] Instance with_facts_stable F : Stays F -> Stable (with_facts F).
Proof.
  intros HF. split.
  - intros e h t [Hi Hf]. split; [by apply inv_stable|by apply HF].
  - intros a r h t [Hi Hf]. split; [by apply inv_stable|by apply HF].
Qed.

Abbreviation anyway := (fun (_ : exn) (_ : io W (host CentralHandshake)) => True).

(** The client's operations, from the lemmas on their requests. *)
Lemma lift {A} F (m : method (io W (host CentralHandshake)) A) (Q : A -> list observed -> Prop) :
  (forall T, triple (at_point (with_facts F) c T) m
     (fun a s => exists T', at_point (with_facts (Q a)) c T' s) anyway) ->
  triple (pt F) m (fun a => pt (Q a)) anyway.
Proof.
  intros Hm s (Hi & Hc & Hf). specialize (Hm (ops (trace s)) s (conj (conj Hi Hf) (conj Hc eq_refl))).
  destruct (m s) as [[a|x] s']; [|done]. destruct Hm as (T' & [Hi' Hf'] & Hc' & _). by split_and!.
Qed.

Lemma at_facts F o T (s : io W (host CentralHandshake)) : at_point (seen (with_facts F) o) c T s ->
  at_point (with_facts (fun t => F t /\ o ∈ t)) c T s.
Proof. intros [[[Hi Hf] Ho] Hr]. by split. Qed.

Lemma pt_send F data :
  Stays F ->
  triple (pt F) (send_control data)
    (fun _ => pt (fun t => F t /\ Did (WriteGatt c CHAR_CONTROL_UUID data) (Ok tt) ∈ t)) anyway.
Proof.
  intros HF. eapply (lift F (send_control data)
    (fun _ t => F t /\ Did (WriteGatt c CHAR_CONTROL_UUID data) (Ok tt) ∈ t)).
  intros T. eapply triple_conseq; [by intros s Hs|apply triple_send_control_seen, _| |done].
  intros u s Hs%at_facts. eexists; exact Hs.
Qed.

Lemma pt_notify F : Stays F -> triple (pt F) start_notify (fun _ => pt F) anyway.
Proof.
  intros HF. eapply (lift F start_notify (fun _ => F)). intros T.
  eapply triple_conseq; [by intros s Hs|apply triple_start_notify; [apply _|intros h t l Hi; exact Hi]
    | |done].
  intros u s Hs. eexists; exact Hs.
Qed.

Lemma pt_stop F : Stays F -> triple (pt F) stop_notify (fun _ => pt F) anyway.
Proof.
  intros HF. eapply (lift F stop_notify (fun _ => F)). intros T.
  eapply triple_conseq; [by intros s Hs|apply triple_stop_notify; [apply _|]| |done].
  - intros h t [[Hq Hs] Hf]. split; [|done].
    assert (local (clear_v1_cp3 h) = local h) as Hl.
    { unfold clear_v1_cp3, on_client, on_local. cbn. by repeat (case_match; cbn). }
    unfold inv. by rewrite Hl.
  - intros u s (d & _ & Hs). eexists; exact Hs.
Qed.

Lemma pt_read F :
  Stays F ->
  triple (pt F) read_fragmented_public_key
    (fun pk => pt (fun t => F t /\ Did (ReadGatt c CHAR_PUBKEY_UUID) (Ok pk) ∈ t)) anyway.
Proof.
  intros HF. eapply (lift F read_fragmented_public_key
    (fun pk t => F t /\ Did (ReadGatt c CHAR_PUBKEY_UUID) (Ok pk) ∈ t)).
  intros T. eapply triple_conseq; [by intros s Hs|apply triple_read_public_key, _| |done].
  intros pk s Hs%at_facts. eexists; exact Hs.
Qed.

Lemma pt_write F ct : Stays F -> triple (pt F) (write_fragmented_ciphertext ct) (fun _ => pt F) anyway.
Proof.
  intros HF. eapply (lift F (write_fragmented_ciphertext ct) (fun _ => F)). intros T.
  eapply triple_conseq; [by intros s Hs|apply triple_write_ciphertext, _| |done].
  intros n s (m & frames & _ & _ & Hs). eexists; exact Hs.
Qed.

Lemma pt_confirm F text :
  Stays F ->
  triple (pt F) (perform (Confirm text))
    (fun b => pt (fun t => F t /\ Did (Confirm text) (Ok b) ∈ t)) anyway.
Proof.
  intros HF. eapply (lift F (perform (Confirm text)) (fun b t => F t /\ Did (Confirm text) (Ok b) ∈ t)).
  intros T. eapply triple_conseq;
    [by intros s Hs|apply (triple_op (with_facts F) c T (Confirm text)); [apply _|done]| |done].
  intros b s Hs%at_facts. eexists; exact Hs.
Qed.

Lemma pt_wait F : Stays F -> triple (pt F) (perform Wait) (fun _ => pt F) anyway.
Proof.
  intros HF. eapply (lift F (perform Wait) (fun _ => F)). intros T.
  eapply triple_conseq; [by intros s Hs|apply (triple_perform (with_facts F) c T Wait), _| |done].
  intros u s Hs%at_seen. eexists; exact Hs.
Qed.

Lemma pt_query {B} q F (k : answer q -> method (io W (host CentralHandshake)) B) Q E :
  (forall a, triple (pt F) (k a) Q E) -> triple (pt F) (x ← query_env q; k x) Q E.
Proof.
  intros Hk s Hs. unfold query_env, mbind, method_bind.
  destruct (ask q (world s)) as [a w]. by apply Hk.
Qed.

Lemma pt_get {B} F (k : CentralHandshake -> method (io W (host CentralHandshake)) B) Q E :
  (forall l, (forall st, _store l = Some st -> keeps st) ->
     triple (fun s => local (self s) = l /\ pt F s) (k l) Q E) ->
  triple (pt F) (l ← get_local; k l) Q E.
Proof.
  intros Hk s Hs. unfold get_local, get_own. meth. apply Hk; [|done]. apply Hs.
Qed.

(** A store method that keeps the stored keys. *)
Lemma pt_on_store {A} F (m : Z -> method SessionStore A) (P : A -> Prop) :
  (forall now st, keeps st -> exists a st', m now st = (Ok a, st') /\ keeps st' /\ P a) ->
  triple (pt F) (on_store m) (fun a s => P a /\ pt F s) anyway.
Proof.
  intros Hm. unfold on_store. apply (pt_query Now). intros now. apply pt_get. intros l Hl s [Hs Hp].
  destruct (_store l) as [st|]; [|done].
  destruct (Hm now st (Hl st eq_refl)) as (a & st' & -> & Hk & Ha). cbn. split; [done|].
  destruct Hp as ([Hq _] & Hc & Hf). split_and!; [|done..]. split; [exact Hq|]. by intros ? [= <-].
Qed.

(** ** The flow *)

Definition no_facts : list observed -> Prop := fun _ => True.

#[local] Instance stays_no_facts : Stays no_facts.
Proof. done. Qed.

Lemma pt_weaken F G s : (forall t, F t -> G t) -> pt F s -> pt G s.
Proof. intros HFG (Hi & Hc & Hf). split_and!; [done..|by apply HFG]. Qed.

Lemma pt_poll F fuel deadline :
  Stays F ->
  triple (pt F) (poll fuel deadline)
    (fun r => pt (fun t => F t /\ forall b, r = Some b -> b ∈ heard t)) anyway.
Proof.
  intros HF. induction fuel as [|n IH]; cbn [poll].
  { apply triple_ret. intros s. by apply pt_weaken. }
  apply (pt_query Now). intros now. destruct (now <? deadline); cycle 1.
  { apply triple_ret. intros s. by apply pt_weaken. }
  apply pt_get. intros l _. destruct (resume_queue l) as [|b q] eqn:Hl.
  - eapply triple_bind; [|intros u; exact IH]. eapply triple_weaken; [|by apply pt_wait].
    by intros s [_ Hs].
  - intros s [<- ([Hq Hst] & Hc & Hf)]. cbn. rewrite Hl in Hq. split_and!; [split|done|done|].
    + intros x Hx. apply Hq. by right.
    + done.
    + intros x [= <-]. apply Hq. by left.
Qed.

(** An update of the fields other than the queue and the store. *)
Lemma pt_update {B} F f (k : unit -> method (io W (host CentralHandshake)) B) Q E :
  (forall l, resume_queue (f l) = resume_queue l \/ resume_queue (f l) = []) ->
  (forall l, _store (f l) = _store l) ->
  triple (pt F) (k tt) Q E -> triple (pt F) (x ← update_local f; k x) Q E.
Proof.
  intros Hq Hst Hk s ([Hi Hs] & Hc & Hf). unfold update_local, update_own, mbind, method_bind.
  apply Hk. split_and!; [split|done|done]; cbn; [|by rewrite Hst].
  intros b. destruct (Hq (local (self s))) as [->| ->]; [apply Hi|]. intros Hin. inversion Hin.
Qed.

Lemma pt_session sid_hex :
  triple (pt no_facts) (try_session sid_hex)
    (fun r => pt (fun t => forall key, r = Some key -> resumed_key key t)) anyway.
Proof.
  unfold try_session. apply step_run; [|done]. intros sid _.
  eapply triple_bind; [apply (pt_on_store _ _ (fun r => forall key, r = Some key -> (hex sid, key) ∈ stored))|].
  { intros now st Hk. destruct (load_keeps sid now st Hk) as (r & st' & ? & ? & ?). eauto 6. }
  intros [key|]; apply triple_pure; intros Hkey; [|apply triple_ret; intros s; by apply pt_weaken].
  specialize (Hkey key eq_refl). apply step_run; [|done]. intros msg Hmsg.
  assert (blen sid = SESSION_ID_SIZE /\ msg = RESUME_MAGIC ++ RESUME_REQ ++ sid) as [Hsid ->].
  { unfold build_resume_request in Hmsg. ok_inv. apply negb_false_iff, Z.eqb_eq in Hok. by split. }
  apply pt_update; [by right|done|]. eapply triple_bind; [apply pt_notify, _|]. intros u.
  set (G := fun t => no_facts t /\ Did (WriteGatt c CHAR_CONTROL_UUID (RESUME_MAGIC ++ RESUME_REQ ++ sid)) (Ok tt) ∈ t).
  assert (Stays G) as HG by apply _.
  eapply triple_bind with (R := fun r => pt (fun t => G t /\ forall b, r = Some b -> b ∈ heard t)).
  { eapply triple_finally with (E' := anyway).
    - eapply triple_bind; [apply pt_send, _|]. intros v. apply (pt_query Now). intros now.
      by apply pt_poll.
    - intros r. eapply triple_conseq; [by intros s Hs| |intros v s Hs; exact Hs|done].
      apply pt_stop. intros t w [Hg Hr]. split; [by apply HG|]. intros b Hb.
      rewrite heard_app. apply elem_of_app. left. by apply Hr.
    - intros x s _. by destruct (stop_notify s) as [[]]. }
  intros response. case_bool_decide as Hok.
  - eapply triple_bind; [apply (pt_on_store _ _ (fun _ => True))|].
    { intros now st Hk. destruct (mark_used_keeps sid now st Hk) as (b & st' & ? & ?). eauto 6. }
    intros used. apply triple_pure. intros _. destruct used; cbn [negb].
    + apply pt_update; [by left|done|]. apply triple_ret. intros s. apply pt_weaken.
      intros t [[_ Hd] Hb] ? [= <-]. exists sid. split_and!; [done..|by apply Hb].
    + apply triple_ret. intros s. by apply pt_weaken.
  - eapply triple_bind with (R := fun _ => pt no_facts).
    + case_bool_decide.
      * eapply triple_weaken; [intros s; by apply (pt_weaken _ no_facts)|].
        assert (triple (pt no_facts) (on_store (fun _ => delete sid)) (fun a s => True /\ pt no_facts s) anyway) as Hd.
        { apply pt_on_store. intros now st Hk. destruct (delete_keeps sid st Hk) as (st' & ? & ?). eauto 6. }
        intros s Hs. specialize (Hd s Hs). by destruct (on_store _ s) as [[v|x] s']; [apply Hd|].
      * apply triple_ret. intros s. by apply pt_weaken.
    + intros v. apply triple_ret. intros s. by apply pt_weaken.
Qed.

Definition reason (key : bytes) (t : list observed) : Prop :=
  resumed_key key t \/ confirmed_key key t.

Lemma pt_sessions ids :
  triple (pt no_facts) (try_sessions ids)
    (fun r => pt (fun t => forall key, r = Some key -> resumed_key key t)) anyway.
Proof.
  induction ids as [|[[sid_hex created] used] ids IH]; cbn [try_sessions].
  { apply triple_ret. intros s. by apply pt_weaken. }
  eapply triple_bind; [apply pt_session|]. intros [key|].
  - apply triple_ret. intros s. apply pt_weaken. naive_solver.
  - eapply triple_weaken; [|exact IH]. intros s. by apply pt_weaken.
Qed.

(** The object holds the key the coroutine returns, for the reason [F]. *)
Definition returned (F : list observed -> Prop) (key : bytes) (s : io W (host CentralHandshake)) : Prop :=
  F (trace s) /\ _session_key (local (self s)) = Some key.

(** Nothing is awaited after the SAS: the keys are stored and returned. *)
Lemma returned_keys (F : list observed -> Prop) ss key (s : io W (host CentralHandshake)) :
  F (trace s) ->
  match (update_local (fun l => set_keys (Some ss) (Some key) (_session_id l) l);;
         l ← get_local;
         match _store l with
         | None => mret key
         | Some _ =>
             urandom ← query_env (Urandom SESSION_ID_SIZE);
             let session_id := generate_session_id (fun _ => urandom) in
             update_local (fun l => set_keys (_shared_secret l) (_session_key l) (Some session_id) l);;
             on_store (save session_id key);;
             mret key
         end) s with
  | (Ok k, s') => k = key /\ returned F key s'
  | (Err _, _) => True
  end.
Proof.
  intros HF. unfold on_store, update_local, get_local, query_env, update_own, get_own. meth.
  cbn [self on_local local set_keys _store].
  destruct (_store (local (self s))) as [st|]; cbn; [|by split].
  destruct (ask (Urandom SESSION_ID_SIZE) (world s)) as [u w].
  destruct (ask Now _) as [now w']. cbn.
  destruct (_store (local (self s))) as [st'|]; [|done].
  destruct (save _ key now st') as [[r|x] st2]; cbn; [|done]. by split.
Qed.

Lemma pt_full :
  triple (pt no_facts) _run_full_handshake (fun key => returned (confirmed_key key) key) anyway.
Proof.
  eapply triple_bind; [apply pt_read, _|]. intros pk.
  apply step_guard; [done|]. intros Hpk%negb_false_iff%Z.eqb_eq. apply (pt_query Coins). intros coins.
  apply step_run; [|done]. intros [ct ss] He. cbn beta iota.
  apply step_guard; [done|]. intros Hss%negb_false_iff%Z.eqb_eq.
  eapply triple_bind; [apply pt_write, _|]. intros n.
  eapply triple_bind; [apply pt_confirm, _|]. intros confirmed.
  apply step_guard; [done|]. intros ->%negb_false_iff. intros s (_ & _ & [[_ Hr] Hc]).
  pose proof (returned_keys (confirmed_key (derive_session_key ss)) ss (derive_session_key ss) s) as Hk.
  cbn zeta. match type of Hk with _ -> match ?m with _ => _ end => destruct m as [[k|x] s'] end; [|done].
  destruct Hk as [-> Hk]; [|exact Hk]. by exists pk, coins, ct, ss.
Qed.

Lemma pt_attempt :
  triple (pt no_facts) _attempt_resume
    (fun r => pt (fun t => forall key, r = Some key -> resumed_key key t)) anyway.
Proof.
  apply pt_get. intros l _. eapply triple_weaken; [intros s [_ Hs]; exact Hs|].
  destruct (_store l) as [st|]; [|apply triple_ret; intros s; by apply pt_weaken].
  eapply triple_bind; [apply (pt_on_store _ _ (fun _ => True))|].
  { intros now st' Hk. destruct (list_ids_keeps now st' Hk) as (r & st2 & ? & ?). eauto 6. }
  intros ids. apply triple_pure. intros _. apply pt_sessions.
Qed.

Lemma pt_run : triple (pt no_facts) run_handshake (fun key => returned (reason key) key) anyway.
Proof.
  eapply triple_bind with (R := fun _ => pt no_facts).
  { intros s (Hi & Hc & Hf). unfold is_connected, raw_client, get_own. meth. rewrite Hc.
    unfold query_env. destruct (ask _ _) as [b w]. by split_and!. }
  intros b. apply step_guard; [done|]. intros _. apply pt_get. intros l _.
  eapply triple_weaken; [intros s [_ Hs]; exact Hs|].
  eapply triple_bind with (R := fun r => pt (fun t => forall key, r = Some key -> resumed_key key t)).
  { destruct (_store l) as [st|]; [|apply triple_ret; intros s; by apply pt_weaken].
    eapply triple_bind; [apply (pt_on_store _ _ (fun _ => True))|].
    { intros now st' Hk. destruct (count_keeps now st' Hk) as (r & st2 & ? & ?). eauto 6. }
    intros n. apply triple_pure. intros _. destruct (0 <? n); [apply pt_attempt|].
    apply triple_ret. intros s. by apply pt_weaken. }
  intros [key|].
  - intros s (_ & _ & Hr). split; [|done]. left. by apply Hr.
  - eapply triple_conseq; [intros s; by apply (pt_weaken _ no_facts)|apply pt_full| |done].
    intros key s [Hk Hs]. split; [by right|done].
Qed.
End Reasons.

(** C20. A session key needs a reason. For any peripheral, link, clock and user,
    when [CentralHandshake.run] returns a key, [session_key] holds it, and either
    it is the key that was stored for a 16-byte session id whose RESUME_REQUEST
    was written and a notification RESUME_OK was received, or it is derived from
    the secret of an encapsulation to the 1184-byte public key that was read, and
    the user accepted the SAS of exactly that exchange. *)
Theorem handshake_key_reason {W} `{Env W, Kem, Kdf} c (s : io W (host CentralHandshake)) key s' :
  _client (client (self s)) = Some c -> resume_queue (local (self s)) = [] ->
  (forall st, _store (local (self s)) = Some st -> wf st) ->
  run_handshake s = (Ok key, s') ->
  let stored := match _store (local (self s)) with
                | Some st => map (fun e => (e.1, SessionStore.session_key e.2)) (_sessions st)
                | None => []
                end in
  _session_key (local (self s')) = Some key /\
  (resumed_key c stored key (trace s') \/ confirmed_key c key (trace s')).
Proof.
  intros Hc Hq Hwf Hr stored.
  assert (pt c stored no_facts s) as Hpt.
  { split_and!; [split|done|done].
    - rewrite Hq. intros b Hb. inversion Hb.
    - intros st Hst. split; [by apply Hwf|]. intros sid e Hin. unfold stored. rewrite Hst.
      apply list_elem_of_fmap. by exists (sid, e). }
  pose proof (pt_run c stored s Hpt) as Hrun. rewrite Hr in Hrun. by destruct Hrun.
Qed.

(** * Polling ends *)

Section Polling.
Context {W : Type} `{Env W}.

Lemma poll_enough (time : W -> Z) n fuel deadline (s : io W (host CentralHandshake)) :
  (forall w, (ask Now w).1 = time w /\ time w <= time (ask Now w).2) ->
  (forall w, time w + POLL <= time (await Wait w).2) ->
  deadline <= time (world s) + Z.of_nat n * POLL -> (S n <= fuel)%nat ->
  poll fuel deadline s = poll (S n) deadline s.
Proof.
  intros Hnow Hwait. revert fuel s. induction n as [|n IH]; intros [|fuel] s Hd Hf; try lia;
    cbn [poll]; unfold query_env, get_local, get_own, perform; meth;
    destruct (Hnow (world s)) as [Ht Hm]; destruct (ask Now (world s)) as [now w]; cbn in Ht, Hm;
    subst now; destruct (Z.ltb_spec (time (world s)) deadline); try done; cbn [self local].
  - lia.
  - destruct (resume_queue _); [|done]. specialize (Hwait w).
    cbn [world trace]. destruct (await Wait w) as [[evs [u|x]] w']; [|done]. cbn in Hwait.
    rewrite (IH fuel); [done| |lia]. cbn [world].
    rewrite Nat2Z.inj_succ, Z.mul_succ_l in Hd. lia.
Qed.

(** The loop with any number of polls. *)
Definition wait_polls (fuel : nat) : method (io W (host CentralHandshake)) (option bytes) :=
  now ← query_env Now; poll fuel (now + RESUME_TIMEOUT).

(** C39. The model's 31 polls are enough: with a clock that never goes back
    and sleeps of at least 0.1 s, more polls give the same outcome, so
    [_wait_for_notification] returns a notification or times out as the loop
    of the source does. *)
Theorem wait_for_notification_fuel (time : W -> Z) fuel (s : io W (host CentralHandshake)) :
  (forall w, (ask Now w).1 = time w /\ time w <= time (ask Now w).2) ->
  (forall w, time w + POLL <= time (await Wait w).2) -> (POLLS <= fuel)%nat ->
  wait_polls fuel s = _wait_for_notification RESUME_TIMEOUT s.
Proof.
  intros Hnow Hwait Hf. unfold wait_polls, _wait_for_notification, query_env. meth.
  destruct (Hnow (world s)) as [Ht Hm]. destruct (ask Now (world s)) as [now w]. cbn in Ht, Hm. subst now.
  apply (poll_enough time 30); [done|done| |exact Hf]. cbn [world].
  change (Z.of_nat 30 * POLL) with RESUME_TIMEOUT. lia.
Qed.
End Polling.

(** * Witnesses *)

(** A link with a clock: every sleep takes 0.1 s, the first notification is
    RESUME_OK, and the user accepts. *)
Module Scripted.
#[export] Instance environment : Env Z := {
  ask q w := match q as q return answer q * Z with
             | IsConnected _ => (true, w)
             | MtuSize _ => (247, w)
             | Urandom n => (zeros n, w)
             | Coins => ([], w)
             | TimerFired | GuardFailed => (false, w)
             | Now => (w, w)
             end;
  await a w := match a as a return list event * result (value a) * Z with
               | FindByName n => ([], Ok None, w)
               | FindByAddress d => ([], Ok None, w)
               | ReadGatt _ _ => ([], Ok (zeros 1184), w)
               | Confirm _ => ([], Ok true, w)
               | InspectPairing => ([], Ok (mkPairingState false true "NONE"), w)
               | PairNumericComparison | PairJustWorks => ([], Err (OtherException None), w)
               | Wait => ([Notified RESUME_OK_NOTIFY true], Ok tt, w + POLL)
               | Unpair => ([], Ok tt, w)
               | Connect _ | Disconnect _ | WriteGatt _ _ _ | StartNotify _ _ | StopNotify _ _ =>
                   ([], Ok tt, w)
               end;
}.

Definition stored_key : bytes := zeros 31 ++ [x07].
Definition store : SessionStore :=
  mkSessionStore "store.json" 24 100 [(hex (zeros 16), mkSessionEntry stored_key 1000 0)] Absent.

Definition initial (st : option SessionStore) : io Z (host CentralHandshake) :=
  mkIo 5000 (mkHost (mkClient DEVICE_NAME (Some (mkLink 0 false)) None None None None None false) 1
               (CentralHandshake_init st)) [].

Definition outcome (st : option SessionStore) :=
  @run_handshake Z environment Toy.kem Toy.kdf (initial st).
End Scripted.

Lemma handshake_key_reason_witness :
  (Scripted.outcome (Some Scripted.store)).1 = Ok Scripted.stored_key /\
  (resumed_key (mkLink 0 false) [(hex (zeros 16), Scripted.stored_key)] Scripted.stored_key
     (trace (Scripted.outcome (Some Scripted.store)).2) \/
   @confirmed_key Toy.kem Toy.kdf (mkLink 0 false) Scripted.stored_key
     (trace (Scripted.outcome (Some Scripted.store)).2)).
Proof.
  assert ((Scripted.outcome (Some Scripted.store)).1 = Ok Scripted.stored_key) as Hr
    by (vm_compute; reflexivity).
  assert (forall st, _store (local (self (Scripted.initial (Some Scripted.store)))) = Some st -> wf st) as Hwf.
  { intros st [= <-]. apply NoDup_singleton. }
  pose proof (fun key s' => @handshake_key_reason Z Scripted.environment Toy.kem Toy.kdf (mkLink 0 false)
    (Scripted.initial (Some Scripted.store)) key s' eq_refl eq_refl Hwf) as Hk.
  revert Hr Hk. unfold Scripted.outcome.
  generalize (@run_handshake Z Scripted.environment Toy.kem Toy.kdf (Scripted.initial (Some Scripted.store))).
  intros [r s'] Hr Hk. cbn [fst snd] in *. subst r. split; [reflexivity|].
  exact (proj2 (Hk Scripted.stored_key s' eq_refl)).
Defined.

Lemma wait_for_notification_fuel_witness :
  @wait_polls Z Scripted.environment 1000 (Scripted.initial None) =
  @_wait_for_notification Z Scripted.environment RESUME_TIMEOUT (Scripted.initial None).
Proof.
  refine (@wait_for_notification_fuel Z Scripted.environment (fun w => w) 1000 (Scripted.initial None) _ _ _).
  - intros w. split; [reflexivity|]. cbn. lia.
  - intros w. reflexivity.
  - apply Nat.leb_le. vm_compute. reflexivity.
Defined.
