(* ===== verification/PeripheralServer.v ===== *)
(** src/experimental/peripheral/ble_server.py: [BLEPeripheralServer], the GATT
    server of the Python Peripheral, as an object whose handlers the Bluetooth
    stack calls. The stack ([BleakServer]) is not under src/: what it was asked
    to notify is recorded, and how that went is an argument. *)

From S2P Require Import Prelude Py World Constants Fragmentation.
Open Scope Z_scope.

(** The bound methods of [PeripheralHandshake] that are registered. *)
Inductive callback := on_ciphertext_received | on_control_received.

(** A coroutine given to [asyncio.ensure_future], with its argument. *)
Record task := mkTask { coroutine_of : callback; argument : bytes }.

Record BLEPeripheralServer := mkServer {
  _device_name : string;
  _server : bool;                    (* is there a [BleakServer] *)
  _public_key : bytes;
  _ciphertext : bytes;
  _control_message : bytes;
  _ct_fragments : list bytes;
  _on_ciphertext_written : option callback;
  _on_control_written : option callback;
  _data_notify_callback : option callback;
  scheduled : list task;             (* of the event loop, in order *)
  pushed : list bytes;               (* the notifications of the [BleakServer] *)
}.

Definition BLEPeripheralServer_init (device_name : string) : BLEPeripheralServer :=
  mkServer device_name false [] [] [] [] None None None [] [].

Definition set_public_key (pk : bytes) (s : BLEPeripheralServer) : BLEPeripheralServer :=
  mkServer (_device_name s) (_server s) pk (_ciphertext s) (_control_message s) (_ct_fragments s)
    (_on_ciphertext_written s) (_on_control_written s) (_data_notify_callback s) (scheduled s) (pushed s).

Definition on_ciphertext (cb : callback) (s : BLEPeripheralServer) : BLEPeripheralServer :=
  mkServer (_device_name s) (_server s) (_public_key s) (_ciphertext s) (_control_message s) (_ct_fragments s)
    (Some cb) (_on_control_written s) (_data_notify_callback s) (scheduled s) (pushed s).

Definition on_control (cb : callback) (s : BLEPeripheralServer) : BLEPeripheralServer :=
  mkServer (_device_name s) (_server s) (_public_key s) (_ciphertext s) (_control_message s) (_ct_fragments s)
    (_on_ciphertext_written s) (Some cb) (_data_notify_callback s) (scheduled s) (pushed s).

Definition on_data_notify (cb : callback) (s : BLEPeripheralServer) : BLEPeripheralServer :=
  mkServer (_device_name s) (_server s) (_public_key s) (_ciphertext s) (_control_message s) (_ct_fragments s)
    (_on_ciphertext_written s) (_on_control_written s) (Some cb) (scheduled s) (pushed s).

(** [self._server = BleakServer([service])], in [start]. *)
Definition set_server (b : bool) (s : BLEPeripheralServer) : BLEPeripheralServer :=
  mkServer (_device_name s) b (_public_key s) (_ciphertext s) (_control_message s) (_ct_fragments s)
    (_on_ciphertext_written s) (_on_control_written s) (_data_notify_callback s) (scheduled s) (pushed s).

Definition set_ciphertext (ct : bytes) (s : BLEPeripheralServer) : BLEPeripheralServer :=
  mkServer (_device_name s) (_server s) (_public_key s) ct (_control_message s) (_ct_fragments s)
    (_on_ciphertext_written s) (_on_control_written s) (_data_notify_callback s) (scheduled s) (pushed s).

Definition set_fragments (frags : list bytes) (s : BLEPeripheralServer) : BLEPeripheralServer :=
  mkServer (_device_name s) (_server s) (_public_key s) (_ciphertext s) (_control_message s) frags
    (_on_ciphertext_written s) (_on_control_written s) (_data_notify_callback s) (scheduled s) (pushed s).

Definition set_control (m : bytes) (s : BLEPeripheralServer) : BLEPeripheralServer :=
  mkServer (_device_name s) (_server s) (_public_key s) (_ciphertext s) m (_ct_fragments s)
    (_on_ciphertext_written s) (_on_control_written s) (_data_notify_callback s) (scheduled s) (pushed s).

Definition set_scheduled (l : list task) (s : BLEPeripheralServer) : BLEPeripheralServer :=
  mkServer (_device_name s) (_server s) (_public_key s) (_ciphertext s) (_control_message s) (_ct_fragments s)
    (_on_ciphertext_written s) (_on_control_written s) (_data_notify_callback s) l (pushed s).

Definition push (data : bytes) (s : BLEPeripheralServer) : BLEPeripheralServer :=
  mkServer (_device_name s) (_server s) (_public_key s) (_ciphertext s) (_control_message s) (_ct_fragments s)
    (_on_ciphertext_written s) (_on_control_written s) (_data_notify_callback s) (scheduled s) (pushed s ++ [data]).

(** [if cb: asyncio.ensure_future(cb(data))], whether [cb] is a coroutine
    function or is wrapped in [_call_sync]. *)
Definition schedule (cb : option callback) (data : bytes) (s : BLEPeripheralServer) : BLEPeripheralServer :=
  match cb with
  | Some f => set_scheduled (scheduled s ++ [mkTask f data]) s
  | None => s
  end.

(** [except (ValueError, IndexError)]. *)
Definition is_decode_error (x : exn) : bool :=
  is_value_error x || bool_decide (x = IndexError).

Definition _on_write_ciphertext (value : bytes) : method BLEPeripheralServer unit :=
  update (fun s => set_fragments (_ct_fragments s ++ [value]) s);;
  try_except is_decode_error (fun _ => mret tt)
    (self ← get_self;
     first ← run (match _ct_fragments self with f :: _ => Fragment_decode f | [] => Err IndexError end);
     if total first <=? Z.of_nat (length (_ct_fragments self)) then
       ciphertext ← run (reassemble_data (_ct_fragments self));
       update (set_ciphertext ciphertext);;
       update (set_fragments []);;
       update (fun s => schedule (_on_ciphertext_written s) ciphertext s)
     else mret tt).

Definition _on_write_control (value : bytes) : method BLEPeripheralServer unit :=
  update (set_control value);;
  update (fun s => schedule (_on_control_written s) value s).

Definition _on_read_pubkey (s : BLEPeripheralServer) : bytes := _public_key s.

(** How [BleakServer.notify] went: sent, missing in this version, or raised. *)
Inductive push_outcome := Pushed | NoNotify | PushFailed.

Definition notify_data (data : bytes) (outcome : push_outcome) : method BLEPeripheralServer unit :=
  self ← get_self;
  raise_when (negb (_server self)) (RuntimeError "Server not started");;
  match outcome with
  | Pushed => update (push data)
  | NoNotify | PushFailed => mret tt
  end.

Definition reset_ciphertext_buffer (s : BLEPeripheralServer) : BLEPeripheralServer :=
  set_ciphertext [] (set_fragments [] s).

(** A sequence of writes to the ciphertext characteristic. *)
Definition write_all (values : list bytes) (s : BLEPeripheralServer) : BLEPeripheralServer :=
  fold_left (fun s v => (_on_write_ciphertext v s).2) values s.

(** * The event loop

    A coroutine of the Peripheral runs against an environment, in the manner of
    [World]: while it sleeps or waits for the person, the Bluetooth stack calls
    the write handlers and the event loop runs the tasks they scheduled. *)

(** What happens while the coroutine is suspended. *)
Inductive gatt_event :=
  | ServerStarts                       (* [start] got its turn, and has its [BleakServer] *)
  | WriteCiphertext (value : bytes)
  | WriteControl (value : bytes)
  | TaskRuns (clock : Z * Z * Z) (outcome : push_outcome).
      (* the first scheduled task, the times it reads, and what notifying does *)

Inductive suspension := Sleep | PromptSas (text : string).

Definition answer_of (a : suspension) : Type :=
  match a with Sleep => unit | PromptSas _ => bool end.

Class PeripheralEnv (W : Type) := {
  read : forall q : query, W -> answer q * W;
  suspend : forall a : suspension, W -> list gatt_event * result (answer_of a) * W;
}.

Inductive happened :=
  | Answered (a : suspension) (r : result (answer_of a))
  | Event (e : gatt_event).

(** What an event does to the object a coroutine belongs to. *)
Class Delivers (S : Type) := deliver : gatt_event -> S -> S.

Record prun (W S : Type) := mkRun { pworld : W; me : S; past : list happened }.
Arguments mkRun {W S} pworld me past.
Arguments pworld {W S} _.
Arguments me {W S} _.
Arguments past {W S} _.

Section Coroutines.
Context {W S : Type} `{PeripheralEnv W, Delivers S}.

Abbreviation coroutine := (method (prun W S)).

Definition read_env (q : query) : coroutine (answer q) :=
  fun s => let (a, w) := read q (pworld s) in (Ok a, mkRun w (me s) (past s)).

Definition await_for (a : suspension) : coroutine (answer_of a) :=
  fun s =>
    let '(evs, r, w) := suspend a (pworld s) in
    (r, mkRun w (fold_left (fun p e => deliver e p) evs (me s)) (past s ++ Answered a r :: map Event evs)).

Definition on_me {A} (m : method S A) : coroutine A :=
  fun s => let (r, p) := m (me s) in (r, mkRun (pworld s) p (past s)).
End Coroutines.

(** * What the buffer can be *)

(** Fragments are missing. *)
Definition waiting (frags : list bytes) : Prop :=
  match frags with
  | [] => True
  | f :: _ => exists first, Fragment_decode f = Ok first /\ Z.of_nat (length frags) < total first
  end.

(** The first write was no fragment, or there are as many writes as it announces,
    but they do not fit together. *)
Definition blocked (frags : list bytes) : Prop :=
  match frags with
  | [] => False
  | f :: _ => match Fragment_decode f with
              | Ok first => total first <= Z.of_nat (length frags)
              | Err _ => True
              end
  end.

(** One write, by what the buffer holds after it. *)
Lemma on_write_ciphertext_eq v s :
  let frags := _ct_fragments s ++ [v] in
  let s1 := set_fragments frags s in
  (waiting frags /\ _on_write_ciphertext v s = (Ok tt, s1)) \/
  (exists ct, reassembles frags ct /\ _on_write_ciphertext v s =
     (Ok tt, schedule (_on_ciphertext_written s) ct (set_fragments [] (set_ciphertext ct s1)))) \/
  (blocked frags /\ (forall ct, ~ reassembles frags ct) /\ (_on_write_ciphertext v s).2 = s1).
Proof.
  intros frags s1. unfold _on_write_ciphertext, try_except. meth.
  change (set_fragments (_ct_fragments s ++ [v]) s) with s1.
  change (_ct_fragments s1) with frags.
  assert (exists f r, frags = f :: r) as (f & r & Hf).
  { unfold frags. destruct (_ct_fragments s) as [|f r]; cbn; eauto. }
  rewrite Hf. unfold waiting, blocked. destruct (Fragment_decode f) as [first|x] eqn:Hd.
  - destruct (Z.leb_spec (total first) (Z.of_nat (length (f :: r)))) as [Hle|Hlt]; [|left; eauto].
    destruct (reassemble_data (f :: r)) as [ct|x] eqn:Hr.
    + right. left. exists ct. split; [by apply reassemble_data_iff|].
      destruct (_on_ciphertext_written s) eqn:Hc; cbn; unfold schedule; cbn; by rewrite ?Hc.
    + right. right. split; [done|]. split; [|by destruct (is_decode_error x)].
      intros ct Hct%reassemble_data_iff. congruence.
  - right. right. split; [done|]. split; [|by destruct (is_decode_error x)].
    intros ct (fs & _ & Hdec & _). inversion Hdec. congruence.
Qed.

Lemma reassembles_total f r ct :
  reassembles (f :: r) ct ->
  exists first, Fragment_decode f = Ok first /\ total first = Z.of_nat (length (f :: r)).
Proof.
  intros (fs & _ & Hdec & _ & Ht & _). pose proof Hdec as Hl%Forall2_length.
  inversion Hdec as [|? first ? fs' Hf Hr]; subst. exists first. split; [done|].
  rewrite Hl. apply Ht. by left.
Qed.

Lemma blocked_app frags more : blocked frags -> blocked (frags ++ more).
Proof.
  destruct frags as [|f r]; [done|]. cbn [blocked app]. destruct (Fragment_decode f); [|done].
  cbn [length app]. rewrite length_app. lia.
Qed.

(** A blocked buffer never gives a ciphertext again. *)
Lemma blocked_write v s :
  blocked (_ct_fragments s) -> (_on_write_ciphertext v s).2 = set_fragments (_ct_fragments s ++ [v]) s.
Proof.
  intros Hb. pose proof (blocked_app _ [v] Hb) as Hb'.
  destruct (on_write_ciphertext_eq v s) as [[_ ->]|[(ct & Hr & _)|(_ & _ & He)]]; [done| |done].
  destruct (_ct_fragments s) as [|f r]; [done|]. apply reassembles_total in Hr as (first & Hd & Ht).
  unfold blocked in Hb. rewrite Hd in Hb. rewrite Ht in Hb. cbn [app length] in Hb.
  rewrite length_app in Hb. cbn in Hb. lia.
Qed.

Lemma write_all_app v w s : write_all (v ++ w) s = write_all w (write_all v s).
Proof. apply fold_left_app. Qed.

Lemma blocked_write_all values s :
  blocked (_ct_fragments s) -> write_all values s = set_fragments (_ct_fragments s ++ values) s.
Proof.
  revert s. induction values as [|v values IH]; intros s Hb; cbn [write_all fold_left].
  - rewrite app_nil_r. by destruct s.
  - rewrite blocked_write by done. fold (write_all values).
    change (fold_left _ values ?x) with (write_all values x).
    rewrite IH by (by apply (blocked_app _ [v])). cbn [_ct_fragments set_fragments].
    by rewrite <- app_assoc.
Qed.

(** * The stream of writes *)

(** No value so far completes a ciphertext. *)
Definition incomplete (frags : list bytes) : Prop := forall pre ct, pre `prefix_of` frags -> ~ reassembles pre ct.

(** [l] is blocks that reassemble, one ciphertext each, and a rest that holds none. *)
Definition cut (l : list bytes) (blocks : list (list bytes)) (cts : list bytes) (rest : list bytes) : Prop :=
  l = concat blocks ++ rest /\ Forall2 reassembles blocks cts /\ incomplete rest.

Lemma incomplete_nil : incomplete [].
Proof. intros pre ct ->%prefix_nil_inv (fs & Hne & Hdec & _). by inversion Hdec; subst. Qed.

Lemma incomplete_snoc frags v :
  incomplete frags -> (forall ct, ~ reassembles (frags ++ [v]) ct) -> incomplete (frags ++ [v]).
Proof.
  intros Hi Hn pre ct [k Hk]. destruct k as [|x k _] using rev_ind.
  - rewrite app_nil_r in Hk. subst pre. apply Hn.
  - rewrite app_assoc in Hk. apply app_inj_tail in Hk as [Hk _]. apply Hi. by exists k.
Qed.

Lemma incomplete_blocked frags more : incomplete frags -> blocked frags -> incomplete (frags ++ more).
Proof.
  intros Hi Hb. induction more as [|v more IH] using rev_ind; [by rewrite app_nil_r|].
  rewrite app_assoc. apply incomplete_snoc; [exact IH|]. intros ct Hr.
  destruct frags as [|f r]; [done|]. change ((f :: r) ++ more) with (f :: (r ++ more)) in Hr.
  rewrite <- app_comm_cons in Hr. apply reassembles_total in Hr as (first & Hd & Ht). unfold blocked in Hb. rewrite Hd in Hb.
  cbn [length] in Ht, Hb. rewrite !length_app in Ht. cbn in Ht. lia.
Qed.

(** The first fragment says how many values a ciphertext takes. *)
Lemma reassembles_unique l1 l2 r1 r2 c1 c2 :
  l1 ++ r1 = l2 ++ r2 -> reassembles l1 c1 -> reassembles l2 c2 -> l1 = l2 /\ c1 = c2 /\ r1 = r2.
Proof.
  intros He H1 H2. destruct l1 as [|f1 t1]; [by destruct (incomplete_nil [] c1)|].
  destruct l2 as [|f2 t2]; [by destruct (incomplete_nil [] c2)|].
  pose proof H1 as (first & Hd & Ht)%reassembles_total. pose proof H2 as (first' & Hd' & Ht')%reassembles_total.
  injection He as <- He. rewrite Hd in Hd'. injection Hd' as <-.
  destruct (app_inj_1 t1 t2 r1 r2) as [<- <-]; [cbn in Ht, Ht'; lia|done|].
  apply reassemble_data_iff in H1, H2. split; [done|]. split; [congruence|done].
Qed.

Lemma cut_unique l b1 c1 r1 b2 c2 r2 : cut l b1 c1 r1 -> cut l b2 c2 r2 -> b1 = b2 /\ c1 = c2 /\ r1 = r2.
Proof.
  intros (-> & Hf1 & Hi1) (He & Hf2 & Hi2). revert b2 c2 He Hf2.
  induction Hf1 as [|l1 x1 b1 c1 Hr1 _ IH]; intros b2 c2 He Hf2; destruct Hf2 as [|l2 x2 b2 c2 Hr2 Hf2]; cbn in He.
  - by rewrite He.
  - subst r1. destruct (Hi1 l2 x2); [by rewrite <- app_assoc; eexists|done].
  - subst r2. destruct (Hi2 l1 x1); [by rewrite <- app_assoc; eexists|done].
  - rewrite <- !app_assoc in He. destruct (reassembles_unique _ _ _ _ _ _ He Hr1 Hr2) as (-> & -> & He').
    destruct (IH _ _ He' Hf2) as (-> & -> & ->). done.
Qed.

(** A ciphertext is complete. *)
Definition accept (s : BLEPeripheralServer) (ct : bytes) : BLEPeripheralServer :=
  schedule (_on_ciphertext_written s) ct (set_ciphertext ct s).

Lemma accept_fragments frags ct s : set_fragments frags (accept s ct) = accept (set_fragments frags s) ct.
Proof. unfold accept, schedule. cbn. by destruct (_on_ciphertext_written s). Qed.

Lemma accept_all_fragments frags cts s :
  set_fragments frags (fold_left accept cts s) = fold_left accept cts (set_fragments frags s).
Proof.
  revert s. induction cts as [|ct cts IH]; intros s; cbn; [done|]. by rewrite IH, accept_fragments.
Qed.

Lemma stream_cut values s :
  incomplete (_ct_fragments s) ->
  exists blocks cts rest, cut (_ct_fragments s ++ values) blocks cts rest /\
    write_all values s = fold_left accept cts (set_fragments rest s).
Proof.
  revert s. induction values as [|v values IH]; intros s Hs.
  { exists [], [], (_ct_fragments s). rewrite app_nil_r. split; [by split_and!|by destruct s]. }
  change (write_all (v :: values) s) with (write_all values (_on_write_ciphertext v s).2).
  rewrite cons_middle, app_assoc.
  assert (incomplete (_ct_fragments s ++ [v]) ->
    exists blocks cts rest, cut ((_ct_fragments s ++ [v]) ++ values) blocks cts rest /\
      write_all values (set_fragments (_ct_fragments s ++ [v]) s) = fold_left accept cts (set_fragments rest s)) as Hmore.
  { intros Hi. exact (IH (set_fragments (_ct_fragments s ++ [v]) s) Hi). }
  destruct (on_write_ciphertext_eq v s) as [[Hw ->]|[(ct & Hr & ->)|(_ & Hn & ->)]]; cbn [snd].
  - apply Hmore, incomplete_snoc; [done|]. intros ct Hr. revert Hw Hr.
    destruct (_ct_fragments s ++ [v]) as [|f r] eqn:Hf; [by destruct (_ct_fragments s)|].
    intros (first & Hd & Hl) (first' & Hd' & Ht)%reassembles_total. rewrite Hd in Hd'. injection Hd' as <-. lia.
  - set (s1 := schedule _ _ _) in *.
    assert (s1 = accept (set_fragments [] s) ct) as Hs1 by done.
    assert (_ct_fragments s1 = []) as Hf1 by (rewrite Hs1; unfold accept, schedule; cbn; by destruct (_on_ciphertext_written s)).
    destruct (IH s1) as (bs & cts & rest & (He & Hf & Hi) & Hwr); [rewrite Hf1; apply incomplete_nil|].
    rewrite Hf1 in He. exists ((_ct_fragments s ++ [v]) :: bs), (ct :: cts), rest. split.
    + split_and!; [cbn in He |- *; by rewrite He, app_assoc|by constructor|done].
    + rewrite Hwr, Hs1. cbn [fold_left]. by rewrite accept_fragments.
  - by apply Hmore, incomplete_snoc.
Qed.

(** C23. What the Peripheral makes of the writes to its ciphertext characteristic.
    From a buffer in which no ciphertext is complete, and for every sequence of
    written values, there is exactly one way to cut the stream of the buffer and
    the values into blocks that reassemble, one ciphertext each, and a rest in which
    no ciphertext is complete. The server holds the last of these ciphertexts, has
    scheduled its callback once for each of them, in order, keeps the rest in its
    buffer, and changed nothing else. A blocked buffer (one that starts with no
    fragment, or has all the fragments its first one announces without
    reassembling) gives no ciphertext, whatever is written. *)
Theorem ciphertext_stream values s :
  incomplete (_ct_fragments s) ->
  exists blocks cts rest,
    cut (_ct_fragments s ++ values) blocks cts rest /\
    (forall blocks' cts' rest', cut (_ct_fragments s ++ values) blocks' cts' rest' ->
       blocks' = blocks /\ cts' = cts /\ rest' = rest) /\
    write_all values s = fold_left accept cts (set_fragments rest s) /\
    (blocked (_ct_fragments s) -> cts = [] /\ rest = _ct_fragments s ++ values).
Proof.
  intros Hs. destruct (stream_cut values s Hs) as (blocks & cts & rest & Hc & Hw).
  assert (forall b c r, cut (_ct_fragments s ++ values) b c r -> b = blocks /\ c = cts /\ r = rest) as Hu.
  { intros b c r Hc'. by eapply cut_unique. }
  exists blocks, cts, rest. split_and!; [done|done|done|]. intros Hb.
  destruct (Hu [] [] (_ct_fragments s ++ values)) as (_ & <- & <-); [|done].
  split_and!; [done|by constructor|by apply incomplete_blocked].
Qed.

(** All fragments of a ciphertext arrive: a list that reassembles, from an empty
    buffer. *)
Lemma write_all_reassembles rest s ct :
  rest <> [] -> reassembles (_ct_fragments s ++ rest) ct ->
  write_all rest s = accept (set_fragments [] s) ct.
Proof.
  revert s. induction rest as [|v rest IH]; intros s Hne Hr; [done|].
  change (write_all (v :: rest) s) with (write_all rest (_on_write_ciphertext v s).2).
  rewrite cons_middle, app_assoc in Hr.
  assert (exists f r, _ct_fragments s ++ [v] = f :: r) as (f & r & Hf).
  { destruct (_ct_fragments s) as [|f r]; cbn; eauto. }
  pose proof Hr as Ht. rewrite Hf in Ht. rewrite <- app_comm_cons in Ht.
  apply reassembles_total in Ht as (first & Hd & Ht). rewrite app_comm_cons, <- Hf, length_app in Ht.
  destruct (on_write_ciphertext_eq v s) as [[Hw ->]|[(ct' & Hr' & ->)|(Hb & Hn & _)]]; cbn [snd].
  - destruct rest as [|w rest].
    + rewrite Hf in Hw. destruct Hw as (first' & Hd' & Hl). rewrite <- Hf in Hl.
      rewrite Hd in Hd'. injection Hd' as <-. rewrite Ht, Nat.add_0_r in Hl. lia.
    + by rewrite IH.
  - rewrite Hf in Hr'. pose proof Hr' as Ht'. apply reassembles_total in Ht' as (first' & Hd' & Ht').
    rewrite <- Hf in Ht', Hr'. rewrite Hd in Hd'. injection Hd' as <-.
    destruct rest; [|cbn in Ht; lia]. rewrite app_nil_r in Hr.
    apply reassemble_data_iff in Hr, Hr'. rewrite Hr in Hr'. by injection Hr' as <-.
  - rewrite Hf in Hb. unfold blocked in Hb. rewrite Hd, <- Hf in Hb.
    destruct rest; [|cbn in Ht; lia]. rewrite app_nil_r in Hr. by destruct (Hn ct).
Qed.

(** The Central's fragments, in any order, complete the ciphertext. *)
Theorem server_completes data mtu frames values s :
  HEADER_SIZE < mtu <= 65535 + HEADER_SIZE -> frag_count data (mtu - HEADER_SIZE) <= 255 ->
  fragment_data data mtu = Ok frames -> values ≡ₚ frames -> _ct_fragments s = [] ->
  write_all values s = accept s data.
Proof.
  intros Hm Hc Hf Hp Hs. rewrite fragment_data_Ok in Hf by done. injection Hf as <-.
  assert (reassembles values data) as Hr by (eapply frag_list_reassembles; [|exact Hc|exact Hp]; lia).
  rewrite (write_all_reassembles values s data); [|by destruct Hr as (? & ? & _)|by rewrite Hs].
  by destruct s; cbn in *; subst.
Qed.

(** * Witnesses *)

Definition demo_server : BLEPeripheralServer :=
  on_ciphertext on_ciphertext_received (set_server true (BLEPeripheralServer_init DEVICE_NAME)).

(** The two fragments of three bytes, the second one first, and a write that is
    no fragment; the next fragments are lost. *)
Definition demo_frames : list bytes :=
  match fragment_data (lit "abc") 6 with Ok [f0; f1] => [f1; f0; lit "?"; f0; f1] | _ => [] end.

Lemma ciphertext_stream_witness :
  _ciphertext (write_all demo_frames demo_server) = lit "abc" /\
  length (_ct_fragments (write_all demo_frames demo_server)) = 3%nat /\
  exists blocks cts rest, cut demo_frames blocks cts rest /\
    write_all demo_frames demo_server = fold_left accept cts (set_fragments rest demo_server).
Proof.
  split; [vm_compute; reflexivity|]. split; [vm_compute; reflexivity|].
  destruct (ciphertext_stream demo_frames demo_server incomplete_nil) as (b & c & r & Hc & _ & Hw & _).
  exists b, c, r. exact (conj Hc Hw).
Defined.

(** A Peripheral whose clock advances with its sleeps, that gets one batch of
    events per sleep, and whose person accepts. *)
Module Batches.
Record script := mkScript { clock : Z; batches : list (list gatt_event) }.

#[export] Instance environment : PeripheralEnv script := {
  read q w := match q as q return answer q * script with
              | IsConnected _ => (true, w)
              | MtuSize _ => (512, w)
              | Urandom n => (zeros n, w)
              | Coins => ([x17], w)
              | TimerFired | GuardFailed => (false, w)
              | Now => (clock w, w)
              end;
  suspend a w := match a as a return list gatt_event * result (answer_of a) * script with
                 | Sleep => (default [] (head (batches w)), Ok tt, mkScript (clock w + SECOND / 10) (tail (batches w)))
                 | PromptSas _ => ([], Ok true, w)
                 end;
}.
End Batches.
