(* ===== verification/PeripheralHandshake.v ===== *)
(** src/experimental/peripheral/handshake.py: [PeripheralHandshake], the other
    end of [Handshake] in Python, over the GATT server of [PeripheralServer]; and
    src/experimental/peripheral/secure_channel.py, its application channel.

    The coroutine runs against the environment of [PeripheralServer]. *)

From S2P Require Import Prelude Py Digest Dict Interfaces World Constants Fragmentation Sas Session SessionStore Handshake PeripheralServer.
Open Scope Z_scope.

(** * The object and its environment *)

Record PeripheralHandshake := mkPeripheral {
  server : BLEPeripheralServer;
  server_task : bool;                (* is the task of [server.start()] alive *)
  _store : option SessionStore;
  _secret_key : option bytes;
  _public_key : option bytes;
  _shared_secret : option bytes;
  _session_key : option bytes;
  _session_id : option bytes;
  _ciphertext_received : bool;       (* asyncio.Event *)
  _resume_requested : bool;          (* asyncio.Event *)
  _resume_session_id : option bytes;
}.

Definition PeripheralHandshake_init (srv : BLEPeripheralServer) (session_store : option SessionStore)
  : PeripheralHandshake :=
  mkPeripheral srv false session_store None None None None None false false None.

Definition on_server (f : BLEPeripheralServer -> BLEPeripheralServer) (p : PeripheralHandshake) :=
  mkPeripheral (f (server p)) (server_task p) (_store p) (_secret_key p) (_public_key p) (_shared_secret p)
    (_session_key p) (_session_id p) (_ciphertext_received p) (_resume_requested p) (_resume_session_id p).

Definition set_task (b : bool) (p : PeripheralHandshake) :=
  mkPeripheral (server p) b (_store p) (_secret_key p) (_public_key p) (_shared_secret p)
    (_session_key p) (_session_id p) (_ciphertext_received p) (_resume_requested p) (_resume_session_id p).

Definition put_store (st : SessionStore) (p : PeripheralHandshake) :=
  mkPeripheral (server p) (server_task p) (Some st) (_secret_key p) (_public_key p) (_shared_secret p)
    (_session_key p) (_session_id p) (_ciphertext_received p) (_resume_requested p) (_resume_session_id p).

Definition set_keypair (pk sk : bytes) (p : PeripheralHandshake) :=
  mkPeripheral (server p) (server_task p) (_store p) (Some sk) (Some pk) (_shared_secret p)
    (_session_key p) (_session_id p) (_ciphertext_received p) (_resume_requested p) (_resume_session_id p).

Definition put_keys (ss key sid : option bytes) (p : PeripheralHandshake) :=
  mkPeripheral (server p) (server_task p) (_store p) (_secret_key p) (_public_key p) ss
    key sid (_ciphertext_received p) (_resume_requested p) (_resume_session_id p).

Definition set_received (p : PeripheralHandshake) :=
  mkPeripheral (server p) (server_task p) (_store p) (_secret_key p) (_public_key p) (_shared_secret p)
    (_session_key p) (_session_id p) true (_resume_requested p) (_resume_session_id p).

Definition set_resume (sid : bytes) (p : PeripheralHandshake) :=
  mkPeripheral (server p) (server_task p) (_store p) (_secret_key p) (_public_key p) (_shared_secret p)
    (_session_key p) (_session_id p) (_ciphertext_received p) true (Some sid).

(** * Callbacks *)

(** A method of [self._server], and of [self._store] at a given time. *)
Definition server_method {A} (m : method BLEPeripheralServer A) : method PeripheralHandshake A :=
  fun p => let (r, s) := m (server p) in (r, on_server (fun _ => s) p).

Definition store_method {A} (m : method SessionStore A) : method PeripheralHandshake A :=
  fun p => match _store p with
           | None => (Err AttributeError, p)
           | Some st => let (r, st') := m st in (r, put_store st' p)
           end.

Definition _on_ciphertext_received (ct : bytes) : method PeripheralHandshake unit :=
  update set_received.

Definition _handle_resume_request (session_id : bytes) (clock : Z * Z * Z) (outcome : push_outcome)
  : method PeripheralHandshake unit :=
  self ← get_self;
  match _store self with
  | None => mret tt
  | Some _ =>
      found ← store_method (has session_id clock.1.1);
      if found : bool then
        store_method (load session_id true clock.1.2 clock.2);;
        update (set_resume session_id);;
        server_method (notify_data RESUME_OK_NOTIFY outcome)
      else server_method (notify_data RESUME_FAIL_NOTIFY outcome)
  end.

Definition _on_control_received (data : bytes) (clock : Z * Z * Z) (outcome : push_outcome)
  : method PeripheralHandshake unit :=
  match parse_control_message data with
  | resume_request session_id => _handle_resume_request session_id clock outcome
  | sas_confirm | unknown _ => mret tt
  end.

(** An exception ends the task that raised it. *)
Definition run_task (t : task) (clock : Z * Z * Z) (outcome : push_outcome) (p : PeripheralHandshake)
  : PeripheralHandshake :=
  match coroutine_of t with
  | on_ciphertext_received => (_on_ciphertext_received (argument t) p).2
  | on_control_received => (_on_control_received (argument t) clock outcome p).2
  end.

#[export] Instance deliver_handshake : Delivers PeripheralHandshake := fun e p =>
  match e with
  | ServerStarts => if server_task p then on_server (set_server true) p else p
  | WriteCiphertext v => if _server (server p) then (server_method (_on_write_ciphertext v) p).2 else p
  | WriteControl v => if _server (server p) then (server_method (_on_write_control v) p).2 else p
  | TaskRuns clock outcome =>
      match scheduled (server p) with
      | t :: l => run_task t clock outcome (on_server (set_scheduled l) p)
      | [] => p
      end
  end.

(** * The coroutine *)

Abbreviation hrun W := (prun W PeripheralHandshake).

(** [120.0 s], and the polls of a tenth of a second that fit. *)
Definition WAIT_TIMEOUT : Z := 120 * SECOND.
Definition WAIT_POLLS : nat := 1201.

Section Run.
Context {W : Type} `{PeripheralEnv W, Kem, Kdf}.

Abbreviation coroutine := (method (hrun W)).

Definition myself : coroutine PeripheralHandshake := on_me get_self.
Definition change (f : PeripheralHandshake -> PeripheralHandshake) : coroutine unit := on_me (update f).

Fixpoint wait_loop (fuel : nat) (deadline : Z) : coroutine unit :=
  match fuel with
  | O => raise AsyncTimeoutError
  | S n =>
      now ← read_env Now;
      if now <? deadline then
        self ← myself;
        if _ciphertext_received self || _resume_requested self then mret tt
        else await_for Sleep;; wait_loop n deadline
      else raise AsyncTimeoutError
  end.

Definition _wait_for_either_or (fuel : nat) (timeout : Z) : coroutine unit :=
  now ← read_env Now;
  wait_loop fuel (now + timeout).

(** The callback, or the prompt of the terminal. *)
Definition _prompt_sas (sas : Z) (sas_str : string) : coroutine bool := await_for (PromptSas sas_str).

(** Steps 1 and 2, up to the task of the server. *)
Definition expose_key : coroutine (bytes * bytes) :=
  coins ← read_env Coins;
  let (pk, sk) := generate_keypair coins in
  raise_when (negb (blen pk =? PK_SIZE)) (RuntimeError "Public key size mismatch");;
  change (set_keypair pk sk);;
  change (on_server (PeripheralServer.set_public_key pk));;
  change (on_server (PeripheralServer.on_ciphertext on_ciphertext_received));;
  change (on_server (PeripheralServer.on_control on_control_received));;
  change (set_task true);;
  mret (pk, sk).

(** Step 3. *)
Definition await_central (fuel : nat) : coroutine unit :=
  try_except (fun x => bool_decide (x = AsyncTimeoutError))
    (fun _ => change (set_task false);;
              raise (RuntimeError "Timeout waiting for central (no ciphertext or resume request)"))
    (_wait_for_either_or fuel WAIT_TIMEOUT).

(** The branch of an accepted resumption: [Some key] is returned by [run]. *)
Definition resume_branch : coroutine (option bytes) :=
  self ← myself;
  if _resume_requested self && bool_decide (_store self <> None) then
    match _resume_session_id self with
    | Some sid =>
        t1 ← read_env Now;
        t2 ← read_env Now;
        session_key ← on_me (store_method (load sid true t1 t2));
        match session_key with
        | Some key =>
            change (fun p => put_keys (_shared_secret p) (Some key) (Some sid) p);;
            mret (Some key)
        | None => mret None
        end
    | None => mret None
    end
  else mret None.

(** Step 7. *)
Definition persist_session (key : bytes) : coroutine unit :=
  self ← myself;
  match _store self with
  | None => mret tt
  | Some _ =>
      urandom ← read_env (Urandom SESSION_ID_SIZE);
      let sid := generate_session_id (fun _ => urandom) in
      change (fun p => put_keys (_shared_secret p) (_session_key p) (Some sid) p);;
      now ← read_env Now;
      on_me (store_method (save sid key now))
  end.

(** Steps 4 to 7. *)
Definition full_branch (pk sk : bytes) : coroutine bytes :=
  self ← myself;
  let ciphertext := PeripheralServer._ciphertext (server self) in
  raise_when (negb (blen ciphertext =? CT_SIZE)) (RuntimeError "Ciphertext size mismatch");;
  shared_secret ← run (decapsulate sk ciphertext);
  raise_when (negb (blen shared_secret =? SS_SIZE)) (RuntimeError "Shared secret size");;
  let sas := derive_sas pk ciphertext shared_secret in
  let sas_str := format_sas sas in
  confirmed ← _prompt_sas sas sas_str;
  raise_when (negb confirmed) (RuntimeError "SAS verification failed");;
  let session_key := derive_session_key shared_secret in
  change (fun p => put_keys (Some shared_secret) (Some session_key) (_session_id p) p);;
  persist_session session_key;;
  mret session_key.

Definition after_wait (pk sk : bytes) : coroutine bytes :=
  resumed ← resume_branch;
  match resumed with
  | Some key => mret key
  | None => full_branch pk sk
  end.

Definition run_with (fuel : nat) : coroutine bytes :=
  keys ← expose_key;
  let (pk, sk) := keys : bytes * bytes in
  await_central fuel;;
  after_wait pk sk.

Definition run_peripheral : coroutine bytes := run_with WAIT_POLLS.
End Run.

(** * Why a run returns a key *)

Definition wrote_ciphertext (v : bytes) (t : list happened) : Prop := Event (WriteCiphertext v) ∈ t.
Definition wrote_control (v : bytes) (t : list happened) : Prop := Event (WriteControl v) ∈ t.

Class PLasting (F : list happened -> Prop) : Prop := plasting t u : F t -> F (t ++ u).

#[export] Instance plasting_in o : PLasting (elem_of o).
Proof. intros t u Ht. apply elem_of_app. by left. Qed.
#[export] Instance plasting_true : PLasting (fun _ => True).
Proof. done. Qed.
#[export] Instance plasting_and F G : PLasting F -> PLasting G -> PLasting (fun t => F t /\ G t).
Proof. intros HF HG t u [? ?]. split; [by apply HF|by apply HG]. Qed.

(** [ct] came in fragments that were all written to the ciphertext
    characteristic. *)
Definition arrived (ct : bytes) (t : list happened) : Prop :=
  exists frames, reassembles frames ct /\ forall v, v ∈ frames -> wrote_ciphertext v t.

#[export] Instance arrived_lasting ct : PLasting (arrived ct).
Proof.
  intros t u (frames & Hr & Hf). exists frames. split; [done|]. intros v Hv. by apply plasting_in, Hf.
Qed.

(** A well-formed resume request for [sid] was written. *)
Definition requested (sid : bytes) (t : list happened) : Prop :=
  blen sid = SESSION_ID_SIZE /\ wrote_control (RESUME_MAGIC ++ RESUME_REQ ++ sid) t.

#[export] Instance requested_lasting sid : PLasting (requested sid).
Proof. intros t u [? ?]. split; [done|by apply plasting_in]. Qed.

Lemma parse_resume_request d sid :
  parse_control_message d = resume_request sid ->
  blen sid = SESSION_ID_SIZE /\ d = RESUME_MAGIC ++ RESUME_REQ ++ sid.
Proof.
  unfold parse_control_message. case_bool_decide; [done|].
  destruct (_ && _) eqn:Hc; [|done]. intros [= <-].
  apply andb_true_iff in Hc as [[Hl Hm]%andb_true_iff Hr].
  apply Z.eqb_eq in Hl. apply bool_decide_eq_true in Hm, Hr.
  split.
  - rewrite blen_bfrom, Hl by done. done.
  - by rewrite <- Hm, <- Hr, bslice_bfrom, bto_bfrom by done.
Qed.

(** ** The key pair stays *)

Definition same_key {A} (m : method PeripheralHandshake A) : Prop :=
  forall p, _public_key (m p).2 = _public_key p.

Lemma same_key_bind {A B} (m : method PeripheralHandshake A) (k : A -> method PeripheralHandshake B) :
  same_key m -> (forall a, same_key (k a)) -> same_key (x ← m; k x).
Proof.
  intros Hm Hk p. unfold mbind, method_bind. specialize (Hm p).
  destruct (m p) as [[a|x] p']; [by rewrite Hk|done].
Qed.

Lemma same_key_server {A} (m : method BLEPeripheralServer A) : same_key (server_method m).
Proof. intros p. unfold server_method. by destruct (m (server p)). Qed.

Lemma same_key_store {A} (m : method SessionStore A) : same_key (store_method m).
Proof. intros p. unfold store_method. destruct (_store p) as [st|]; [by destruct (m st)|done]. Qed.

Lemma same_key_resume sid clock outcome : same_key (_handle_resume_request sid clock outcome).
Proof.
  apply same_key_bind; [done|]. intros self. destruct (_store self); [|done].
  apply same_key_bind; [apply same_key_store|]. intros [|]; [|apply same_key_server].
  apply same_key_bind; [apply same_key_store|]. intros r.
  apply same_key_bind; [done|]. intros u. apply same_key_server.
Qed.

Lemma deliver_public_key e p : _public_key (deliver e p) = _public_key p.
Proof.
  destruct e as [|v|v|clock outcome]; cbn [deliver deliver_handshake]; [by case_match|..].
  - case_match; [|done]. apply same_key_server.
  - case_match; [|done]. apply same_key_server.
  - destruct (scheduled (server p)) as [|k l]; [done|]. unfold run_task. destruct (coroutine_of k); [done|].
    unfold _on_control_received. destruct (parse_control_message _); [done| |done].
    by rewrite same_key_resume.
Qed.

Lemma events_public_key evs p :
  _public_key (fold_left (fun p e => deliver e p) evs p) = _public_key p.
Proof. revert p. induction evs as [|e evs IH]; intros p; cbn; [done|]. by rewrite IH, deliver_public_key. Qed.

Section Invariant.
(** The keys of the store at the start: hexadecimal session id and key. *)
Variable stored : list (string * bytes).

Definition pinv (p : PeripheralHandshake) (t : list happened) : Prop :=
  (forall v, v ∈ _ct_fragments (server p) -> wrote_ciphertext v t) /\
  (PeripheralServer._ciphertext (server p) = [] \/ arrived (PeripheralServer._ciphertext (server p)) t) /\
  (_on_ciphertext_written (server p) <> Some on_control_received) /\
  (forall k, k ∈ scheduled (server p) -> coroutine_of k = on_control_received -> wrote_control (argument k) t) /\
  (forall sid, _resume_session_id p = Some sid -> requested sid t) /\
  (forall st, _store p = Some st -> keeps stored st).

Lemma pinv_lasting p t u : pinv p t -> pinv p (t ++ u).
Proof.
  intros (Hf & Hc & Hw & Hk & Hr & Hs). split_and!; [|destruct Hc as [?|Hc]; [by left|right]|done| | |done].
  - intros v Hv. by apply plasting_in, Hf.
  - by apply arrived_lasting.
  - intros k Hk' Hc'. by apply plasting_in, Hk.
  - intros sid Hsid. by apply requested_lasting, Hr.
Qed.

(** The methods of the store keep to the stored keys. *)
Lemma has_keeps sid now st : keeps stored st -> exists b st', has sid now st = (Ok b, st') /\ keeps stored st'.
Proof.
  intros Hk. destruct (expire_keeps stored now st Hk) as (st' & He & Hk').
  unfold has. meth. rewrite He. eauto.
Qed.

Lemma load_used_keeps sid t1 t2 st :
  keeps stored st -> exists r st', load sid true t1 t2 st = (Ok r, st') /\ keeps stored st' /\
    forall key, r = Some key -> (hex sid, key) ∈ stored.
Proof.
  intros Hk. destruct (expire_keeps stored t1 st Hk) as (st' & He & Hk').
  unfold load. meth. rewrite He. destruct (dict_get (hex sid) (_sessions st')) as [e|] eqn:Hg.
  - destruct (mark_used_keeps stored sid t2 st' Hk') as (b & st2 & -> & Hk2).
    destruct b; cbn [negb]; eexists _, _; (split; [done|]); (split; [done|]); [|done].
    intros key [= <-]. by apply Hk', dict_get_elem.
  - eexists _, _. by split_and!.
Qed.

(** ** The callbacks *)

Lemma pinv_on_server f p t :
  pinv p t -> pinv (on_server f p) t <->
  (forall v, v ∈ _ct_fragments (f (server p)) -> wrote_ciphertext v t) /\
  (PeripheralServer._ciphertext (f (server p)) = [] \/ arrived (PeripheralServer._ciphertext (f (server p))) t) /\
  (_on_ciphertext_written (f (server p)) <> Some on_control_received) /\
  (forall k, k ∈ scheduled (f (server p)) -> coroutine_of k = on_control_received -> wrote_control (argument k) t).
Proof.
  intros (_ & _ & _ & _ & Hr & Hs). unfold pinv.
  split; [intros (? & ? & ? & ? & _)|intros (? & ? & ? & ?)]; by split_and!.
Qed.

Lemma pinv_write_ciphertext v p t :
  pinv p t -> wrote_ciphertext v t -> pinv (server_method (_on_write_ciphertext v) p).2 t.
Proof.
  intros Hp Hv. pose proof Hp as (Hf & Hc & Hw & Hk & _).
  unfold server_method. destruct (_on_write_ciphertext v (server p)) as [r s] eqn:Hs. cbn [snd].
  apply pinv_on_server; [done|].
  assert (forall x, x ∈ _ct_fragments (server p) ++ [v] -> wrote_ciphertext x t) as Hall.
  { intros x [Hx|Hx]%elem_of_app; [by apply Hf|]. apply list_elem_of_singleton in Hx as ->. done. }
  destruct (on_write_ciphertext_eq v (server p)) as [[_ He]|[(ct & Hr & He)|(_ & _ & He)]];
    rewrite Hs in He; cbn [snd] in He; simplify_eq; [done| |done].
  unfold schedule. cbn [_on_ciphertext_written]. destruct (_on_ciphertext_written (server p)) as [cb|] eqn:Hcb; cbn.
  - split_and!; [intros x Hx; inversion Hx|right; by exists (_ct_fragments (server p) ++ [v])|congruence|].
    intros k [Hin|Hin]%elem_of_app; [by apply Hk|]. apply list_elem_of_singleton in Hin as ->. cbn. congruence.
  - split_and!; [intros x Hx; inversion Hx|right; by exists (_ct_fragments (server p) ++ [v])|congruence|done].
Qed.

Lemma pinv_write_control v p t :
  pinv p t -> wrote_control v t -> pinv (server_method (_on_write_control v) p).2 t.
Proof.
  intros Hp Hv. pose proof Hp as (Hf & Hc & Hw & Hk & _).
  unfold server_method, _on_write_control. meth. cbn [snd]. apply pinv_on_server; [done|].
  unfold schedule. cbn. destruct (_on_control_written (server p)); cbn; split_and!; try done.
  intros k [Hin|Hin]%elem_of_app; [by apply Hk|]. apply list_elem_of_singleton in Hin as ->. done.
Qed.

Lemma pinv_notify data outcome p t :
  pinv p t -> pinv (server_method (notify_data data outcome) p).2 t.
Proof.
  intros Hp. pose proof Hp as (Hf & Hc & Hw & Hk & _). unfold server_method, notify_data. meth.
  destruct (negb _); cbn; [by apply pinv_on_server|]. by destruct outcome; cbn; apply pinv_on_server.
Qed.

Lemma pinv_put_store st p t : pinv p t -> keeps stored st -> pinv (put_store st p) t.
Proof. intros (? & ? & ? & ? & ? & Hs) Hk. split_and!; [done..|]. by intros ? [= <-]. Qed.

Lemma pinv_resume_request sid clock outcome p t :
  pinv p t -> requested sid t -> pinv (_handle_resume_request sid clock outcome p).2 t.
Proof.
  intros Hp Hr. unfold _handle_resume_request, store_method. meth.
  destruct (_store p) as [st|] eqn:Hst; [|done]. rewrite ?Hst.
  destruct (has_keeps sid clock.1.1 st) as (b & st1 & -> & Hk1); [by apply Hp|].
  destruct b; [|by apply pinv_notify, pinv_put_store]. cbn [_store put_store].
  destruct (load_used_keeps sid clock.1.2 clock.2 st1 Hk1) as (r & st2 & -> & Hk2 & _).
  apply pinv_notify. destruct (pinv_put_store st1 p t Hp Hk1) as (? & ? & ? & ? & ? & _).
  split_and!; [done..| |]; [by intros ? [= <-]|]. by intros ? [= <-].
Qed.

Lemma pinv_run_task k clock outcome p t :
  pinv p t -> (coroutine_of k = on_control_received -> wrote_control (argument k) t) ->
  pinv (run_task k clock outcome p) t.
Proof.
  intros Hp Hk. unfold run_task. destruct (coroutine_of k); [done|]. specialize (Hk eq_refl).
  unfold _on_control_received. destruct (parse_control_message (argument k)) as [|sid|raw] eqn:Hm; [done| |done].
  apply parse_resume_request in Hm as [Hl He]. apply pinv_resume_request; [done|].
  split; [done|]. by rewrite <- He.
Qed.

Lemma pinv_deliver e p t : pinv p t -> pinv (deliver e p) (t ++ [Event e]).
Proof.
  intros Hp%(pinv_lasting _ _ [Event e]).
  assert (Event e ∈ t ++ [Event e]) as He by (apply elem_of_app; right; by left).
  destruct e as [|v|v|clock outcome]; cbn [deliver deliver_handshake].
  - destruct (server_task p); [|done]. pose proof Hp as (? & ? & ? & ? & _). by apply pinv_on_server.
  - destruct (_server (server p)); [|done]. by apply pinv_write_ciphertext.
  - destruct (_server (server p)); [|done]. by apply pinv_write_control.
  - destruct (scheduled (server p)) as [|k l] eqn:Hl; [done|]. pose proof Hp as (? & ? & ? & Hk & _).
    apply pinv_run_task; [|apply Hk; rewrite Hl; by left].
    apply pinv_on_server; [done|]. split_and!; [done..|]. cbn. intros k' Hin. apply Hk. rewrite Hl. by right.
Qed.

Lemma pinv_events evs p t :
  pinv p t -> pinv (fold_left (fun p e => deliver e p) evs p) (t ++ map Event evs).
Proof.
  revert p t. induction evs as [|e evs IH]; intros p t Hp; cbn; [by rewrite app_nil_r|].
  rewrite cons_middle, app_assoc. by apply IH, pinv_deliver.
Qed.
End Invariant.

(** ** The coroutine *)

Section Reasons.
Context {W : Type} `{PeripheralEnv W, Kem, Kdf}.
Variable stored : list (string * bytes).

Abbreviation anyway := (fun (_ : exn) (_ : hrun W) => True).

(** The public key is [own], the invariant and the facts [F] hold. *)
Definition at_p (own : option bytes) (F : list happened -> Prop) (s : hrun W) : Prop :=
  pinv stored (me s) (past s) /\ _public_key (me s) = own /\ F (past s).

Lemma p_read {B} own F q (k : answer q -> method (hrun W) B) Q E :
  (forall a, triple (at_p own F) (k a) Q E) -> triple (at_p own F) (x ← read_env q; k x) Q E.
Proof.
  intros Hk s Hs. unfold read_env, mbind, method_bind. destruct (read q (pworld s)) as [a w]. by apply Hk.
Qed.

Lemma p_await own F a :
  PLasting F ->
  triple (at_p own F) (await_for a) (fun v => at_p own (fun t => F t /\ Answered a (Ok v) ∈ t)) (fun _ => at_p own F).
Proof.
  intros HF s (Hp & Ho & Hf). unfold await_for. destruct (suspend a (pworld s)) as [[evs r] w].
  assert (pinv stored (fold_left (fun p e => deliver e p) evs (me s)) (past s ++ Answered a r :: map Event evs)) as Hp'.
  { rewrite cons_middle, app_assoc. by apply pinv_events, pinv_lasting. }
  destruct r as [v|x]; (split; [exact Hp'|]); (split; [cbn; by rewrite events_public_key|]); [|by apply HF].
  split; [by apply HF|]. apply elem_of_app. right. by left.
Qed.

Lemma p_self {B} own F (k : PeripheralHandshake -> method (hrun W) B) Q E :
  (forall p, triple (fun s => me s = p /\ at_p own F s) (k p) Q E) -> triple (at_p own F) (x ← myself; k x) Q E.
Proof. intros Hk s Hs. unfold myself, on_me. meth. by apply Hk. Qed.

Lemma p_change {B} own F f (k : unit -> method (hrun W) B) Q E :
  (forall p t, pinv stored p t -> pinv stored (f p) t) -> (forall p, _public_key (f p) = _public_key p) ->
  triple (at_p own F) (k tt) Q E -> triple (at_p own F) (x ← change f; k x) Q E.
Proof. intros Hf Hown Hk s (Hp & Ho & Hs). unfold change, on_me. meth. apply Hk. split; [by apply Hf|]. split; [by rewrite <- Ho, <- (Hown (me s))|done]. Qed.

Lemma p_weaken own F G s : (forall t, F t -> G t) -> at_p own F s -> at_p own G s.
Proof. intros HFG (Hp & Ho & Hf). split; [done|]. split; [done|by apply HFG]. Qed.

Lemma p_expose own :
  triple (at_p own (fun _ => True)) expose_key
    (fun keys s => (exists coins, keys = oqs_generate_keypair coins) /\ at_p (Some keys.1) (fun _ => True) s) anyway.
Proof.
  apply (p_read _ _ Coins). intros coins. unfold generate_keypair.
  destruct (oqs_generate_keypair coins) as [pk sk] eqn:Hk. apply step_guard; [done|]. intros _.
  intros s (Hp & _ & _). unfold change, on_me. meth. cbn [me pworld past].
  split; [by exists coins|]. split; [|done].
  destruct Hp as (? & ? & ? & ? & ? & ?). by split_and!.
Qed.

Lemma p_wait own fuel deadline :
  triple (at_p own (fun _ => True)) (wait_loop fuel deadline) (fun _ => at_p own (fun _ => True)) (fun _ => at_p own (fun _ => True)).
Proof.
  induction fuel as [|n IH]; cbn [wait_loop]; [by apply triple_raise|].
  apply (p_read _ _ Now). intros now. destruct (now <? deadline); [|by apply triple_raise].
  apply p_self. intros p. eapply triple_weaken; [intros s [_ Hs]; exact Hs|].
  destruct (_ || _); [by apply triple_ret|].
  eapply triple_bind; [apply p_await, _|]. intros u. eapply triple_weaken; [|exact IH].
  intros s. by apply p_weaken.
Qed.

Lemma p_await_central own fuel :
  triple (at_p own (fun _ => True)) (await_central fuel) (fun _ => at_p own (fun _ => True)) anyway.
Proof.
  unfold await_central, _wait_for_either_or. eapply triple_except.
  - apply (p_read _ _ Now). intros now. apply p_wait.
  - intros x _. apply p_change; [done..|]. by apply triple_raise.
  - done.
Qed.

(** The key of a session of the store, for a request that was written. *)
Definition resumed_session (key : bytes) (s : hrun W) : Prop :=
  exists sid, (hex sid, key) ∈ stored /\ requested sid (past s) /\ _session_id (me s) = Some sid.

Lemma p_resume own :
  triple (at_p own (fun _ => True)) resume_branch
    (fun r s => match r with
                | Some key => resumed_session key s /\ _session_key (me s) = Some key
                | None => at_p own (fun _ => True) s
                end) anyway.
Proof.
  apply p_self. intros p. destruct (_ && _); [|by apply triple_ret; intros s [_ Hs]].
  destruct (_resume_session_id p) as [sid|] eqn:Hsid; [|by apply triple_ret; intros s [_ Hs]].
  intros s (Hp & Hs). unfold read_env, on_me, store_method, change. meth.
  destruct (read Now (pworld s)) as [t1 w1]. cbn [pworld]. destruct (read Now w1) as [t2 w2]. cbn [me].
  destruct Hs as (Hi & Ho & _). rewrite Hp in Hi, Ho |- *. pose proof Hi as (_ & _ & _ & _ & Hr & Hst).
  destruct (_store p) as [st|] eqn:Hstore; [|done].
  destruct (load_used_keeps stored sid t1 t2 st) as (r & st' & -> & Hk & Hkey); [by apply Hst|].
  destruct r as [key|]; cbn.
  - split; [|done]. exists sid. cbn. split_and!; [by apply Hkey|by apply Hr|done].
  - split; [|done]. by apply pinv_put_store.
Qed.

(** The exchange of [ct] with the key pair of this run: the person accepted its
    SAS, and [key] comes from its secret. *)
Definition accepted_exchange (pk sk ct key : bytes) (t : list happened) : Prop :=
  arrived ct t /\ blen ct = CT_SIZE /\
  exists ss, oqs_decap_secret sk ct = Ok ss /\ blen ss = SS_SIZE /\
    Answered (PromptSas (format_sas (derive_sas pk ct ss))) (Ok true) ∈ t /\
    key = derive_session_key ss.

(** The store, if there is one, keeps the key under the session id of the object. *)
Definition persisted (key : bytes) (s : hrun W) : Prop :=
  forall st, _store (me s) = Some st ->
  exists sid e, _session_id (me s) = Some sid /\ blen sid = SESSION_ID_SIZE /\
    dict_get (hex sid) (_sessions st) = Some e /\ SessionStore.session_key e = key.

Lemma persist_post key (s : hrun W) :
  match persist_session key s with
  | (Ok _, s') => past s' = past s /\ _session_key (me s') = _session_key (me s) /\
                   _public_key (me s') = _public_key (me s) /\ persisted key s'
  | (Err _, _) => True
  end.
Proof.
  unfold persist_session, myself, on_me, read_env, change, store_method. meth.
  destruct (_store (me s)) as [st|] eqn:Hst; cbn; [|split_and!; [done..|]; intros st Hst'; cbn in Hst'; congruence].
  destruct (read (Urandom SESSION_ID_SIZE) (pworld s)) as [u w]. cbn.
  destruct (read Now w) as [now w']. cbn. rewrite Hst.
  unfold save, generate_session_id. meth. destruct (raise_if _ _) as [[]|x] eqn:Hr; cbn; [|done].
  apply raise_if_Ok, negb_false_iff, Z.eqb_eq in Hr.
  split_and!; [done..|]. intros st' [= <-]. eexists _, _. split; [done|]. split; [done|].
  cbn. rewrite dict_get_set, decide_True by done. done.
Qed.

Lemma p_full own pk sk :
  triple (at_p own (fun _ => True)) (full_branch pk sk)
    (fun key s => (exists ct, accepted_exchange pk sk ct key (past s)) /\ persisted key s /\
                  _public_key (me s) = own /\ _session_key (me s) = Some key) anyway.
Proof.
  apply p_self. intros p. apply step_guard; [done|]. intros Hct%negb_false_iff%Z.eqb_eq.
  apply step_run; [|done]. intros ss Hss. apply step_guard; [done|]. intros Hlen%negb_false_iff%Z.eqb_eq.
  set (ct := PeripheralServer._ciphertext (server p)) in *.
  eapply triple_weaken with (P' := at_p own (arrived ct)).
  { intros s (Hp & Hi & Ho & _). split; [done|]. split; [done|]. pose proof Hi as (_ & Hc & _). rewrite Hp in Hc.
    destruct Hc as [Hc|Hc]; [|done]. unfold ct in Hct. rewrite Hc in Hct. done. }
  eapply triple_bind.
  { eapply triple_conseq; [by intros s Hs|
      apply (p_await own (arrived ct) (PromptSas (format_sas (derive_sas pk ct ss)))), _|
      by intros v s Hs; exact Hs|done]. }
  intros confirmed. apply step_guard; [done|]. intros ->%negb_false_iff.
  intros s (_ & Ho & Ha & Hans). unfold change, on_me. meth.
  pose proof (persist_post (derive_session_key ss)
    (mkRun (pworld s) (put_keys (Some ss) (Some (derive_session_key ss)) (_session_id (me s)) (me s)) (past s))) as Hp.
  cbn zeta. destruct (persist_session _ _) as [[u|x] s']; [|done].
  destruct Hp as (Hpast & Hkey & Hpk & Hper). split_and!; [|done|by rewrite Hpk|by rewrite Hkey].
  exists ct. rewrite Hpast. split_and!; [done..|]. by exists ss.
Qed.
End Reasons.

(** A handshake object and a server that were just made. *)
Definition fresh (p : PeripheralHandshake) : Prop :=
  _ct_fragments (server p) = [] /\ PeripheralServer._ciphertext (server p) = [] /\
  _on_ciphertext_written (server p) = None /\ scheduled (server p) = [] /\
  _resume_session_id p = None /\ (forall st, _store p = Some st -> wf st).

Definition stored_keys (p : PeripheralHandshake) : list (string * bytes) :=
  match _store p with
  | Some st => map (fun e => (e.1, SessionStore.session_key e.2)) (_sessions st)
  | None => []
  end.

Lemma fresh_pinv p t : fresh p -> pinv (stored_keys p) p t.
Proof.
  intros (Hf & Hc & Hw & Hk & Hr & Hst). unfold pinv. rewrite Hf, Hc, Hw, Hk, Hr.
  split_and!; [intros v Hv; inversion Hv|by left|done|intros k Hin; inversion Hin|done|].
  intros st Hs. split; [by apply Hst|]. intros sid e Hin. unfold stored_keys. rewrite Hs.
  apply list_elem_of_fmap. by exists (sid, e).
Qed.

(** The reason for the key that a run returned. *)
Definition key_reason {W} `{Kem, Kdf} (stored : list (string * bytes)) (key : bytes) (s : hrun W) : Prop :=
  resumed_session stored key s \/
  exists coins ct, let (pk, sk) := oqs_generate_keypair coins in
    _public_key (me s) = Some pk /\ accepted_exchange pk sk ct key (past s) /\ persisted key s.

Lemma run_reason {W} `{PeripheralEnv W, Kem, Kdf} stored own :
  triple (at_p stored own (fun _ => True)) run_peripheral
    (fun key s => _session_key (me s) = Some key /\ key_reason stored key s) (fun _ _ => True).
Proof.
  eapply triple_bind; [apply p_expose|]. intros [pk sk]. apply triple_pure. intros [coins Hk].
  eapply triple_bind; [apply p_await_central|]. intros u.
  eapply triple_bind; [apply p_resume|]. intros [key'|].
  - apply triple_ret. intros t [Hr Hs]. by split; [|left].
  - eapply triple_conseq; [by intros t Ht|apply p_full| |done].
    intros key' t ([ct Ha] & Hp & Ho & Hs). split; [done|]. right. exists coins, ct. by rewrite <- Hk.
Qed.

Lemma run_from_fresh {W} `{PeripheralEnv W, Kem, Kdf} (s : hrun W) key s' :
  fresh (me s) -> run_peripheral s = (Ok key, s') ->
  _session_key (me s') = Some key /\ key_reason (stored_keys (me s)) key s'.
Proof.
  intros Hf Hr. pose proof (run_reason (stored_keys (me s)) (_public_key (me s)) s
    (conj (fresh_pinv _ _ Hf) (conj eq_refl I))) as Ht. by rewrite Hr in Ht.
Qed.

(** C21. The Peripheral needs a reason for a session key. For every Central, every
    order of its writes and of the event loop's tasks, every clock and every
    person: when [PeripheralHandshake.run] returns a key, [session_key] holds it,
    and either it is the key that was stored for a 16-byte session id, which is
    now [session_id], and a well-formed RESUME_REQUEST for this id was written to
    the control characteristic; or it is derived from the decapsulation, with the
    secret key of this run, of a 1088-byte ciphertext whose fragments were all
    written to the ciphertext characteristic, the person accepted the SAS of
    exactly that exchange, and the key was saved under the new [session_id]. *)
Theorem peripheral_run_safe {W} `{PeripheralEnv W, Kem, Kdf} (s : hrun W) key s' :
  fresh (me s) -> run_peripheral s = (Ok key, s') ->
  _session_key (me s') = Some key /\
  (resumed_session (stored_keys (me s)) key s' \/
   exists coins ct, let (pk, sk) := oqs_generate_keypair coins in
     _public_key (me s') = Some pk /\ accepted_exchange pk sk ct key (past s') /\ persisted key s').
Proof. apply run_from_fresh. Qed.

(** * Polling ends *)

Section Polling.
Context {W : Type} `{PeripheralEnv W, Kem, Kdf}.

Lemma wait_loop_enough (time : W -> Z) n fuel deadline (s : hrun W) :
  (forall w, (read Now w).1 = time w /\ time w <= time (read Now w).2) ->
  (forall w, time w + POLL <= time (suspend Sleep w).2) ->
  deadline <= time (pworld s) + Z.of_nat n * POLL -> (S n <= fuel)%nat ->
  wait_loop fuel deadline s = wait_loop (S n) deadline s.
Proof.
  intros Hnow Hwait. revert fuel s. induction n as [|n IH]; intros [|fuel] s Hd Hf; try lia;
    cbn [wait_loop]; unfold read_env, myself, on_me, await_for; meth;
    destruct (Hnow (pworld s)) as [Ht Hm]; destruct (read Now (pworld s)) as [now w]; cbn in Ht, Hm;
    subst now; destruct (Z.ltb_spec (time (pworld s)) deadline); try done; cbn [me past pworld].
  - lia.
  - destruct (_ || _); [done|]. specialize (Hwait w).
    cbn [pworld me past]. destruct (suspend Sleep w) as [[evs [u|x]] w']; [|done]. cbn in Hwait.
    rewrite (IH fuel); [done| |lia]. cbn [pworld].
    rewrite Nat2Z.inj_succ, Z.mul_succ_l in Hd. lia.
Qed.

(** The model's 1201 polls are enough: with a clock that never goes back and
    sleeps of at least 0.1 s, [_wait_for_either_or] has the same outcome with any
    larger number, so it returns or times out as the loop of the source does. *)
Theorem wait_for_either_or_fuel (time : W -> Z) fuel (s : hrun W) :
  (forall w, (read Now w).1 = time w /\ time w <= time (read Now w).2) ->
  (forall w, time w + POLL <= time (suspend Sleep w).2) -> (WAIT_POLLS <= fuel)%nat ->
  _wait_for_either_or fuel WAIT_TIMEOUT s = _wait_for_either_or WAIT_POLLS WAIT_TIMEOUT s.
Proof.
  intros Hnow Hwait Hf. unfold _wait_for_either_or, read_env. meth.
  destruct (Hnow (pworld s)) as [Ht Hm]. destruct (read Now (pworld s)) as [now w]. cbn in Ht, Hm. subst now.
  apply (wait_loop_enough time 1200); [done|done| |exact Hf]. cbn [pworld].
  change (Z.of_nat 1200 * POLL) with WAIT_TIMEOUT. lia.
Qed.
End Polling.

(** * A resumption is counted twice *)

Lemma dict_get_keys {V} k (v : V) d : dict_get k d = Some v -> k ∈ keys d.
Proof. intros Hg%dict_get_elem. apply list_elem_of_fmap. by exists (k, v). Qed.

(** [st'] is [st] with other sessions. *)
Definition same_limits (st st' : SessionStore) : Prop :=
  wf st' /\ _max_age_hours st' = _max_age_hours st /\ _max_uses st' = _max_uses st.

Lemma same_cutoff t st st' : same_limits st st' -> cutoff_of t st' = cutoff_of t st.
Proof. intros (_ & Ha & _). unfold cutoff_of. by rewrite Ha. Qed.

(** The entry after one more use. *)
Definition used_once (max_uses : Z) (e : SessionEntry) : option SessionEntry :=
  if max_uses <=? usage_count e + 1 then None
  else Some (mkSessionEntry (SessionStore.session_key e) (created_at e) (usage_count e + 1)).

Lemma expire_live sid t st e :
  wf st -> dict_get (hex sid) (_sessions st) = Some e -> live (cutoff_of t st) (_max_uses st) e = true ->
  exists st', _expire_invalid t st = (Ok tt, st') /\ same_limits st st' /\
    dict_get (hex sid) (_sessions st') = Some e.
Proof.
  intros Hwf Hg Hl. destruct (expire_invalid_eq t st Hwf) as (st' & E & W & D & _ & A & U & _).
  exists st'. split; [done|]. split; [done|]. rewrite D, dict_get_kept, Hg by done. by rewrite Hl.
Qed.

Lemma load_counts sid t1 t2 st e :
  wf st -> dict_get (hex sid) (_sessions st) = Some e ->
  live (cutoff_of t1 st) (_max_uses st) e = true -> live (cutoff_of t2 st) (_max_uses st) e = true ->
  exists st', load sid true t1 t2 st = (Ok (Some (SessionStore.session_key e)), st') /\ same_limits st st' /\
    dict_get (hex sid) (_sessions st') = used_once (_max_uses st) e.
Proof.
  intros Hwf Hg H1 H2. destruct (expire_live sid t1 st e Hwf Hg H1) as (st1 & E1 & L1 & Hg1).
  pose proof (same_cutoff t2 st st1 L1) as C1. destruct L1 as (W1 & A1 & U1).
  destruct (mark_used_eq sid t2 st1 W1) as (st2 & W2 & E2 & D2 & _ & A2 & U2 & _).
  rewrite Hg1, C1, U1, H2 in E2. rewrite C1, U1 in D2. exists st2. split; [|split].
  - unfold load. meth. by rewrite E1, Hg1, E2.
  - split; [done|]. split; congruence.
  - rewrite D2. cbn zeta. rewrite dict_get_kept, Hg1, H2 by done. unfold counted, used_once. cbn [usage_count].
    destruct (_ <=? _).
    + rewrite dict_get_del, decide_True; [done..|]. by apply NoDup_dict_set, kept_keys_NoDup.
    + by rewrite dict_get_set, decide_True.
Qed.

Lemma load_missing sid t1 t2 st :
  wf st -> dict_get (hex sid) (_sessions st) = None ->
  exists st', load sid true t1 t2 st = (Ok None, st').
Proof.
  intros Hwf Hg. destruct (expire_invalid_eq t1 st Hwf) as (st' & E & W & D & _).
  exists st'. unfold load. meth. rewrite E, D, dict_get_kept, Hg by done. done.
Qed.

Section Counting.
Context {W : Type} `{PeripheralEnv W, Kem, Kdf}.

Lemma handle_resume_found sid t1 t2 t3 (p : PeripheralHandshake) st e :
  _store p = Some st -> wf st -> dict_get (hex sid) (_sessions st) = Some e ->
  (forall t, t ∈ [t1; t2; t3] -> live (cutoff_of t st) (_max_uses st) e = true) ->
  exists st', same_limits st st' /\
    _handle_resume_request sid (t1, t2, t3) Pushed p =
      server_method (notify_data RESUME_OK_NOTIFY Pushed) (set_resume sid (put_store st' p)) /\
    dict_get (hex sid) (_sessions st') = used_once (_max_uses st) e.
Proof.
  intros Hst Hwf Hg Hl.
  destruct (expire_live sid t1 st e Hwf Hg) as (st1 & E1 & L1 & Hg1); [apply Hl; repeat constructor|].
  pose proof (fun t => same_cutoff t st st1 L1) as C1. pose proof L1 as (W1 & A1 & U1).
  destruct (load_counts sid t2 t3 st1 e W1 Hg1) as (st2 & E2 & L2 & Hg2);
    [rewrite C1, U1; apply Hl; repeat constructor..|].
  exists st2. rewrite U1 in Hg2. split; [|split; [|done]].
  - destruct L2 as (W2 & A2 & U2). split; [done|]. split; congruence.
  - unfold _handle_resume_request, store_method, has. meth. rewrite Hst. cbn [fst snd]. rewrite ?Hst.
    rewrite E1, (bool_decide_eq_true_2 (hex sid ∈ _)) by (by eapply dict_get_keys).
    cbn [_store put_store]. by rewrite E2.
Qed.

Lemma resume_branch_eq (s : hrun W) st sid :
  _resume_requested (me s) = true -> _store (me s) = Some st -> _resume_session_id (me s) = Some sid ->
  exists w, resume_branch s =
    let (r, st') := load sid true (read Now (pworld s)).1 (read Now (read Now (pworld s)).2).1 st in
    let p := put_store st' (me s) in
    match r with
    | Ok (Some key) => (Ok (Some key), mkRun w (put_keys (_shared_secret p) (Some key) (Some sid) p) (past s))
    | Ok None => (Ok None, mkRun w p (past s))
    | Err x => (Err x, mkRun w p (past s))
    end.
Proof.
  intros Hr Hst Hsid. unfold resume_branch, myself, on_me, read_env, store_method, change. meth.
  rewrite Hr, Hst, Hsid. cbn [andb negb]. rewrite bool_decide_eq_true_2 by done.
  cbn [pworld me past]. destruct (read Now (pworld s)) as [t1 w1]. cbn [fst snd pworld me past].
  destruct (read Now w1) as [t2 w2]. exists w2. cbn [fst me pworld past]. rewrite ?Hst. destruct (load sid true t1 t2 st) as [[[key|]|x] st']; done.
Qed.

(** A resumption is counted twice, and the last one is accepted and then refused.
    Let a server that is started and holds no ciphertext get a request that names a
    stored session, young enough at the clock values read, and let the stack
    deliver notifications. The handler
    notifies RESUME_OK and counts one use; what [run] does after its
    wait looks the session up again and counts a second one. When the first use was the last that the limit
    allows, the entry is already gone: the Central was told RESUME_OK, and [run]
    ends with "Ciphertext size mismatch". *)
Theorem resumption_counts_twice sid (t1 t2 t3 : Z) p st e pk sk (w : W) t :
  _store p = Some st -> wf st -> dict_get (hex sid) (_sessions st) = Some e ->
  (forall n : Z, n ∈ [t1; t2; t3; (read Now w).1; (read Now (read Now w).2).1] ->
   live (cutoff_of n st) (_max_uses st) e = true) ->
  _server (server p) = true -> PeripheralServer._ciphertext (server p) = [] ->
  let p' := (_handle_resume_request sid (t1, t2, t3) Pushed p).2 in
  let '(r, s') := after_wait pk sk (mkRun w p' t) in
  pushed (server p') = pushed (server p) ++ [RESUME_OK_NOTIFY] /\
  if _max_uses st <=? usage_count e + 1
  then r = Err (RuntimeError "Ciphertext size mismatch")
  else r = Ok (SessionStore.session_key e) /\
    exists st', _store (me s') = Some st' /\
      dict_get (hex sid) (_sessions st') =
        used_once (_max_uses st) (mkSessionEntry (SessionStore.session_key e) (created_at e) (usage_count e + 1)).
Proof.
  intros Hst Hwf Hg Hl Hsrv Hct p'.
  destruct (handle_resume_found sid t1 t2 t3 p st e Hst Hwf Hg) as (st1 & L1 & E1 & Hg1).
  { intros n Hn. apply Hl, (elem_of_app [t1; t2; t3]). by left. }
  pose proof (fun t => same_cutoff t st st1 L1) as C1. pose proof L1 as (W1 & A1 & U1).
  assert (p' = on_server (push RESUME_OK_NOTIFY) (set_resume sid (put_store st1 p))) as ->.
  { unfold p'. etrans; [exact (f_equal snd E1)|]. unfold server_method, notify_data. meth. cbn. by rewrite Hsrv. }
  assert ((_max_uses st <=? usage_count e + 1) = false -> forall n : Z, n ∈ [(read Now w).1; (read Now (read Now w).2).1] ->
    live (cutoff_of n st1) (_max_uses st1)
      (mkSessionEntry (SessionStore.session_key e) (created_at e) (usage_count e + 1)) = true) as Hl1.
  { intros Hlast n Hn. rewrite C1, U1. assert (live (cutoff_of n st) (_max_uses st) e = true) as Hn'.
    { apply Hl, (elem_of_app [t1; t2; t3]). by right. }
    unfold live in *. cbn. lia. }
  set (s1 := mkRun w _ t).
  destruct (resume_branch_eq s1 st1 sid eq_refl eq_refl eq_refl) as (w2 & Hb).
  unfold after_wait. unfold mbind, method_bind. rewrite Hb. cbn [pworld s1] in Hl |- *.
  unfold used_once in Hg1. destruct (_max_uses st <=? usage_count e + 1) eqn:Hlast.
  - destruct (load_missing sid (read Now w).1 (read Now (read Now w).2).1 st1 W1 Hg1) as (st2 & ->).
    cbn. unfold full_branch, myself, on_me. meth. cbn. by rewrite Hct.
  - pose proof (Hl1 eq_refl) as Hl2.
    destruct (load_counts sid (read Now w).1 (read Now (read Now w).2).1 st1 _ W1 Hg1) as (st2 & -> & L2 & Hg2);
      [apply Hl2; repeat constructor..|].
    cbn. split; [done|]. split; [done|]. exists st2. split; [done|]. by rewrite Hg2, U1.
Qed.
End Counting.

(** * Witnesses *)

Module PeripheralDemo.
Import Batches.

(** The ciphertext for the key pair that [Batches] gives, in fragments, arrives
    during the first sleep. *)
Definition ciphertext : bytes :=
  match @encapsulate Toy.kem (@oqs_generate_keypair Toy.kem [x17]).1 [x2a] with
  | Ok (ct, _) => ct
  | Err _ => []
  end.

Definition frames : list bytes := match fragment_data ciphertext 512 with Ok l => l | Err _ => [] end.

Definition first_batch : list gatt_event :=
  ServerStarts :: map WriteCiphertext frames ++ [TaskRuns (0, 0, 0) Pushed].

Definition object (st : option SessionStore) : PeripheralHandshake :=
  PeripheralHandshake_init (BLEPeripheralServer_init DEVICE_NAME) st.

Definition initial (st : option SessionStore) : hrun script := mkRun (mkScript 5000 [first_batch]) (object st) [].

Definition empty_store : SessionStore := mkSessionStore "store.json" 24 100 [] Absent.

Definition outcome (st : option SessionStore) :=
  @run_peripheral script environment Toy.kem Toy.kdf (initial st).

(** A store whose only session may be used once more, and a started server. *)
Definition entry : SessionEntry := mkSessionEntry (zeros 32) 1000 99.
Definition last_store : SessionStore := mkSessionStore "store.json" 24 100 [(hex (zeros 16), entry)] Absent.
Definition started : PeripheralHandshake := on_server (set_server true) (object (Some last_store)).
End PeripheralDemo.

Lemma peripheral_run_safe_witness :
  exists key, (PeripheralDemo.outcome (Some PeripheralDemo.empty_store)).1 = Ok key /\
    _session_key (me (PeripheralDemo.outcome (Some PeripheralDemo.empty_store)).2) = Some key /\
    @key_reason _ Toy.kem Toy.kdf [] key (PeripheralDemo.outcome (Some PeripheralDemo.empty_store)).2.
Proof.
  assert (exists key, (PeripheralDemo.outcome (Some PeripheralDemo.empty_store)).1 = Ok key) as [key Hr].
  { assert (match (PeripheralDemo.outcome (Some PeripheralDemo.empty_store)).1 with Ok _ => true | Err _ => false end = true)
      as Hok by (vm_compute; reflexivity).
    destruct (PeripheralDemo.outcome (Some PeripheralDemo.empty_store)).1 as [key|x]; [|discriminate Hok]. by exists key. }
  exists key.
  assert (fresh (PeripheralDemo.object (Some PeripheralDemo.empty_store))) as Hf.
  { split_and!; [reflexivity..|]. intros st [= <-]. apply NoDup_nil_2. }
  pose proof (fun s' => @peripheral_run_safe _ Batches.environment Toy.kem Toy.kdf
    (PeripheralDemo.initial (Some PeripheralDemo.empty_store)) key s' Hf) as Hs.
  revert Hr Hs. unfold PeripheralDemo.outcome.
  generalize (@run_peripheral _ Batches.environment Toy.kem Toy.kdf (PeripheralDemo.initial (Some PeripheralDemo.empty_store))).
  intros [r s'] Hr Hs. cbn [fst snd] in *. subst r. destruct (Hs s' eq_refl) as [Hk Hw].
  exact (conj eq_refl (conj Hk Hw)).
Defined.

Lemma resumption_counts_twice_witness :
  let p' := (_handle_resume_request (zeros 16) (5000, 5000, 5000) Pushed PeripheralDemo.started).2 in
  let '(r, s') := @after_wait _ Batches.environment Toy.kem Toy.kdf [] [] (mkRun (Batches.mkScript 5000 []) p' []) in
  pushed (server p') = [RESUME_OK_NOTIFY] /\ r = Err (RuntimeError "Ciphertext size mismatch").
Proof.
  assert (wf PeripheralDemo.last_store) as Hwf by apply NoDup_singleton.
  assert (forall n : Z, n ∈ [5000; 5000; 5000; 5000; 5000] ->
    live (cutoff_of n PeripheralDemo.last_store) (_max_uses PeripheralDemo.last_store) PeripheralDemo.entry = true) as Hl.
  { intros n Hn. repeat (apply elem_of_cons in Hn as [->|Hn]; [reflexivity|]). inversion Hn. }
  exact (@resumption_counts_twice _ Batches.environment Toy.kem Toy.kdf (zeros 16) 5000 5000 5000 PeripheralDemo.started
    PeripheralDemo.last_store PeripheralDemo.entry [] [] (Batches.mkScript 5000 []) [] eq_refl Hwf eq_refl Hl eq_refl eq_refl).
Defined.
