(* ===== verification/PeripheralChannel.v ===== *)
(** src/experimental/peripheral/secure_channel.py: [PeripheralSecureChannel], the
    base channel of session.py over the GATT server of [PeripheralServer]. *)

From S2P Require Import Prelude Py Interfaces World BleClient Constants Session Handshake CentralChannel PeripheralServer.
Open Scope Z_scope.

Record PeripheralSecureChannel := mkPeripheralChannel {
  base : SecureChannel;
  _server : BLEPeripheralServer;
  _received_data : list bytes;       (* never used *)
  _receive_queue : list bytes;
}.

Definition PeripheralSecureChannel_init (session_key : bytes) (server : BLEPeripheralServer)
  (session_id : option bytes) : result PeripheralSecureChannel :=
  ch ← SecureChannel_init session_key session_id (Some PERIPHERAL_ROLE);
  mret (mkPeripheralChannel ch server [] []).

Definition set_base (ch : SecureChannel) (c : PeripheralSecureChannel) :=
  mkPeripheralChannel ch (_server c) (_received_data c) (_receive_queue c).
Definition set_bleserver (s : BLEPeripheralServer) (c : PeripheralSecureChannel) :=
  mkPeripheralChannel (base c) s (_received_data c) (_receive_queue c).
Definition set_received_queue (q : list bytes) (c : PeripheralSecureChannel) :=
  mkPeripheralChannel (base c) (_server c) (_received_data c) q.

(** No write handler and no task of the server reaches the channel:
    [on_encrypted_data] is registered nowhere. *)
#[export] Instance deliver_channel : Delivers PeripheralSecureChannel := fun _ c => c.

Section Channel.
Context `{Aead}.

Definition on_encrypted_data (data : bytes) : method PeripheralSecureChannel unit :=
  plaintext ← on_field base set_base (decrypt data MSG_TYPE_DATA);
  update (fun c => set_received_queue (_receive_queue c ++ [plaintext]) c).

Context {W : Type} `{PeripheralEnv W}.

Abbreviation coroutine := (method (prun W PeripheralSecureChannel)).

Definition send (plaintext : bytes) (outcome : push_outcome) : coroutine unit :=
  iv ← read_env (Urandom GCM_IV_SIZE);
  wire_data ← on_me (on_field base set_base (encrypt plaintext MSG_TYPE_DATA iv));
  on_me (on_field _server set_bleserver (notify_data wire_data outcome)).

(** The loop of [receive], at most [fuel] times. *)
Fixpoint receive_loop (fuel : nat) (deadline : Z) (start_len : nat) : coroutine (option bytes) :=
  match fuel with
  | O => mret None
  | S n =>
      now ← read_env Now;
      if now <? deadline then
        c ← on_me get_self;
        match _receive_queue c with
        | b :: q =>
            if (start_len <? length (_receive_queue c))%nat
            then on_me (update (set_received_queue q));; mret (Some b)
            else await_for Sleep;; receive_loop n deadline start_len
        | [] => await_for Sleep;; receive_loop n deadline start_len
        end
      else mret None
  end.

Definition receive (timeout : Z) : coroutine (option bytes) :=
  c ← on_me get_self;
  match _receive_queue c with
  | b :: q => on_me (update (set_received_queue q));; mret (Some b)
  | [] =>
      now ← read_env Now;
      receive_loop (receive_fuel timeout) (now + timeout) (length (_receive_queue c))
  end.

(** A loop of sends, as in main.py. *)
Definition send_messages (messages : list bytes) : coroutine unit :=
  for_each (fun m => send m Pushed) messages.
End Channel.

(** * From the Peripheral to the Central *)

Section Exchange.
Context {W : Type} `{PeripheralEnv W, AeadLaws}.

(** The two ends of a channel: the same key and session, and no sequence number
    from [s] on was accepted by [r]. *)
Definition paired (s r : SecureChannel) : Prop :=
  _aesgcm r = _aesgcm s /\ Session._session_id r = Session._session_id s /\ _peer_role r = _role s /\
  0 <= _last_recv_seq r + 1 <= _send_seq s.

Lemma paired_step s r : paired s r -> paired (after_send s) (after_recv (_send_seq s) r).
Proof. intros (? & ? & ? & ?). unfold paired. cbn. split_and!; [done..|lia|lia]. Qed.

Lemma decrypt_sent s r pt iv :
  paired s r -> _send_seq s < 2 ^ 64 -> blen iv = GCM_IV_SIZE ->
  exists wire, encrypt pt MSG_TYPE_DATA iv s = (Ok wire, after_send s) /\
    decrypt wire MSG_TYPE_DATA r = (Ok pt, after_recv (_send_seq s) r).
Proof.
  unfold GCM_IV_SIZE. intros (Hk & Hsid & Hrole & Hl) Hseq Hiv. eexists.
  split; [apply encrypt_eq; lia|].
  rewrite decrypt_wire; [|lia|done|done|pose proof (blen_nonneg pt); rewrite aes_gcm_size; lia].
  rewrite bool_decide_eq_true_2 by done. cbn [negb]. rewrite (proj2 (Z.leb_gt _ _)) by lia.
  by rewrite Hk, Hsid, Hrole, aes_gcm_roundtrip.
Qed.

Lemma send_ok m (s : prun W PeripheralSecureChannel) iv w wire ch :
  read (Urandom GCM_IV_SIZE) (pworld s) = (iv, w) ->
  encrypt m MSG_TYPE_DATA iv (base (me s)) = (Ok wire, ch) ->
  PeripheralServer._server (_server (me s)) = true ->
  send m Pushed s =
    (Ok tt, mkRun w (set_bleserver (push wire (_server (me s))) (set_base ch (me s))) (past s)).
Proof.
  intros Hr He Hs. unfold send, read_env, on_me, notify_data. meth. rewrite Hr. cbn [me pworld past].
  rewrite He. cbn [me pworld past _server set_base]. by rewrite Hs.
Qed.

(** The Central's handler, on one notification after the other. *)
Definition notify_all (wires : list bytes) (l : CentralSecureChannel) : CentralSecureChannel :=
  fold_left (fun l w => _notification_handler w l) wires l.

(** C25. What the Peripheral sends arrives. Between a [PeripheralSecureChannel] and
    a [CentralSecureChannel] with the same key and session id, with a started server
    and a stack that takes each notification, while sequence numbers fit in 8
    bytes: for any messages, each [send] succeeds and hands one
    notification to the Bluetooth stack, and when the Central's handler gets them
    in order it queues exactly these messages. *)
Theorem peripheral_messages_arrive messages (s : prun W PeripheralSecureChannel) (l : CentralSecureChannel) :
  paired (base (me s)) (CentralChannel.base l) -> decrypt_notifications l = true ->
  _send_seq (base (me s)) + Z.of_nat (length messages) <= 2 ^ 64 ->
  PeripheralServer._server (_server (me s)) = true ->
  (forall w, blen (read (Urandom GCM_IV_SIZE) w).1 = GCM_IV_SIZE) ->
  exists wires, let '(r, s') := send_messages messages s in
    r = Ok tt /\ pushed (_server (me s')) = pushed (_server (me s)) ++ wires /\
    length wires = length messages /\
    CentralChannel._receive_queue (notify_all wires l) = CentralChannel._receive_queue l ++ messages.
Proof.
  intros Hp Hd Hn Hsrv Hiv. unfold send_messages. revert s l Hp Hd Hn Hsrv.
  induction messages as [|m ms IH]; intros s l Hp Hd Hn Hsrv.
  { exists []. cbn. by rewrite !app_nil_r. }
  cbn [for_each length] in *.
  specialize (Hiv (pworld s)) as Hiv1.
  destruct (read (Urandom GCM_IV_SIZE) (pworld s)) as [iv w] eqn:Hr. cbn [fst] in Hiv1.
  destruct (decrypt_sent (base (me s)) (CentralChannel.base l) m iv) as (wire & He & Hdec); [done|lia|done|].
  unfold mbind at 1, method_bind at 1. rewrite (send_ok m s iv w wire _ Hr He Hsrv).
  set (s1 := mkRun w _ (past s)). set (l1 := _notification_handler wire l).
  assert (l1 = mkCentralChannel (after_recv (_send_seq (base (me s))) (CentralChannel.base l))
    (CentralChannel._receive_queue l ++ [m]) true) as Hl1.
  { unfold l1, _notification_handler. by rewrite Hd, Hdec. }
  destruct (IH s1 l1) as (wires & Hs).
  - rewrite Hl1. by apply paired_step.
  - by rewrite Hl1.
  - unfold s1. cbn. lia.
  - done.
  - exists (wire :: wires). destruct (for_each _ ms s1) as [r s']. destruct Hs as (-> & Hpu & Hlen & Hq).
    split; [done|]. rewrite Hpu. split; [unfold s1; cbn; by rewrite <- app_assoc|]. split; [cbn; lia|].
    change (notify_all (wire :: wires) l) with (notify_all wires l1). rewrite Hq, Hl1. cbn.
    by rewrite <- app_assoc.
Qed.
End Exchange.

(** * From the Central to the Peripheral *)

Section Nothing.
Context {W : Type} `{PeripheralEnv W}.

Lemma events_channel evs (c : PeripheralSecureChannel) : fold_left (fun p e => deliver e p) evs c = c.
Proof. by induction evs. Qed.

Lemma receive_loop_nothing fuel deadline n (s : prun W PeripheralSecureChannel) :
  _receive_queue (me s) = [] ->
  match receive_loop fuel deadline n s with
  | (Ok r, s') => r = None /\ me s' = me s
  | (Err _, s') => me s' = me s
  end.
Proof.
  revert s. induction fuel as [|fuel IH]; intros s Hq; cbn [receive_loop]; [done|].
  unfold read_env, on_me, await_for. meth. destruct (read Now (pworld s)) as [now w].
  destruct (now <? deadline); cbn [me pworld past]; [|done]. rewrite Hq. cbn [me pworld past].
  destruct (suspend Sleep w) as [[evs [u|x]] w']; cbn [me past pworld]; rewrite ?events_channel; [|done].
  specialize (IH (mkRun w' (me s) (past s ++ Answered Sleep (Ok u) :: map Event evs)) Hq). exact IH.
Qed.

(** [receive] never returns a message: nothing calls [on_encrypted_data]. *)
Theorem receive_nothing timeout (s : prun W PeripheralSecureChannel) :
  _receive_queue (me s) = [] ->
  forall b s', receive timeout s <> (Ok (Some b), s').
Proof.
  intros Hq b s'. unfold receive, on_me, read_env. meth. rewrite Hq. cbn [me pworld past].
  destruct (read Now (pworld s)) as [now w]. cbn [me pworld past].
  pose proof (receive_loop_nothing (receive_fuel timeout) (now + timeout) (length (@nil bytes))
    (mkRun w (me s) (past s)) Hq) as Hl.
  intros Hr. rewrite Hr in Hl. by destruct Hl.
Qed.
End Nothing.

(** * Witness *)

Module ChannelDemo.
Definition peripheral : prun Batches.script PeripheralSecureChannel :=
  mkRun (Batches.mkScript 0 [])
    match PeripheralSecureChannel_init demo_key (set_server true (BLEPeripheralServer_init DEVICE_NAME)) (Some demo_session) with
    | Ok c => c
    | Err _ => mkPeripheralChannel (mkSecureChannel [] [] [] [] 0 0 0 0) (BLEPeripheralServer_init DEVICE_NAME) [] []
    end [].

Definition central : CentralSecureChannel :=
  match CentralSecureChannel_init demo_key (Some demo_session) with
  | Ok l => l
  | Err _ => mkCentralChannel (mkSecureChannel [] [] [] [] 0 0 0 0) [] true
  end.
End ChannelDemo.

Lemma peripheral_messages_arrive_witness :
  exists wires,
    pushed (_server (me (@send_messages Toy.aead _ Batches.environment [lit "a"; lit "bc"] ChannelDemo.peripheral).2)) = wires /\
    CentralChannel._receive_queue (@notify_all Toy.aead wires ChannelDemo.central) = [lit "a"; lit "bc"].
Proof.
  assert (paired (base (me ChannelDemo.peripheral)) (CentralChannel.base ChannelDemo.central)) as Hp.
  { split_and!; vm_compute; done. }
  assert (_send_seq (base (me ChannelDemo.peripheral)) + Z.of_nat (length [lit "a"; lit "bc"]) <= 2 ^ 64) as Hn
    by (vm_compute; discriminate).
  destruct (@peripheral_messages_arrive _ Batches.environment Toy.aead Toy.aead_laws [lit "a"; lit "bc"]
    ChannelDemo.peripheral ChannelDemo.central Hp eq_refl Hn eq_refl (fun w => eq_refl)) as (wires & Hs).
  exists wires. destruct (send_messages _ _) as [r s']. destruct Hs as (_ & Hpu & _ & Hq).
  split; [exact Hpu|exact Hq].
Defined.
