(* ===== verification/HandshakeAgreement.v ===== *)
(** The two ends of the first protocol version together: [Handshake], the Central
    of src/src/central/handshake.py, and [PeripheralHandshake], the Peripheral of
    src/experimental/peripheral/handshake.py, over a link that may delay, drop,
    repeat and reorder, but only delivers what was sent. *)

From S2P Require Import Prelude Py Digest Dict Interfaces World BleClient Constants Fragmentation Sas Session SessionStore Handshake PeripheralServer PeripheralHandshake.
Open Scope Z_scope.

(** * Fragments of one message do not mix *)

Lemma decode_own data mp w f :
  0 < mp <= 65535 -> frag_count data mp <= 255 ->
  w ∈ map frag_wire (frag_list data mp) -> Fragment_decode w = Ok f ->
  w = frag_wire f /\ f ∈ frag_list data mp.
Proof.
  intros Hmp Hc Hw Hd. apply list_elem_of_fmap in Hw as (g & -> & Hg).
  pose proof (frag_list_ok data mp Hmp Hc) as Hall. rewrite list.Forall_forall in Hall.
  rewrite Fragment_decode_wire in Hd by by apply Hall. by injection Hd as <-.
Qed.

Lemma decode_all_own data mp wires fs :
  0 < mp <= 65535 -> frag_count data mp <= 255 ->
  Forall2 (fun w f => Fragment_decode w = Ok f) wires fs ->
  (forall w, w ∈ wires -> w ∈ map frag_wire (frag_list data mp)) ->
  wires = map frag_wire fs /\ forall f, f ∈ fs -> f ∈ frag_list data mp.
Proof.
  intros Hmp Hc Hdec. induction Hdec as [|w f ws fs Hd _ IH]; intros Hin.
  { split; [done|]. intros f Hf. inversion Hf. }
  destruct (decode_own data mp w f Hmp Hc (Hin w ltac:(by left)) Hd) as [-> Hf].
  destruct IH as [-> Hfs]; [intros x Hx; apply Hin; by right|]. split; [done|].
  intros g [->|Hg]%elem_of_cons; [done|by apply Hfs].
Qed.

(** A list that reassembles and whose elements are all fragments of [data] gives
    [data]. *)
Lemma reassembles_own data mp wires out :
  0 < mp <= 65535 -> frag_count data mp <= 255 ->
  reassembles wires out -> (forall w, w ∈ wires -> w ∈ map frag_wire (frag_list data mp)) -> out = data.
Proof.
  intros Hmp Hc Hr Hin. pose proof Hr as (fs & Hne & Hdec & Hnd & Htot & _).
  destruct (decode_all_own data mp wires fs Hmp Hc Hdec Hin) as [-> Hsub].
  assert (length fs = length (frag_list data mp)) as Hlen.
  { destruct fs as [|f fs]; [done|]. assert (f ∈ f :: fs) as Hf by by left.
    specialize (Htot f Hf). apply Hsub in Hf. unfold frag_list in Hf.
    apply list_elem_of_fmap in Hf as (i & -> & _). cbn [total] in Htot.
    pose proof (length_frag_list data mp ltac:(lia)). lia. }
  assert (fs ≡ₚ frag_list data mp) as Hp.
  { apply submseteq_length_Permutation; [|lia]. apply NoDup_submseteq; [|done].
    by eapply NoDup_fmap_1. }
  assert (reassembles (map frag_wire fs) data) as Hr'.
  { eapply frag_list_reassembles; [exact Hmp|done|]. by rewrite Hp. }
  apply reassemble_data_iff in Hr, Hr'. congruence.
Qed.

(** * What a Central without a store requests *)

Section Central.
Context {W : Type} `{Env W, Kem, Kdf}.
Variable c : link.

Definition no_store (h : host CentralHandshake) (_ : list observed) : Prop := Handshake._store (local h) = None.

#[local] Instance no_store_stable : Stable no_store.
Proof.
  split; [|done]. intros e h t Hn. unfold no_store. rewrite hear_local_handshake. by destruct e.
Qed.

(** The requests of a full handshake, in full: the public key is read once, the
    ciphertext of one encapsulation is written in fragments, and its SAS is
    accepted. *)
Definition full_exchange (key : bytes) (t : list observed) : Prop :=
  exists pk coins ct ss mtu frames,
    let text := format_sas (derive_sas pk ct ss) in
    Did (ReadGatt c CHAR_PUBKEY_UUID) (Ok pk) ∈ t /\ oqs_encap_secret pk coins = Ok (ct, ss) /\
    fragment_data ct (frame_mtu mtu) = Ok frames /\
    ops t = ReadGatt c CHAR_PUBKEY_UUID :: ciphertext_frames c frames ++ [Confirm text] /\
    Did (Confirm text) (Ok true) ∈ t /\ key = derive_session_key ss.

Lemma full_exact :
  triple (at_point no_store c []) _run_full_handshake (fun key s => full_exchange key (trace s)) (fun _ _ => True).
Proof.
  eapply triple_bind.
  { eapply triple_conseq; [by intros s Hs|apply (triple_read_public_key no_store c []), _|by intros pk s Hs; exact Hs|done]. }
  intros pk. apply step_guard; [done|]. intros _. apply (step_query Coins). intros coins.
  apply step_run; [|done]. intros [ct ss] He. cbn beta iota. apply step_guard; [done|]. intros _.
  eapply triple_bind.
  { eapply triple_conseq; [by intros s Hs|apply triple_write_ciphertext, seen_stable, _|by intros n s Hs; exact Hs|done]. }
  intros n. apply triple_ex. intros mtu. apply triple_ex. intros frames.
  apply triple_pure. intros Hf. apply triple_pure. intros _.
  eapply triple_bind.
  { eapply triple_conseq; [by intros s Hs|
      apply (triple_op _ c _ (Confirm (format_sas (derive_sas pk ct ss)))); [apply seen_stable, _|done]|
      by intros b s Hs; exact Hs|done]. }
  intros b. apply step_guard; [done|]. intros ->%negb_false_iff.
  intros s ([[Hn Hread] Hconf] & _ & Ho).
  unfold update_local, get_local, update_own, get_own. meth. cbn [self on_local local set_keys Handshake._store].
  rewrite Hn. cbn. exists pk, coins, ct, ss, mtu, frames. by split_and!.
Qed.

Lemma run_exact (s : io W (host CentralHandshake)) key s' :
  _client (client (self s)) = Some c -> trace s = [] -> Handshake._store (local (self s)) = None ->
  run_handshake s = (Ok key, s') -> full_exchange key (trace s').
Proof.
  intros Hc Ht Hn Hr.
  assert (triple (at_point no_store c []) run_handshake (fun key s => full_exchange key (trace s)) (fun _ _ => True)) as Hrun.
  { eapply triple_bind; [apply triple_is_connected|]. intros b. apply step_guard; [done|]. intros _.
    intros u Hu. pose proof Hu as (Hns & _). unfold get_local, get_own. meth. rewrite Hns.
    by apply full_exact. }
  specialize (Hrun s). rewrite Hr in Hrun. apply Hrun. split_and!; [done..|]. by rewrite Ht.
Qed.
End Central.

(** * Agreement *)

Lemma no_stored_keys p : PeripheralHandshake._store p = None -> stored_keys p = [].
Proof. intros Hs. unfold stored_keys. by rewrite Hs. Qed.

(** One exchange as both ends saw it. The Central: it read [pk], encapsulated to it,
    asked for the fragments of [ct] and then for the comparison of [text], which was
    accepted. The Peripheral: [pk] is of its key pair, [ct] is what its writes
    reassemble to, its private key opens [ct] to the same secret, and the person
    accepted the same [text]. *)
Definition shared_exchange `{Kem, Kdf} (c : link) (pk ct ss : bytes) (text : string)
    (t : list observed) (p : list happened) : Prop :=
  text = format_sas (derive_sas pk ct ss) /\
  (exists coins mtu frames, oqs_encap_secret pk coins = Ok (ct, ss) /\
     fragment_data ct (frame_mtu mtu) = Ok frames /\
     ops t = ReadGatt c CHAR_PUBKEY_UUID :: ciphertext_frames c frames ++ [Confirm text]) /\
  Did (ReadGatt c CHAR_PUBKEY_UUID) (Ok pk) ∈ t /\ Did (Confirm text) (Ok true) ∈ t /\
  (exists coins sk, oqs_generate_keypair coins = (pk, sk) /\ oqs_decap_secret sk ct = Ok ss) /\
  arrived ct p /\ Answered (PromptSas text) (Ok true) ∈ p.

(** C22. Two ends of the first protocol version agree. Let a Central and a
    Peripheral without session stores both return a session key, each against any
    environment. If the public key the Central read is the one the Peripheral made,
    and every value written to the Peripheral's ciphertext characteristic was
    written by the Central, whatever was lost, repeated or reordered, then both
    keys are the session key of the same shared secret, which comes from one
    exchange: the ciphertext the Central encapsulated and wrote in fragments is the
    one the Peripheral reassembled and decapsulated, and both persons accepted the
    same six digits, those of this key, ciphertext and secret. *)
Theorem handshake_ends_agree {Wc Wp} `{Env Wc, PeripheralEnv Wp, KemLaws, Kdf} c
  (central : io Wc (host CentralHandshake)) (peripheral : hrun Wp) kc kp sc sp :
  _client (client (self central)) = Some c -> trace central = [] ->
  Handshake._store (local (self central)) = None ->
  fresh (me peripheral) -> PeripheralHandshake._store (me peripheral) = None ->
  run_handshake central = (Ok kc, sc) -> run_peripheral peripheral = (Ok kp, sp) ->
  (forall pk, Did (ReadGatt c CHAR_PUBKEY_UUID) (Ok pk) ∈ trace sc ->
     PeripheralHandshake._public_key (me sp) = Some pk) ->
  (forall v, Event (WriteCiphertext v) ∈ past sp -> WriteGatt c CHAR_CIPHERTEXT_UUID v ∈ ops (trace sc)) ->
  exists pk ct ss text, kc = derive_session_key ss /\ kp = derive_session_key ss /\
    shared_exchange c pk ct ss text (trace sc) (past sp).
Proof.
  intros Hc Ht Hn Hf Hs Hrc Hrp Hlink Hwrites.
  destruct (run_exact c central kc sc Hc Ht Hn Hrc) as (pk & coins & ct & ss & mtu & frames & Hread & He & Hfr & Hops & Hconf & ->).
  destruct (run_from_fresh peripheral kp sp Hf Hrp) as [_ [(sid & Hin & _)|(kcoins & ct' & Hex)]].
  { rewrite no_stored_keys in Hin by done. inversion Hin. }
  destruct (oqs_generate_keypair kcoins) as [pk' sk] eqn:Hk. destruct Hex as (Hpk & (Ha & Hct & ss' & Hd & _ & Hans & ->) & _).
  rewrite (Hlink pk Hread) in Hpk. injection Hpk as <-.
  destruct (oqs_encap_size pk coins ct ss He) as [Hlen _].
  destruct (frame_mtu_fragments ct mtu) as [Hcount Hwire]; [lia|]. rewrite Hfr in Hwire. injection Hwire as ->.
  pose proof Ha as (wires & Hr & Hw). pose proof (frame_mtu_bounds mtu) as Hb.
  assert (ct' = ct) as ->.
  { eapply reassembles_own; [|exact Hcount|exact Hr|]; [unfold HEADER_SIZE; lia|].
    intros w Hin. apply Hw, Hwrites in Hin. rewrite Hops in Hin.
    apply elem_of_cons in Hin as [Hin|Hin]; [done|]. apply elem_of_app in Hin as [Hin|Hin].
    - apply list_elem_of_fmap in Hin as (v & [= ->] & Hv). exact Hv.
    - apply list_elem_of_singleton in Hin. done. }
  assert (ss' = ss) as ->.
  { pose proof (oqs_correct kcoins coins ct ss) as Hok. rewrite Hk in Hok. specialize (Hok He).
    cbn [snd] in Hok. congruence. }
  exists pk, ct, ss, (format_sas (derive_sas pk ct ss)). split_and!; [done..|].
  split_and!; [done|by eexists _, _, _|done|done|by exists kcoins, sk|done|done].
Qed.

(** * Witness *)

(** The hypotheses on the link, decided on the two traces. *)
Definition read_matches (own : option bytes) (o : observed) : bool :=
  match o with
  | Did a r =>
      match a as a return result (value a) -> bool with
      | ReadGatt _ _ => fun r => match r with Ok pk => bool_decide (own = Some pk) | Err _ => true end
      | _ => fun _ => true
      end r
  | Heard _ => true
  end.

Definition write_matches (c : link) (sent : list action) (o : happened) : bool :=
  match o with
  | Event (WriteCiphertext v) => bool_decide (WriteGatt c CHAR_CIPHERTEXT_UUID v ∈ sent)
  | _ => true
  end.

Lemma forallb_in {A} (f : A -> bool) l x : forallb f l = true -> x ∈ l -> f x = true.
Proof. intros Hf Hx. rewrite forallb_forall in Hf. by apply Hf, list_elem_of_In. Qed.

Module Together.
(** A Central that reads the key of [PeripheralDemo] and encapsulates with the
    coins of its ciphertext. *)
Definition environment : Env unit := {|
  ask q w := match q as q return answer q * unit with
             | IsConnected _ => (true, w)
             | MtuSize _ => (512, w)
             | Urandom n => (zeros n, w)
             | Coins => ([x2a], w)
             | TimerFired | GuardFailed => (false, w)
             | Now => (0, w)
             end;
  await a w := match a as a return list event * result (value a) * unit with
               | ReadGatt _ _ => ([], Ok (@oqs_generate_keypair Toy.kem [x17]).1, w)
               | Confirm _ => ([], Ok true, w)
               | FindByName _ | FindByAddress _ => ([], Ok None, w)
               | InspectPairing => ([], Ok (Pairing.mkPairingState false true "NONE"), w)
               | PairNumericComparison | PairJustWorks => ([], Err (OtherException None), w)
               | Connect _ | Disconnect _ | WriteGatt _ _ _ | StartNotify _ _ | StopNotify _ _ | Wait | Unpair =>
                   ([], Ok tt, w)
               end;
|}.

Definition central : io unit (host CentralHandshake) :=
  mkIo tt (mkHost (mkClient DEVICE_NAME (Some (mkLink 0 false)) None None None None None false) 1
             (CentralHandshake_init None)) [].

Definition central_outcome := @run_handshake unit environment Toy.kem Toy.kdf central.
Definition peripheral_outcome := PeripheralDemo.outcome None.

Definition linked : bool :=
  match central_outcome, peripheral_outcome with
  | (Ok _, sc), (Ok _, sp) =>
      forallb (read_matches (PeripheralHandshake._public_key (me sp))) (trace sc) &&
      forallb (write_matches (mkLink 0 false) (ops (trace sc))) (past sp)
  | _, _ => false
  end.
End Together.

Lemma handshake_ends_agree_witness :
  exists key pk ct ss text, Together.central_outcome.1 = Ok key /\ Together.peripheral_outcome.1 = Ok key /\
    @shared_exchange Toy.kem Toy.kdf (mkLink 0 false) pk ct ss text
      (trace Together.central_outcome.2) (past Together.peripheral_outcome.2).
Proof.
  assert (Together.linked = true) as Hl by (vm_compute; reflexivity).
  assert (fresh (PeripheralDemo.object None)) as Hf by (split_and!; [reflexivity..|discriminate]).
  pose proof (fun kc kp sc sp => @handshake_ends_agree unit Batches.script Together.environment Batches.environment
    Toy.kem Toy.kem_laws Toy.kdf (mkLink 0 false) Together.central (PeripheralDemo.initial None) kc kp sc sp
    eq_refl eq_refl eq_refl Hf eq_refl) as Ha.
  revert Hl Ha. unfold Together.linked, Together.peripheral_outcome, PeripheralDemo.outcome, Together.central_outcome.
  generalize (@run_handshake unit Together.environment Toy.kem Toy.kdf Together.central).
  generalize (@run_peripheral _ Batches.environment Toy.kem Toy.kdf (PeripheralDemo.initial None)).
  intros [[kp|] sp] [[kc|] sc] Hl Ha; try discriminate Hl. cbn [fst snd].
  apply andb_true_iff in Hl as [Hr Hw]. destruct (Ha kc kp sc sp eq_refl eq_refl) as (pk & ct & ss & text & -> & -> & Ht).
  - intros pk Hpk. exact (proj1 (bool_decide_eq_true _) (forallb_in _ _ _ Hr Hpk)).
  - intros v Hv. exact (proj1 (bool_decide_eq_true _) (forallb_in _ _ _ Hw Hv)).
  - exists (@derive_session_key Toy.kdf ss), pk, ct, ss, text. exact (conj eq_refl (conj eq_refl Ht)).
Defined.
