(* ===== verification/Phase5.v ===== *)
(** src/src/common/phase5.py: the authenticated pure-PQ handshake v0.5, its
    transcript, key schedule, SAS, FINISHED values, PQS5 frames and the Central
    state machine; and src/src/common/phase6.py: the directional traffic keys
    and PQS6 frames of v0.6. *)

From S2P Require Import Prelude Py Digest Interfaces Constants Frame Sas.
Open Scope Z_scope.

Record Phase5Keys := mkPhase5Keys {
  application : bytes;
  sas : bytes;
  finished_c : bytes;
  finished_p : bytes;
}.

Record Phase5Frame := mkPhase5Frame { subtype : Z; payload : bytes }.

Inductive Phase5CentralState :=
  | EMPTY
  | WAIT_READY_FOR_SAS
  | WAIT_SAS_CONFIRM
  | WAIT_FINISHED_P
  | AUTHENTICATED
  | WAIT_APPLICATION_DATA
  | COMPLETE
  | ABORTED.

#[global] Instance Phase5CentralState_eq_dec : EqDecision Phase5CentralState.
Proof. solve_decision. Defined.

(** * Transcript and key schedule *)

Definition build_phase5_transcript (session_id public_key ciphertext : bytes) : result bytes :=
  session_id ← _require_size "session_id" session_id SESSION_ID_SIZE;
  public_key ← _require_size "public_key" public_key PK_SIZE;
  ciphertext ← _require_size "ciphertext" ciphertext CT_SIZE;
  fields ← mapM _length_prefixed
    [PHASE5_DOMAIN; CENTRAL_ROLE; PERIPHERAL_ROLE; session_id; public_key; ciphertext];
  mret (concat fields).

Definition compute_phase5_transcript_hash (session_id public_key ciphertext : bytes) : result bytes :=
  t ← build_phase5_transcript session_id public_key ciphertext;
  mret (sha256 t).

Definition derive_phase5_keys `{Kdf} (shared_secret transcript_hash : bytes) : result Phase5Keys :=
  shared_secret ← _require_size "shared_secret" shared_secret SS_SIZE;
  transcript_hash ← _require_size "transcript_hash" transcript_hash TRANSCRIPT_HASH_SIZE;
  let key_block := hkdf_derive PHASE5_KEY_BLOCK_SIZE transcript_hash PHASE5_KDF_INFO shared_secret in
  mret {|
    application := bslice 0 PHASE5_KEY_SIZE key_block;
    sas := bslice PHASE5_KEY_SIZE (2 * PHASE5_KEY_SIZE) key_block;
    finished_c := bslice (2 * PHASE5_KEY_SIZE) (3 * PHASE5_KEY_SIZE) key_block;
    finished_p := bslice (3 * PHASE5_KEY_SIZE) (4 * PHASE5_KEY_SIZE) key_block;
  |}.

Definition compute_phase5_sas (sas_key transcript_hash : bytes) : result Z :=
  sas_key ← _require_size "sas_key" sas_key PHASE5_KEY_SIZE;
  transcript_hash ← _require_size "transcript_hash" transcript_hash TRANSCRIPT_HASH_SIZE;
  let sas_mac := hmac_sha256 sas_key (PHASE5_SAS_LABEL ++ transcript_hash) in
  mret (from_be sas_mac mod SAS_MODULUS).

(** [f"{sas:06d}"] of a non-negative number pads like [zfill]. *)
Definition format_phase5_sas (sas : Z) : result string :=
  raise_if (negb ((0 <=? sas) && (sas <? SAS_MODULUS))) (ValueError "SAS must be in [0, 999999]");;
  mret (zfill SAS_DIGITS (py_str sas)).

Definition _compute_finished (finished_key label transcript_hash : bytes) : result bytes :=
  finished_key ← _require_size "finished_key" finished_key PHASE5_KEY_SIZE;
  transcript_hash ← _require_size "transcript_hash" transcript_hash TRANSCRIPT_HASH_SIZE;
  let r := hmac_sha256 finished_key (label ++ transcript_hash) in
  raise_if (negb (blen r =? FINISHED_SIZE)) (RuntimeError "unexpected HMAC-SHA256 output size");;
  mret r.

Definition compute_finished_c (finished_key transcript_hash : bytes) : result bytes :=
  _compute_finished finished_key PHASE5_FINISHED_C_LABEL transcript_hash.

Definition compute_finished_p (finished_key transcript_hash : bytes) : result bytes :=
  _compute_finished finished_key PHASE5_FINISHED_P_LABEL transcript_hash.

Definition verify_finished (expected received : bytes) : bool :=
  if negb (blen expected =? FINISHED_SIZE) || negb (blen received =? FINISHED_SIZE) then false
  else compare_digest expected received.

(** * Messages *)

Definition build_start5 (session_id : bytes) : result bytes :=
  session_id ← _require_size "session_id" session_id SESSION_ID_SIZE;
  mret (PHASE5_START_MAGIC ++ session_id).

Definition encode_phase5_frame (subtype : Z) (payload : bytes) : result bytes :=
  raise_if (negb ((0 <=? subtype) && (subtype <=? 0xFF)))
    (ValueError "Phase 5 subtype must fit in one byte");;
  raise_if (0xFFFF <? blen payload) (ValueError "Phase 5 payload exceeds the u16 length limit");;
  h ← mk_bytes [PHASE5_FRAME_VERSION; subtype];
  n ← to_bytes 2 (blen payload);
  mret (PHASE5_FRAME_MAGIC ++ h ++ n ++ payload).

Definition parse_phase5_frame (data : bytes) : result Phase5Frame :=
  raise_if (blen data <? PHASE5_FRAME_HEADER_SIZE)
    (ValueError "Phase 5 frame is shorter than its header");;
  raise_if (negb (bool_decide (bto 4 data = PHASE5_FRAME_MAGIC)))
    (ValueError "invalid Phase 5 frame magic");;
  v ← idx data 4;
  raise_if (negb (v =? PHASE5_FRAME_VERSION)) (ValueError "unsupported Phase 5 frame version");;
  let payload_len := from_be (bslice 6 8 data) in
  raise_if (negb (blen data =? PHASE5_FRAME_HEADER_SIZE + payload_len))
    (ValueError "Phase 5 frame payload length mismatch");;
  s ← idx data 5;
  mret (mkPhase5Frame s (bfrom 8 data)).

(** * The Central state machine: its only field is [state] *)

Definition Phase5CentralStateMachine : Type := Phase5CentralState.

Definition _require (expected : Phase5CentralState) : method Phase5CentralStateMachine unit :=
  self ← get_self;
  raise_when (negb (bool_decide (self = expected)))
    (Phase5StateError "Phase 5 event invalid in this state").

Definition goto (st : Phase5CentralState) : method Phase5CentralStateMachine unit :=
  update (fun _ => st).

Definition start (session_id : bytes) : method Phase5CentralStateMachine bytes :=
  _require EMPTY;;
  goto WAIT_READY_FOR_SAS;;
  run (build_start5 session_id).

Definition receive_ready_for_sas (frame : Phase5Frame) : method Phase5CentralStateMachine unit :=
  _require WAIT_READY_FOR_SAS;;
  raise_when (negb (subtype frame =? PHASE5_READY_FOR_SAS) || negb (bool_decide (payload frame = [])))
    (Phase5StateError "expected empty READY_FOR_SAS frame");;
  goto WAIT_SAS_CONFIRM.

Definition reject_sas : method Phase5CentralStateMachine unit :=
  _require WAIT_SAS_CONFIRM;;
  goto ABORTED.

Definition confirm_sas (finished_c : bytes) : method Phase5CentralStateMachine bytes :=
  _require WAIT_SAS_CONFIRM;;
  finished_c ← run (_require_size "FINISHED_C" finished_c FINISHED_SIZE);
  goto WAIT_FINISHED_P;;
  run (encode_phase5_frame PHASE5_FINISHED_C finished_c).

Definition receive_finished_p (frame : Phase5Frame) (expected_finished_p : bytes)
  : method Phase5CentralStateMachine unit :=
  _require WAIT_FINISHED_P;;
  raise_when (subtype frame =? PHASE5_ERROR) (Phase5StateError "Peripheral Phase 5 error");;
  raise_when (negb (subtype frame =? PHASE5_FINISHED_P)) (Phase5StateError "expected FINISHED_P frame");;
  (if negb (verify_finished expected_finished_p (payload frame)) then
     goto ABORTED;;
     raise (Phase5StateError "Peripheral FINISHED verification failed")
   else mret tt);;
  goto AUTHENTICATED.

Definition request_application_data : method Phase5CentralStateMachine bytes :=
  _require AUTHENTICATED;;
  goto WAIT_APPLICATION_DATA;;
  run (encode_phase5_frame PHASE5_DATA_REQUEST []).

Definition complete_application_data : method Phase5CentralStateMachine unit :=
  _require WAIT_APPLICATION_DATA;;
  goto COMPLETE.

(** * Phase 6 *)

Definition PHASE6_TRAFFIC_KEY_SIZE : Z := 32.
Definition PHASE6_C2P_LABEL : bytes := lit "PQ-BLE-TRAFFIC-v0.6/CENTRAL-TO-PERIPHERAL".
Definition PHASE6_P2C_LABEL : bytes := lit "PQ-BLE-TRAFFIC-v0.6/PERIPHERAL-TO-CENTRAL".
Definition PHASE6_FRAME_MAGIC : bytes := lit "PQS6".
Definition PHASE6_FRAME_VERSION : Z := 0x06.
Definition PHASE6_FRAME_HEADER_SIZE : Z := 8.
Definition PHASE6_C2P_ACK : Z := 0x01.
Definition PHASE6_ERROR : Z := 0x7F.
Definition PHASE6_STATUS_INVALID_PROTOCOL_STATE : Z := 0x04.
Definition PHASE6_STATUS_AUTHENTICATION_FAILURE : Z := 0x06.

Record Phase6TrafficKeys := mkPhase6TrafficKeys {
  central_to_peripheral : bytes;
  peripheral_to_central : bytes;
}.

Record Phase6Frame := mkPhase6Frame { p6_subtype : Z; p6_payload : bytes }.

Definition derive_phase6_traffic_keys (application_root_key : bytes) : result Phase6TrafficKeys :=
  raise_if (negb (blen application_root_key =? PHASE6_TRAFFIC_KEY_SIZE))
    (ValueError "application root key must be exactly 32 bytes");;
  mret {|
    central_to_peripheral := hmac_sha256 application_root_key PHASE6_C2P_LABEL;
    peripheral_to_central := hmac_sha256 application_root_key PHASE6_P2C_LABEL;
  |}.

Definition encode_phase6_frame (subtype : Z) (payload : bytes) : result bytes :=
  raise_if (negb ((0 <=? subtype) && (subtype <=? 0xFF)))
    (ValueError "Phase 6 subtype must fit in one byte");;
  raise_if (0xFFFF <? blen payload) (ValueError "Phase 6 payload is too large");;
  h ← mk_bytes [PHASE6_FRAME_VERSION; subtype];
  n ← to_bytes 2 (blen payload);
  mret (PHASE6_FRAME_MAGIC ++ h ++ n ++ payload).

Definition parse_phase6_frame (frame : bytes) : result Phase6Frame :=
  raise_if (blen frame <? PHASE6_FRAME_HEADER_SIZE) (ValueError "Phase 6 frame is too short");;
  raise_if (negb (bool_decide (bto 4 frame = PHASE6_FRAME_MAGIC)))
    (ValueError "Invalid Phase 6 frame magic");;
  v ← idx frame 4;
  raise_if (negb (v =? PHASE6_FRAME_VERSION)) (ValueError "Unsupported Phase 6 frame version");;
  let declared_len := from_be (bslice 6 8 frame) in
  raise_if (negb (blen frame =? PHASE6_FRAME_HEADER_SIZE + declared_len))
    (ValueError "Phase 6 frame length mismatch");;
  s ← idx frame 5;
  mret (mkPhase6Frame s (bfrom PHASE6_FRAME_HEADER_SIZE frame)).

(** * Frames *)

Lemma encode_phase5_Ok s p w :
  encode_phase5_frame s p = Ok w <->
  0 <= s < 256 /\ blen p < 65536 /\ w = frame_wire PHASE5_FRAME_MAGIC PHASE5_FRAME_VERSION s p.
Proof.
  unfold encode_phase5_frame. pose proof (blen_nonneg p). split.
  - intros H0. ok_inv. rewrite mk_bytes_2 in Hok1 by (apply is_byte_range; (done || lia)).
    rewrite to_bytes_Ok in Hok2 by (change (256 ^ Z.of_nat 2) with 65536; lia).
    simplify_eq. split_and!; [lia..|done].
  - intros (Hs & Hp & ->). pass; [lia|]. pass; [lia|].
    rewrite mk_bytes_2 by (apply is_byte_range; (done || lia)). cbn [mbind result_bind].
    by rewrite to_bytes_Ok by (change (256 ^ Z.of_nat 2) with 65536; lia).
Qed.

Lemma encode_phase6_Ok s p w :
  encode_phase6_frame s p = Ok w <->
  0 <= s < 256 /\ blen p < 65536 /\ w = frame_wire PHASE6_FRAME_MAGIC PHASE6_FRAME_VERSION s p.
Proof.
  unfold encode_phase6_frame. pose proof (blen_nonneg p). split.
  - intros H0. ok_inv. rewrite mk_bytes_2 in Hok1 by (apply is_byte_range; (done || lia)).
    rewrite to_bytes_Ok in Hok2 by (change (256 ^ Z.of_nat 2) with 65536; lia).
    simplify_eq. split_and!; [lia..|done].
  - intros (Hs & Hp & ->). pass; [lia|]. pass; [lia|].
    rewrite mk_bytes_2 by (apply is_byte_range; (done || lia)). cbn [mbind result_bind].
    by rewrite to_bytes_Ok by (change (256 ^ Z.of_nat 2) with 65536; lia).
Qed.

Lemma parse_phase5_reference data f :
  parse_phase5_frame data = Ok f <->
  parse_reference PHASE5_FRAME_MAGIC PHASE5_FRAME_VERSION data = Some (subtype f, payload f).
Proof.
  unfold parse_phase5_frame, PHASE5_FRAME_HEADER_SIZE, PHASE5_FRAME_VERSION. split.
  - intros H. ok_inv. apply negb_false_iff, bool_decide_eq_true in Hok0.
    apply negb_false_iff, Z.eqb_eq in Hok2, Hok3. simplify_eq.
    by apply parse_reference_intro.
  - intros (Hs & Hp & ->)%parse_reference_Some; [|done]. autorewrite with frame.
    pose proof (blen_nonneg (payload f)). pass; [lia|].
    rewrite bool_decide_eq_true_2 by done. cbn [negb raise_if mbind result_bind].
    pass; [lia|]. pass; [lia|]. by destruct f.
Qed.

Lemma parse_phase6_reference data f :
  parse_phase6_frame data = Ok f <->
  parse_reference PHASE6_FRAME_MAGIC PHASE6_FRAME_VERSION data = Some (p6_subtype f, p6_payload f).
Proof.
  unfold parse_phase6_frame, PHASE6_FRAME_HEADER_SIZE, PHASE6_FRAME_VERSION. split.
  - intros H. ok_inv. apply negb_false_iff, bool_decide_eq_true in Hok0.
    apply negb_false_iff, Z.eqb_eq in Hok2, Hok3. simplify_eq.
    by apply parse_reference_intro.
  - intros (Hs & Hp & ->)%parse_reference_Some; [|done]. autorewrite with frame.
    pose proof (blen_nonneg (p6_payload f)). pass; [lia|].
    rewrite bool_decide_eq_true_2 by done. cbn [negb raise_if mbind result_bind].
    pass; [lia|]. pass; [lia|]. by destruct f.
Qed.

(** The strict PQS5 parser inverts the encoder on every subtype and payload
    that fits, accepts nothing else, and never confuses a PQS6 frame with a PQS5
    frame; the PQS6 pair has the same property. *)
Theorem pqs5_pqs6_frames_exact data :
  (forall f, parse_phase5_frame data = Ok f <-> encode_phase5_frame (subtype f) (payload f) = Ok data) /\
  (forall f, parse_phase6_frame data = Ok f <-> encode_phase6_frame (p6_subtype f) (p6_payload f) = Ok data) /\
  (forall f g, ~ (parse_phase5_frame data = Ok f /\ parse_phase6_frame data = Ok g)).
Proof.
  assert (forall f, parse_phase5_frame data = Ok f <-> encode_phase5_frame (subtype f) (payload f) = Ok data) as H5.
  { intros f. rewrite parse_phase5_reference, encode_phase5_Ok. split.
    - by apply parse_reference_Some.
    - intros (? & ? & ->). by apply parse_reference_wire. }
  split_and!; [exact H5| |].
  - intros f. rewrite parse_phase6_reference, encode_phase6_Ok. split.
    + by apply parse_reference_Some.
    + intros (? & ? & ->). by apply parse_reference_wire.
  - intros f g [(_ & _ & H1)%H5%encode_phase5_Ok H2].
    apply parse_phase6_reference, parse_reference_Some in H2 as (_ & _ & H2); [|done].
    rewrite H1 in H2. apply (f_equal (bto 4)) in H2.
    by rewrite !frame_wire_magic in H2 by done.
Qed.

(** * Transcript and keys *)

Definition phase5_fields (session_id public_key ciphertext : bytes) : list bytes :=
  [PHASE5_DOMAIN; CENTRAL_ROLE; PERIPHERAL_ROLE; session_id; public_key; ciphertext].

Lemma build_phase5_transcript_Ok sid pk ct t :
  build_phase5_transcript sid pk ct = Ok t <->
  blen sid = SESSION_ID_SIZE /\ blen pk = PK_SIZE /\ blen ct = CT_SIZE /\
  t = concat (map lp_wire (phase5_fields sid pk ct)).
Proof.
  unfold build_phase5_transcript.
  assert (blen sid = SESSION_ID_SIZE -> blen pk = PK_SIZE -> blen ct = CT_SIZE ->
    mapM _length_prefixed (phase5_fields sid pk ct) =
    Ok (map lp_wire (phase5_fields sid pk ct))) as Hm.
  { unfold SESSION_ID_SIZE, PK_SIZE, CT_SIZE. intros H1 H2 H3. apply mapM_Ok_map.
    intros x Hx. apply length_prefixed_eq. unfold phase5_fields in Hx.
    rewrite !elem_of_cons in Hx.
    destruct Hx as [->|[->|[->|[->|[->|[->|Hx]]]]]]; try (reflexivity || lia). inversion Hx. }
  split.
  - intros H. ok_inv. apply require_size_Ok in Hok as [H1 ->], Hok0 as [H2 ->], Hok1 as [H3 ->].
    change (mapM _length_prefixed (phase5_fields sid pk ct) = Ok a2) in Hok2.
    rewrite Hm in Hok2 by done. simplify_eq. done.
  - intros (H1 & H2 & H3 & ->). rewrite !require_size_eq by done. cbn [mbind result_bind].
    change [PHASE5_DOMAIN; CENTRAL_ROLE; PERIPHERAL_ROLE; sid; pk; ct] with (phase5_fields sid pk ct).
    by rewrite Hm.
Qed.

(** The canonical v0.5 transcript is injective: two runs hash the same
    bytes only when they agree on the session id, the public key and the
    ciphertext. It exists exactly for fields of the protocol's sizes and is
    2323 bytes long. *)
Theorem phase5_transcript_injective sid pk ct t :
  build_phase5_transcript sid pk ct = Ok t ->
  blen t = 2323 /\
  forall sid' pk' ct', build_phase5_transcript sid' pk' ct' = Ok t ->
    sid' = sid /\ pk' = pk /\ ct' = ct.
Proof.
  rewrite build_phase5_transcript_Ok. unfold SESSION_ID_SIZE, PK_SIZE, CT_SIZE.
  intros (H1 & H2 & H3 & ->). split.
  - unfold phase5_fields. cbn [map concat]. bytes_len.
  - intros sid' pk' ct' (H1' & H2' & H3' & He)%build_phase5_transcript_Ok.
    unfold SESSION_ID_SIZE, PK_SIZE, CT_SIZE in *. apply concat_lp_inj in He.
    + unfold phase5_fields in He. by simplify_eq.
    + unfold phase5_fields. repeat constructor; try (reflexivity || lia).
    + unfold phase5_fields. repeat constructor; try (reflexivity || lia).
Qed.

(** The v0.5 key schedule splits the RFC 5869 key block of the transcript
    hash and the shared secret into four disjoint 32-byte keys that cover it; it
    refuses every other input size. *)
Theorem derive_phase5_keys_split `{KdfLaws} ss th k :
  derive_phase5_keys ss th = Ok k <->
  blen ss = 32 /\ blen th = 32 /\
  application k ++ sas k ++ finished_c k ++ finished_p k =
    rfc5869_expand 128 PHASE5_KDF_INFO (hmac_sha256 th ss) /\
  blen (application k) = 32 /\ blen (sas k) = 32 /\
  blen (finished_c k) = 32 /\ blen (finished_p k) = 32.
Proof.
  unfold derive_phase5_keys, SS_SIZE, TRANSCRIPT_HASH_SIZE.
  change PHASE5_KEY_BLOCK_SIZE with 128. unfold PHASE5_KEY_SIZE.
  pose proof (hkdf_derive_rfc5869 128 th PHASE5_KDF_INFO ss) as Hd.
  set (kb := rfc5869_expand _ _ _) in *.
  assert (blen kb = 128) as Hkb by (by apply blen_rfc5869_expand). split.
  - intros Hk. ok_inv. apply require_size_Ok in Hok as [H1 ->], Hok0 as [H2 ->]. subst k.
    rewrite Hd. cbn [application sas finished_c finished_p]. split_and!; [done..| | | | |].
    + change (2 * 32) with 64. change (3 * 32) with 96. change (4 * 32) with 128.
      symmetry. by apply key_block_split.
    + rewrite blen_bslice by lia. lia.
    + rewrite blen_bslice by lia. lia.
    + rewrite blen_bslice by lia. lia.
    + rewrite blen_bslice by lia. lia.
  - intros (H1 & H2 & Hcat & Ha & Hs & Hc & Hp).
    rewrite !require_size_eq by done. cbn [mbind result_bind mret result_ret]. rewrite Hd.
    change (2 * 32) with 64. change (3 * 32) with 96. change (4 * 32) with 128.
    destruct (key_block_parts _ _ _ _ _ Hcat) as (-> & -> & -> & ->); [done..|]. by destruct k.
Qed.

Lemma compute_phase5_sas_range key th v :
  compute_phase5_sas key th = Ok v -> 0 <= v < 1000000.
Proof.
  unfold compute_phase5_sas. intros H. ok_inv. subst v.
  apply (sas_modulus_range (from_be (hmac_sha256 a (PHASE5_SAS_LABEL ++ a0)))).
Qed.

(** A SAS that [compute_phase5_sas] returns is always displayable: six
    characters that read back as the value, hence distinct for distinct values;
    [format_phase5_sas] refuses everything outside the range. *)
Theorem phase5_sas_display_exact :
  (forall key th v, compute_phase5_sas key th = Ok v ->
     exists shown, format_phase5_sas v = Ok shown /\
       String.length shown = 6%nat /\ dec_value 0 shown = v) /\
  (forall v, ~ (0 <= v < 1000000) ->
     format_phase5_sas v = Err (ValueError "SAS must be in [0, 999999]")).
Proof.
  unfold format_phase5_sas. change SAS_MODULUS with 1000000. split.
  - intros key th v Hr%compute_phase5_sas_range. eexists.
    rewrite raise_if_false by lia. split; [done|]. apply zfill_six_exact. exact Hr.
  - intros v Hv. by rewrite raise_if_true by lia.
Qed.

(** The two v0.6 traffic keys come from labels that differ, so a peer that
    derives a direction's key from the same root computes the same 32 bytes, and
    the two HMAC inputs are never equal; a root of another size is refused. *)
Theorem phase6_traffic_keys_separated root :
  PHASE6_C2P_LABEL <> PHASE6_P2C_LABEL /\
  (blen root = 32 -> exists k, derive_phase6_traffic_keys root = Ok k /\
     central_to_peripheral k = hmac_sha256 root PHASE6_C2P_LABEL /\
     peripheral_to_central k = hmac_sha256 root PHASE6_P2C_LABEL /\
     blen (central_to_peripheral k) = 32 /\ blen (peripheral_to_central k) = 32) /\
  (blen root <> 32 -> derive_phase6_traffic_keys root =
     Err (ValueError "application root key must be exactly 32 bytes")).
Proof.
  unfold derive_phase6_traffic_keys, PHASE6_TRAFFIC_KEY_SIZE. split_and!.
  - vm_compute. congruence.
  - intros Hr. eexists. rewrite raise_if_false by lia. split; [done|].
    cbn [central_to_peripheral peripheral_to_central]. by rewrite !blen_hmac_sha256.
  - intros Hr. by rewrite raise_if_true by lia.
Qed.

(** * The state machine under any sequence of events *)

Inductive p5_event :=
  | EvStart (session_id : bytes)
  | EvReady (frame : Phase5Frame)
  | EvReject
  | EvConfirm (finished_c : bytes)
  | EvFinishedP (frame : Phase5Frame) (expected : bytes)
  | EvRequest
  | EvComplete.

(** What the event sends, if it sends anything. *)
Definition p5_apply (e : p5_event) : method Phase5CentralStateMachine (option bytes) :=
  match e with
  | EvStart sid => w ← start sid; mret (Some w)
  | EvReady f => receive_ready_for_sas f;; mret None
  | EvReject => reject_sas;; mret None
  | EvConfirm fc => w ← confirm_sas fc; mret (Some w)
  | EvFinishedP f expected => receive_finished_p f expected;; mret None
  | EvRequest => w ← request_application_data; mret (Some w)
  | EvComplete => complete_application_data;; mret None
  end.

Fixpoint p5_run (es : list p5_event) (st : Phase5CentralState) : Phase5CentralState :=
  match es with [] => st | e :: r => p5_run r (p5_apply e st).2 end.

(** The abstract automaton: the protocol order of the successful events. *)
Inductive p5_step : Phase5CentralState -> p5_event -> Phase5CentralState -> Prop :=
  | step_start sid : blen sid = 16 -> p5_step EMPTY (EvStart sid) WAIT_READY_FOR_SAS
  | step_ready f : subtype f = PHASE5_READY_FOR_SAS -> payload f = [] ->
      p5_step WAIT_READY_FOR_SAS (EvReady f) WAIT_SAS_CONFIRM
  | step_reject : p5_step WAIT_SAS_CONFIRM EvReject ABORTED
  | step_confirm fc : blen fc = 32 -> p5_step WAIT_SAS_CONFIRM (EvConfirm fc) WAIT_FINISHED_P
  | step_finished f expected :
      subtype f = PHASE5_FINISHED_P -> blen expected = 32 -> payload f = expected ->
      p5_step WAIT_FINISHED_P (EvFinishedP f expected) AUTHENTICATED
  | step_request : p5_step AUTHENTICATED EvRequest WAIT_APPLICATION_DATA
  | step_complete : p5_step WAIT_APPLICATION_DATA EvComplete COMPLETE.

Lemma verify_finished_true e r :
  verify_finished e r = true <-> blen e = 32 /\ r = e.
Proof.
  unfold verify_finished, FINISHED_SIZE, compare_digest.
  destruct (negb (blen e =? 32) || negb (blen r =? 32)) eqn:Hb.
  - split; [done|]. intros [H1 ->]. lia.
  - rewrite bool_decide_eq_true. split; [intros ->; split; [lia|done]|by intros [_ ->]].
Qed.

Lemma require_eq expected st :
  _require expected st =
  if bool_decide (st = expected) then (Ok tt, st)
  else (Err (Phase5StateError "Phase 5 event invalid in this state"), st).
Proof. unfold _require. meth. by destruct (bool_decide _). Qed.

(** The state in which an event is enabled. *)
Definition p5_enabled (e : p5_event) : Phase5CentralState :=
  match e with
  | EvStart _ => EMPTY
  | EvReady _ => WAIT_READY_FOR_SAS
  | EvReject | EvConfirm _ => WAIT_SAS_CONFIRM
  | EvFinishedP _ _ => WAIT_FINISHED_P
  | EvRequest => AUTHENTICATED
  | EvComplete => WAIT_APPLICATION_DATA
  end.

Ltac p5_open :=
  cbn [p5_apply p5_enabled]; unfold start, receive_ready_for_sas, reject_sas, confirm_sas,
    receive_finished_p, request_application_data, complete_application_data, goto; meth;
  rewrite ?require_eq.

Lemma p5_refused e st :
  st <> p5_enabled e ->
  p5_apply e st = (Err (Phase5StateError "Phase 5 event invalid in this state"), st).
Proof. destruct e; p5_open; intros Hst; by rewrite bool_decide_eq_false_2. Qed.

Lemma p5_step_enabled st e st' : p5_step st e st' -> st = p5_enabled e.
Proof. by inversion 1. Qed.

Lemma p5_start sid :
  p5_apply (EvStart sid) EMPTY =
  (if blen sid =? 16 then Ok (Some (PHASE5_START_MAGIC ++ sid))
   else Err (ValueError "session_id"), WAIT_READY_FOR_SAS).
Proof.
  p5_open. unfold build_start5. rewrite bool_decide_eq_true_2 by done.
  change SESSION_ID_SIZE with 16. unfold _require_size. by destruct (blen sid =? 16).
Qed.

Lemma p5_confirm fc :
  p5_apply (EvConfirm fc) WAIT_SAS_CONFIRM =
  if blen fc =? 32 then
    (Ok (Some (frame_wire PHASE5_FRAME_MAGIC PHASE5_FRAME_VERSION PHASE5_FINISHED_C fc)), WAIT_FINISHED_P)
  else (Err (ValueError "FINISHED_C"), WAIT_SAS_CONFIRM).
Proof.
  p5_open. rewrite bool_decide_eq_true_2 by done. change FINISHED_SIZE with 32.
  unfold _require_size. destruct (Z.eqb_spec (blen fc) 32) as [Hl|]; [|done].
  cbn [negb raise_if mbind result_bind mret result_ret].
  by rewrite (proj2 (encode_phase5_Ok PHASE5_FINISHED_C fc _)) by (split_and!; [done|done|lia|done]).
Qed.

Lemma p5_finished f expected :
  p5_apply (EvFinishedP f expected) WAIT_FINISHED_P =
  if subtype f =? PHASE5_ERROR then (Err (Phase5StateError "Peripheral Phase 5 error"), WAIT_FINISHED_P)
  else if subtype f =? PHASE5_FINISHED_P then
    if verify_finished expected (payload f) then (Ok None, AUTHENTICATED)
    else (Err (Phase5StateError "Peripheral FINISHED verification failed"), ABORTED)
  else (Err (Phase5StateError "expected FINISHED_P frame"), WAIT_FINISHED_P).
Proof.
  p5_open. rewrite bool_decide_eq_true_2 by done. cbn [negb raise_if].
  destruct (subtype f =? PHASE5_ERROR); [done|]. destruct (subtype f =? PHASE5_FINISHED_P); [|done].
  by destruct (verify_finished _ _).
Qed.

Lemma p5_ready f :
  p5_apply (EvReady f) WAIT_READY_FOR_SAS =
  if (subtype f =? PHASE5_READY_FOR_SAS) && bool_decide (payload f = []) then (Ok None, WAIT_SAS_CONFIRM)
  else (Err (Phase5StateError "expected empty READY_FOR_SAS frame"), WAIT_READY_FOR_SAS).
Proof.
  p5_open. rewrite bool_decide_eq_true_2 by done.
  by destruct (subtype f =? _), (bool_decide (payload f = [])).
Qed.

Lemma p5_step_iff e st st' :
  (exists out, p5_apply e st = (Ok out, st')) <-> p5_step st e st'.
Proof.
  destruct (decide (st = p5_enabled e)) as [->|Hst]; cycle 1.
  { rewrite p5_refused by done. split; [by intros [? ?]|]. by intros ?%p5_step_enabled. }
  destruct e as [sid|f| |fc|f expected| |]; cbn [p5_enabled];
    rewrite ?p5_start, ?p5_ready, ?p5_confirm, ?p5_finished.
  - destruct (Z.eqb_spec (blen sid) 16); split; [intros [? [= <- <-]]; by constructor|..];
      [inversion 1; eauto|by intros [? ?]|by inversion 1].
  - destruct (Z.eqb_spec (subtype f) PHASE5_READY_FOR_SAS), (bool_decide_reflect (payload f = []));
      (split; [intros [? [= <- <-]]; by constructor|by inversion 1; eauto]).
  - split; [intros [? [= <- <-]]; constructor|inversion 1; by eexists].
  - destruct (Z.eqb_spec (blen fc) 32); split; [intros [? [= <- <-]]; by constructor|..];
      [inversion 1; eauto|by intros [? ?]|by inversion 1].
  - pose proof (verify_finished_true expected (payload f)) as Hv. split.
    + destruct (subtype f =? PHASE5_ERROR), (Z.eqb_spec (subtype f) PHASE5_FINISHED_P),
        (verify_finished _ _); intros [? [= <- <-]]. by constructor; [|apply Hv..].
    + inversion 1 as [| | | |? ? Hs Hl Hp| |]; subst. rewrite Hs. change (_ =? PHASE5_ERROR) with false.
      rewrite Z.eqb_refl. rewrite (proj2 Hv) by done. by eexists.
  - split; [intros [? [= <- <-]]; constructor|inversion 1; by eexists].
  - split; [intros [? [= <- <-]]; constructor|inversion 1; by eexists].
Qed.

(** C28. Refinement: the machine accepts an event exactly when the protocol
    automaton has a step for it, and then moves to the automaton's next state. *)
Theorem phase5_machine_refines e st st' :
  (exists out, p5_apply e st = (Ok out, st')) <-> p5_step st e st'.
Proof. apply p5_step_iff. Qed.

(** The events of a run that the machine accepted, in order. *)
Fixpoint p5_accepted (es : list p5_event) (st : Phase5CentralState) : list p5_event :=
  match es with
  | [] => []
  | e :: r =>
      let '(out, st') := p5_apply e st in
      match out with Ok _ => e :: p5_accepted r st' | Err _ => p5_accepted r st' end
  end.

Lemma p5_failure e st x st' :
  p5_apply e st = (Err x, st') ->
  st' = st \/ st' = ABORTED \/ (st = EMPTY /\ st' = WAIT_READY_FOR_SAS).
Proof.
  destruct (decide (st = p5_enabled e)) as [->|Hst]; [|rewrite p5_refused by done; naive_solver].
  destruct e as [sid|f| |fc|f expected| |]; cbn [p5_enabled];
    rewrite ?p5_start, ?p5_ready, ?p5_confirm, ?p5_finished; try done;
    repeat case_match; naive_solver.
Qed.

(** The accepted events that lead to a state. The start event is missing when
    [start] raised on a session id of the wrong size after it had moved on. *)
Inductive p5_history : Phase5CentralState -> list p5_event -> Prop :=
  | hist_empty : p5_history EMPTY []
  | hist_bad_start : p5_history WAIT_READY_FOR_SAS []
  | hist_aborted l : p5_history ABORTED l
  | hist_step st l e st' : p5_history st l -> p5_step st e st' -> p5_history st' (l ++ [e]).

Lemma p5_accepted_history es st l :
  p5_history st l -> p5_history (p5_run es st) (l ++ p5_accepted es st).
Proof.
  revert st l. induction es as [|e es IH]; intros st l Hl; cbn [p5_run p5_accepted].
  { by rewrite app_nil_r. }
  destruct (p5_apply e st) as [[out|x] st'] eqn:He; cbn [snd].
  - rewrite cons_middle, app_assoc. apply IH. eapply hist_step; [done|].
    apply p5_step_iff. eauto.
  - apply IH. apply p5_failure in He as [->|[->|[-> ->]]]; [done|constructor|].
    inversion Hl as [| | |? ? ? ? ? Hs]; subst; [constructor|]. by inversion Hs.
Qed.

(** C29. Authentication by trace: whatever the order of the calls and frames, a
    machine that started empty is in AUTHENTICATED only after it accepted, in
    this order, an empty READY_FOR_SAS, the user's confirmation (which sends
    FINISHED_C) and a FINISHED_P whose payload is the expected 32-byte value;
    no further event was accepted in between. *)
Theorem phase5_authenticated_trace es :
  p5_run es EMPTY = AUTHENTICATED ->
  exists starts f fc g expected,
    p5_accepted es EMPTY = starts ++ [EvReady f; EvConfirm fc; EvFinishedP g expected] /\
    (starts = [] \/ exists sid, starts = [EvStart sid]) /\
    subtype f = PHASE5_READY_FOR_SAS /\ payload f = [] /\ blen fc = 32 /\
    subtype g = PHASE5_FINISHED_P /\ blen expected = 32 /\ payload g = expected.
Proof.
  intros Hr. pose proof (p5_accepted_history es EMPTY [] hist_empty) as Hh.
  rewrite Hr in Hh. cbn [app] in Hh.
  inversion Hh as [| | |? l3 e3 ? Hh3 Hs3]; inversion Hs3; subst.
  inversion Hh3 as [| | |? l2 e2 ? Hh2 Hs2]; inversion Hs2; subst.
  inversion Hh2 as [| | |? l1 e1 ? Hh1 Hs1]; inversion Hs1; subst.
  rewrite <- !app_assoc. cbn [app]. do 5 eexists. split_and!; [done| |done..].
  inversion Hh1 as [| | |? l0 e0 ? Hh0 Hs0]; subst; [by left|]. inversion Hs0; subst.
  inversion Hh0 as [| | |? ? ? ? ? Hsx]; subst; [eauto|]. inversion Hsx.
Qed.

(** * Witnesses *)

Definition demo_phase5_transcript : bytes :=
  concat (map lp_wire (phase5_fields (zeros 16) (zeros 1184) (zeros 1088))).

Lemma phase5_transcript_injective_witness :
  build_phase5_transcript (zeros 16) (zeros 1184) (zeros 1088) = Ok demo_phase5_transcript /\
  blen demo_phase5_transcript = 2323.
Proof.
  assert (build_phase5_transcript (zeros 16) (zeros 1184) (zeros 1088) = Ok demo_phase5_transcript)
    as Hb by (vm_compute; reflexivity).
  split; [exact Hb|]. exact (proj1 (phase5_transcript_injective _ _ _ _ Hb)).
Defined.

Lemma derive_phase5_keys_split_witness :
  exists k, @derive_phase5_keys Toy.kdf (zeros 32) (zeros 32) = Ok k /\
    blen (application k) = 32 /\ blen (finished_p k) = 32.
Proof.
  destruct (@derive_phase5_keys Toy.kdf (zeros 32) (zeros 32)) as [k|x] eqn:Hk.
  - exists k. split; [reflexivity|].
    destruct (proj1 (@derive_phase5_keys_split Toy.kdf Toy.kdf_laws _ _ _) Hk)
      as (_ & _ & _ & Ha & _ & _ & Hp). exact (conj Ha Hp).
  - exfalso. revert Hk. vm_compute. discriminate.
Defined.

Definition demo_phase5_events : list p5_event :=
  [EvRequest; EvStart (zeros 16); EvReady (mkPhase5Frame PHASE5_READY_FOR_SAS []);
   EvFinishedP (mkPhase5Frame PHASE5_FINISHED_P (zeros 32)) (zeros 32);
   EvConfirm (zeros 32); EvComplete;
   EvFinishedP (mkPhase5Frame PHASE5_FINISHED_P (zeros 32)) (zeros 32)].

Lemma phase5_authenticated_trace_witness :
  p5_run demo_phase5_events EMPTY = AUTHENTICATED /\
  exists starts f fc g expected,
    p5_accepted demo_phase5_events EMPTY = starts ++ [EvReady f; EvConfirm fc; EvFinishedP g expected].
Proof.
  assert (p5_run demo_phase5_events EMPTY = AUTHENTICATED) as Hr by (vm_compute; reflexivity).
  split; [exact Hr|].
  destruct (phase5_authenticated_trace _ Hr) as (i & f & fc & g & e & He & _).
  exists i, f, fc, g, e. exact He.
Defined.

(** * What a step of the machine returned *)

Definition pqs5 (subtype : Z) (payload : bytes) : bytes :=
  frame_wire PHASE5_FRAME_MAGIC PHASE5_FRAME_VERSION subtype payload.

Lemma start_Ok sid w m' :
  start sid EMPTY = (Ok w, m') -> w = PHASE5_START_MAGIC ++ sid /\ m' = WAIT_READY_FOR_SAS.
Proof.
  pose proof (p5_start sid) as Hs. unfold p5_apply, mbind, method_bind, mret, method_ret in Hs.
  intros He. rewrite He in Hs. cbn in Hs. by destruct (blen sid =? 16); simplify_eq.
Qed.

Lemma ready_Ok f u m' :
  receive_ready_for_sas f WAIT_READY_FOR_SAS = (Ok u, m') ->
  subtype f = PHASE5_READY_FOR_SAS /\ payload f = [] /\ m' = WAIT_SAS_CONFIRM.
Proof.
  intros He. assert (p5_step WAIT_READY_FOR_SAS (EvReady f) m') as Hs.
  { apply p5_step_iff. exists None. unfold p5_apply, mbind, method_bind, mret, method_ret. by rewrite He. }
  by inversion Hs.
Qed.

Lemma confirm_Ok fc w m' :
  confirm_sas fc WAIT_SAS_CONFIRM = (Ok w, m') ->
  w = pqs5 PHASE5_FINISHED_C fc /\ m' = WAIT_FINISHED_P.
Proof.
  pose proof (p5_confirm fc) as Hs. unfold p5_apply, mbind, method_bind, mret, method_ret in Hs.
  intros He. rewrite He in Hs. cbn in Hs. by destruct (blen fc =? 32); simplify_eq.
Qed.

Lemma finished_Ok f e u m' :
  receive_finished_p f e WAIT_FINISHED_P = (Ok u, m') ->
  subtype f = PHASE5_FINISHED_P /\ payload f = e /\ m' = AUTHENTICATED.
Proof.
  intros He. assert (p5_step WAIT_FINISHED_P (EvFinishedP f e) m') as Hs.
  { apply p5_step_iff. exists None. unfold p5_apply, mbind, method_bind, mret, method_ret. by rewrite He. }
  by inversion Hs.
Qed.
