(* ===== verification/Phase5Auth.v ===== *)
(** src/src/central/phase5_auth.py: the Central's runner of the authenticated
    pure-PQ handshake v0.5, one coroutine over the BLE client, with its three
    negative-test modes. The variables that its [finally] block wipes are fields
    of [phase5_locals]; the others are bound where the source assigns them. *)

From S2P Require Import Prelude Py Pairing Digest Interfaces World BleClient Runs Constants Frame Sas Session Phase5.
Open Scope Z_scope.

Definition PHASE5_EXPECTED_PLAINTEXT : bytes := lit "PQ-BLE SECURE CHANNEL".
Definition PHASE5_EXPECTED_WIRE_SIZE : Z := blen PHASE5_EXPECTED_PLAINTEXT + SECURE_CHANNEL_OVERHEAD.
Definition PHASE5_NEGATIVE_MODES : list string := ["finished-c"; "finished-p"; "transcript"].

Record Phase5AuthResult := mkPhase5AuthResult { plaintext : bytes; wire_size : Z; shown_sas : string }.

(** The queue and the variables of [run_phase5_auth_pq] that outlive a step. *)
Record phase5_locals := mkLocals {
  notifications : list bytes;
  notify_started : bool;
  machine : Phase5CentralStateMachine;
  shared_secret_buffer : bytes;
  application_key_buffer : bytes;
  finished_c_buffer : bytes;
  expected_finished_p_buffer : bytes;
}.

Definition phase5_start_locals : phase5_locals := mkLocals [] false EMPTY [] [] [] [].

Definition set_notifications (q : list bytes) (l : phase5_locals) : phase5_locals :=
  mkLocals q (notify_started l) (machine l) (shared_secret_buffer l) (application_key_buffer l)
    (finished_c_buffer l) (expected_finished_p_buffer l).

Definition set_started (l : phase5_locals) : phase5_locals :=
  mkLocals (notifications l) true (machine l) (shared_secret_buffer l) (application_key_buffer l)
    (finished_c_buffer l) (expected_finished_p_buffer l).

Definition set_machine (m : Phase5CentralStateMachine) (l : phase5_locals) : phase5_locals :=
  mkLocals (notifications l) (notify_started l) m (shared_secret_buffer l)
    (application_key_buffer l) (finished_c_buffer l) (expected_finished_p_buffer l).

(** The four bytearrays: shared secret, application key, FINISHED_C and the
    expected FINISHED_P. *)
Definition set_buffers (ss app fc fp : bytes) (l : phase5_locals) : phase5_locals :=
  mkLocals (notifications l) (notify_started l) (machine l) ss app fc fp.

(** The notification handler puts the bytes in the queue; this runner shares no
    session object with the client. *)
#[export] Instance phase5_program : Program phase5_locals := {
  clear_object _ l := l;
  on_data _ _ b l := set_notifications (notifications l ++ [b]) l;
}.

Section Runner.
Context {W : Type} `{Env W, Kem, Kdf, Aead}.

Abbreviation coroutine := (method (io W (host phase5_locals))).

Definition get_locals : coroutine phase5_locals := h ← get_own; mret (local h).

Definition update_locals (f : phase5_locals -> phase5_locals) : coroutine unit :=
  update_own (on_local f).

Definition on_machine {A} (m : method Phase5CentralStateMachine A) : coroutine A :=
  call (fun h => machine (local h)) (fun m h => on_local (set_machine m) h) m.

(** [await asyncio.wait_for(notifications.get(), timeout=timeout)]. *)
Definition next_notification : coroutine bytes :=
  perform Wait;;
  l ← get_locals;
  match notifications l with
  | [] => raise AsyncTimeoutError
  | b :: q => update_locals (set_notifications q);; mret b
  end.

Definition _receive (description : string) : coroutine bytes :=
  try_except (fun x => bool_decide (x = AsyncTimeoutError))
    (fun _ => raise (Phase5AuthError description)) next_notification.

Definition _confirm_sas (sas : string) : coroutine bool := perform (Confirm sas).

(** [value[-1] ^= 0x01]. *)
Definition _tamper_finished_copy (value : bytes) : result bytes :=
  raise_if (negb (blen value =? FINISHED_SIZE)) (ValueError "FINISHED value must be exactly 32 bytes");;
  mret (alter (fun x => byte_xor x x01) (Z.to_nat (FINISHED_SIZE - 1)) value).

(** [value[0] ^= 0x01]. *)
Definition _mismatched_local_session_id (session_id : bytes) : result bytes :=
  raise_if (negb (blen session_id =? SESSION_ID_SIZE)) (ValueError "session_id must be exactly 16 bytes");;
  mret (alter (fun x => byte_xor x x01) 0%nat session_id).

Definition _negative_rejection_message (negative_test : option string) : result string :=
  if bool_decide (negative_test = Some "finished-c"%string)
  then Ok "NEGATIVE TEST PASS: tampered FINISHED_C rejected by Peripheral"%string
  else if bool_decide (negative_test = Some "transcript"%string)
  then Ok "NEGATIVE TEST PASS: transcript-bound FINISHED_C rejected by Peripheral"%string
  else Err (ValueError "no Peripheral rejection message for this test").

Definition is_mode (negative_test : option string) (m : string) : bool :=
  bool_decide (negative_test = Some m).

(** Up to the transported ciphertext: the public key, the encapsulation, the
    session id and the key schedule. Returns the session id and the SAS. *)
Definition exchange_keys (negative_test : option string) : coroutine (bytes * string) :=
  start_notify;;
  update_locals set_started;;
  public_key ← read_fragmented_public_key;
  raise_when (negb (blen public_key =? PK_SIZE)) (Phase5AuthError "Public key size mismatch");;
  coins ← query_env Coins;
  encapsulated ← run (encapsulate public_key coins);
  let '(ciphertext, shared_secret) := encapsulated in
  update_locals (set_buffers shared_secret [] [] []);;
  raise_when (negb (blen ciphertext =? CT_SIZE)) (Phase5AuthError "Ciphertext size mismatch");;
  raise_when (negb (blen shared_secret =? SS_SIZE)) (Phase5AuthError "Shared secret size mismatch");;
  urandom ← query_env (Urandom SESSION_ID_SIZE);
  let session_id := generate_session_id (fun _ => urandom) in
  raise_when (negb (blen session_id =? SESSION_ID_SIZE))
    (Phase5AuthError "Invalid generated session_id length");;
  local_transcript_session_id ← (if is_mode negative_test "transcript"
                                 then run (_mismatched_local_session_id session_id)
                                 else mret session_id);
  transcript_hash ← run (compute_phase5_transcript_hash local_transcript_session_id public_key ciphertext);
  keys ← run (derive_phase5_keys shared_secret transcript_hash);
  update_locals (set_buffers (wipe shared_secret) [] [] []);;
  sas_value ← run (compute_phase5_sas (sas keys) transcript_hash);
  sas ← run (format_phase5_sas sas_value);
  update_locals (set_buffers (wipe shared_secret) (application keys) [] []);;
  fc ← run (compute_finished_c (finished_c keys) transcript_hash);
  update_locals (set_buffers (wipe shared_secret) (application keys) fc []);;
  fp ← run (compute_finished_p (finished_p keys) transcript_hash);
  update_locals (set_buffers (wipe shared_secret) (application keys) fc fp);;
  write_fragmented_ciphertext ciphertext;;
  mret (session_id, sas).

(** START5, READY_FOR_SAS and the SAS decision. *)
Definition agree_on_sas (negative_test : option string) (session_id : bytes) (sas : string)
  : coroutine unit :=
  start5 ← on_machine (start session_id);
  send_control start5;;
  raw_ready ← _receive "Timed out waiting for READY_FOR_SAS";
  try_except (fun x => is_value_error x || is_phase5_state_error x)
    (fun _ => raise (Phase5AuthError "Invalid READY_FOR_SAS"))
    (ready ← run (parse_phase5_frame raw_ready);
     raise_when (subtype ready =? PHASE5_ERROR) (Phase5StateError "Peripheral rejected Phase 5 start");;
     on_machine (receive_ready_for_sas ready));;
  confirmed ← _confirm_sas sas;
  if (confirmed : bool) then mret tt
  else
    on_machine reject_sas;;
    raise (if is_mode negative_test "transcript"
           then Phase5NegativeTestPassed "NEGATIVE TEST PASS: transcript mismatch detected by SAS"
           else Phase5AuthError "SAS rejected; FINISHED and application data were not sent").

(** The modes in which the Peripheral must reject FINISHED_C. *)
Definition expects_rejection (negative_test : option string) : bool :=
  is_mode negative_test "finished-c" || is_mode negative_test "transcript".

(** FINISHED_C goes out and the answer of the Peripheral comes back. *)
Definition exchange_finished (negative_test : option string) : coroutine bytes :=
  l ← get_locals;
  finished_c_to_send ← (if is_mode negative_test "finished-c"
                        then run (_tamper_finished_copy (finished_c_buffer l))
                        else mret (finished_c_buffer l));
  finished_c_frame ← on_machine (confirm_sas finished_c_to_send);
  send_control finished_c_frame;;
  update_locals (fun l => set_buffers (shared_secret_buffer l) (application_key_buffer l)
                            (wipe (finished_c_buffer l)) (expected_finished_p_buffer l) l);;
  try_except is_phase5_auth_error
    (fun x => if expects_rejection negative_test
              then m ← run (_negative_rejection_message negative_test);
                   raise (Phase5NegativeTestPassed m)
              else raise x)
    (_receive "Timed out waiting for FINISHED_P").

(** What the Peripheral answered to an invalid FINISHED_C: always raises. *)
Definition judge_rejection (negative_test : option string) (raw_finished_p : bytes)
  : coroutine unit :=
  rejection ← try_except is_value_error
    (fun _ => raise (Phase5NegativeTestFailed
       "NEGATIVE TEST FAIL: Peripheral returned malformed data after invalid FINISHED_C"))
    (run (parse_phase5_frame raw_finished_p));
  (if (subtype rejection =? PHASE5_ERROR) && bool_decide (payload rejection = [x06])
   then m ← run (_negative_rejection_message negative_test);
        raise (Phase5NegativeTestPassed m)
   else mret tt);;
  raise_when (subtype rejection =? PHASE5_ERROR) (Phase5NegativeTestFailed
    "NEGATIVE TEST FAIL: Peripheral returned unexpected Phase 5 error status");;
  raise_when (subtype rejection =? PHASE5_FINISHED_P)
    (Phase5NegativeTestFailed
       (if is_mode negative_test "finished-c"
        then "NEGATIVE TEST FAIL: tampered FINISHED_C was accepted"
        else "NEGATIVE TEST FAIL: transcript mismatch was accepted"));;
  raise (Phase5NegativeTestFailed
    "NEGATIVE TEST FAIL: unexpected Peripheral response to invalid FINISHED_C").

Definition verify_peripheral (negative_test : option string) (raw_finished_p : bytes)
  : coroutine unit :=
  try_except (fun x => is_value_error x || is_phase5_state_error x)
    (fun x =>
       l ← get_locals;
       if is_mode negative_test "finished-p" && bool_decide (machine l = ABORTED)
       then raise (Phase5NegativeTestPassed
              "NEGATIVE TEST PASS: tampered FINISHED_P rejected by Central")
       else raise (Phase5AuthError (exn_message x)))
    (frame ← run (parse_phase5_frame raw_finished_p);
     finished_p_frame ←
       (if is_mode negative_test "finished-p" then
          raise_when (negb (subtype frame =? PHASE5_FINISHED_P))
            (Phase5StateError "expected legitimate FINISHED_P before local tamper");;
          p ← run (_tamper_finished_copy (payload frame));
          mret (mkPhase5Frame (subtype frame) p)
        else mret frame);
     l ← get_locals;
     on_machine (receive_finished_p finished_p_frame (expected_finished_p_buffer l)));;
  raise_when (is_mode negative_test "finished-p")
    (Phase5NegativeTestFailed "NEGATIVE TEST FAIL: tampered FINISHED_P was accepted");;
  update_locals (fun l => set_buffers (shared_secret_buffer l) (application_key_buffer l)
                            (finished_c_buffer l) (wipe (expected_finished_p_buffer l)) l).

(** DATA_REQUEST and the authenticated test message. *)
Definition receive_application (session_id : bytes) (sas : string) : coroutine Phase5AuthResult :=
  l ← get_locals;
  secure_channel ← run (SecureChannel_init (application_key_buffer l) (Some session_id) (Some CENTRAL_ROLE));
  update_locals (fun l => set_buffers (shared_secret_buffer l) (wipe (application_key_buffer l))
                            (finished_c_buffer l) (expected_finished_p_buffer l) l);;
  request ← on_machine request_application_data;
  send_control request;;
  raw_application ← _receive "Timed out waiting for authenticated AES data";
  (if bool_decide (bto 4 raw_application = PHASE5_FRAME_MAGIC)
   then run (parse_phase5_frame raw_application);;
        raise (Phase5AuthError "Peripheral error while activating data")
   else mret tt);;
  raise_when (negb (blen raw_application =? PHASE5_EXPECTED_WIRE_SIZE))
    (Phase5AuthError "Unexpected authenticated secure-wire size");;
  plaintext ← try_except (fun x => bool_decide (x = InvalidTag) || is_value_error x)
    (fun _ => raise (Phase5AuthError "AES-256-GCM authentication failed"))
    (run (decrypt raw_application MSG_TYPE_DATA secure_channel).1);
  raise_when (negb (bool_decide (plaintext = PHASE5_EXPECTED_PLAINTEXT)))
    (Phase5AuthError "Authenticated plaintext mismatch");;
  on_machine complete_application_data;;
  mret (mkPhase5AuthResult plaintext (blen raw_application) sas).

Definition handshake (negative_test : option string) : coroutine Phase5AuthResult :=
  agreed ← exchange_keys negative_test;
  let '(session_id, sas) := agreed in
  agree_on_sas negative_test session_id sas;;
  raw_finished_p ← exchange_finished negative_test;
  (if expects_rejection negative_test then judge_rejection negative_test raw_finished_p
   else mret tt);;
  verify_peripheral negative_test raw_finished_p;;
  receive_application session_id sas.

Definition wipe_buffers (l : phase5_locals) : phase5_locals :=
  set_buffers (wipe (shared_secret_buffer l)) (wipe (application_key_buffer l))
    (wipe (finished_c_buffer l)) (wipe (expected_finished_p_buffer l)) l.

(** The [finally] block. *)
Definition leave : coroutine unit :=
  update_locals wipe_buffers;;
  l ← get_locals;
  if notify_started l then try_except is_exception (fun _ => mret tt) stop_notify else mret tt.

Definition run_phase5_auth_pq (negative_test : option string) : coroutine Phase5AuthResult :=
  connected ← is_connected;
  raise_when (negb connected) (Phase5AuthError "BLE client not connected");;
  raise_when (negb (match negative_test with
                    | None => true
                    | Some m => bool_decide (m ∈ PHASE5_NEGATIVE_MODES)
                    end))
    (Phase5AuthError "Unknown Phase 5 negative test");;
  update_locals (fun _ => phase5_start_locals);;
  try_finally leave (handshake negative_test).
End Runner.

(** * What a run may have sent, and on what evidence *)

(** The values one handshake is about. *)
Record agreement := mkAgreement {
  a_session_id : bytes;
  a_sas : string;
  a_application : bytes;
  a_finished_c : bytes;
  a_finished_p : bytes;
  a_frames : list bytes;      (* the ciphertext, as written *)
}.

Section Progress.
Context {W : Type} `{Env W, Kem, Kdf, Aead}.
Variable mode : option string.
Variable c : link.

(** The session id the transcript is computed with. *)
Definition transcript_session_id (session_id sid' : bytes) : Prop :=
  if is_mode mode "transcript" then _mismatched_local_session_id session_id = Ok sid'
  else sid' = session_id.

(** The derivation of the values from one encapsulation to [pk]. *)
Definition agrees (pk : bytes) (v : agreement) : Prop :=
  exists coins ct ss sid' th keys n mtu,
    oqs_encap_secret pk coins = Ok (ct, ss) /\
    transcript_session_id (a_session_id v) sid' /\
    compute_phase5_transcript_hash sid' pk ct = Ok th /\
    derive_phase5_keys ss th = Ok keys /\
    compute_phase5_sas (sas keys) th = Ok n /\ format_phase5_sas n = Ok (a_sas v) /\
    a_application v = application keys /\
    compute_finished_c (finished_c keys) th = Ok (a_finished_c v) /\
    compute_finished_p (finished_p keys) th = Ok (a_finished_p v) /\
    Fragmentation.fragment_data ct (frame_mtu mtu) = Ok (a_frames v).

(** FINISHED_C as it goes out: tampered with in the mode that says so. *)
Definition outgoing_finished (v : agreement) (fc : bytes) : Prop :=
  if is_mode mode "finished-c" then _tamper_finished_copy (a_finished_c v) = Ok fc
  else fc = a_finished_c v.

Definition control (data : bytes) : action := WriteGatt c CHAR_CONTROL_UUID data.

Definition opening : list action := [StartNotify c CHAR_DATA_UUID; ReadGatt c CHAR_PUBKEY_UUID].
Definition transfer (v : agreement) : list action := opening ++ ciphertext_frames c (a_frames v).
Definition start5 (v : agreement) : action := control (PHASE5_START_MAGIC ++ a_session_id v).
Definition send_finished (fc : bytes) : action := control (pqs5 PHASE5_FINISHED_C fc).
Definition request_data : action := control (pqs5 PHASE5_DATA_REQUEST []).

(** The peripheral's messages. *)
Definition ready_heard (t : list observed) : Prop :=
  exists raw f, raw ∈ heard t /\ parse_phase5_frame raw = Ok f /\
    subtype f = PHASE5_READY_FOR_SAS /\ payload f = [].
Definition finished_heard (v : agreement) (t : list observed) : Prop :=
  exists raw f, raw ∈ heard t /\ parse_phase5_frame raw = Ok f /\
    subtype f = PHASE5_FINISHED_P /\ payload f = a_finished_p v.

(** [progress t sent]: the requests [sent] so far are allowed by what the
    trace [t] shows. Every further message needs more evidence. *)
Inductive progress (t : list observed) : list action -> Prop :=
  | opened sent : sent `prefix_of` opening -> progress t sent
  | started pk v sent :
      Did (ReadGatt c CHAR_PUBKEY_UUID) (Ok pk) ∈ t -> agrees pk v ->
      sent `prefix_of` transfer v ++ [start5 v] -> progress t sent
  | asked pk v sent :
      Did (ReadGatt c CHAR_PUBKEY_UUID) (Ok pk) ∈ t -> agrees pk v -> ready_heard t ->
      sent `prefix_of` transfer v ++ [start5 v; Confirm (a_sas v)] -> progress t sent
  | confirmed pk v fc sent :
      Did (ReadGatt c CHAR_PUBKEY_UUID) (Ok pk) ∈ t -> agrees pk v -> ready_heard t ->
      Did (Confirm (a_sas v)) (Ok true) ∈ t -> outgoing_finished v fc ->
      sent `prefix_of` transfer v ++ [start5 v; Confirm (a_sas v); send_finished fc] ->
      progress t sent
  | authenticated pk v sent :
      Did (ReadGatt c CHAR_PUBKEY_UUID) (Ok pk) ∈ t -> agrees pk v -> ready_heard t ->
      Did (Confirm (a_sas v)) (Ok true) ∈ t -> mode = None -> finished_heard v t ->
      sent `prefix_of` transfer v ++ [start5 v; Confirm (a_sas v);
                                       send_finished (a_finished_c v); request_data] ->
      progress t sent.
End Progress.

(** * Invariants of the runner *)

Section Safety.
Context {W : Type} `{Env W, Kem, Kdf, Aead}.
Variable mode : option string.
Variable c : link.

(** The variables have these values, the queue holds what was heard, and [F]. *)
Definition held (ns : bool) (m : Phase5CentralState) (ss app fc fp : bytes)
  (F : list observed -> Prop) (h : host phase5_locals) (t : list observed) : Prop :=
  (exists q, local h = mkLocals q ns m ss app fc fp /\ forall b, b ∈ q -> b ∈ heard t) /\ F t.

Lemma hear_local e (h : host phase5_locals) :
  local (hear e h) = match e with
                     | Notified b _ => set_notifications (notifications (local h) ++ [b]) (local h)
                     | Disconnected _ => local h
                     end.
Proof.
  destruct e as [b|d]; [done|].
  unfold hear, hear_host, _on_disconnect, _on_v1_disconnect, clear_v1_cp3, on_client, on_local.
  cbn. repeat (case_match; cbn); done.
Qed.

#[local] Instance held_stable ns m ss app fc fp F :
  Lasting F -> Stable (held ns m ss app fc fp F).
Proof.
  intros HF. split.
  - intros e h t [(q & Hl & Hq) Hf]. unfold held. rewrite hear_local, Hl.
    split; [|by apply HF]. destruct e as [b|d]; eexists; (split; [done|]);
      intros x Hx; rewrite heard_app, elem_of_app.
    + apply elem_of_app in Hx as [Hx|Hx]; [left; by apply Hq|by right].
    + left. by apply Hq.
  - intros a r h t [(q & Hl & Hq) Hf]. split; [|by apply HF]. exists q. split; [done|].
    intros x Hx. rewrite heard_app, elem_of_app. left. by apply Hq.
Qed.

#[local] Instance lasting_ready : Lasting ready_heard.
Proof.
  intros t u (raw & f & Hin & Hf). exists raw, f. split; [|done].
  rewrite heard_app. apply elem_of_app. by left.
Qed.

#[local] Instance lasting_finished v : Lasting (finished_heard v).
Proof.
  intros t u (raw & f & Hin & Hf). exists raw, f. split; [|done].
  rewrite heard_app. apply elem_of_app. by left.
Qed.

#[local] Instance lasting_progress sent : Lasting (fun t => progress mode c t sent).
Proof.
  intros t u Ht. destruct Ht.
  - by apply opened.
  - eapply started; [apply elem_of_app; by left|done..].
  - eapply asked; [apply elem_of_app; by left|done|by apply lasting_ready|done].
  - eapply confirmed; [apply elem_of_app; by left|done|by apply lasting_ready
      |apply elem_of_app; by left|done..].
  - eapply authenticated; [apply elem_of_app; by left|done|by apply lasting_ready
      |apply elem_of_app; by left|done|by apply lasting_finished|done].
Qed.

Abbreviation at_ I T := (at_point (W := W) I c T).

(** An exception left the handshake after requests the trace allows. *)
Definition failed (s : io W (host phase5_locals)) : Prop :=
  exists sent, at_ (fun _ t => progress mode c t sent) sent s.

Lemma fail_at I T s :
  at_ I T s -> (forall h t, I h t -> progress mode c t T) -> failed s.
Proof. intros (Hi & Hc & Ht) Hp. exists T. split_and!; [by eapply Hp|done..]. Qed.

Lemma fail_stopped I T todo s :
  stopped I c T todo s ->
  (forall h t sent, I h t -> sent `prefix_of` T ++ todo -> progress mode c t sent) -> failed s.
Proof.
  intros (d & Hd & Hs) Hp. apply (fail_at I (T ++ d)); [done|].
  intros h t Hi. eapply Hp; [done|]. by apply prefix_app.
Qed.

(** ** The steps of the runner *)

Lemma step_locals {B} ns m ss app fc fp F T f l' (k : unit -> method (io W (host phase5_locals)) B) Q E :
  (forall q, f (mkLocals q ns m ss app fc fp) =
             mkLocals q (notify_started l') (machine l') (shared_secret_buffer l')
               (application_key_buffer l') (finished_c_buffer l') (expected_finished_p_buffer l')) ->
  triple (at_ (held (notify_started l') (machine l') (shared_secret_buffer l')
               (application_key_buffer l') (finished_c_buffer l') (expected_finished_p_buffer l') F) T)
    (k tt) Q E ->
  triple (at_ (held ns m ss app fc fp F) T) (x ← update_locals f; k x) Q E.
Proof.
  intros Hf Hk s ([(q & Hl & Hq) HF] & Hc & Ht).
  unfold update_locals, update_own, mbind, method_bind. apply Hk. split_and!; [|done..].
  split; [|done]. exists q. cbn. by rewrite Hl, Hf.
Qed.

Lemma triple_receive ns m ss app fc fp F T d :
  Lasting F ->
  triple (at_ (held ns m ss app fc fp F) T) (_receive d)
    (fun b => at_ (held ns m ss app fc fp (fun t => F t /\ b ∈ heard t)) T)
    (fun x s => at_ (held ns m ss app fc fp F) T s).
Proof.
  intros HF. eapply triple_except with (E' := fun _ => at_ (held ns m ss app fc fp F) T);
    [|by intros x Hx; apply triple_raise|done].
  eapply step; [apply (triple_perform (held ns m ss app fc fp F) c T Wait), _|done|].
  intros u s Hs%at_seen. destruct Hs as ([(q & Hl & Hq) Hf] & Hc & Ht).
  unfold get_locals, get_own. meth. rewrite Hl. cbn [notifications].
  destruct q as [|b q]; cbn.
  - split_and!; [|done..]. by split; [exists []|].
  - unfold update_locals, update_own. split_and!; [|done..]. cbn. split.
    + exists q. cbn. rewrite ?Hl. split; [done|]. intros x Hx. apply Hq. by right.
    + split; [done|]. apply Hq. by left.
Qed.

Lemma triple_on_machine {A} ns m ss app fc fp F T (p : method Phase5CentralStateMachine A) :
  triple (at_ (held ns m ss app fc fp F) T) (on_machine p)
    (fun a s => exists m', p m = (Ok a, m') /\ at_ (held ns m' ss app fc fp F) T s)
    (fun x s => exists m', p m = (Err x, m') /\ at_ (held ns m' ss app fc fp F) T s).
Proof.
  intros s ([(q & Hl & Hq) HF] & Hc & Ht). unfold on_machine, call. rewrite Hl. cbn [machine].
  destruct (p m) as [[a|x] m']; exists m'; (split; [done|]); (split_and!; [|done..]);
    (split; [|done]); exists q; cbn; by rewrite Hl.
Qed.

Lemma step_read {B} ns m ss app fc fp F T (k : phase5_locals -> method (io W (host phase5_locals)) B) Q E :
  (forall q, triple (at_ (held ns m ss app fc fp F) T) (k (mkLocals q ns m ss app fc fp)) Q E) ->
  triple (at_ (held ns m ss app fc fp F) T) (l ← get_locals; k l) Q E.
Proof.
  intros Hk s Hs. pose proof Hs as ([(q & Hl & Hq) HF] & Hc & Ht).
  unfold get_locals, get_own. meth. rewrite Hl. by apply Hk.
Qed.

(** ** The stages *)

Abbreviation F_key pk := (elem_of (Did (ReadGatt c CHAR_PUBKEY_UUID) (Ok pk))).

#[local] Instance lasting_seen F o : Lasting F -> Lasting (fun t => F t /\ o ∈ t).
Proof. intros HF t u [? ?]. split; [by apply HF|apply elem_of_app; by left]. Qed.

Lemma held_seen ns m ss app fc fp F o T s :
  at_ (seen (held ns m ss app fc fp F) o) T s ->
  at_ (held ns m ss app fc fp (fun t => F t /\ o ∈ t)) T s.
Proof. intros [[[Hq Hf] Ho] Hr]. split; [split; [exact Hq|by split]|exact Hr]. Qed.

Lemma held_weaken ns m ss app fc fp F G T s :
  (forall t, F t -> G t) ->
  at_ (held ns m ss app fc fp F) T s -> at_ (held ns m ss app fc fp G) T s.
Proof. intros HFG [[Hq Hf] Hr]. split; [split; [exact Hq|by apply HFG]|exact Hr]. Qed.

Lemma fail_held ns m ss app fc fp F T s :
  (forall t, F t -> progress mode c t T) ->
  at_ (held ns m ss app fc fp F) T s -> failed s.
Proof. intros Hp Hs. eapply fail_at; [exact Hs|]. intros h t [_ Hf]. by apply Hp. Qed.

Definition key_schedule (pk ss : bytes) (v : agreement) (ct : bytes) : Prop :=
  exists coins sid' th keys n,
    oqs_encap_secret pk coins = Ok (ct, ss) /\
    transcript_session_id mode (a_session_id v) sid' /\
    compute_phase5_transcript_hash sid' pk ct = Ok th /\
    derive_phase5_keys ss th = Ok keys /\
    compute_phase5_sas (sas keys) th = Ok n /\ format_phase5_sas n = Ok (a_sas v) /\
    a_application v = application keys /\
    compute_finished_c (finished_c keys) th = Ok (a_finished_c v) /\
    compute_finished_p (finished_p keys) th = Ok (a_finished_p v).

Lemma opening_progress t sent : sent `prefix_of` opening c -> progress mode c t sent.
Proof. apply opened. Qed.

(** The SAS, session id and buffers after [exchange_keys]. *)
Definition keys_ready (r : bytes * string) (s : io W (host phase5_locals)) : Prop :=
  exists pk v ss, r = (a_session_id v, a_sas v) /\ agrees mode pk v /\
    at_ (held true EMPTY (wipe ss) (a_application v) (a_finished_c v) (a_finished_p v) (F_key pk))
      (transfer c v) s.

Lemma held_on_client ns m ss app fc fp F f h t :
  held ns m ss app fc fp F h t -> held ns m ss app fc fp F (on_client f h) t.
Proof. done. Qed.

Lemma choose_run {A} (b : bool) (r : result A) (a : A) :
  (if b then run r else mret a : method (io W (host phase5_locals)) A) = run (if b then r else Ok a).
Proof. by destruct b. Qed.

Lemma triple_exchange_keys :
  triple (at_ (held false EMPTY [] [] [] [] (fun _ => True)) []) (exchange_keys mode)
    keys_ready (fun _ => failed).
Proof.
  eapply step; [apply (triple_start_notify (held false EMPTY [] [] [] [] (fun _ => True)) c []);
                [apply _|intros; by apply held_on_client]| |].
  { intros x s Hs. eapply fail_stopped; [exact Hs|]. intros h t sent _ Hp.
    apply opening_progress. etrans; [exact Hp|]. by eexists [_]. }
  intros u. eapply (step_locals _ _ _ _ _ _ _ _ _ (set_started phase5_start_locals)); [done|].
  eapply step; [apply (triple_read_public_key (held true EMPTY [] [] [] [] (fun _ => True)) c), _| |].
  { intros x s Hs. eapply fail_stopped; [exact Hs|]. intros h t sent _ Hp.
    by apply opening_progress. }
  intros pk. eapply triple_weaken; [intros s; apply held_seen|].
  assert (forall ss app fc fp s,
    at_ (held true EMPTY ss app fc fp (fun t => True /\ F_key pk t)) (opening c) s -> failed s) as Hfail.
  { intros ss app fc fp s. apply fail_held. intros t _. by apply opening_progress. }
  apply step_guard; [intros _ s; apply Hfail|]. intros Hpk.
  apply (step_query Coins). intros coins.
  apply step_run; [|intros x _ s; apply Hfail]. intros [ct ss] He. cbn beta iota.
  eapply (step_locals _ _ _ _ _ _ _ _ _ (mkLocals [] true EMPTY ss [] [] [])); [done|].
  apply step_guard; [intros _ s; apply Hfail|]. intros Hct.
  apply step_guard; [intros _ s; apply Hfail|]. intros Hss.
  apply (step_query (Urandom SESSION_ID_SIZE)). intros sid.
  apply step_guard; [intros _ s; apply Hfail|]. intros Hsid.
  rewrite (choose_run (is_mode mode "transcript") _ sid).
  apply step_run; [|intros x _ s; apply Hfail]. intros sid' Hsid'.
  apply step_run; [|intros x _ s; apply Hfail]. intros th Hth.
  apply step_run; [|intros x _ s; apply Hfail]. intros keys Hkeys.
  eapply (step_locals _ _ _ _ _ _ _ _ _ (mkLocals [] true EMPTY (wipe ss) [] [] [])); [done|].
  apply step_run; [|intros x _ s; apply Hfail]. intros n Hn.
  apply step_run; [|intros x _ s; apply Hfail]. intros sas Hsas.
  eapply (step_locals _ _ _ _ _ _ _ _ _ (mkLocals [] true EMPTY (wipe ss) (application keys) [] [])); [done|].
  apply step_run; [|intros x _ s; apply Hfail]. intros fc Hfc.
  eapply (step_locals _ _ _ _ _ _ _ _ _ (mkLocals [] true EMPTY (wipe ss) (application keys) fc [])); [done|].
  apply step_run; [|intros x _ s; apply Hfail]. intros fp Hfp.
  eapply (step_locals _ _ _ _ _ _ _ _ _ (mkLocals [] true EMPTY (wipe ss) (application keys) fc fp)); [done|].
  cbn [notify_started machine shared_secret_buffer application_key_buffer finished_c_buffer
       expected_finished_p_buffer].
  assert (forall mtu frames, Fragmentation.fragment_data ct (frame_mtu mtu) = Ok frames ->
            agrees mode pk (mkAgreement sid sas (application keys) fc fp frames)) as Hagree.
  { intros mtu frames Hf. exists coins, ct, ss, sid', th, keys, n, mtu. split_and!; try done.
    unfold transcript_session_id. cbn [a_session_id].
    destruct (is_mode mode "transcript"); [done|]. by injection Hsid'. }
  eapply step; [apply (triple_write_ciphertext
    (held true EMPTY (wipe ss) (application keys) fc fp (fun t => True /\ F_key pk t)) c), _| |].
  { intros x s [Hs|(mtu & frames & Hf & Hs)].
    - eapply fail_stopped; [exact Hs|]. intros h t sent _ Hp. apply opening_progress.
      by rewrite app_nil_r in Hp.
    - eapply fail_stopped; [exact Hs|]. intros h t sent [_ [_ Hk]] Hp.
      eapply started; [exact Hk|by eapply Hagree|]. by apply prefix_app_r. }
  intros ns. apply triple_ret. intros s (mtu & frames & Hf & _ & Hs).
  exists pk, (mkAgreement sid sas (application keys) fc fp frames), ss.
  split; [done|]. split; [by eapply Hagree|]. eapply held_weaken; [|exact Hs]. by intros t [_ Hk].
Qed.

(** ** The machine, as the runner meets it *)

Lemma p5_request :
  request_application_data AUTHENTICATED = (Ok (pqs5 PHASE5_DATA_REQUEST []), WAIT_APPLICATION_DATA).
Proof. vm_compute. reflexivity. Qed.

Lemma p5_complete :
  complete_application_data WAIT_APPLICATION_DATA = (Ok tt, COMPLETE).
Proof. vm_compute. reflexivity. Qed.

(** ** Agreement on the SAS *)

Definition F_sas (pk : bytes) (v : agreement) (t : list observed) : Prop :=
  (F_key pk t /\ ready_heard t) /\ Did (Confirm (a_sas v)) (Ok true) ∈ t.

#[local] Instance lasting_sas pk v : Lasting (F_sas pk v).
Proof. unfold F_sas. apply _. Qed.

Lemma triple_agree_on_sas pk v ss :
  agrees mode pk v ->
  triple (at_ (held true EMPTY ss (a_application v) (a_finished_c v) (a_finished_p v) (F_key pk))
            (transfer c v))
    (agree_on_sas mode (a_session_id v) (a_sas v))
    (fun _ => at_ (held true WAIT_SAS_CONFIRM ss (a_application v) (a_finished_c v) (a_finished_p v)
                     (F_sas pk v)) (transfer c v ++ [start5 c v; Confirm (a_sas v)]))
    (fun _ => failed).
Proof.
  intros Hv.
  assert (forall m F s, (forall t, F t -> F_key pk t) ->
    at_ (held true m ss (a_application v) (a_finished_c v) (a_finished_p v) F) (transfer c v) s ->
    failed s) as Hfail.
  { intros m F s HF. apply fail_held. intros t Hf. eapply started; [by apply HF|exact Hv|].
    by apply prefix_app_r. }
  assert (forall m F s, (forall t, F t -> F_key pk t) ->
    at_ (held true m ss (a_application v) (a_finished_c v) (a_finished_p v) F)
      (transfer c v ++ [start5 c v]) s -> failed s) as Hfail'.
  { intros m F s HF. apply fail_held. intros t Hf. by eapply started; [apply HF|exact Hv|]. }
  eapply step; [apply triple_on_machine| |].
  { intros x s (m' & _ & Hs). by eapply Hfail. }
  intros w. apply triple_ex. intros m'. apply triple_pure. intros [-> ->]%start_Ok.
  eapply step; [apply (triple_send_control (held true WAIT_READY_FOR_SAS ss (a_application v)
                  (a_finished_c v) (a_finished_p v) (F_key pk)) c), _| |].
  { intros x s Hs. eapply fail_stopped; [exact Hs|]. intros h t sent [_ Hk] Hp.
    by eapply started. }
  intros u. eapply step; [apply triple_receive, _|intros x s; by apply Hfail'|].
  intros raw. eapply step with (E' := fun _ => failed) (R := fun _ =>
    at_ (held true WAIT_SAS_CONFIRM ss (a_application v) (a_finished_c v) (a_finished_p v)
           (fun t => F_key pk t /\ ready_heard t)) (transfer c v ++ [start5 c v])); [|done|].
  { eapply triple_except with (E' := fun _ => failed); [| |done].
    - apply step_run; cycle 1.
      { intros x _ s. apply Hfail'. by intros t [Hk _]. }
      intros f Hf. apply step_guard; [intros _ s; apply Hfail'; by intros t [Hk _]|]. intros _.
      eapply triple_conseq; [by intros s Hs|apply triple_on_machine| |].
      + intros r s (m' & (Hs & Hp & ->)%ready_Ok & Hr). eapply held_weaken; [|exact Hr].
        intros t [Hk Hin]. split; [done|]. by exists raw, f.
      + intros x s (m' & _ & Hr). eapply Hfail'; [|exact Hr]. by intros t [Hk _].
    - intros x _. by apply triple_raise. }
  intros r. eapply step; [apply (triple_op _ c _ (Confirm (a_sas v))); [apply _|done]| |].
  { intros x s Hs. eapply fail_stopped; [exact Hs|]. intros h t sent [_ [Hk Hr]] Hp.
    rewrite <- app_assoc in Hp. by eapply asked. }
  intros [|].
  - apply triple_ret. intros s Hs%held_seen. rewrite <- app_assoc in Hs. exact Hs.
  - eapply triple_weaken; [intros s; apply held_seen|].
    eapply triple_bind; [eapply triple_conseq; [by intros s Hs|apply triple_on_machine|by intros y s Hs|]|].
    + intros x s (m' & _ & Hs). eapply fail_held; [|exact Hs]. intros t [[Hk Hr] _].
      rewrite <- app_assoc. by eapply asked.
    + intros y. apply triple_raise. intros s (m' & _ & Hs). eapply fail_held; [|exact Hs].
      intros t [[Hk Hr] _]. rewrite <- app_assoc. by eapply asked.
Qed.
(** ** FINISHED *)

Definition agreed_script (v : agreement) : list action :=
  transfer c v ++ [start5 c v; Confirm (a_sas v)].

Lemma confirmed_progress pk v fc t sent :
  agrees mode pk v -> outgoing_finished mode v fc -> F_sas pk v t ->
  sent `prefix_of` agreed_script v ++ [send_finished c fc] -> progress mode c t sent.
Proof.
  intros Hv Hfc [[Hk Hr] Hs] Hp. unfold agreed_script in Hp. rewrite <- app_assoc in Hp.
  by eapply confirmed.
Qed.

Lemma asked_progress pk v t sent :
  agrees mode pk v -> F_sas pk v t -> sent `prefix_of` agreed_script v -> progress mode c t sent.
Proof. intros Hv [[Hk Hr] _] Hp. by eapply asked. Qed.

Lemma triple_exchange_finished pk v ss :
  agrees mode pk v ->
  triple (at_ (held true WAIT_SAS_CONFIRM ss (a_application v) (a_finished_c v) (a_finished_p v)
                 (F_sas pk v)) (agreed_script v))
    (exchange_finished mode)
    (fun raw s => exists fc, outgoing_finished mode v fc /\
       at_ (held true WAIT_FINISHED_P ss (a_application v) (wipe (a_finished_c v)) (a_finished_p v)
              (fun t => F_sas pk v t /\ raw ∈ heard t)) (agreed_script v ++ [send_finished c fc]) s)
    (fun _ => failed).
Proof.
  intros Hv. apply step_read. intros q. cbn [finished_c_buffer].
  assert (forall m fcb s, at_ (held true m ss (a_application v) fcb (a_finished_p v) (F_sas pk v))
            (agreed_script v) s -> failed s) as Hfail.
  { intros m fcb s. apply fail_held. intros t Ht. by eapply asked_progress. }
  rewrite (choose_run (is_mode mode "finished-c")).
  apply step_run; [|intros x _ s; apply Hfail]. intros fc Hfc.
  assert (outgoing_finished mode v fc) as Hout.
  { unfold outgoing_finished. by destruct (is_mode mode "finished-c"); [|injection Hfc]. }
  clear Hfc. eapply step; [apply triple_on_machine| |].
  { intros x s (m' & _ & Hs). by eapply Hfail. }
  intros w. apply triple_ex. intros m'. apply triple_pure. intros [-> ->]%confirm_Ok.
  eapply step; [apply (triple_send_control (held true WAIT_FINISHED_P ss (a_application v)
                  (a_finished_c v) (a_finished_p v) (F_sas pk v)) c), _| |].
  { intros x s Hs. eapply fail_stopped; [exact Hs|]. intros h t sent [_ Hf] Hp.
    by eapply confirmed_progress. }
  intros u. eapply (step_locals _ _ _ _ _ _ _ _ _
    (mkLocals [] true WAIT_FINISHED_P ss (a_application v) (wipe (a_finished_c v)) (a_finished_p v)));
    [done|].
  cbn [notify_started machine shared_secret_buffer application_key_buffer finished_c_buffer
       expected_finished_p_buffer].
  eapply triple_except with (E' := fun _ => failed); [| |done].
  - eapply triple_conseq; [by intros s Hs|apply triple_receive, _| |].
    + intros raw s Hs. by exists fc.
    + intros x s Hs. eapply fail_held; [|exact Hs]. intros t Ht. by eapply confirmed_progress.
  - intros x _. destruct (expects_rejection mode); [|by apply triple_raise].
    apply step_run; [|done]. intros m _. by apply triple_raise.
Qed.

(** A rejected FINISHED_C ends the run. *)
Lemma triple_judge_rejection raw :
  triple failed (judge_rejection mode raw) (fun _ _ => False) (fun _ => failed).
Proof.
  eapply triple_bind with (R := fun _ => failed).
  { eapply triple_except with (E' := fun _ => failed); [| |done].
    - by apply triple_run.
    - intros x _. by apply triple_raise. }
  intros f. eapply triple_bind with (R := fun _ => failed).
  { destruct (_ && _); [|by apply triple_ret]. apply step_run; [|done].
    intros m _. by apply triple_raise. }
  intros u. do 2 (apply step_guard; [done|]; intros _). by apply triple_raise.
Qed.

Definition F_finished (pk : bytes) (v : agreement) (t : list observed) : Prop :=
  F_sas pk v t /\ finished_heard v t.

#[local] Instance lasting_F_finished pk v : Lasting (F_finished pk v).
Proof. unfold F_finished. apply _. Qed.

Lemma triple_verify_peripheral pk v ss fc raw :
  agrees mode pk v -> outgoing_finished mode v fc ->
  triple (at_ (held true WAIT_FINISHED_P ss (a_application v) (wipe (a_finished_c v)) (a_finished_p v)
              (fun t => F_sas pk v t /\ raw ∈ heard t)) (agreed_script v ++ [send_finished c fc]))
    (verify_peripheral mode raw)
    (fun _ s => is_mode mode "finished-p" = false /\
       at_ (held true AUTHENTICATED ss (a_application v) (wipe (a_finished_c v)) (wipe (a_finished_p v))
              (F_finished pk v)) (agreed_script v ++ [send_finished c fc]) s)
    (fun _ => failed).
Proof.
  intros Hv Hout.
  assert (forall m F fpb s, (forall t, F t -> F_sas pk v t) ->
    at_ (held true m ss (a_application v) (wipe (a_finished_c v)) fpb F)
      (agreed_script v ++ [send_finished c fc]) s -> failed s) as Hfail.
  { intros m F fpb s HF. apply fail_held. intros t Ht. eapply confirmed_progress; [done..| |done].
    by apply HF. }
  eapply step with (E' := fun _ => failed) (R := fun _ s => is_mode mode "finished-p" = true /\ failed s \/
    is_mode mode "finished-p" = false /\
    at_ (held true AUTHENTICATED ss (a_application v) (wipe (a_finished_c v)) (a_finished_p v)
           (F_finished pk v)) (agreed_script v ++ [send_finished c fc]) s); [|done|].
  - eapply triple_except with (E' := fun _ => failed); [| |done].
    + apply step_run; [|intros x _ s; apply Hfail; by intros t []]. intros f Hf.
      destruct (is_mode mode "finished-p").
      * eapply triple_bind with (R := fun _ =>
          at_ (held true WAIT_FINISHED_P ss (a_application v) (wipe (a_finished_c v)) (a_finished_p v)
              (fun t => F_sas pk v t /\ raw ∈ heard t)) (agreed_script v ++ [send_finished c fc])).
        { apply step_guard; [intros _ s; apply Hfail; by intros t []|]. intros _.
          apply step_run; [|intros x _ s; apply Hfail; by intros t []]. intros p _.
          by apply triple_ret. }
        intros g. apply step_read. intros q.
        eapply triple_conseq; [by intros s Hs|apply triple_on_machine| |].
        -- intros u s (m' & _ & Hs). left. split; [done|]. eapply Hfail; [|exact Hs]. by intros t [].
        -- intros x s (m' & _ & Hs). eapply Hfail; [|exact Hs]. by intros t [].
      * eapply triple_bind with (R := fun g s => g = f /\
          at_ (held true WAIT_FINISHED_P ss (a_application v) (wipe (a_finished_c v)) (a_finished_p v)
              (fun t => F_sas pk v t /\ raw ∈ heard t)) (agreed_script v ++ [send_finished c fc]) s).
        { by apply triple_ret. }
        intros g. apply triple_pure. intros ->. apply step_read. intros q. cbn [expected_finished_p_buffer].
        eapply triple_conseq; [by intros s Hs|apply triple_on_machine| |].
        -- intros u s (m' & (Hs & Hp & ->)%finished_Ok & Hr). right. split; [done|].
           eapply held_weaken; [|exact Hr]. intros t [Ht Hin]. split; [done|]. by exists raw, f.
        -- intros x s (m' & _ & Hs). eapply Hfail; [|exact Hs]. by intros t [].
    + intros x _. eapply triple_bind with (R := fun _ => failed); [by intros s Hs|].
      intros l. destruct (_ && _); by apply triple_raise.
  - intros u. apply step_guard.
    + intros Hm s [[_ Hs]|[Hm' _]]; [done|congruence].
    + intros Hm. eapply triple_weaken with (P' := fun s => is_mode mode "finished-p" = false /\
        at_ (held true AUTHENTICATED ss (a_application v) (wipe (a_finished_c v)) (a_finished_p v)
           (F_finished pk v)) (agreed_script v ++ [send_finished c fc]) s).
      { intros s [[Hm' _]|Hs]; [congruence|done]. }
      apply triple_pure. intros _.
      intros s ([(q & Hl & Hq) HF] & Hc & Ht). split; [done|].
      split_and!; [|done..]. split; [|done]. exists q. cbn. by rewrite Hl.
Qed.
(** ** Application data *)

Definition full_script (v : agreement) : list action :=
  transfer c v ++ [start5 c v; Confirm (a_sas v); send_finished c (a_finished_c v); request_data c].

(** The message that [run_phase5_auth_pq] returns was heard, has the fixed
    size, and opens under the application key of the agreement. *)
Definition delivered (v : agreement) (res : Phase5AuthResult) (t : list observed) : Prop :=
  exists wire ch, wire ∈ heard t /\ blen wire = wire_size res /\
    SecureChannel_init (a_application v) (Some (a_session_id v)) (Some CENTRAL_ROLE) = Ok ch /\
    (decrypt wire MSG_TYPE_DATA ch).1 = Ok (plaintext res).

#[local] Instance lasting_delivered v res : Lasting (delivered v res).
Proof.
  intros t u (w & ch & Hin & Hr). exists w, ch. split; [|done].
  rewrite heard_app. apply elem_of_app. by left.
Qed.

(** A run that returned. *)
Definition completed (v : agreement) (res : Phase5AuthResult) (t : list observed) : Prop :=
  delivered v res t /\ plaintext res = PHASE5_EXPECTED_PLAINTEXT /\ shown_sas res = a_sas v.

Lemma triple_receive_application pk v ss :
  agrees mode pk v -> mode = None ->
  triple (at_ (held true AUTHENTICATED ss (a_application v) (wipe (a_finished_c v)) (wipe (a_finished_p v))
              (F_finished pk v)) (agreed_script v ++ [send_finished c (a_finished_c v)]))
    (receive_application (a_session_id v) (a_sas v))
    (fun res s => at_ (held true COMPLETE ss (wipe (a_application v)) (wipe (a_finished_c v))
        (wipe (a_finished_p v)) (fun t => F_finished pk v t /\ completed v res t)) (full_script v) s)
    (fun _ => failed).
Proof.
  intros Hv Hmode.
  assert (forall sent t, F_finished pk v t -> sent `prefix_of` full_script v -> progress mode c t sent) as Hprog.
  { intros sent t [[[Hk Hr] Hs] Hf] Hp. by eapply authenticated. }
  assert (agreed_script v ++ [send_finished c (a_finished_c v); request_data c] = full_script v) as Hfull.
  { unfold agreed_script, full_script. by rewrite <- app_assoc. }
  assert (forall m app fcb fpb F s, (forall t, F t -> F_finished pk v t) ->
    at_ (held true m ss app fcb fpb F) (agreed_script v ++ [send_finished c (a_finished_c v)]) s ->
    failed s) as Hfail.
  { intros m app fcb fpb F s HF. apply fail_held. intros t Ht. apply Hprog; [by apply HF|].
    rewrite <- Hfull. apply prefix_app. by eexists [_]. }
  assert (forall m app fcb fpb F s, (forall t, F t -> F_finished pk v t) ->
    at_ (held true m ss app fcb fpb F) (full_script v) s -> failed s) as Hfail'.
  { intros m app fcb fpb F s HF. apply fail_held. intros t Ht. apply Hprog; [by apply HF|done]. }
  apply step_read. intros q. cbn [application_key_buffer].
  apply step_run; [|intros x _ s; by apply Hfail]. intros ch Hch.
  eapply (step_locals _ _ _ _ _ _ _ _ _
    (mkLocals [] true AUTHENTICATED ss (wipe (a_application v)) (wipe (a_finished_c v)) (wipe (a_finished_p v))));
    [done|].
  cbn [notify_started machine shared_secret_buffer application_key_buffer finished_c_buffer
       expected_finished_p_buffer].
  eapply step with (R := fun w s => w = pqs5 PHASE5_DATA_REQUEST [] /\
    at_ (held true WAIT_APPLICATION_DATA ss (wipe (a_application v)) (wipe (a_finished_c v))
      (wipe (a_finished_p v)) (F_finished pk v)) (agreed_script v ++ [send_finished c (a_finished_c v)]) s);
    [eapply triple_conseq; [by intros s Hs|apply triple_on_machine| |by intros x s Hs]| |].
  { intros w s (m' & Hreq & Hs). pose proof (p5_request) as Heq. rewrite Hreq in Heq. by simplify_eq. }
  { intros x s (m' & _ & Hs). by eapply Hfail. }
  intros w. apply triple_pure. intros ->.
  eapply step; [apply (triple_send_control (held true WAIT_APPLICATION_DATA ss (wipe (a_application v))
                  (wipe (a_finished_c v)) (wipe (a_finished_p v)) (F_finished pk v)) c), _| |].
  { intros x s Hs. eapply fail_stopped; [exact Hs|]. intros h t sent [_ Hf] Hp.
    apply Hprog; [done|]. rewrite <- app_assoc in Hp. by rewrite <- Hfull. }
  intros u. eapply triple_weaken with (P' := at_ (held true WAIT_APPLICATION_DATA ss
    (wipe (a_application v)) (wipe (a_finished_c v)) (wipe (a_finished_p v)) (F_finished pk v)) (full_script v)).
  { intros s Hs. rewrite <- Hfull. rewrite <- app_assoc in Hs. exact Hs. }
  eapply step; [apply triple_receive, _|intros x s; by apply Hfail'|].
  intros wire. eapply step with (E' := fun _ => failed) (R := fun _ =>
    at_ (held true WAIT_APPLICATION_DATA ss (wipe (a_application v)) (wipe (a_finished_c v))
      (wipe (a_finished_p v)) (fun t => F_finished pk v t /\ wire ∈ heard t)) (full_script v)); [|done|].
  { destruct (bool_decide _); [|by apply triple_ret].
    apply step_run; [|intros x _ s; apply Hfail'; by intros t []].
    intros f _. apply triple_raise. intros s. apply Hfail'. by intros t []. }
  intros u'. apply step_guard; [intros _ s; apply Hfail'; by intros t []|]. intros Hsize.
  eapply step with (E' := fun _ => failed) (R := fun p s => (decrypt wire MSG_TYPE_DATA ch).1 = Ok p /\
    at_ (held true WAIT_APPLICATION_DATA ss (wipe (a_application v)) (wipe (a_finished_c v))
      (wipe (a_finished_p v)) (fun t => F_finished pk v t /\ wire ∈ heard t)) (full_script v) s); [|done|].
  { eapply triple_except with (E' := fun _ => failed); [| |done].
    - apply triple_run; [done|]. intros x _ s. apply Hfail'. by intros t [].
    - intros x _. by apply triple_raise. }
  intros p. apply triple_pure. intros Hdec.
  apply step_guard; [intros _ s; apply Hfail'; by intros t []|]. intros Hp%negb_false_iff%bool_decide_eq_true.
  eapply step; [apply triple_on_machine| |].
  { intros x s (m' & _ & Hs). eapply Hfail'; [|exact Hs]. by intros t []. }
  intros []. apply triple_ret. intros s (m' & Hcomp & Hs).
  rewrite p5_complete in Hcomp. injection Hcomp as <-. eapply held_weaken; [|exact Hs].
  intros t [Hf Hin]. split; [done|]. split_and!; [|done..]. by exists wire, ch.
Qed.
(** ** The whole handshake *)

Definition valid_mode : Prop := match mode with None => True | Some m => m ∈ PHASE5_NEGATIVE_MODES end.

Lemma mode_none :
  valid_mode -> expects_rejection mode = false -> is_mode mode "finished-p" = false -> mode = None.
Proof.
  unfold valid_mode, expects_rejection, is_mode. destruct mode as [m|]; [|done].
  unfold PHASE5_NEGATIVE_MODES. rewrite !elem_of_cons, elem_of_nil.
  intros Hm Hr Hf. apply orb_false_iff in Hr as [H3 H4].
  apply bool_decide_eq_false in H3, H4, Hf. destruct Hm as [->|[->|[->|[]]]]; congruence.
Qed.

Definition finished_run (res : Phase5AuthResult) (t : list observed) (sent : list action) : Prop :=
  mode = None /\ exists pk v, F_finished pk v t /\ agrees mode pk v /\ sent = full_script v /\
    completed v res t.

Lemma triple_handshake :
  valid_mode ->
  triple (at_ (held false EMPTY [] [] [] [] (fun _ => True)) []) (handshake mode)
    (fun res s => exists sent, at_ (fun _ t => finished_run res t sent) sent s)
    (fun _ => failed).
Proof.
  intros Hmode. eapply triple_bind; [apply triple_exchange_keys|].
  intros [sid sas]. unfold keys_ready. apply triple_ex. intros pk. apply triple_ex. intros v. apply triple_ex. intros ss.
  apply triple_pure. intros [= -> ->]. apply triple_pure. intros Hv.
  eapply triple_bind; [by apply triple_agree_on_sas|]. intros u.
  eapply triple_bind; [by apply triple_exchange_finished|].
  intros raw. apply triple_ex. intros fc. apply triple_pure. intros Hout.
  destruct (expects_rejection mode) eqn:Hrej.
  - eapply triple_bind with (R := fun _ _ => False); [|by intros w s []]. eapply triple_weaken; [|apply triple_judge_rejection].
    intros s. apply fail_held. intros t [Ht _]. by eapply confirmed_progress.
  - eapply triple_bind with (R := fun _ => at_ (held true WAIT_FINISHED_P (wipe ss) (a_application v)
      (wipe (a_finished_c v)) (a_finished_p v) (fun t => F_sas pk v t /\ raw ∈ heard t))
      (agreed_script v ++ [send_finished c fc])); [by apply triple_ret|].
    intros w. eapply triple_bind; [by apply triple_verify_peripheral|]. intros x.
    apply triple_pure. intros Hfp. pose proof (mode_none Hmode Hrej Hfp) as Hnone.
    assert (fc = a_finished_c v) as ->. { unfold outgoing_finished in Hout. by rewrite Hnone in Hout. }
    eapply triple_conseq; [by intros s Hs|by apply triple_receive_application| |done].
    intros res s [[Hq [Hf Hc]] Hr]. exists (full_script v). split; [|exact Hr].
    split; [done|]. by exists pk, v.
Qed.

Definition is_zero (b : bytes) : Prop := b = zeros (blen b).
Definition wiped (l : phase5_locals) : Prop :=
  is_zero (shared_secret_buffer l) /\ is_zero (application_key_buffer l) /\
  is_zero (finished_c_buffer l) /\ is_zero (expected_finished_p_buffer l).

Lemma wipe_buffers_wiped l : wiped (wipe_buffers l).
Proof.
  unfold wiped, is_zero, wipe_buffers, wipe. cbn.
  by rewrite !blen_zeros by apply blen_nonneg.
Qed.

Definition left_with (G : list observed -> Prop) (h : host phase5_locals) (t : list observed) : Prop :=
  G t /\ wiped (local h).

#[local] Instance left_with_stable G : Lasting G -> Stable (left_with G).
Proof.
  intros HG. split; [|by intros a r h t [Hg Hw]; split; [apply HG|]].
  intros e h t [Hg Hw]. split; [by apply HG|]. rewrite hear_local. by destruct e.
Qed.

Definition left (G : list observed -> Prop) (T : list action) (s : io W (host phase5_locals)) : Prop :=
  stopped (left_with G) c T [StopNotify c CHAR_DATA_UUID] s.

Lemma clear_local (h : host phase5_locals) : local (clear_v1_cp3 h) = local h.
Proof. unfold clear_v1_cp3, on_client, on_local. cbn. by repeat (case_match; cbn). Qed.

Lemma triple_leave G T :
  Lasting G ->
  triple (at_ (fun _ t => G t) T) leave (fun _ => left G T) (fun _ => left G T).
Proof.
  intros HG. eapply triple_bind with (R := fun _ => at_ (left_with G) T).
  { intros s (Hg & Hc & Ht). split_and!; [|done..]. split; [done|]. apply wipe_buffers_wiped. }
  intros u. eapply triple_bind with (R := fun _ => at_ (left_with G) T); [by intros s Hs|].
  intros l. destruct (notify_started l).
  - eapply triple_except with (E' := fun _ => left G T).
    + eapply triple_conseq; [by intros s Hs|apply triple_stop_notify; [apply _|]| |].
      * intros h t [Hg Hw]. split; [done|]. by rewrite clear_local.
      * done.
      * done.
    + intros x _. by apply triple_ret.
    + done.
  - apply triple_ret. intros s. apply stopped_0.
Qed.

(** ** Whole runs *)

Lemma leave_outcome T (F : list observed -> Prop) (s : io W (host phase5_locals)) :
  Lasting F -> at_ (fun _ t => F t) T s ->
  exists close x s', leave s = (x, s') /\ close `prefix_of` [StopNotify c CHAR_DATA_UUID] /\
    ops (trace s') = T ++ close /\ F (trace s') /\ wiped (local (self s')).
Proof.
  intros HF Hs. pose proof (triple_leave F T HF s Hs) as Hl.
  destruct (leave s) as [[u|x] s'] eqn:He; destruct Hl as (close & Hp & [Hf Hw] & _ & Ho).
  - by exists close, (Ok u), s'.
  - by exists close, (Err x), s'.
Qed.

#[local] Instance lasting_finished_run res sent : Lasting (fun t => finished_run res t sent).
Proof.
  intros t u (Hm & pk & v & Hf & Hv & Hs & [Hd Hc]). split; [done|]. exists pk, v.
  split; [by apply lasting_F_finished|]. split_and!; [done|done|].
  split; [by apply lasting_delivered|done].
Qed.

(** How a run ends: it was refused before any request, or the handshake ran
    and left its buffers wiped. *)
Lemma run_outcome (s : io W (host phase5_locals)) :
  _client (client (self s)) = Some c -> trace s = [] ->
  let '(r, s') := run_phase5_auth_pq mode s in
  (ops (trace s') = [] /\ local (self s') = local (self s) /\ exists x, r = Err x) \/
  exists sent close, ops (trace s') = sent ++ close /\
    close `prefix_of` [StopNotify c CHAR_DATA_UUID] /\ wiped (local (self s')) /\
    ((exists x, r = Err x) /\ progress mode c (trace s') sent \/
     exists res, r = Ok res /\ finished_run res (trace s') sent).
Proof.
  intros Hc Ht. unfold run_phase5_auth_pq, is_connected, raw_client, get_own. meth. rewrite Hc.
  unfold query_env. destruct (ask (IsConnected c) (world s)) as [b w]. cbn.
  destruct b; cbn; [|left; rewrite Ht; eauto].
  destruct (match mode with None => true | Some m => bool_decide (m ∈ PHASE5_NEGATIVE_MODES) end) eqn:Hm;
    cbn; [|left; rewrite Ht; eauto].
  assert valid_mode as Hvalid.
  { unfold valid_mode. destruct mode; [by apply bool_decide_eq_true in Hm|done]. }
  unfold try_finally. set (s0 := mkIo _ _ _).
  assert (at_ (held false EMPTY [] [] [] [] (fun _ => True)) [] s0) as H0'.
  { split_and!; [|done|by cbn; rewrite Ht]. split; [|done]. exists []. split; [done|].
    intros x Hx. inversion Hx. }
  pose proof (triple_handshake Hvalid s0 H0') as Hh.
  destruct (handshake mode s0) as [[res|x] s1].
  - destruct Hh as (sent & Hs1). apply leave_outcome in Hs1 as (close & y & s2 & -> & Hp & Ho & Hf & Hw);
      [|apply _].
    destruct y as [u|y]; right; exists sent, close; (split_and!; [done..|]); [right; eauto|left].
    split; [eauto|]. destruct Hf as (Hn & pk & v & [[[Hk Hr] Hsas] Hfin] & Hv & -> & _).
    by eapply authenticated.
  - destruct Hh as (sent & Hs1). apply leave_outcome in Hs1 as (close & y & s2 & -> & Hp & Ho & Hf & Hw);
      [|apply _].
    by destruct y as [u|y]; right; exists sent, close; (split_and!; [done..|]); left; eauto.
Qed.
End Safety.

Section Theorems.
Context {W : Type} `{Env W, Kem, Kdf, Aead}.

(** The v0.5 script, as far as the run went; nothing when it did not begin. *)
Definition within_script (mode : option string) (c : link) (t : list observed) : Prop :=
  exists sent close, ops t = sent ++ close /\ close `prefix_of` [StopNotify c CHAR_DATA_UUID] /\
    progress mode c t sent.

Definition phase5_done (mode : option string) (c : link) (res : Phase5AuthResult) (t : list observed) : Prop :=
  exists sent close, ops t = sent ++ close /\ close `prefix_of` [StopNotify c CHAR_DATA_UUID] /\
    finished_run mode c res t sent.

#[export] Instance phase5_contract mode c :
  Contract (fun h => _client (client h) = Some c) (run_phase5_auth_pq mode)
    (fun _ => within_script mode c) (phase5_done mode c).
Proof.
  intros s Ht Hc. pose proof (run_outcome mode c s Hc Ht) as Ho.
  destruct (run_phase5_auth_pq mode s) as [r s'].
  destruct Ho as [(Ho & _ & x & ->)|(sent & close & Ho & Hp & _ & [[[x ->] Hprog]|(res & -> & Hf)])];
    (split; [|done || intros ? [= <-]]).
  - exists [], []. split_and!; [done|apply prefix_nil|apply opened, prefix_nil].
  - by exists sent, close.
  - exists sent, close. split_and!; [done|done|].
    destruct Hf as (Hn & pk & v & [[[Hk Hr] Hsas] Hfin] & Hv & -> & _). by eapply authenticated.
  - by exists sent, close.
Qed.

(** C1. Safety of the v0.5 runner against any peripheral, link and user: the
    requests a run makes, up to an optional final unsubscription, are a prefix
    of the protocol's script, and every message beyond the ciphertext needs
    its evidence: the SAS is shown only after READY_FOR_SAS arrived, FINISHED_C
    goes out only after the user accepted the SAS of this very transcript, and
    application data is requested only outside the negative modes, after the
    FINISHED_P computed from the shared secret arrived. A run that returns went
    through the whole script, and its plaintext is the expected one, opened
    from a message that was received under the agreed application key. *)
Theorem phase5_run_safe mode c (s : io W (host phase5_locals)) :
  _client (client (self s)) = Some c -> trace s = [] ->
  let '(r, s') := run_phase5_auth_pq mode s in
  exists sent close,
    ops (trace s') = sent ++ close /\ close `prefix_of` [StopNotify c CHAR_DATA_UUID] /\
    progress mode c (trace s') sent /\
    forall res, r = Ok res -> finished_run mode c res (trace s') sent.
Proof.
  intros Hc Ht. pose proof (run_outcome mode c s Hc Ht) as Ho.
  destruct (run_phase5_auth_pq mode s) as [r s'].
  destruct Ho as [(Ho & _ & x & ->)|(sent & close & Ho & Hp & _ & [[[x ->] Hprog]|(res & -> & Hf)])].
  - exists [], []. split_and!; [done|apply prefix_nil|apply opened, prefix_nil|done].
  - by exists sent, close.
  - exists sent, close. split_and!; [done|done| |by intros ? [= <-]].
    destruct Hf as (Hn & pk & v & [[[Hk Hr] Hsas] Hfin] & Hv & -> & _). by eapply authenticated.
Qed.

(** However a run ends, by returning or by any exception (a cancellation
    and a failure to unsubscribe included), the shared secret, the application
    key and both FINISHED buffers are all zeros. *)
Theorem phase5_run_wipes mode c (s : io W (host phase5_locals)) :
  _client (client (self s)) = Some c -> trace s = [] -> local (self s) = phase5_start_locals ->
  wiped (local (self (run_phase5_auth_pq mode s).2)).
Proof.
  intros Hc Ht Hl. pose proof (run_outcome mode c s Hc Ht) as Ho.
  destruct (run_phase5_auth_pq mode s) as [r s']. cbn.
  destruct Ho as [(_ & -> & _)|(sent & close & _ & _ & Hw & _)]; [|done]. by rewrite Hl.
Qed.
End Theorems.

(** * An honest peripheral

    The environment of a Peripheral that follows the protocol on a lossless
    link, with a user who compares the two displays: the runs it gives show that
    the hypotheses of the theorems can hold and that a run can return. *)
Module Honest.
Section Peripheral.
Context `{Kem, Kdf, Aead}.

Record peripheral := mkPeripheral {
  key_coins : bytes;
  written : list bytes;          (* ciphertext fragments *)
  session : bytes;
  th : bytes;
  keys : Phase5Keys;
}.

Definition no_keys : Phase5Keys := mkPhase5Keys [] [] [] [].

Definition frame (subtype : Z) (payload : bytes) : bytes :=
  frame_wire PHASE5_FRAME_MAGIC PHASE5_FRAME_VERSION subtype payload.

(** START5: reassemble, decapsulate, derive, and announce the SAS. *)
Definition on_start (p : peripheral) (sid : bytes) : list event * peripheral :=
  let (pk, sk) := oqs_generate_keypair (key_coins p) in
  match (ct ← Fragmentation.reassemble_data (written p);
         ss ← oqs_decap_secret sk ct;
         t ← compute_phase5_transcript_hash sid pk ct;
         k ← derive_phase5_keys ss t;
         mret (t, k)) with
  | Ok (t, k) => ([Notified (frame PHASE5_READY_FOR_SAS []) true],
                  mkPeripheral (key_coins p) (written p) sid t k)
  | Err _ => ([Notified (frame PHASE5_ERROR [x01]) true], p)
  end.

Definition on_finished_c (p : peripheral) (fc : bytes) : list event :=
  match compute_finished_c (finished_c (keys p)) (th p), compute_finished_p (finished_p (keys p)) (th p) with
  | Ok expected, Ok fp =>
      [Notified (if bool_decide (fc = expected) then frame PHASE5_FINISHED_P fp
                 else frame PHASE5_ERROR [x06]) true]
  | _, _ => []
  end.

Definition on_request (p : peripheral) : list event :=
  match SecureChannel_init (application (keys p)) (Some (session p)) (Some PERIPHERAL_ROLE) with
  | Ok ch => match (encrypt PHASE5_EXPECTED_PLAINTEXT MSG_TYPE_DATA (zeros 12) ch).1 with
             | Ok wire => [Notified wire true]
             | Err _ => []
             end
  | Err _ => []
  end.

Definition on_control (p : peripheral) (data : bytes) : list event * peripheral :=
  if startswith data PHASE5_START_MAGIC then on_start p (bfrom 6 data)
  else match parse_phase5_frame data with
       | Ok f => if subtype f =? PHASE5_FINISHED_C then (on_finished_c p (payload f), p)
                 else if subtype f =? PHASE5_DATA_REQUEST then (on_request p, p)
                 else ([], p)
       | Err _ => ([], p)
       end.

Definition shown (p : peripheral) : result string :=
  n ← compute_phase5_sas (sas (keys p)) (th p); format_phase5_sas n.

#[export] Instance environment : Env peripheral := {
  ask q p := match q as q return answer q * peripheral with
             | IsConnected _ => (true, p)
             | MtuSize _ => (247, p)
             | Urandom n => (zeros n, p)
             | Coins => ([x2a], p)
             | TimerFired | GuardFailed => (false, p)
             | Now => (0, p)
             end;
  await a p := match a as a return list event * result (value a) * peripheral with
               | ReadGatt _ _ => ([], Ok (oqs_generate_keypair (key_coins p)).1, p)
               | WriteGatt _ u data =>
                   if bool_decide (u = CHAR_CIPHERTEXT_UUID)
                   then ([], Ok tt, mkPeripheral (key_coins p) (written p ++ [data]) (session p) (th p) (keys p))
                   else let (evs, p') := on_control p data in (evs, Ok tt, p')
               | Confirm s => ([], Ok (bool_decide (Ok s = shown p)), p)
               | InspectPairing => ([], Ok (mkPairingState false true "NONE"), p)
               | PairNumericComparison | PairJustWorks => ([], Err (OtherException None), p)
               | FindByName _ | FindByAddress _ => ([], Ok None, p)
               | Connect _ | Disconnect _ | StartNotify _ _ | StopNotify _ _ | Wait | Unpair => ([], Ok tt, p)
               end;
}.

Definition initial : io peripheral (host phase5_locals) :=
  mkIo (mkPeripheral [x17] [] [] [] no_keys)
    (mkHost (mkClient DEVICE_NAME (Some (mkLink 0 false)) None None None None None false) 1
       phase5_start_locals) [].
End Peripheral.

Definition outcome (mode : option string) :=
  @run_phase5_auth_pq peripheral (@environment Toy.kem Toy.kdf Toy.aead) Toy.kem Toy.kdf Toy.aead
    mode (@initial).
End Honest.

Lemma phase5_run_safe_witness :
  exists res sent,
    (Honest.outcome None).1 = Ok res /\ plaintext res = PHASE5_EXPECTED_PLAINTEXT /\
    @finished_run Toy.kem Toy.kdf Toy.aead None (mkLink 0 false) res
      (trace (Honest.outcome None).2) sent.
Proof.
  assert (match (Honest.outcome None).1 with Ok _ => True | Err _ => False end) as Hok
    by (vm_compute; exact I).
  pose proof (@phase5_run_safe _ (@Honest.environment Toy.kem Toy.kdf Toy.aead) Toy.kem Toy.kdf Toy.aead
                None (mkLink 0 false) Honest.initial eq_refl eq_refl) as Hs.
  unfold Honest.outcome in *.
  destruct (@run_phase5_auth_pq _ _ _ _ _ None Honest.initial) as [[res|x] s']; [|destruct Hok].
  destruct Hs as (sent & close & _ & _ & _ & Hres). exists res, sent.
  split; [reflexivity|]. destruct (Hres res eq_refl) as (Hm & pk & v & Hf & Hv & Hsent & Hd & Hp & Hsas).
  split; [exact Hp|]. split; [exact Hm|]. exists pk, v. exact (conj Hf (conj Hv (conj Hsent (conj Hd (conj Hp Hsas))))).
Defined.

Lemma phase5_run_wipes_witness :
  (exists m, (Honest.outcome (Some "finished-c"%string)).1 = Err (Phase5NegativeTestPassed m)) /\
  wiped (local (self (Honest.outcome (Some "finished-c"%string)).2)).
Proof.
  split; [vm_compute; eexists; reflexivity|].
  apply (@phase5_run_wipes _ (@Honest.environment Toy.kem Toy.kdf Toy.aead) Toy.kem Toy.kdf Toy.aead
           (Some "finished-c"%string) (mkLink 0 false) Honest.initial eq_refl eq_refl eq_refl).
Defined.
