(* ===== verification/Phase6Central.v ===== *)
(** src/src/central/phase6_c2p.py: the Central's runner of v0.6, the v0.5
    handshake followed by any number of authenticated round trips, with its five
    negative-test modes. *)

From stdpp Require Import sets.
From S2P Require Import Phase5Auth Prelude Py Digest Interfaces World Constants Fragmentation BleClient Runs Policy Frame Sas Session Runner Phase5.
Open Scope Z_scope.

Definition PHASE6_DEFAULT_ROUNDS : Z := 3.
Definition PHASE6_NEGATIVE_MODES : list string :=
  ["c2p-tamper"; "c2p-replay"; "p2c-tamper"; "p2c-replay"; "pre-auth"].

(** One authenticated application-data round trip. *)
Record Phase6RoundTripResult := mkRoundTrip {
  c2p_plaintext : bytes;
  p2c_plaintext : bytes;
  c2p_sequence : Z;
  p2c_sequence : Z;
  c2p_wire_size : Z;
  p2c_wire_size : Z;
}.

Record Phase6BidirectionalResult := mkPhase6Result {
  round_trips : list Phase6RoundTripResult;
  shown_sas : string;
}.

(** [tampered[-1] ^= 0x01] on a copy. *)
Definition _tamper_secure_wire_copy (wire : bytes) : result bytes :=
  raise_if (blen wire <? 1) (ValueError "secure wire cannot be empty");;
  mret (flip_last_bit wire).

(** The six buffers that the [finally] block wipes. *)
Record phase6_buffers := mkBuffers {
  shared_secret_buffer : bytes;
  application_root_buffer : bytes;
  finished_c_buffer : bytes;
  expected_finished_p_buffer : bytes;
  c2p_key_buffer : bytes;
  p2c_key_buffer : bytes;
}.

Record phase6_vars := mkVars {
  machine : Phase5CentralStateMachine;
  buffers : phase6_buffers;
  c2p_channel : option SecureChannel;
  p2c_channel : option SecureChannel;
}.

Definition phase6_start : phase6_vars := mkVars EMPTY (mkBuffers [] [] [] [] [] []) None None.

Definition set_machine (m : Phase5CentralStateMachine) (x : phase6_vars) : phase6_vars :=
  mkVars m (buffers x) (c2p_channel x) (p2c_channel x).
Definition set_buffers (b : phase6_buffers) (x : phase6_vars) : phase6_vars :=
  mkVars (machine x) b (c2p_channel x) (p2c_channel x).
Definition set_c2p (c : SecureChannel) (x : phase6_vars) : phase6_vars :=
  mkVars (machine x) (buffers x) (Some c) (p2c_channel x).
Definition set_p2c (c : SecureChannel) (x : phase6_vars) : phase6_vars :=
  mkVars (machine x) (buffers x) (c2p_channel x) (Some c).

(** Assignments to the handshake's buffers, and to the traffic keys. *)
Definition set_handshake (ss app fc fp : bytes) (x : phase6_vars) : phase6_vars :=
  set_buffers (mkBuffers ss app fc fp (c2p_key_buffer (buffers x)) (p2c_key_buffer (buffers x))) x.
Definition set_shared (ss : bytes) (x : phase6_vars) : phase6_vars :=
  let b := buffers x in
  set_handshake ss (application_root_buffer b) (finished_c_buffer b) (expected_finished_p_buffer b) x.
Definition set_root (app : bytes) (x : phase6_vars) : phase6_vars :=
  let b := buffers x in
  set_handshake (shared_secret_buffer b) app (finished_c_buffer b) (expected_finished_p_buffer b) x.
Definition set_finished_c (fc : bytes) (x : phase6_vars) : phase6_vars :=
  let b := buffers x in
  set_handshake (shared_secret_buffer b) (application_root_buffer b) fc (expected_finished_p_buffer b) x.
Definition set_expected (fp : bytes) (x : phase6_vars) : phase6_vars :=
  let b := buffers x in
  set_handshake (shared_secret_buffer b) (application_root_buffer b) (finished_c_buffer b) fp x.
Definition set_traffic (c2p p2c : bytes) (x : phase6_vars) : phase6_vars :=
  let b := buffers x in
  set_buffers (mkBuffers (shared_secret_buffer b) (application_root_buffer b) (finished_c_buffer b)
                 (expected_finished_p_buffer b) c2p p2c) x.

Definition wipe_buffers (b : phase6_buffers) : phase6_buffers :=
  mkBuffers (wipe (shared_secret_buffer b)) (wipe (application_root_buffer b))
    (wipe (finished_c_buffer b)) (wipe (expected_finished_p_buffer b))
    (wipe (c2p_key_buffer b)) (wipe (p2c_key_buffer b)).

Section Runner6.
Context {W : Type} `{Env W, Kem, Kdf, Aead}.

Abbreviation coroutine := (method (io W (host (runner phase6_vars)))).

Definition is_mode (negative_test : option string) (m : string) : bool :=
  bool_decide (negative_test = Some m).

Definition on_machine {A} : method Phase5CentralStateMachine A -> coroutine A :=
  on_object (fun x => Some (machine x)) set_machine.
Definition on_c2p {A} : method SecureChannel A -> coroutine A := on_object c2p_channel set_c2p.
Definition on_p2c {A} : method SecureChannel A -> coroutine A := on_object p2c_channel set_p2c.

Definition timed_out : exn := Phase6BidirectionalError "Timed out waiting".

Definition starts_with_pqs6 (raw : bytes) : bool := bool_decide (bto 4 raw = PHASE6_FRAME_MAGIC).

(** [None] when the message is no error frame. *)
Definition _parse_phase6_error_status (raw : bytes) : coroutine (option Z) :=
  if negb (starts_with_pqs6 raw) then mret None
  else
    frame ← try_except is_value_error
      (fun _ => raise (Phase6NegativeTestFailed "NEGATIVE TEST FAIL: malformed PQS6 response"))
      (run (parse_phase6_frame raw));
    raise_when (negb (p6_subtype frame =? PHASE6_ERROR))
      (Phase6NegativeTestFailed "NEGATIVE TEST FAIL: unexpected PQS6 control subtype");;
    raise_when (negb (blen (p6_payload frame) =? 1))
      (Phase6NegativeTestFailed "NEGATIVE TEST FAIL: malformed PQS6 error payload");;
    status ← run (idx (p6_payload frame) 0);
    mret (Some status).

(** Secure Data before the handshake: the write has to fail. *)
Definition preauth_test : coroutine unit :=
  dummy_channel ← run (SecureChannel_init (zeros 32) (Some (zeros 16)) (Some CENTRAL_ROLE));
  iv ← query_env (Urandom GCM_IV_SIZE);
  preauth_wire ← run (encrypt (lit "PREAUTH") MSG_TYPE_DATA iv dummy_channel).1;
  try_except is_exception
    (fun _ =>
       connected ← is_connected;
       raise_when (negb connected) (Phase6NegativeTestFailed
         "NEGATIVE TEST FAIL: connection was lost while testing pre-auth rejection");;
       raise (Phase6NegativeTestPassed
         "NEGATIVE TEST PASS: pre-auth Secure Data WRITE rejected by Peripheral"))
    (write_secure_data preauth_wire);;
  raise (Phase6NegativeTestFailed
    "NEGATIVE TEST FAIL: Peripheral accepted Secure Data before authentication").

(** Key, encapsulation, key schedule and ciphertext: the session id and the SAS
    are returned. *)
Definition exchange_keys : coroutine (bytes * string) :=
  public_key ← read_fragmented_public_key;
  raise_when (negb (blen public_key =? PK_SIZE)) (Phase6BidirectionalError "Public key size mismatch");;
  coins ← query_env Coins;
  encapsulated ← run (encapsulate public_key coins);
  let '(ciphertext, shared_secret) := encapsulated in
  update_vars (set_shared shared_secret);;
  raise_when (negb (blen ciphertext =? CT_SIZE)) (Phase6BidirectionalError "Ciphertext size mismatch");;
  raise_when (negb (blen shared_secret =? SS_SIZE)) (Phase6BidirectionalError "Shared-secret size mismatch");;
  urandom ← query_env (Urandom SESSION_ID_SIZE);
  let session_id := generate_session_id (fun _ => urandom) in
  raise_when (negb (blen session_id =? SESSION_ID_SIZE))
    (Phase6BidirectionalError "Invalid generated session_id length");;
  transcript_hash ← run (compute_phase5_transcript_hash session_id public_key ciphertext);
  phase5_keys ← run (derive_phase5_keys shared_secret transcript_hash);
  update_vars (fun x => set_shared (wipe (shared_secret_buffer (buffers x))) x);;
  n ← run (compute_phase5_sas (sas phase5_keys) transcript_hash);
  shown ← run (format_phase5_sas n);
  update_vars (set_root (application phase5_keys));;
  fc ← run (compute_finished_c (finished_c phase5_keys) transcript_hash);
  update_vars (set_finished_c fc);;
  fp ← run (compute_finished_p (finished_p phase5_keys) transcript_hash);
  update_vars (set_expected fp);;
  write_fragmented_ciphertext ciphertext;;
  mret (session_id, shown).

(** START5, READY_FOR_SAS and the SAS decision. *)
Definition agree_on_sas (session_id : bytes) (shown : string) : coroutine unit :=
  start5 ← on_machine (start session_id);
  send_control start5;;
  raw_ready ← _receive timed_out;
  try_except (fun x => is_value_error x || is_phase5_state_error x)
    (fun _ => raise (Phase6BidirectionalError "Invalid READY_FOR_SAS"))
    (ready ← run (parse_phase5_frame raw_ready);
     raise_when (subtype ready =? PHASE5_ERROR) (Phase5StateError "Peripheral rejected Phase 5 start");;
     on_machine (receive_ready_for_sas ready));;
  confirmed ← perform (Confirm shown);
  if (confirmed : bool) then mret tt
  else on_machine reject_sas;;
       raise (Phase6BidirectionalError "SAS rejected; Phase 6 traffic was not activated").

(** FINISHED_C and the verification of FINISHED_P. *)
Definition exchange_finished : coroutine unit :=
  x ← get_vars;
  finished_c_frame ← on_machine (confirm_sas (finished_c_buffer (buffers x)));
  send_control finished_c_frame;;
  update_vars (fun x => set_finished_c (wipe (finished_c_buffer (buffers x))) x);;
  raw_finished_p ← _receive timed_out;
  try_except (fun x => is_value_error x || is_phase5_state_error x)
    (fun _ => raise (Phase6BidirectionalError "Peripheral FINISHED verification failed"))
    (frame ← run (parse_phase5_frame raw_finished_p);
     raise_when (subtype frame =? PHASE5_ERROR) (Phase5StateError "Peripheral rejected FINISHED_C");;
     raise_when (negb (subtype frame =? PHASE5_FINISHED_P)) (Phase5StateError "Expected FINISHED_P");;
     raise_when (negb (blen (payload frame) =? FINISHED_SIZE))
       (Phase5StateError "FINISHED_P has invalid size");;
     x ← get_vars;
     on_machine (receive_finished_p frame (expected_finished_p_buffer (buffers x))));;
  update_vars (fun x => set_expected (wipe (expected_finished_p_buffer (buffers x))) x).

(** The directional keys and the two channels. *)
Definition activate (session_id : bytes) : coroutine unit :=
  x ← get_vars;
  traffic_keys ← run (derive_phase6_traffic_keys (application_root_buffer (buffers x)));
  update_vars (set_traffic (central_to_peripheral traffic_keys) (peripheral_to_central traffic_keys));;
  update_vars (fun x => set_root (wipe (application_root_buffer (buffers x))) x);;
  x ← get_vars;
  c2p ← run (SecureChannel_init (c2p_key_buffer (buffers x)) (Some session_id) (Some CENTRAL_ROLE));
  update_vars (set_c2p c2p);;
  p2c ← run (SecureChannel_init (p2c_key_buffer (buffers x)) (Some session_id) (Some CENTRAL_ROLE));
  update_vars (set_p2c p2c).

(** [c2p_channel.encrypt(plaintext, msg_type=MSG_TYPE_DATA)]. *)
Definition seal (plaintext : bytes) : coroutine bytes :=
  iv ← query_env (Urandom GCM_IV_SIZE);
  on_c2p (encrypt plaintext MSG_TYPE_DATA iv).

(** ** The negative tests of the traffic: each one ends the run *)

Definition expect_status (raw : bytes) (expected : Z) : coroutine unit :=
  status ← _parse_phase6_error_status raw;
  raise_when (negb (bool_decide (status = Some expected)))
    (Phase6NegativeTestFailed "NEGATIVE TEST FAIL: expected another status").

(** The last bit, and nothing else, differs. *)
Definition only_last_bit (tampered wire : bytes) : coroutine bool :=
  a ← run (idx tampered (blen tampered - 1));
  b ← run (idx wire (blen wire - 1));
  mret (bool_decide (bto (blen tampered - 1) tampered = bto (blen wire - 1) wire) && (a =? Z.lxor b 0x01)).

Definition c2p_tamper_test : coroutine unit :=
  legitimate_wire ← seal (lit "PING 0");
  tampered_wire ← run (_tamper_secure_wire_copy legitimate_wire);
  sound ← only_last_bit tampered_wire legitimate_wire;
  raise_when (negb sound)
    (Phase6NegativeTestFailed "NEGATIVE TEST FAIL: tamper hook changed more than the requested bit");;
  write_secure_data tampered_wire;;
  raw_error ← _receive timed_out;
  expect_status raw_error PHASE6_STATUS_AUTHENTICATION_FAILURE;;
  raise (Phase6NegativeTestPassed
    "NEGATIVE TEST PASS: tampered C->P AES-GCM frame rejected by Peripheral").

Definition c2p_replay_test : coroutine unit :=
  legitimate_wire ← seal (lit "PING 0");
  write_secure_data legitimate_wire;;
  first_response ← _receive timed_out;
  raise_when (starts_with_pqs6 first_response)
    (Phase6NegativeTestFailed "NEGATIVE TEST FAIL: legitimate first C->P frame was rejected");;
  first_plaintext ← try_except (fun x => bool_decide (x = InvalidTag) || is_value_error x)
    (fun _ => raise (Phase6NegativeTestFailed
       "NEGATIVE TEST FAIL: legitimate PONG 0 could not be authenticated"))
    (on_p2c (decrypt first_response MSG_TYPE_DATA));
  raise_when (negb (bool_decide (first_plaintext = lit "PONG 0")))
    (Phase6NegativeTestFailed "NEGATIVE TEST FAIL: unexpected first response");;
  write_secure_data legitimate_wire;;
  replay_response ← _receive timed_out;
  expect_status replay_response PHASE6_STATUS_INVALID_PROTOCOL_STATE;;
  raise (Phase6NegativeTestPassed
    "NEGATIVE TEST PASS: replayed C->P secure frame rejected by Peripheral").

(** PING 0 and the answer, for the tests of the other direction. *)
Definition legitimate_round : coroutine bytes :=
  c2p_wire ← seal (lit "PING 0");
  write_secure_data c2p_wire;;
  legitimate_response ← _receive timed_out;
  raise_when (starts_with_pqs6 legitimate_response) (Phase6NegativeTestFailed
    "NEGATIVE TEST FAIL: Peripheral did not produce a legitimate secure response");;
  mret legitimate_response.

Definition p2c_tamper_test : coroutine unit :=
  legitimate_response ← legitimate_round;
  tampered_response ← run (_tamper_secure_wire_copy legitimate_response);
  accepted ← try_except (fun x => bool_decide (x = InvalidTag)) (fun _ => mret false)
    (on_p2c (decrypt tampered_response MSG_TYPE_DATA);; mret true);
  raise_when accepted
    (Phase6NegativeTestFailed "NEGATIVE TEST FAIL: tampered P->C frame was accepted by Central");;
  plaintext ← try_except is_exception
    (fun _ => raise (Phase6NegativeTestFailed
       "NEGATIVE TEST FAIL: failed P->C authentication incorrectly advanced or corrupted receive state"))
    (on_p2c (decrypt legitimate_response MSG_TYPE_DATA));
  raise_when (negb (bool_decide (plaintext = lit "PONG 0")))
    (Phase6NegativeTestFailed "NEGATIVE TEST FAIL: legitimate P->C frame did not decrypt to PONG 0");;
  raise (Phase6NegativeTestPassed
    "NEGATIVE TEST PASS: tampered P->C frame rejected by Central without advancing receive state").

Definition p2c_replay_test : coroutine unit :=
  legitimate_response ← legitimate_round;
  plaintext ← try_except is_exception
    (fun _ => raise (Phase6NegativeTestFailed
       "NEGATIVE TEST FAIL: first legitimate P->C frame was rejected"))
    (on_p2c (decrypt legitimate_response MSG_TYPE_DATA));
  raise_when (negb (bool_decide (plaintext = lit "PONG 0")))
    (Phase6NegativeTestFailed "NEGATIVE TEST FAIL: unexpected first P->C plaintext");;
  try_except (fun x => is_value_error x || bool_decide (x = InvalidTag))
    (fun x =>
       if is_value_error x
       then raise (Phase6NegativeTestPassed
              "NEGATIVE TEST PASS: replayed P->C secure frame rejected by Central")
       else raise (Phase6NegativeTestFailed
              "NEGATIVE TEST FAIL: P->C replay reached tag verification instead of replay rejection"))
    (on_p2c (decrypt legitimate_response MSG_TYPE_DATA));;
  raise (Phase6NegativeTestFailed
    "NEGATIVE TEST FAIL: replayed P->C secure frame was accepted by Central").

Definition traffic_test (negative_test : option string) : coroutine unit :=
  if is_mode negative_test "c2p-tamper" then c2p_tamper_test
  else if is_mode negative_test "c2p-replay" then c2p_replay_test
  else if is_mode negative_test "p2c-tamper" then p2c_tamper_test
  else if is_mode negative_test "p2c-replay" then p2c_replay_test
  else raise_when (negb (bool_decide (negative_test = None)))
         (Phase6NegativeTestFailed "NEGATIVE TEST FAIL: negative mode reached positive traffic path").

(** ** The round trips *)

(** A control frame instead of data is a refusal. *)
Definition refuse_control (raw_response : bytes) : coroutine unit :=
  if negb (starts_with_pqs6 raw_response) then mret tt
  else
    control ← try_except is_value_error
      (fun _ => raise (Phase6BidirectionalError "Malformed Phase 6 control/status response"))
      (run (parse_phase6_frame raw_response));
    (if p6_subtype control =? PHASE6_ERROR then
       raise_when (negb (blen (p6_payload control) =? 1))
         (Phase6BidirectionalError "Malformed Phase 6 error payload");;
       run (idx (p6_payload control) 0);;
       raise (Phase6BidirectionalError "Peripheral rejected secure application frame")
     else mret tt);;
    raise (Phase6BidirectionalError "Unexpected non-error PQS6 control frame").

Definition round_trip (i : Z) : coroutine Phase6RoundTripResult :=
  c2p_wire ← seal (ping i);
  raise_when (negb (wire_seq c2p_wire =? i)) (Phase6BidirectionalError "Unexpected C->P sequence");;
  write_secure_data c2p_wire;;
  raw_response ← _receive timed_out;
  refuse_control raw_response;;
  raise_when (blen raw_response <? 8) (Phase6BidirectionalError "P->C secure response is too short");;
  answer ← try_except (fun x => bool_decide (x = InvalidTag) || is_value_error x)
    (fun x => raise (Phase6BidirectionalError
       (if bool_decide (x = InvalidTag) then "P->C AES-256-GCM authentication failed"
        else "P->C secure-channel validation failed")))
    (on_p2c (decrypt raw_response MSG_TYPE_DATA));
  raise_when (negb (wire_seq raw_response =? i)) (Phase6BidirectionalError "Unexpected P->C sequence");;
  raise_when (negb (bool_decide (answer = pong i))) (Phase6BidirectionalError "Unexpected P->C plaintext");;
  mret (mkRoundTrip (ping i) answer (wire_seq c2p_wire) (wire_seq raw_response)
          (blen c2p_wire) (blen raw_response)).

(** The loop appends to [round_results]. *)
Fixpoint round_trips_of (l : list Z) (round_results : list Phase6RoundTripResult)
  : coroutine (list Phase6RoundTripResult) :=
  match l with
  | [] => mret round_results
  | i :: l => r ← round_trip i; round_trips_of l (round_results ++ [r])
  end.

Definition sent_count : method SecureChannel Z := c ← get_self; mret (_sent_count c).
Definition recv_count : method SecureChannel Z := c ← get_self; mret (_recv_count c).

(** The body of the [try] block. *)
Definition bidirectional (rounds : Z) (negative_test : option string) : coroutine Phase6BidirectionalResult :=
  subscribe;;
  (if is_mode negative_test "pre-auth" then preauth_test else mret tt);;
  agreed ← exchange_keys;
  let '(session_id, shown) := agreed in
  agree_on_sas session_id shown;;
  exchange_finished;;
  activate session_id;;
  traffic_test negative_test;;
  results ← round_trips_of (seqZ 0 rounds) [];
  sent ← on_c2p sent_count;
  raise_when (negb (sent =? rounds)) (Phase6BidirectionalError "Unexpected Central send count");;
  received ← on_p2c recv_count;
  raise_when (negb (received =? rounds)) (Phase6BidirectionalError "Unexpected Central receive count");;
  mret (mkPhase6Result results shown).

(** The [finally] block. *)
Definition leave6 : coroutine unit :=
  update_vars (fun x => set_buffers (wipe_buffers (buffers x)) x);;
  unsubscribe (fun _ => mret tt).

Definition run_phase6_bidirectional (rounds : Z) (negative_test : option string)
  : coroutine Phase6BidirectionalResult :=
  begin_run phase6_start;;
  raise_when (rounds <? 1) (Phase6BidirectionalError "rounds must be at least 1");;
  raise_when (negb (match negative_test with
                    | None => true
                    | Some m => bool_decide (m ∈ PHASE6_NEGATIVE_MODES)
                    end)) (Phase6BidirectionalError "Unknown Phase 6 negative test");;
  connected ← is_connected;
  raise_when (negb connected) (Phase6BidirectionalError "BLE client not connected");;
  try_finally leave6 (bidirectional rounds negative_test).

Definition run_phase6_c2p : coroutine Phase6BidirectionalResult := run_phase6_bidirectional 1 None.
End Runner6.

(** * What may be sent, and on what evidence *)

(** The values one handshake is about. *)
Record agreement6 := mkAgreement6 {
  g_public_key : bytes;
  g_ciphertext : bytes;
  g_ss : bytes;
  g_session_id : bytes;
  g_keys : Phase5Keys;
  g_finished_c : bytes;
  g_finished_p : bytes;
  g_sas : string;
}.

Section Evidence.
Context `{Kem, Kdf, Aead}.
Variables (rounds : Z) (mode : option string).

(** The v0.5 key schedule of the source. *)
Definition scheduled (v : agreement6) : Prop :=
  blen (g_session_id v) = SESSION_ID_SIZE /\
  exists th n, compute_phase5_transcript_hash (g_session_id v) (g_public_key v) (g_ciphertext v) = Ok th /\
    derive_phase5_keys (g_ss v) th = Ok (g_keys v) /\
    compute_phase5_sas (sas (g_keys v)) th = Ok n /\ format_phase5_sas n = Ok (g_sas v) /\
    compute_finished_c (finished_c (g_keys v)) th = Ok (g_finished_c v) /\
    compute_finished_p (finished_p (g_keys v)) th = Ok (g_finished_p v).

Definition start5_frame (v : agreement6) : bytes := PHASE5_START_MAGIC ++ g_session_id v.

(** The whole ciphertext was delivered; READY_FOR_SAS answered START5; the person
    said that the two SAS match; FINISHED_C was answered by the FINISHED_P
    expected. *)
Definition E_delivered (v : agreement6) (t : list observed) : Prop :=
  scheduled v /\ delivered_to (g_public_key v) (g_ciphertext v) (g_ss v) t.

Definition E_ready (v : agreement6) (t : list observed) : Prop :=
  E_delivered v t /\ wrote CHAR_CONTROL_UUID (start5_frame v) t /\
  exists raw, raw ∈ heard t /\ parse_phase5_frame raw = Ok (mkPhase5Frame PHASE5_READY_FOR_SAS []).

Definition E_confirmed (v : agreement6) (t : list observed) : Prop :=
  E_ready v t /\ Did (Confirm (g_sas v)) (Ok true) ∈ t.

Definition E_finished (v : agreement6) (t : list observed) : Prop :=
  E_confirmed v t /\ wrote CHAR_CONTROL_UUID (pqs5 PHASE5_FINISHED_C (g_finished_c v)) t /\
  exists raw, raw ∈ heard t /\ parse_phase5_frame raw = Ok (mkPhase5Frame PHASE5_FINISHED_P (g_finished_p v)).

#[export] Instance heard_frame_lasting f :
  Lasting (fun t => exists raw, raw ∈ heard t /\ parse_phase5_frame raw = Ok f).
Proof. apply lasting_ex. intros raw. apply _. Qed.
#[export] Instance E_delivered_lasting v : Lasting (E_delivered v).
Proof. apply _. Qed.
#[export] Instance E_ready_lasting v : Lasting (E_ready v).
Proof. apply _. Qed.
#[export] Instance E_confirmed_lasting v : Lasting (E_confirmed v).
Proof. apply _. Qed.
#[export] Instance E_finished_lasting v : Lasting (E_finished v).
Proof. apply _. Qed.

Definition traffic_keys (v : agreement6) (tk : Phase6TrafficKeys) : Prop :=
  derive_phase6_traffic_keys (application (g_keys v)) = Ok tk.

(** A PING under the key towards the peripheral, with its sequence number. *)
Definition ping_wire (v : agreement6) (i : Z) (d : bytes) : Prop :=
  exists tk, traffic_keys v tk /\
    sealed (central_to_peripheral tk) (g_session_id v) CENTRAL_ROLE i (ping i) d.

Definition phase6_policy (t : list observed) (a : action) : Prop :=
  match a with
  | Wait | StartNotify _ _ | StopNotify _ _ | ReadGatt _ _ => True
  | Confirm s => exists v, E_ready v t /\ s = g_sas v
  | WriteGatt _ u d =>
      u = CHAR_CIPHERTEXT_UUID /\ fresh_ciphertext t d
      \/ u = CHAR_CONTROL_UUID /\ (exists v,
           E_delivered v t /\ d = start5_frame v
           \/ E_confirmed v t /\ d = pqs5 PHASE5_FINISHED_C (g_finished_c v))
      \/ u = CHAR_DATA_UUID /\
           ((exists v i w, E_finished v t /\ 0 <= i < rounds /\ ping_wire v i w /\
               (d = w \/ mode = Some "c2p-tamper"%string /\ i = 0 /\ d = flip_last_bit w))
            \/ mode = Some "pre-auth"%string /\
               sealed (zeros 32) (zeros 16) CENTRAL_ROLE 0 (lit "PREAUTH") d)
  | _ => False
  end.

#[export] Instance phase6_listens : Listens phase6_policy.
Proof. by split. Qed.

(** What a round trip reports of PING and PONG [i]. *)
Definition reported (r : Phase6RoundTripResult) : bytes * bytes * Z * Z :=
  (c2p_plaintext r, p2c_plaintext r, c2p_sequence r, p2c_sequence r).
Definition round_report (i : Z) : bytes * bytes * Z * Z := (ping i, pong i, i, i).

(** A run that returns: no negative mode, the whole handshake, the SAS it shows,
    and all its round trips under the derived keys, in order. *)
Definition phase6_done (res : Phase6BidirectionalResult) (t : list observed) : Prop :=
  mode = None /\ map reported (round_trips res) = map round_report (seqZ 0 rounds) /\
  exists v tk, E_finished v t /\ shown_sas res = g_sas v /\ traffic_keys v tk /\
    traffic (central_to_peripheral tk) (peripheral_to_central tk) (g_session_id v) rounds t.

#[export] Instance phase6_done_lasting res : Lasting (phase6_done res).
Proof.
  intros t u (Hm & Hr & v & tk & Hf & Hs & Hk & Ht). split; [done|]. split; [done|]. exists v, tk.
  split_and!; [by apply E_finished_lasting|done|done|by apply traffic_lasting].
Qed.

Definition cleared6 (x : phase6_vars) : Prop := buffers x = wipe_buffers (buffers x).

Lemma wipe_buffers_cleared b : wipe_buffers b = wipe_buffers (wipe_buffers b).
Proof. unfold wipe_buffers. cbn. by rewrite !wipe_wipe. Qed.
End Evidence.

Section Runs6.
Context {W : Type} `{Env W, Kem, Kdf, Aead}.
Variables (rounds : Z) (mode : option string).
Hypothesis Hrounds : 1 <= rounds.

Abbreviation at6 := (at_ (W := W) (L := runner phase6_vars) (phase6_policy rounds mode)).
Abbreviation coroutine := (method (io W (host (runner phase6_vars)))).
Abbreviation block x F m R := (triple (at6 (having x F)) m (fun a => at6 (R a)) (fun _ => at6 covered)).
Implicit Types F : list observed -> Prop.

(** A block that ends the run. *)
Abbreviation ends x F m := (triple (at6 (having x F)) m (fun _ _ => False) (fun _ => at6 covered)).

(** The variables after an assignment, in normal form. *)
Ltac assign :=
  apply r_vars;
  lazymatch goal with
  | |- triple (at_ _ (having ?x _)) _ _ _ =>
      let y := eval cbv [set_machine set_buffers set_c2p set_p2c set_handshake set_shared set_root
        set_finished_c set_expected set_traffic machine buffers shared_secret_buffer
        application_root_buffer finished_c_buffer expected_finished_p_buffer c2p_key_buffer
        p2c_key_buffer c2p_channel p2c_channel phase6_start] in x in
      change x with y
  end.

Lemma data_allowed6 v i w d t c :
  E_finished v t -> 0 <= i < rounds -> ping_wire v i w ->
  d = w \/ mode = Some "c2p-tamper"%string /\ i = 0 /\ d = flip_last_bit w ->
  phase6_policy rounds mode t (WriteGatt c CHAR_DATA_UUID d).
Proof. intros Hf Hi Hw Hd. right. right. split; [done|]. left. by exists v, i, w. Qed.

Lemma at_preauth_test x F {HF : Lasting F} :
  mode = Some "pre-auth"%string -> ends x F preauth_test.
Proof.
  intros Hm. unfold preauth_test. apply r_run. intros ch Hch. apply channel_init_ok in Hch as [-> _]; [|done].
  apply r_ask with (q := Urandom GCM_IV_SIZE). intros iv. apply r_run. intros d Hd.
  destruct (encrypt (lit "PREAUTH") MSG_TYPE_DATA iv (sender (zeros 32) (zeros 16) 0)) as [r c'] eqn:He.
  cbn in Hd. subst r. apply send_next in He as [He _].
  apply r_guarded with (R := fun _ => covered).
  - eapply triple_conseq; [intros s Hs; exact Hs|apply (at_write_secure_data _ (having x F)); [apply _|]| |].
    + intros c l t _. right. right. split; [done|]. by right.
    + intros u s. apply at_implies. by intros l t [[Hq _] _].
    + intros e s. apply at_implies, having_covered.
  - intros e. apply step_connected. intros b. apply step_raise_when; [done|]. intros _. by apply at_raise.
  - intros u. by apply at_raise.
Qed.

(** ** The handshake *)

Definition handshake_vars (v : agreement6) (m : Phase5CentralStateMachine) (app fc fp : bytes) : phase6_vars :=
  mkVars m (mkBuffers (wipe (g_ss v)) app fc fp [] []) None None.

Definition ready_vars (v : agreement6) (m : Phase5CentralStateMachine) : phase6_vars :=
  handshake_vars v m (application (g_keys v)) (g_finished_c v) (g_finished_p v).

Lemma at_exchange_keys :
  block phase6_start (fun _ => True) exchange_keys
    (fun r l t => exists v, (g_session_id v = r.1 /\ g_sas v = r.2) /\
       having (ready_vars v EMPTY) (E_delivered v) l t).
Proof.
  unfold exchange_keys. rule r_read_key. intros pk. apply r_when. intros Hpk%negb_false_iff%Z.eqb_eq.
  apply r_ask with (q := Coins). intros coins. apply r_run. intros [ct ss] Hct. assign.
  apply r_when. intros _. apply r_when. intros _.
  apply r_ask with (q := Urandom SESSION_ID_SIZE). intros sid. apply r_when.
  intros Hsid%negb_false_iff%Z.eqb_eq. unfold generate_session_id in *.
  apply r_run. intros th Hth. apply r_run. intros keys Hkeys. assign.
  apply r_run. intros n Hn. apply r_run. intros shown Hshown. assign. apply r_run. intros fc Hfc. assign.
  apply r_run. intros fp Hfp. assign.
  rule r_ciphertext; [|by intros t [_ Hr]|exact Hpk|exact Hct|].
  { intros t c f _ Hf. by left. }
  intros k. apply triple_ret. intros s. apply at_implies. intros l t (Hq & He & _ & Hd).
  exists (mkAgreement6 pk ct ss sid keys fc fp shown). split; [done|]. split; [done|]. split; [done|].
  split; [|done]. split; [done|]. by exists th, n.
Qed.

(** A method of the machine. *)
Lemma r_machine {B A} x F `{!Lasting F} (m : method Phase5CentralStateMachine A) (k : A -> coroutine B) Q :
  (forall a m', m (machine x) = (Ok a, m') ->
     triple (at6 (having (set_machine m' x) F)) (k a) Q (fun _ => at6 covered)) ->
  triple (at6 (having x F)) (a ← on_machine m; k a) Q (fun _ => at6 covered).
Proof. apply r_object; [apply _|done]. Qed.

Lemma at_machine {A} x F `{!Lasting F} (m : method Phase5CentralStateMachine A) R :
  (forall a m', m (machine x) = (Ok a, m') -> implies (having (set_machine m' x) F) (R a)) ->
  block x F (on_machine m) R.
Proof.
  intros Hm. apply triple_last. rule r_machine. intros a m' Ha. apply triple_ret. intros s.
  by apply at_implies, (Hm a m').
Qed.

Lemma at_agree_on_sas v :
  block (ready_vars v EMPTY) (E_delivered v) (agree_on_sas (g_session_id v) (g_sas v))
    (fun _ => having (ready_vars v WAIT_SAS_CONFIRM) (E_confirmed v)).
Proof.
  unfold agree_on_sas. rule r_machine. intros w m' [-> ->]%start_Ok.
  change (set_machine _ _) with (ready_vars v WAIT_READY_FOR_SAS).
  rule r_control.
  { intros t c Hd. right. left. split; [done|]. exists v. by left. }
  rule r_receive. intros raw.
  apply r_guarded with (R := fun _ => having (ready_vars v WAIT_SAS_CONFIRM) (E_ready v)).
  - apply r_run. intros [st p] Hf. apply r_when. intros _. rule at_machine.
    intros u m' (Hst & Hp & ->)%ready_Ok. cbn in Hst, Hp. subst st p.
    apply having_implies. intros t [[Hd Hw] Hr]. split; [done|]. split; [done|]. by exists raw.
  - intros e. by apply at_raise.
  - intros u. eapply step_at; [apply (at_perform _ (having (ready_vars v WAIT_SAS_CONFIRM) (E_ready v))
      (Confirm (g_sas v))); [apply _|intros l t [_ [_ Hr]]; by exists v]|apply having_covered|].
    intros b. eapply at_weaken with (J' := having (ready_vars v WAIT_SAS_CONFIRM)
      (fun t => E_ready v t /\ Did (Confirm (g_sas v)) (Ok b) ∈ t)); [by apply along_having|].
    destruct b; [by apply triple_ret|]. rule r_machine. intros a m' _. apply r_raise.
Qed.

Definition finished_vars (v : agreement6) : phase6_vars :=
  handshake_vars v AUTHENTICATED (application (g_keys v)) (wipe (g_finished_c v)) (wipe (g_finished_p v)).

Lemma at_exchange_finished6 v :
  block (ready_vars v WAIT_SAS_CONFIRM) (E_confirmed v) exchange_finished
    (fun _ => having (finished_vars v) (E_finished v)).
Proof.
  unfold exchange_finished. apply r_get. rule r_machine. intros w m' [-> ->]%confirm_Ok.
  change (set_machine _ _) with (ready_vars v WAIT_FINISHED_P).
  rule r_control.
  { intros t c Hd. right. left. split; [done|]. exists v. by right. }
  unfold ready_vars, handshake_vars. assign. rule r_receive. intros raw.
  apply r_guarded with (R := fun _ => having (handshake_vars v AUTHENTICATED (application (g_keys v))
    (wipe (g_finished_c v)) (g_finished_p v)) (E_finished v)).
  - apply r_run. intros [st p] Hf. apply r_when. intros _. apply r_when. intros _. apply r_when. intros _.
    apply r_get. rule at_machine. intros u m' (Hst & Hp & ->)%finished_Ok. cbn in Hst, Hp. subst st p.
    apply having_implies. intros t [[Hd Hw] Hr]. split; [done|]. split; [done|]. by exists raw.
  - intros e. by apply at_raise.
  - intros u. apply at_update. intros h t [Hq [He Hf]]. unfold having, stage. cbn. by rewrite He.
Qed.

(** The variables during the traffic: [tx] messages sent and [rx] received. *)
Definition traffic_vars (v : agreement6) (tk : Phase6TrafficKeys) (tx rx : Z) : phase6_vars :=
  mkVars AUTHENTICATED
    (mkBuffers (wipe (g_ss v)) (wipe (application (g_keys v))) (wipe (g_finished_c v)) (wipe (g_finished_p v))
       (central_to_peripheral tk) (peripheral_to_central tk))
    (Some (sender (central_to_peripheral tk) (g_session_id v) tx))
    (Some (receiver (peripheral_to_central tk) (g_session_id v) rx)).

Lemma E_finished_session6 v t : E_finished v t -> blen (g_session_id v) = SESSION_ID_SIZE.
Proof. by intros (((([Hs _] & _) & _) & _) & _). Qed.

Lemma at_activate6 v :
  block (finished_vars v) (E_finished v) (activate (g_session_id v))
    (fun _ l t => exists tk, traffic_keys v tk /\ having (traffic_vars v tk 0 0) (E_finished v) l t).
Proof.
  eapply r_fact; [by apply E_finished_session6|]. intros Hs. unfold activate, finished_vars, handshake_vars.
  apply r_get. apply r_run. intros tk Htk. assign. assign. apply r_get. apply r_run.
  intros ch1 [Hch1 _]%channel_init_ok; [|done]. assign. apply r_run.
  intros ch2 [_ Hch2]%channel_init_ok; [|done].
  apply at_update. intros h t [Hq [He Hf]]. exists tk. split; [done|].
  unfold having, stage, traffic_vars. cbn. rewrite He. cbn. by rewrite Hch1, Hch2.
Qed.

(** What is known after [n] round trips. *)
Definition in_rounds (v : agreement6) (tk : Phase6TrafficKeys) (n : Z) (t : list observed) : Prop :=
  E_finished v t /\
  traffic (central_to_peripheral tk) (peripheral_to_central tk) (g_session_id v) n t.

Section Traffic6.
Variables (v : agreement6) (tk : Phase6TrafficKeys).
Hypothesis Htk : traffic_keys v tk.
Implicit Types i : Z.

Lemma at_seal i (pt : bytes) rx F {HF : Lasting F} {B} (k : bytes -> coroutine B) Q :
  (forall d, sealed (central_to_peripheral tk) (g_session_id v) CENTRAL_ROLE i pt d ->
     triple (at6 (having (traffic_vars v tk (i + 1) rx) F)) (k d) Q (fun _ => at6 covered)) ->
  triple (at6 (having (traffic_vars v tk i rx) F)) (d ← seal pt; k d) Q (fun _ => at6 covered).
Proof.
  intros Hk.
  apply r_block with (R := fun d l t => sealed (central_to_peripheral tk) (g_session_id v) CENTRAL_ROLE i pt d /\
    having (traffic_vars v tk (i + 1) rx) F l t).
  - unfold seal. apply r_ask with (q := Urandom GCM_IV_SIZE). intros iv. apply triple_last.
    rule r_object; [done|]. intros d ch [Hd ->]%send_next. apply triple_ret. intros s.
    apply at_implies. by intros l t Hl.
  - intros d. apply at_pure. apply Hk.
Qed.

(** ** The negative tests of the traffic *)

Lemma starts_ends_status x F {HF : Lasting F} raw n e :
  ends x F (expect_status raw n;; raise e : coroutine unit).
Proof.
  apply lost_block; [|intros u; by apply at_raise]. unfold expect_status. apply keeps_bind.
  - unfold _parse_phase6_error_status. destruct (negb _); [by apply triple_ret|].
    apply keeps_bind; [apply keeps_try; [by apply triple_run|intros; apply keeps_raise]|].
    intros frame. apply step_raise_when; [done|]. intros _. apply step_raise_when; [done|]. intros _.
    apply step_result; [done|]. intros st _. by apply triple_ret.
  - intros st. by apply triple_raise_when.
Qed.

(** The first bytes on the data characteristic. *)
Lemma first_allowed t c d w :
  in_rounds v tk 0 t -> sealed (central_to_peripheral tk) (g_session_id v) CENTRAL_ROLE 0 (ping 0) w ->
  d = w \/ mode = Some "c2p-tamper"%string /\ 0 = 0 /\ d = flip_last_bit w ->
  phase6_policy rounds mode t (WriteGatt c CHAR_DATA_UUID d).
Proof. intros [Hf _] Hw. apply (data_allowed6 v 0 w d t c Hf); [lia|by exists tk]. Qed.

Lemma at_c2p_tamper_test :
  mode = Some "c2p-tamper"%string -> ends (traffic_vars v tk 0 0) (in_rounds v tk 0) c2p_tamper_test.
Proof.
  intros Hm. unfold c2p_tamper_test. rule at_seal. intros w Hw. apply r_run.
  intros bad (u & _ & [= <-])%bind_Ok.
  apply r_block with (R := fun _ => having (traffic_vars v tk (0 + 1) 0) (in_rounds v tk 0)).
  { unfold only_last_bit. apply r_run. intros a _. apply r_run. intros b _. by apply triple_ret. }
  intros sound. apply r_when. intros _. rule r_data.
  { intros t c Hr. apply (first_allowed t c _ w Hr Hw). by right. }
  rule r_receive. intros raw. rule starts_ends_status.
Qed.

Lemma at_c2p_replay_test : ends (traffic_vars v tk 0 0) (in_rounds v tk 0) c2p_replay_test.
Proof.
  unfold c2p_replay_test. rule at_seal. intros w Hw. rule r_data.
  { intros t c Hr. apply (first_allowed t c _ w Hr Hw). by left. }
  rule r_receive. intros raw. apply r_when. intros _.
  apply r_guarded with (R := fun _ l t => exists ch, having (set_p2c ch (traffic_vars v tk (0 + 1) 0))
    (in_rounds v tk 0) l t).
  - apply triple_last. rule r_object; [done|]. intros pt ch _. apply triple_ret. intros s. apply at_implies.
    intros l t Hl. exists ch. revert l t Hl. apply having_implies. by intros t [[Hr _] _].
  - intros e. by apply at_raise.
  - intros pt. apply at_ex. intros ch. apply r_when. intros _. rule r_data.
    { intros t c Hr. apply (first_allowed t c _ w Hr Hw). by left. }
    rule r_receive. intros raw'. rule starts_ends_status.
Qed.

Lemma at_legitimate_round {B} (k : bytes -> coroutine B) Q :
  (forall d, triple (at6 covered) (k d) Q (fun _ => at6 covered)) ->
  triple (at6 (having (traffic_vars v tk 0 0) (in_rounds v tk 0))) (d ← legitimate_round; k d) Q
    (fun _ => at6 covered).
Proof.
  intros Hk. apply r_block with (R := fun _ => covered); [|exact Hk]. unfold legitimate_round.
  rule at_seal. intros w Hw. rule r_data.
  { intros t c Hr. apply (first_allowed t c _ w Hr Hw). by left. }
  rule r_receive. intros raw. apply r_when. intros _. apply triple_ret. intros s.
  apply at_implies, having_covered.
Qed.

Lemma at_p2c_tamper_test : ends (traffic_vars v tk 0 0) (in_rounds v tk 0) p2c_tamper_test.
Proof.
  apply at_legitimate_round. intros raw. apply step_result; [done|]. intros bad _.
  apply step_same; [|done|].
  { apply keeps_try; [apply keeps_bind; [apply keeps_object|by intros; apply triple_ret]|].
    intros e. by apply triple_ret. }
  intros b. apply step_raise_when; [done|]. intros _. apply step_same; [|done|].
  { apply keeps_try; [apply keeps_object|]. intros e. apply keeps_raise. }
  intros pt. apply step_raise_when; [done|]. intros _. by apply at_raise.
Qed.

Lemma at_p2c_replay_test : ends (traffic_vars v tk 0 0) (in_rounds v tk 0) p2c_replay_test.
Proof.
  apply at_legitimate_round. intros raw. apply step_same; [|done|].
  { apply keeps_try; [apply keeps_object|]. intros e. apply keeps_raise. }
  intros pt. apply step_raise_when; [done|]. intros _. apply step_same; [|done|].
  { apply keeps_try; [apply keeps_object|]. intros e. destruct (is_value_error e); apply keeps_raise. }
  intros again. by apply at_raise.
Qed.

(** A run with a negative test does not come back from here. *)
Lemma at_traffic_test :
  block (traffic_vars v tk 0 0) (in_rounds v tk 0) (traffic_test mode)
    (fun _ l t => mode = None /\ having (traffic_vars v tk 0 0) (in_rounds v tk 0) l t).
Proof.
  assert (forall m : coroutine unit, ends (traffic_vars v tk 0 0) (in_rounds v tk 0) m ->
    block (traffic_vars v tk 0 0) (in_rounds v tk 0) m
      (fun _ l t => mode = None /\ having (traffic_vars v tk 0 0) (in_rounds v tk 0) l t)) as Hends.
  { intros m Hm. eapply triple_conseq; [intros s Hs; exact Hs|exact Hm|by intros ? ?|done]. }
  unfold traffic_test, is_mode. case_bool_decide; [by apply Hends, at_c2p_tamper_test|].
  case_bool_decide; [apply Hends, at_c2p_replay_test|].
  case_bool_decide; [apply Hends, at_p2c_tamper_test|].
  case_bool_decide; [apply Hends, at_p2c_replay_test|].
  apply triple_raise_when; [intros _ s; apply at_implies, having_covered|].
  intros Hm%negb_false_iff%bool_decide_eq_true s. by apply at_implies.
Qed.

(** ** The round trips *)

Lemma at_refuse_control x F raw : block x F (refuse_control raw) (fun _ => having x F).
Proof.
  unfold refuse_control. destruct (negb _); [by apply triple_ret|]. apply r_convert. intros frame _.
  apply r_block with (R := fun _ => having x F); [|intros u; apply r_raise].
  destruct (_ =? _); [|by apply triple_ret]. apply r_when. intros _. apply r_run. intros b _. apply r_raise.
Qed.

Lemma at_round_trip i :
  0 <= i < rounds ->
  block (traffic_vars v tk i i) (in_rounds v tk i) (round_trip i)
    (fun r l t => reported r = round_report i /\
       having (traffic_vars v tk (i + 1) (i + 1)) (in_rounds v tk (i + 1)) l t).
Proof.
  intros Hi. unfold round_trip. rule at_seal. intros w Hw. apply r_when.
  intros Hseq%negb_false_iff%Z.eqb_eq. rule r_data.
  { intros t c [Hf _]. apply (data_allowed6 v i w w t c Hf Hi); [by exists tk|by left]. }
  rule r_receive. intros raw. set (F := fun t => (_ /\ _) /\ raw ∈ heard t).
  assert (Lasting F) as HF by apply _.
  eapply r_block; [apply at_refuse_control|]. intros u. apply r_when. intros _.
  apply r_guarded with (R := fun pt l t => exists ch,
    decrypt raw MSG_TYPE_DATA (receiver (peripheral_to_central tk) (g_session_id v) i) = (Ok pt, ch) /\
    having (set_p2c ch (traffic_vars v tk (i + 1) i)) F l t).
  { apply triple_last. rule r_object; [done|]. intros pt ch Hd. apply triple_ret. intros s.
    apply at_implies. intros l t Hl. by exists ch. }
  { intros e. by apply at_raise. }
  intros pt. apply at_ex. intros ch. apply at_pure. intros Hd. apply r_when.
  intros Hrecv%negb_false_iff%Z.eqb_eq. apply receive_next in Hd as [Ho ->]; [|done].
  apply r_when. intros ->%negb_false_iff%bool_decide_eq_true. apply triple_ret. intros s.
  apply at_implies. intros l t (Hq & He & [[Hf Ht] Hwr] & Hr).
  split; [unfold reported, round_report; cbn; congruence|]. split; [done|]. split; [done|].
  split; [done|]. by eapply traffic_next.
Qed.

Lemma at_round_trips (k : nat) i acc :
  0 <= i -> i + Z.of_nat k = rounds -> map reported acc = map round_report (seqZ 0 i) ->
  block (traffic_vars v tk i i) (in_rounds v tk i) (round_trips_of (seqZ i (Z.of_nat k)) acc)
    (fun rs l t => map reported rs = map round_report (seqZ 0 rounds) /\
       having (traffic_vars v tk rounds rounds) (in_rounds v tk rounds) l t).
Proof.
  revert i acc. induction k as [|k IH]; intros i acc Hi Hk Hacc.
  - replace i with rounds in * by lia. rewrite seqZ_nil by lia. apply triple_ret. intros s. by apply at_implies.
  - rewrite seqZ_cons by lia. cbn [round_trips_of].
    eapply r_block; [apply at_round_trip; lia|]. intros r. apply at_pure. intros Hr.
    replace (Z.pred (Z.of_nat (S k))) with (Z.of_nat k) by lia.
    apply (IH (i + 1)); [lia|lia|]. rewrite seqZ_app by lia.
    rewrite !map_app, Hacc. cbn. by rewrite Hr.
Qed.
End Traffic6.

(** The body: nothing is known of a negative mode that returns. *)
Lemma at_bidirectional :
  block phase6_start (fun _ => True) (bidirectional rounds mode) (fun res => stage (fun _ => phase6_done rounds mode res)).
Proof.
  unfold bidirectional. rule r_subscribe.
  apply r_block with (R := fun _ => having phase6_start (fun _ => True)).
  { unfold is_mode. case_bool_decide as Hm; [|by apply triple_ret].
    eapply triple_conseq; [intros s Hs; exact Hs|by rule at_preauth_test|by intros ? ?|done]. }
  intros u. eapply r_block; [apply at_exchange_keys|]. intros [sid shown]. apply at_ex. intros v. apply at_pure.
  cbn [fst snd]. intros [<- <-].
  eapply r_block; [apply at_agree_on_sas|]. intros u1.
  eapply r_block; [apply at_exchange_finished6|]. intros u2.
  eapply r_block; [apply at_activate6|]. intros u3. apply at_ex. intros tk. apply at_pure. intros Htk.
  apply r_weaken with (F' := in_rounds v tk 0).
  { intros t Hf. split; [done|]. intros j Hj. lia. }
  eapply r_block; [by apply at_traffic_test|]. intros u4. apply at_pure. intros Hm.
  pose proof (at_round_trips v tk Htk (Z.to_nat rounds) 0 []) as Hloop. rewrite Z2Nat.id in Hloop by lia.
  eapply r_block; [apply Hloop; [done|lia|done]|].
  intros results. apply at_pure. intros Hres. rule r_object; [done|]. intros n ch [= _ <-]. apply r_when. intros _.
  rule r_object; [done|]. intros n' ch [= _ <-]. apply r_when. intros _.
  apply triple_ret. intros s. apply at_implies. intros l t (Hq & He & Hf & Ht). split; [done|].
  split; [done|]. split; [done|]. by exists v, tk.
Qed.

Lemma at_leave6 (G : list observed -> Prop) :
  Lasting G ->
  triple (at6 (stage (fun _ => G))) leave6
    (fun _ => at6 (stage (fun x t => cleared6 x /\ G t))) (fun _ => at6 (stage (fun x t => cleared6 x /\ G t))).
Proof.
  intros HG. unfold leave6. eapply step_update with (J' := stage (fun x t => cleared6 x /\ G t)).
  { intros h t [Hq Hg]. split; [done|]. split; [apply wipe_buffers_cleared|done]. }
  rule at_unsubscribe. intros x. by apply triple_ret.
Qed.
End Runs6.

Section Safety.
Context {W : Type} `{Env W, Kem, Kdf, Aead}.
Variables (rounds : Z) (mode : option string).

#[export] Instance phase6_contract :
  Contract (fun _ => True) (run_phase6_bidirectional rounds mode)
    (fun l t => obeys (phase6_policy rounds mode) t /\ cleared6 (vars l)) (phase6_done rounds mode).
Proof.
  unfold run_phase6_bidirectional. set (J := having phase6_start (fun _ => True)).
  assert (implies J (stage (fun x _ => cleared6 x))) as HJ by (apply stage_implies; by intros x t [-> _]).
  apply (run_contract _ cleared6 (phase6_done rounds mode) phase6_start).
  apply step_raise_when; [done|]. intros Hr%Z.ltb_ge. apply step_raise_when; [done|]. intros _.
  apply step_connected. intros b. apply step_raise_when; [done|]. intros _.
  rule r_finally; [apply at_leave6|by apply at_bidirectional].
Qed.

(** C4. The v0.6 runner, with any number of rounds and any negative mode, against
    any peripheral: a ciphertext frame is one of a fresh encapsulation to the
    key that was read; START5 follows the whole ciphertext; the SAS shown is the
    one of the key schedule, after READY_FOR_SAS; FINISHED_C leaves only after
    the person confirmed that SAS; Secure Data is written only after the
    expected FINISHED_P arrived and carries PING i under sequence number i and
    the key towards the peripheral, except for the tampered PING 0 of the mode
    that says so and for the pre-authentication probe, sealed under the zero
    key. A run that returns has no negative mode and reports exactly [rounds]
    round trips, in order, each a PING that was written and a PONG that opened
    under the derived keys. However a run ends, its six buffers are zeros. *)
Theorem phase6_run_safe (s : io W (host (runner phase6_vars))) :
  trace s = [] ->
  let '(r, s') := run_phase6_bidirectional rounds mode s in
  obeys (phase6_policy rounds mode) (trace s') /\ cleared6 (vars (local (self s'))) /\
  forall res, r = Ok res -> phase6_done rounds mode res (trace s').
Proof.
  intros Ht. pose proof (contract (Contract := phase6_contract) s Ht I) as Hc. cbn beta in Hc.
  destruct (run_phase6_bidirectional rounds mode s) as [r s']. by destruct Hc as [[Ho Hc] Hd].
Qed.
End Safety.

(** * A peripheral of v0.6

    The handshake of [Phase5Auth.Honest], and an answer to every PING. *)
Module Responder6.
Record peer := mkPeer { handshake : Honest.peripheral; pings : Z }.

Section Peer.
Context `{Kem, Kdf, Aead}.

Definition on_secure_data (w : peer) (d : bytes) : result (bytes * peer) :=
  let p := handshake w in
  let i := pings w in
  tk ← derive_phase6_traffic_keys (application (Honest.keys p));
  let rx := mkSecureChannel (central_to_peripheral tk) (Honest.session p) PERIPHERAL_ROLE CENTRAL_ROLE 0 (i - 1) 0 i in
  let tx := mkSecureChannel (peripheral_to_central tk) (Honest.session p) PERIPHERAL_ROLE CENTRAL_ROLE i (-1) i 0 in
  pt ← (decrypt d MSG_TYPE_DATA rx).1;
  raise_if (negb (bool_decide (pt = ping i))) (ValueError "PING");;
  answer ← (encrypt (pong i) MSG_TYPE_DATA (zeros 12) tx).1;
  mret (answer, mkPeer p (i + 1)).

Definition environment : Env peer := {|
  ask q w := let (a, p) := @ask _ Honest.environment q (handshake w) in (a, mkPeer p (pings w));
  await a w :=
    match a as a return list event * result (value a) * peer with
    | WriteGatt c u d =>
        if bool_decide (u = CHAR_DATA_UUID)
        then match on_secure_data w d with
             | Ok (b, w') => ([Notified b true], Ok tt, w')
             | Err _ => ([], Ok tt, w)
             end
        else let '(evs, r, p) := @await _ Honest.environment (WriteGatt c u d) (handshake w) in
             (evs, r, mkPeer p (pings w))
    | a => let '(evs, r, p) := @await _ Honest.environment a (handshake w) in (evs, r, mkPeer p (pings w))
    end;
|}.
End Peer.

Definition initial : io peer (host (runner phase6_vars)) :=
  mkIo (mkPeer (Honest.mkPeripheral [x17] [] [] [] Honest.no_keys) 0)
    (mkHost (mkClient DEVICE_NAME (Some (mkLink 0 false)) None None None None None false) 1
       (mkRunner [] false phase6_start)) [].

Definition outcome (mode : option string) :=
  @run_phase6_bidirectional peer (@environment Toy.kem Toy.kdf Toy.aead)
    Toy.kem Toy.kdf Toy.aead 2 mode initial.
End Responder6.

Lemma phase6_run_safe_witness :
  exists res, (Responder6.outcome None).1 = Ok res /\
    map reported (round_trips res) = map round_report [0; 1] /\
    @phase6_done Toy.kem Toy.kdf Toy.aead 2 None res (trace (Responder6.outcome None).2).
Proof.
  assert (match (Responder6.outcome None).1 with
          | Ok res => map reported (round_trips res) = map round_report [0; 1]
          | Err _ => False
          end) as Hok by (vm_compute; reflexivity).
  pose proof (@phase6_run_safe Responder6.peer (@Responder6.environment Toy.kem Toy.kdf Toy.aead)
    Toy.kem Toy.kdf Toy.aead 2 None Responder6.initial eq_refl) as Hs.
  assert (Responder6.outcome None = @run_phase6_bidirectional Responder6.peer
    (@Responder6.environment Toy.kem Toy.kdf Toy.aead) Toy.kem Toy.kdf Toy.aead 2 None
    Responder6.initial) as He by reflexivity.
  rewrite <- He in Hs. clear He.
  generalize dependent (Responder6.outcome None). intros [[res|x] s'] Hok Hs; [|destruct Hok].
  exists res. destruct Hs as (_ & _ & Hres). exact (conj eq_refl (conj Hok (Hres res eq_refl))).
Defined.
