(* ===== verification/Phase7.v ===== *)
(** src/src/common/phase7.py: the hybrid ML-KEM-768/P-256 primitives of v0.7:
    P-256 key handling, the eight-field transcript, the hybrid key schedule, SAS
    and FINISHED values, and the strictly sized PQS7 frames.

    The source's [isinstance] guards are the types here: a private key is an
    [ec_private] of the P-256 interface, and a loaded public key is its checked
    encoding. *)

From S2P Require Import Prelude Py Digest Interfaces Constants Frame Sas.
Open Scope Z_scope.

Definition PHASE7_DOMAIN : bytes := lit "PQ-BLE-HANDSHAKE-v0.7".
Definition PHASE7_CENTRAL_ROLE : bytes := [x01].
Definition PHASE7_PERIPHERAL_ROLE : bytes := [x02].
Definition PHASE7_KDF_INFO : bytes := lit "PQ-BLE-HANDSHAKE-v0.7/hybrid-key-schedule".
Definition PHASE7_SAS_LABEL : bytes := lit "PQ-BLE-HANDSHAKE-v0.7/SAS".
Definition PHASE7_FINISHED_C_LABEL : bytes := lit "PQ-BLE-HANDSHAKE-v0.7/FINISHED/C".
Definition PHASE7_FINISHED_P_LABEL : bytes := lit "PQ-BLE-HANDSHAKE-v0.7/FINISHED/P".
Definition PHASE7_C2P_LABEL : bytes := lit "PQ-BLE-TRAFFIC-v0.7/CENTRAL-TO-PERIPHERAL".
Definition PHASE7_P2C_LABEL : bytes := lit "PQ-BLE-TRAFFIC-v0.7/PERIPHERAL-TO-CENTRAL".

Definition PHASE7_SESSION_ID_SIZE : Z := 16.
Definition PHASE7_MLKEM_PUBLIC_KEY_SIZE : Z := 1184.
Definition PHASE7_MLKEM_CIPHERTEXT_SIZE : Z := 1088.
Definition PHASE7_P256_PUBLIC_KEY_SIZE : Z := 65.
Definition PHASE7_SHARED_SECRET_SIZE : Z := 32.
Definition PHASE7_HYBRID_IKM_SIZE : Z := 68.
Definition PHASE7_TRANSCRIPT_SIZE : Z := 2457.
Definition PHASE7_HASH_SIZE : Z := 32.
Definition PHASE7_KEY_SIZE : Z := 32.
Definition PHASE7_KEY_BLOCK_SIZE : Z := 128.
Definition PHASE7_SAS_MODULUS : Z := 1000000.

Definition PHASE7_FRAME_MAGIC : bytes := lit "PQS7".
Definition PHASE7_FRAME_VERSION : Z := 0x07.
Definition PHASE7_FRAME_HEADER_SIZE : Z := 8.

Definition PHASE7_START7 : Z := 0x01.
Definition PHASE7_READY7_CP2 : Z := 0x02.
Definition PHASE7_START7_AUTH : Z := 0x03.
Definition PHASE7_READY7_AUTH : Z := 0x04.
Definition PHASE7_FINISHED_C : Z := 0x05.
Definition PHASE7_FINISHED_P : Z := 0x06.
Definition PHASE7_ERROR : Z := 0x7F.

Definition PHASE7_CP2_DIAGNOSTIC_LABEL : bytes := lit "PQ-BLE-HANDSHAKE-v0.7/CP2-DIAGNOSTIC".
Definition PHASE7_CP2_DIAGNOSTIC_SIZE : Z := 32.
Definition PHASE7_START7_PAYLOAD_SIZE : Z := 81.
Definition PHASE7_READY7_CP2_PAYLOAD_SIZE : Z := 97.
Definition PHASE7_START7_AUTH_PAYLOAD_SIZE : Z := 81.
Definition PHASE7_READY7_AUTH_PAYLOAD_SIZE : Z := 65.
Definition PHASE7_FINISHED_PAYLOAD_SIZE : Z := 32.

Definition _P256_ORDER : Z :=
  0xFFFFFFFF00000000FFFFFFFFFFFFFFFFBCE6FAADA7179E84F3B9CAC2FC632551.

Record Phase7Keys := mkPhase7Keys {
  application : bytes;
  sas : bytes;
  finished_c : bytes;
  finished_p : bytes;
}.

Record Phase7TrafficKeys := mkPhase7TrafficKeys {
  central_to_peripheral : bytes;
  peripheral_to_central : bytes;
}.

Record Phase7Frame := mkPhase7Frame { subtype : Z; payload : bytes }.

(** * P-256 keys *)

Definition generate_p256_private_key `{P256} (coins : bytes) : ec_private := ec_generate coins.

Definition p256_private_key_from_scalar `{P256} (scalar : Z) : result ec_private :=
  raise_if (negb ((1 <=? scalar) && (scalar <? _P256_ORDER)))
    (ValueError "P-256 private scalar is outside the valid range");;
  mret (ec_derive scalar).

Definition serialize_p256_public_key `{P256} (key : ec_private) : result bytes :=
  let encoded := ec_public_bytes key in
  if negb (blen encoded =? PHASE7_P256_PUBLIC_KEY_SIZE) then
    Err (RuntimeError "unexpected P-256 SEC1 public-key encoding")
  else
    p ← idx encoded 0;
    raise_if (negb (p =? 0x04)) (RuntimeError "unexpected P-256 SEC1 public-key encoding");;
    mret encoded.

Definition load_p256_public_key `{P256} (encoded : bytes) : result bytes :=
  encoded ← _require_size "P-256 public key" encoded PHASE7_P256_PUBLIC_KEY_SIZE;
  p ← idx encoded 0;
  raise_if (negb (p =? 0x04)) (ValueError "P-256 public key must use SEC1 uncompressed format");;
  raise_if (negb (ec_valid_point encoded)) (ValueError "invalid P-256 public key");;
  mret encoded.

Definition derive_p256_ecdh_shared_secret `{P256} (private_key : ec_private) (peer_public_key : bytes)
  : result bytes :=
  peer ← load_p256_public_key peer_public_key;
  let shared_secret := ec_exchange private_key peer in
  raise_if (negb (blen shared_secret =? PHASE7_SHARED_SECRET_SIZE))
    (RuntimeError "unexpected P-256 ECDH shared-secret size");;
  mret shared_secret.

Definition _validate_transcript_public_key (name : string) (encoded : bytes) : result bytes :=
  encoded ← _require_size name encoded PHASE7_P256_PUBLIC_KEY_SIZE;
  p ← idx encoded 0;
  raise_if (negb (p =? 0x04)) (ValueError name);;
  mret encoded.

(** * Transcript and key schedule *)

Definition build_phase7_transcript
    (session_id mlkem_public_key mlkem_ciphertext central_p256_public_key peripheral_p256_public_key : bytes)
  : result bytes :=
  session_id ← _require_size "session_id" session_id PHASE7_SESSION_ID_SIZE;
  mlkem_public_key ← _require_size "ML-KEM public key" mlkem_public_key PHASE7_MLKEM_PUBLIC_KEY_SIZE;
  mlkem_ciphertext ← _require_size "ML-KEM ciphertext" mlkem_ciphertext PHASE7_MLKEM_CIPHERTEXT_SIZE;
  central_p256_public_key ←
    _validate_transcript_public_key "Central P-256 public key" central_p256_public_key;
  peripheral_p256_public_key ←
    _validate_transcript_public_key "Peripheral P-256 public key" peripheral_p256_public_key;
  fields ← mapM _length_prefixed
    [PHASE7_DOMAIN; PHASE7_CENTRAL_ROLE; PHASE7_PERIPHERAL_ROLE; session_id;
     mlkem_public_key; mlkem_ciphertext; central_p256_public_key; peripheral_p256_public_key];
  let transcript := concat fields in
  raise_if (negb (blen transcript =? PHASE7_TRANSCRIPT_SIZE))
    (RuntimeError "unexpected canonical v0.7 transcript size");;
  mret transcript.

Definition compute_phase7_transcript_hash
    (session_id mlkem_public_key mlkem_ciphertext central_p256_public_key peripheral_p256_public_key : bytes)
  : result bytes :=
  t ← build_phase7_transcript session_id mlkem_public_key mlkem_ciphertext
        central_p256_public_key peripheral_p256_public_key;
  mret (sha256 t).

Definition build_hybrid_ikm (ss_mlkem ss_ecdh : bytes) : result bytes :=
  ss_mlkem ← _require_size "ML-KEM shared secret" ss_mlkem PHASE7_SHARED_SECRET_SIZE;
  ss_ecdh ← _require_size "ECDH shared secret" ss_ecdh PHASE7_SHARED_SECRET_SIZE;
  a ← _length_prefixed ss_mlkem;
  b ← _length_prefixed ss_ecdh;
  let hybrid_ikm := a ++ b in
  raise_if (negb (blen hybrid_ikm =? PHASE7_HYBRID_IKM_SIZE))
    (RuntimeError "unexpected hybrid IKM size");;
  mret hybrid_ikm.

Definition derive_phase7_keys `{Kdf} (ss_mlkem ss_ecdh transcript_hash : bytes) : result Phase7Keys :=
  transcript_hash ← _require_size "transcript_hash" transcript_hash PHASE7_HASH_SIZE;
  hybrid_ikm ← build_hybrid_ikm ss_mlkem ss_ecdh;
  let key_block := hkdf_derive PHASE7_KEY_BLOCK_SIZE transcript_hash PHASE7_KDF_INFO hybrid_ikm in
  mret {|
    application := bslice 0 32 key_block;
    sas := bslice 32 64 key_block;
    finished_c := bslice 64 96 key_block;
    finished_p := bslice 96 128 key_block;
  |}.

Definition compute_phase7_sas (sas_key transcript_hash : bytes) : result Z :=
  sas_key ← _require_size "sas_key" sas_key PHASE7_KEY_SIZE;
  transcript_hash ← _require_size "transcript_hash" transcript_hash PHASE7_HASH_SIZE;
  let sas_mac := hmac_sha256 sas_key (PHASE7_SAS_LABEL ++ transcript_hash) in
  mret (from_be sas_mac mod PHASE7_SAS_MODULUS).

(** [f"{sas:06d}"] of a non-negative number pads like [zfill]. *)
Definition format_phase7_sas (sas : Z) : result string :=
  raise_if (negb ((0 <=? sas) && (sas <? PHASE7_SAS_MODULUS))) (ValueError "SAS must be in [0, 999999]");;
  mret (zfill 6 (py_str sas)).

Definition _compute_finished (finished_key label transcript_hash : bytes) : result bytes :=
  finished_key ← _require_size "finished_key" finished_key PHASE7_KEY_SIZE;
  transcript_hash ← _require_size "transcript_hash" transcript_hash PHASE7_HASH_SIZE;
  mret (hmac_sha256 finished_key (label ++ transcript_hash)).

Definition compute_phase7_finished_c (finished_key transcript_hash : bytes) : result bytes :=
  _compute_finished finished_key PHASE7_FINISHED_C_LABEL transcript_hash.

Definition compute_phase7_finished_p (finished_key transcript_hash : bytes) : result bytes :=
  _compute_finished finished_key PHASE7_FINISHED_P_LABEL transcript_hash.

Definition derive_phase7_traffic_keys (application_root_key : bytes) : result Phase7TrafficKeys :=
  application_root_key ← _require_size "application root key" application_root_key PHASE7_KEY_SIZE;
  mret {|
    central_to_peripheral := hmac_sha256 application_root_key PHASE7_C2P_LABEL;
    peripheral_to_central := hmac_sha256 application_root_key PHASE7_P2C_LABEL;
  |}.

Definition compute_phase7_cp2_diagnostic (application_key transcript_hash : bytes) : result bytes :=
  application_key ← _require_size "application key" application_key PHASE7_KEY_SIZE;
  transcript_hash ← _require_size "transcript_hash" transcript_hash PHASE7_HASH_SIZE;
  mret (hmac_sha256 application_key (PHASE7_CP2_DIAGNOSTIC_LABEL ++ transcript_hash)).

(** * Frames *)

(** The dict [sizes] of [_validate_phase7_payload]. *)
Definition phase7_sizes (subtype : Z) : option Z :=
  if subtype =? PHASE7_START7 then Some PHASE7_START7_PAYLOAD_SIZE
  else if subtype =? PHASE7_READY7_CP2 then Some PHASE7_READY7_CP2_PAYLOAD_SIZE
  else if subtype =? PHASE7_START7_AUTH then Some PHASE7_START7_AUTH_PAYLOAD_SIZE
  else if subtype =? PHASE7_READY7_AUTH then Some PHASE7_READY7_AUTH_PAYLOAD_SIZE
  else if subtype =? PHASE7_FINISHED_C then Some PHASE7_FINISHED_PAYLOAD_SIZE
  else if subtype =? PHASE7_FINISHED_P then Some PHASE7_FINISHED_PAYLOAD_SIZE
  else if subtype =? PHASE7_ERROR then Some 1
  else None.

Definition _validate_phase7_payload `{P256} (subtype : Z) (payload : bytes) : result unit :=
  match phase7_sizes subtype with
  | None => Err (ValueError "unsupported PQS7 subtype")
  | Some size =>
      _require_size "PQS7 payload" payload size;;
      if (subtype =? PHASE7_START7) || (subtype =? PHASE7_START7_AUTH) then
        load_p256_public_key (bfrom PHASE7_SESSION_ID_SIZE payload);; mret tt
      else if (subtype =? PHASE7_READY7_CP2) || (subtype =? PHASE7_READY7_AUTH) then
        load_p256_public_key (bto PHASE7_P256_PUBLIC_KEY_SIZE payload);; mret tt
      else mret tt
  end.

Definition encode_phase7_frame `{P256} (subtype : Z) (payload : bytes) : result bytes :=
  _validate_phase7_payload subtype payload;;
  h ← mk_bytes [PHASE7_FRAME_VERSION; subtype];
  n ← to_bytes 2 (blen payload);
  mret (PHASE7_FRAME_MAGIC ++ h ++ n ++ payload).

Definition parse_phase7_frame `{P256} (data : bytes) : result Phase7Frame :=
  raise_if (blen data <? PHASE7_FRAME_HEADER_SIZE) (ValueError "truncated PQS7 frame");;
  raise_if (negb (bool_decide (bto 4 data = PHASE7_FRAME_MAGIC))) (ValueError "incorrect PQS7 magic");;
  v ← idx data 4;
  raise_if (negb (v =? PHASE7_FRAME_VERSION)) (ValueError "incorrect PQS7 version");;
  raise_if (negb (blen data =? PHASE7_FRAME_HEADER_SIZE + from_be (bslice 6 8 data)))
    (ValueError "incorrect PQS7 payload length");;
  s ← idx data 5;
  let frame := mkPhase7Frame s (bfrom 8 data) in
  _validate_phase7_payload (subtype frame) (payload frame);;
  mret frame.

Definition encode_start7 `{P256} (session_id central_public_key : bytes) : result bytes :=
  session_id ← _require_size "session_id" session_id PHASE7_SESSION_ID_SIZE;
  encode_phase7_frame PHASE7_START7 (session_id ++ central_public_key).

Definition parse_start7 `{P256} (data : bytes) : result (bytes * bytes) :=
  frame ← parse_phase7_frame data;
  raise_if (negb (subtype frame =? PHASE7_START7)) (ValueError "expected START7");;
  mret (bto PHASE7_SESSION_ID_SIZE (payload frame), bfrom PHASE7_SESSION_ID_SIZE (payload frame)).

Definition encode_ready7_cp2 `{P256} (peripheral_public_key diagnostic : bytes) : result bytes :=
  peripheral_public_key ←
    _require_size "Peripheral P-256 public key" peripheral_public_key PHASE7_P256_PUBLIC_KEY_SIZE;
  diagnostic ← _require_size "CP2 diagnostic" diagnostic PHASE7_CP2_DIAGNOSTIC_SIZE;
  encode_phase7_frame PHASE7_READY7_CP2 (peripheral_public_key ++ diagnostic).

Definition parse_ready7_cp2 `{P256} (data : bytes) : result (bytes * bytes) :=
  frame ← parse_phase7_frame data;
  raise_if (negb (subtype frame =? PHASE7_READY7_CP2)) (ValueError "expected READY7_CP2");;
  mret (bto PHASE7_P256_PUBLIC_KEY_SIZE (payload frame), bfrom PHASE7_P256_PUBLIC_KEY_SIZE (payload frame)).

Definition encode_start7_auth `{P256} (session_id central_public_key : bytes) : result bytes :=
  session_id ← _require_size "session_id" session_id PHASE7_SESSION_ID_SIZE;
  central_public_key ←
    _require_size "Central P-256 public key" central_public_key PHASE7_P256_PUBLIC_KEY_SIZE;
  load_p256_public_key central_public_key;;
  encode_phase7_frame PHASE7_START7_AUTH (session_id ++ central_public_key).

Definition parse_start7_auth `{P256} (data : bytes) : result (bytes * bytes) :=
  frame ← parse_phase7_frame data;
  raise_if (negb (subtype frame =? PHASE7_START7_AUTH)) (ValueError "expected START7_AUTH");;
  mret (bto PHASE7_SESSION_ID_SIZE (payload frame), bfrom PHASE7_SESSION_ID_SIZE (payload frame)).

Definition encode_ready7_auth `{P256} (peripheral_public_key : bytes) : result bytes :=
  peripheral_public_key ←
    _require_size "Peripheral P-256 public key" peripheral_public_key PHASE7_P256_PUBLIC_KEY_SIZE;
  load_p256_public_key peripheral_public_key;;
  encode_phase7_frame PHASE7_READY7_AUTH peripheral_public_key.

Definition parse_ready7_auth `{P256} (data : bytes) : result bytes :=
  frame ← parse_phase7_frame data;
  raise_if (negb (subtype frame =? PHASE7_READY7_AUTH)) (ValueError "expected READY7_AUTH");;
  mret (payload frame).

Definition encode_phase7_finished_c `{P256} (finished : bytes) : result bytes :=
  finished ← _require_size "FINISHED_C" finished PHASE7_FINISHED_PAYLOAD_SIZE;
  encode_phase7_frame PHASE7_FINISHED_C finished.

Definition parse_phase7_finished_c `{P256} (data : bytes) : result bytes :=
  frame ← parse_phase7_frame data;
  raise_if (negb (subtype frame =? PHASE7_FINISHED_C)) (ValueError "expected FINISHED_C");;
  mret (payload frame).

Definition encode_phase7_finished_p `{P256} (finished : bytes) : result bytes :=
  finished ← _require_size "FINISHED_P" finished PHASE7_FINISHED_PAYLOAD_SIZE;
  encode_phase7_frame PHASE7_FINISHED_P finished.

Definition parse_phase7_finished_p `{P256} (data : bytes) : result bytes :=
  frame ← parse_phase7_frame data;
  raise_if (negb (subtype frame =? PHASE7_FINISHED_P)) (ValueError "expected FINISHED_P");;
  mret (payload frame).

(** * Points and frames *)

(** What [load_p256_public_key] accepts. *)
Definition sec1_point `{P256} (encoded : bytes) : Prop :=
  blen encoded = 65 /\ idx encoded 0 = Ok 4 /\ ec_valid_point encoded = true.

Section Frames.
Context `{P256}.

Lemma load_p256_Ok pk r : load_p256_public_key pk = Ok r <-> sec1_point pk /\ r = pk.
Proof.
  unfold load_p256_public_key, sec1_point. change PHASE7_P256_PUBLIC_KEY_SIZE with 65. split.
  - intros Hl. ok_inv. apply require_size_Ok in Hok as [? ->].
    apply negb_false_iff, Z.eqb_eq in Hok1. subst. by apply negb_false_iff in Hok2.
  - intros [(H1 & H2 & H3) ->]. rewrite require_size_eq by done. cbn [mbind result_bind].
    rewrite H2. cbn [mbind result_bind]. pass; [lia|]. by rewrite H3.
Qed.

(** A valid payload of each subtype. *)
Definition pqs7_payload (subtype : Z) (payload : bytes) : Prop :=
  (subtype = PHASE7_START7 \/ subtype = PHASE7_START7_AUTH) /\
    blen payload = 81 /\ sec1_point (bfrom 16 payload)
  \/ subtype = PHASE7_READY7_CP2 /\ blen payload = 97 /\ sec1_point (bto 65 payload)
  \/ subtype = PHASE7_READY7_AUTH /\ blen payload = 65 /\ sec1_point payload
  \/ (subtype = PHASE7_FINISHED_C \/ subtype = PHASE7_FINISHED_P) /\ blen payload = 32
  \/ subtype = PHASE7_ERROR /\ blen payload = 1.

Lemma load_bind_Ok pk : (load_p256_public_key pk;; mret tt) = Ok tt <-> sec1_point pk.
Proof.
  split.
  - intros Hb. ok_inv. by apply load_p256_Ok in Hok as [? _].
  - intros Hp. by rewrite (proj2 (load_p256_Ok pk pk)).
Qed.

Lemma validate_phase7_Ok s p : _validate_phase7_payload s p = Ok tt <-> pqs7_payload s p.
Proof.
  unfold _validate_phase7_payload, phase7_sizes, pqs7_payload, PHASE7_START7, PHASE7_READY7_CP2,
    PHASE7_START7_AUTH, PHASE7_READY7_AUTH, PHASE7_FINISHED_C, PHASE7_FINISHED_P, PHASE7_ERROR.
  change PHASE7_START7_PAYLOAD_SIZE with 81. change PHASE7_START7_AUTH_PAYLOAD_SIZE with 81.
  change PHASE7_READY7_CP2_PAYLOAD_SIZE with 97. change PHASE7_READY7_AUTH_PAYLOAD_SIZE with 65.
  change PHASE7_FINISHED_PAYLOAD_SIZE with 32. change PHASE7_SESSION_ID_SIZE with 16.
  change PHASE7_P256_PUBLIC_KEY_SIZE with 65. unfold _require_size.
  destruct (Z.eqb_spec s 1) as [->|]; [|destruct (Z.eqb_spec s 2) as [->|];
    [|destruct (Z.eqb_spec s 3) as [->|]; [|destruct (Z.eqb_spec s 4) as [->|];
    [|destruct (Z.eqb_spec s 5) as [->|]; [|destruct (Z.eqb_spec s 6) as [->|];
    [|destruct (Z.eqb_spec s 127) as [->|]]]]]]]; cbn [Z.eqb Pos.eqb orb];
    try (match goal with |- context [blen p =? ?n] => destruct (Z.eqb_spec (blen p) n) end; cbn [negb raise_if mbind result_bind mret result_ret];
         [|split; [done|intros; exfalso; intuition lia]]); rewrite ?load_bind_Ok.
  4: rewrite bto_all by lia.
  all: try (split; [done|intros; exfalso; intuition lia]); intuition lia.
Qed.

Lemma pqs7_payload_small s p : pqs7_payload s p -> 0 <= s < 256 /\ blen p < 65536.
Proof.
  unfold pqs7_payload, PHASE7_START7, PHASE7_READY7_CP2,
    PHASE7_START7_AUTH, PHASE7_READY7_AUTH, PHASE7_FINISHED_C, PHASE7_FINISHED_P, PHASE7_ERROR.
  lia.
Qed.

Lemma encode_phase7_Ok s p w :
  encode_phase7_frame s p = Ok w <->
  pqs7_payload s p /\ w = frame_wire PHASE7_FRAME_MAGIC PHASE7_FRAME_VERSION s p.
Proof.
  unfold encode_phase7_frame. pose proof (blen_nonneg p). split.
  - intros He. ok_inv. apply validate_phase7_Ok in Hok.
    pose proof (pqs7_payload_small _ _ Hok). split; [done|].
    rewrite mk_bytes_2 in Hok0 by (apply is_byte_range; (done || lia)).
    rewrite to_bytes_Ok in Hok1 by (change (256 ^ Z.of_nat 2) with 65536; lia).
    by simplify_eq.
  - intros (Hp & ->). pose proof (pqs7_payload_small _ _ Hp).
    apply validate_phase7_Ok in Hp as ->. cbn [mbind result_bind].
    rewrite mk_bytes_2 by (apply is_byte_range; (done || lia)). cbn [mbind result_bind].
    by rewrite to_bytes_Ok by (change (256 ^ Z.of_nat 2) with 65536; lia).
Qed.

Lemma parse_phase7_Ok data f :
  parse_phase7_frame data = Ok f <->
  pqs7_payload (subtype f) (payload f) /\
  data = frame_wire PHASE7_FRAME_MAGIC PHASE7_FRAME_VERSION (subtype f) (payload f).
Proof.
  unfold parse_phase7_frame, PHASE7_FRAME_HEADER_SIZE, PHASE7_FRAME_VERSION. split.
  - intros Hp. ok_inv. apply negb_false_iff, bool_decide_eq_true in Hok0.
    apply negb_false_iff, Z.eqb_eq in Hok2, Hok3. simplify_eq. cbn [subtype payload] in *.
    apply validate_phase7_Ok in Hok5. split; [done|].
    eapply parse_reference_Some, parse_reference_intro; done.
  - intros (Hv & ->). pose proof (pqs7_payload_small _ _ Hv). autorewrite with frame.
    pose proof (blen_nonneg (payload f)). pass; [lia|].
    rewrite bool_decide_eq_true_2 by done. cbn [negb raise_if mbind result_bind].
    pass; [lia|]. pass; [lia|]. cbn [subtype payload].
    apply validate_phase7_Ok in Hv as ->. by destruct f.
Qed.

Lemma parse_encode_phase7 data f :
  parse_phase7_frame data = Ok f <-> encode_phase7_frame (subtype f) (payload f) = Ok data.
Proof. by rewrite parse_phase7_Ok, encode_phase7_Ok. Qed.

(** The four handshake messages as payloads. *)
Definition pqs7_wire (subtype : Z) (payload : bytes) : bytes :=
  frame_wire PHASE7_FRAME_MAGIC PHASE7_FRAME_VERSION subtype payload.

Lemma start_payload s p :
  s = PHASE7_START7 \/ s = PHASE7_START7_AUTH ->
  pqs7_payload s p <-> blen p = 81 /\ sec1_point (bfrom 16 p).
Proof.
  unfold pqs7_payload, PHASE7_START7, PHASE7_READY7_CP2,
    PHASE7_START7_AUTH, PHASE7_READY7_AUTH, PHASE7_FINISHED_C, PHASE7_FINISHED_P, PHASE7_ERROR.
  intuition lia.
Qed.

Lemma ready_cp2_payload p :
  pqs7_payload PHASE7_READY7_CP2 p <-> blen p = 97 /\ sec1_point (bto 65 p).
Proof.
  unfold pqs7_payload, PHASE7_START7, PHASE7_READY7_CP2,
    PHASE7_START7_AUTH, PHASE7_READY7_AUTH, PHASE7_FINISHED_C, PHASE7_FINISHED_P, PHASE7_ERROR.
  intuition lia.
Qed.

Lemma ready_auth_payload p : pqs7_payload PHASE7_READY7_AUTH p <-> sec1_point p.
Proof.
  unfold pqs7_payload, PHASE7_START7, PHASE7_READY7_CP2,
    PHASE7_START7_AUTH, PHASE7_READY7_AUTH, PHASE7_FINISHED_C, PHASE7_FINISHED_P, PHASE7_ERROR.
  pose proof (fun H : sec1_point p => proj1 H). intuition lia.
Qed.

Lemma finished_payload s p :
  s = PHASE7_FINISHED_C \/ s = PHASE7_FINISHED_P -> pqs7_payload s p <-> blen p = 32.
Proof.
  unfold pqs7_payload, PHASE7_START7, PHASE7_READY7_CP2,
    PHASE7_START7_AUTH, PHASE7_READY7_AUTH, PHASE7_FINISHED_C, PHASE7_FINISHED_P, PHASE7_ERROR.
  intuition lia.
Qed.

(** A frame of one expected subtype. *)
Lemma parse_subtype_Ok {A} data s (e : exn) (k : Phase7Frame -> A) (r : A) :
  (frame ← parse_phase7_frame data;
   raise_if (negb (subtype frame =? s)) e;; mret (k frame)) = Ok r <->
  exists p, pqs7_payload s p /\ data = pqs7_wire s p /\ r = k (mkPhase7Frame s p).
Proof.
  split.
  - intros Hp. ok_inv. apply parse_phase7_Ok in Hok as [Hv ->].
    apply negb_false_iff, Z.eqb_eq in Hok0. destruct a as [s' p]. cbn [subtype payload] in *. subst.
    by exists p.
  - intros (p & Hv & -> & ->).
    rewrite (proj2 (parse_phase7_Ok _ (mkPhase7Frame s p))) by done.
    cbn [mbind result_bind subtype]. by rewrite Z.eqb_refl.
Qed.

Lemma parse_start7_like s data sid pk (e : exn) :
  s = PHASE7_START7 \/ s = PHASE7_START7_AUTH ->
  (frame ← parse_phase7_frame data;
   raise_if (negb (subtype frame =? s)) e;;
   mret (bto PHASE7_SESSION_ID_SIZE (payload frame), bfrom PHASE7_SESSION_ID_SIZE (payload frame)))
    = Ok (sid, pk) <->
  blen sid = 16 /\ sec1_point pk /\ data = pqs7_wire s (sid ++ pk).
Proof.
  intros Hs. change PHASE7_SESSION_ID_SIZE with 16.
  rewrite (parse_subtype_Ok data s e (fun f => (bto 16 (payload f), bfrom 16 (payload f)))).
  cbn [payload]. split.
  - intros (p & [Hl Hp]%start_payload & -> & [= -> ->]); [|done].
    rewrite bto_bfrom. split_and!; [rewrite blen_bto; lia|done..].
  - intros (Hl & Hp & ->). exists (sid ++ pk).
    rewrite start_payload, bto_app, bfrom_app by done.
    split_and!; [|done..]. rewrite blen_app. destruct Hp. lia.
Qed.

Lemma encode_start7_like s sid pk w :
  s = PHASE7_START7 \/ s = PHASE7_START7_AUTH -> blen sid = 16 ->
  encode_phase7_frame s (sid ++ pk) = Ok w <-> sec1_point pk /\ w = pqs7_wire s (sid ++ pk).
Proof.
  intros Hs Hl. rewrite encode_phase7_Ok, start_payload, bfrom_app by done.
  split; [tauto|]. intros [Hp ->]. split_and!; [|done..]. rewrite blen_app. destruct Hp. lia.
Qed.
End Frames.

(** Each PQS7 parser inverts its encoder and accepts nothing else: the
    generic frame with its subtype table, START7, START7_AUTH, READY7_CP2,
    READY7_AUTH and the two FINISHED messages. A parsed point is always one the
    P-256 backend validates. *)
Theorem phase7_messages_exact `{P256} data :
  (forall f, parse_phase7_frame data = Ok f <-> encode_phase7_frame (subtype f) (payload f) = Ok data) /\
  (forall sid pk, parse_start7 data = Ok (sid, pk) <-> encode_start7 sid pk = Ok data) /\
  (forall sid pk, parse_start7_auth data = Ok (sid, pk) <-> encode_start7_auth sid pk = Ok data) /\
  (forall pk d, parse_ready7_cp2 data = Ok (pk, d) <-> encode_ready7_cp2 pk d = Ok data) /\
  (forall pk, parse_ready7_auth data = Ok pk <-> encode_ready7_auth pk = Ok data) /\
  (forall v, parse_phase7_finished_c data = Ok v <-> encode_phase7_finished_c v = Ok data) /\
  (forall v, parse_phase7_finished_p data = Ok v <-> encode_phase7_finished_p v = Ok data).
Proof.
  split; [apply parse_encode_phase7|]. split_and!.
  - intros sid pk. unfold parse_start7, encode_start7. rewrite parse_start7_like by tauto. split.
    + intros (Hl & Hp & ->). rewrite require_size_eq by done. by apply encode_start7_like; [left|..].
    + intros He. ok_inv. apply require_size_Ok in Hok as [Hl ->].
      by apply encode_start7_like in He as [? ->]; [|left|].
  - intros sid pk. unfold parse_start7_auth, encode_start7_auth. rewrite parse_start7_like by tauto.
    split.
    + intros (Hl & Hp & ->). rewrite !require_size_eq by (done || apply Hp). cbn [mbind result_bind].
      rewrite (proj2 (load_p256_Ok pk pk)) by done. by apply encode_start7_like; [right|..].
    + intros He. ok_inv. apply require_size_Ok in Hok as [Hl ->], Hok0 as [? ->].
      by apply encode_start7_like in He as [? ->]; [|right|].
  - intros pk d. unfold parse_ready7_cp2, encode_ready7_cp2. change PHASE7_P256_PUBLIC_KEY_SIZE with 65.
    change PHASE7_CP2_DIAGNOSTIC_SIZE with 32.
    rewrite (parse_subtype_Ok data _ _ (fun f => (bto 65 (payload f), bfrom 65 (payload f)))).
    cbn [payload]. split.
    + intros (p & Hv & -> & [= -> ->]). pose proof Hv as [Hl Hp]%ready_cp2_payload.
      rewrite !require_size_eq by (rewrite ?blen_bto, ?blen_bfrom by lia; lia). cbn [mbind result_bind].
      rewrite bto_bfrom. by apply encode_phase7_Ok.
    + intros He. ok_inv. apply require_size_Ok in Hok as [Hl ->], Hok0 as [Hd ->].
      apply encode_phase7_Ok in He as [Hv ->]. exists (pk ++ d). by rewrite bto_app, bfrom_app.
  - intros pk. unfold parse_ready7_auth, encode_ready7_auth.
    rewrite (parse_subtype_Ok data _ _ payload). cbn [payload]. split.
    + intros (p & Hv & -> & ->). pose proof Hv as Hp%ready_auth_payload.
      rewrite !require_size_eq by apply Hp. cbn [mbind result_bind].
      rewrite (proj2 (load_p256_Ok p p)) by done. by apply encode_phase7_Ok.
    + intros He. ok_inv. apply require_size_Ok in Hok as [Hl ->].
      apply encode_phase7_Ok in He as [Hv ->]. by exists pk.
  - intros v. unfold parse_phase7_finished_c, encode_phase7_finished_c.
    rewrite (parse_subtype_Ok data _ _ payload). cbn [payload]. split.
    + intros (p & Hv & -> & ->). pose proof Hv as Hp%finished_payload; [|by left].
      rewrite require_size_eq by apply Hp. by apply encode_phase7_Ok.
    + intros He. ok_inv. apply require_size_Ok in Hok as [Hl ->].
      apply encode_phase7_Ok in He as [Hv ->]. by exists v.
  - intros v. unfold parse_phase7_finished_p, encode_phase7_finished_p.
    rewrite (parse_subtype_Ok data _ _ payload). cbn [payload]. split.
    + intros (p & Hv & -> & ->). pose proof Hv as Hp%finished_payload; [|by right].
      rewrite require_size_eq by apply Hp. by apply encode_phase7_Ok.
    + intros He. ok_inv. apply require_size_Ok in Hok as [Hl ->].
      apply encode_phase7_Ok in He as [Hv ->]. by exists v.
Qed.

(** * Transcript and key schedule *)

Definition phase7_fields (sid mpk ct cpk ppk : bytes) : list bytes :=
  [PHASE7_DOMAIN; PHASE7_CENTRAL_ROLE; PHASE7_PERIPHERAL_ROLE; sid; mpk; ct; cpk; ppk].

(** An uncompressed point, as far as the transcript checks it. *)
Definition sec1_shape (pk : bytes) : Prop := blen pk = 65 /\ idx pk 0 = Ok 4.

Lemma validate_transcript_Ok name pk r :
  _validate_transcript_public_key name pk = Ok r <-> sec1_shape pk /\ r = pk.
Proof.
  unfold _validate_transcript_public_key, sec1_shape. change PHASE7_P256_PUBLIC_KEY_SIZE with 65. split.
  - intros Hv. ok_inv. apply require_size_Ok in Hok as [? ->].
    apply negb_false_iff, Z.eqb_eq in Hok1. by subst.
  - intros [(H1 & H2) ->]. rewrite require_size_eq by done. cbn [mbind result_bind].
    rewrite H2. cbn [mbind result_bind]. by pass; [lia|].
Qed.

Definition phase7_inputs (sid mpk ct cpk ppk : bytes) : Prop :=
  blen sid = 16 /\ blen mpk = 1184 /\ blen ct = 1088 /\ sec1_shape cpk /\ sec1_shape ppk.

Lemma phase7_fields_small sid mpk ct cpk ppk :
  phase7_inputs sid mpk ct cpk ppk ->
  Forall (fun f => blen f < 65536) (phase7_fields sid mpk ct cpk ppk).
Proof.
  unfold phase7_inputs, phase7_fields, sec1_shape. intros (? & ? & ? & [? _] & [? _]).
  repeat constructor; try (reflexivity || lia).
Qed.

Lemma phase7_fields_length sid mpk ct cpk ppk :
  phase7_inputs sid mpk ct cpk ppk ->
  blen (concat (map lp_wire (phase7_fields sid mpk ct cpk ppk))) = 2457.
Proof.
  unfold phase7_inputs, phase7_fields, sec1_shape. intros (? & ? & ? & [? _] & [? _]).
  cbn [map concat]. bytes_len.
Qed.

Lemma build_phase7_transcript_Ok sid mpk ct cpk ppk t :
  build_phase7_transcript sid mpk ct cpk ppk = Ok t <->
  phase7_inputs sid mpk ct cpk ppk /\ t = concat (map lp_wire (phase7_fields sid mpk ct cpk ppk)).
Proof.
  assert (phase7_inputs sid mpk ct cpk ppk ->
    mapM _length_prefixed (phase7_fields sid mpk ct cpk ppk) =
    Ok (map lp_wire (phase7_fields sid mpk ct cpk ppk))) as Hm.
  { intros Hi%phase7_fields_small. apply mapM_Ok_map. intros x Hx.
    apply length_prefixed_eq. exact (proj1 (list.Forall_forall _ _) Hi x Hx). }
  unfold build_phase7_transcript. split.
  - intros Hb. ok_inv. apply require_size_Ok in Hok as [? ->], Hok0 as [? ->], Hok1 as [? ->].
    apply validate_transcript_Ok in Hok2 as [? ->], Hok3 as [? ->].
    change (mapM _length_prefixed (phase7_fields sid mpk ct cpk ppk) = Ok a4) in Hok4.
    assert (phase7_inputs sid mpk ct cpk ppk) as Hi by done.
    rewrite (Hm Hi) in Hok4. by simplify_eq.
  - intros [Hi ->]. pose proof Hi as (? & ? & ? & ? & ?). rewrite !require_size_eq by done.
    cbn [mbind result_bind].
    rewrite !(proj2 (validate_transcript_Ok _ _ _)) by done. cbn [mbind result_bind].
    change [PHASE7_DOMAIN; PHASE7_CENTRAL_ROLE; PHASE7_PERIPHERAL_ROLE; sid; mpk; ct; cpk; ppk]
      with (phase7_fields sid mpk ct cpk ppk).
    rewrite (Hm Hi). cbn [mbind result_bind]. rewrite phase7_fields_length by done. done.
Qed.

(** The canonical v0.7 transcript exists exactly for fields of the protocol's
    sizes with uncompressed points, so the final length check never fails on
    them; it is 2457 bytes long and injective in its five inputs. *)
Theorem phase7_transcript_exact sid mpk ct cpk ppk :
  ((exists t, build_phase7_transcript sid mpk ct cpk ppk = Ok t) <->
    phase7_inputs sid mpk ct cpk ppk) /\
  (forall t, build_phase7_transcript sid mpk ct cpk ppk = Ok t -> blen t = 2457 /\
    forall sid' mpk' ct' cpk' ppk', build_phase7_transcript sid' mpk' ct' cpk' ppk' = Ok t ->
      sid' = sid /\ mpk' = mpk /\ ct' = ct /\ cpk' = cpk /\ ppk' = ppk).
Proof.
  split.
  - split; [by intros [t [Hi _]%build_phase7_transcript_Ok]|].
    intros Hi. eexists. by apply build_phase7_transcript_Ok.
  - intros t [Hi ->]%build_phase7_transcript_Ok. split; [by apply phase7_fields_length|].
    intros sid' mpk' ct' cpk' ppk' [Hi' He]%build_phase7_transcript_Ok.
    apply concat_lp_inj in He; [|by apply phase7_fields_small..].
    unfold phase7_fields in He. by simplify_eq.
Qed.

Lemma build_hybrid_ikm_Ok s1 s2 ikm :
  build_hybrid_ikm s1 s2 = Ok ikm <->
  blen s1 = 32 /\ blen s2 = 32 /\ ikm = lp_wire s1 ++ lp_wire s2.
Proof.
  unfold build_hybrid_ikm, PHASE7_SHARED_SECRET_SIZE, PHASE7_HYBRID_IKM_SIZE. split.
  - intros Hb. ok_inv. apply require_size_Ok in Hok as [? ->], Hok0 as [? ->].
    rewrite length_prefixed_eq in Hok1, Hok2 by lia. by simplify_eq.
  - intros (H1 & H2 & ->). rewrite !require_size_eq by done. cbn [mbind result_bind].
    rewrite !length_prefixed_eq by lia. cbn [mbind result_bind].
    pass; [|done]. assert (blen (lp_wire s1 ++ lp_wire s2) = 68) by bytes_len. lia.
Qed.

(** C33. The hybrid key schedule succeeds exactly on two 32-byte secrets and a 32-byte
    transcript hash, and feeds RFC 5869 the 68-byte encoding of both secrets, salted
    with the hash; the four 32-byte keys follow one another in the 128-byte block.
    The encoding is injective in the pair: no other ML-KEM or ECDH secret gives the
    same input keying material. *)
Theorem derive_phase7_keys_split `{KdfLaws} s1 s2 th k :
  (derive_phase7_keys s1 s2 th = Ok k <->
   exists ikm, build_hybrid_ikm s1 s2 = Ok ikm /\ blen ikm = 68 /\
    blen s1 = 32 /\ blen s2 = 32 /\ blen th = 32 /\
    application k ++ sas k ++ finished_c k ++ finished_p k =
      rfc5869_expand 128 PHASE7_KDF_INFO (hmac_sha256 th ikm) /\
    blen (application k) = 32 /\ blen (sas k) = 32 /\
    blen (finished_c k) = 32 /\ blen (finished_p k) = 32) /\
  (forall s1' s2' ikm, build_hybrid_ikm s1 s2 = Ok ikm -> build_hybrid_ikm s1' s2' = Ok ikm ->
    s1' = s1 /\ s2' = s2).
Proof.
  split.
  - unfold derive_phase7_keys. change PHASE7_KEY_BLOCK_SIZE with 128. unfold PHASE7_HASH_SIZE.
    split.
    + intros Hk. ok_inv. apply require_size_Ok in Hok as [Hth ->]. exists a0.
      pose proof Hok0 as (H1 & H2 & Hi)%build_hybrid_ikm_Ok. subst k.
      rewrite hkdf_derive_rfc5869. set (kb := rfc5869_expand _ _ _).
      assert (blen kb = 128) as Hkb by (by apply blen_rfc5869_expand).
      cbn [application sas finished_c finished_p].
      split_and!; [done|subst a0; bytes_len|done|done|done|symmetry; by apply key_block_split|..];
        rewrite blen_bslice by lia; lia.
    + intros (ikm & Hi & _ & _ & _ & Hth & Hcat & Ha & Hs & Hc & Hp).
      rewrite require_size_eq by done. cbn [mbind result_bind]. rewrite Hi.
      cbn [mbind result_bind]. rewrite hkdf_derive_rfc5869.
      destruct (key_block_parts _ _ _ _ _ Hcat) as (-> & -> & -> & ->); [done..|]. by destruct k.
  - intros s1' s2' ikm (H1 & H2 & ->)%build_hybrid_ikm_Ok (H1' & H2' & He)%build_hybrid_ikm_Ok.
    assert ([s1'; s2'] = [s1; s2]) as [= -> ->]; [|done].
    apply concat_lp_inj; [by repeat constructor; lia..|].
    cbn [map concat]. by rewrite !app_nil_r.
Qed.

(** * Witnesses *)

Lemma derive_phase7_keys_split_witness :
  exists k ikm, @derive_phase7_keys Toy.kdf (zeros 32) (zeros 32) (zeros 32) = Ok k /\
    build_hybrid_ikm (zeros 32) (zeros 32) = Ok ikm /\ blen ikm = 68 /\ blen (sas k) = 32.
Proof.
  destruct (@derive_phase7_keys Toy.kdf (zeros 32) (zeros 32) (zeros 32)) as [k|x] eqn:Hk.
  - destruct (proj1 (proj1 (@derive_phase7_keys_split Toy.kdf Toy.kdf_laws _ _ _ k)) Hk)
      as (ikm & Hi & Hl & _ & _ & _ & _ & _ & Hs & _).
    exists k, ikm. exact (conj eq_refl (conj Hi (conj Hl Hs))).
  - exfalso. revert Hk. vm_compute. discriminate.
Defined.
