(* ===== verification/V1Smp.v ===== *)
(** src/src/common/v1_smp_mlkem.py: the PQV1 framing of v1.0, the SEC_QUERY and
    SEC_INFO attestation, the strict Security Mode 1 Level 4 predicate and the
    classification of GATT failures as security denials; and
    src/src/common/v1_cp2.py: the CP2 interoperability diagnostic. *)

From Stdlib Require Import Ascii.
From S2P Require Import Prelude Py Digest Constants Frame.
Open Scope Z_scope.

Definition V1_FRAME_MAGIC : bytes := lit "PQV1".
Definition V1_FRAME_VERSION : Z := 0x10.
Definition V1_FRAME_HEADER_SIZE : Z := 8.

Definition V1_SEC_QUERY : Z := 0x01.
Definition V1_SEC_INFO : Z := 0x02.
Definition V1_START : Z := 0x10.
Definition V1_READY : Z := 0x11.
Definition V1_FINISHED_C : Z := 0x12.
Definition V1_FINISHED_P : Z := 0x13.
Definition V1_START_CP3 : Z := 0x14.
Definition V1_READY_CP3 : Z := 0x15.
Definition V1_APP_C2P : Z := 0x20.
Definition V1_APP_P2C : Z := 0x21.
Definition V1_ERROR : Z := 0x7F.

Definition V1_SEC_INFO_PAYLOAD_SIZE : Z := 4.
Definition V1_CP2_SESSION_ID_SIZE : Z := 16.
Definition V1_CP2_DIAGNOSTIC_SIZE : Z := 32.
Definition V1_CP2_DIAGNOSTIC_LABEL : bytes := lit "PQ-BLE-HANDSHAKE-v1.0/CP2-DIAGNOSTIC".
Definition V1_CP3_SESSION_ID_SIZE : Z := 16.
Definition V1_CP3_HASH_SIZE : Z := 32.

Definition V1_SEC_FLAG_SC : Z := 0x01.
Definition V1_SEC_FLAG_AUTHENTICATED : Z := 0x02.
Definition V1_SEC_FLAG_GATE_OPEN : Z := 0x04.
Definition V1_PROFILE_ID : Z := 0x10.

Definition V1_STATUS_INSUFFICIENT_SECURITY : Z := 0x10.
Definition V1_STATUS_LEGACY_CONTROL_REJECTED : Z := 0x11.
Definition V1_STATUS_INVALID_STATE : Z := 0x12.
Definition V1_STATUS_NOTIFICATIONS_DISABLED : Z := 0x13.
Definition V1_STATUS_UNSUPPORTED_SUBTYPE : Z := 0x14.
Definition V1_STATUS_CP2_CRYPTO_FAILURE : Z := 0x15.
Definition V1_STATUS_CP3_FAILURE : Z := 0x16.

Definition BT_SECURITY_L4 : Z := 4.
Definition L4_ENC_KEY_SIZE : Z := 16.

(** The dict of fixed payload sizes. *)
Definition _PAYLOAD_SIZES (subtype : Z) : option Z :=
  if subtype =? V1_START_CP3 then Some V1_CP3_SESSION_ID_SIZE
  else if subtype =? V1_READY_CP3 then Some V1_CP3_HASH_SIZE
  else if subtype =? V1_FINISHED_C then Some V1_CP3_HASH_SIZE
  else if subtype =? V1_FINISHED_P then Some V1_CP3_HASH_SIZE
  else if subtype =? V1_START then Some V1_CP2_SESSION_ID_SIZE
  else if subtype =? V1_READY then Some V1_CP2_DIAGNOSTIC_SIZE
  else if subtype =? V1_SEC_QUERY then Some 0
  else if subtype =? V1_SEC_INFO then Some V1_SEC_INFO_PAYLOAD_SIZE
  else if subtype =? V1_ERROR then Some 1
  else None.

Record V1Frame := mkV1Frame { subtype : Z; payload : bytes }.

Record V1SecurityInfo := mkV1SecurityInfo {
  level : Z;
  secure_connections : bool;
  authenticated : bool;
  gate_open : bool;
  enc_key_size : Z;
  profile : Z;
}.

(** * Frames *)

Definition _validate_payload (subtype : Z) (payload : bytes) : result unit :=
  if (subtype =? V1_APP_C2P) || (subtype =? V1_APP_P2C) then
    raise_if (negb ((27 <=? blen payload) && (blen payload <=? 27 + 128))
              || negb (blen payload =? 27 + from_be (bslice 9 11 payload)))
      (ValueError "invalid CP4 application payload length")
  else
    match _PAYLOAD_SIZES subtype with
    | None => Err (ValueError "unsupported PQV1 subtype")
    | Some expected =>
        raise_if (negb (blen payload =? expected)) (ValueError "PQV1 payload for subtype")
    end.

Definition encode_v1_frame (subtype : Z) (payload : bytes) : result bytes :=
  _validate_payload subtype payload;;
  h ← mk_bytes [V1_FRAME_VERSION; subtype];
  n ← to_bytes 2 (blen payload);
  mret (V1_FRAME_MAGIC ++ h ++ n ++ payload).

Definition parse_v1_frame (data : bytes) : result V1Frame :=
  raise_if (blen data <? V1_FRAME_HEADER_SIZE) (ValueError "truncated PQV1 frame");;
  raise_if (negb (bool_decide (bto 4 data = V1_FRAME_MAGIC))) (ValueError "incorrect PQV1 magic");;
  v ← idx data 4;
  raise_if (negb (v =? V1_FRAME_VERSION)) (ValueError "incorrect PQV1 version");;
  let declared := from_be (bslice 6 8 data) in
  raise_if (negb (blen data =? V1_FRAME_HEADER_SIZE + declared))
    (ValueError "incorrect PQV1 payload length");;
  s ← idx data 5;
  let frame := mkV1Frame s (bfrom 8 data) in
  _validate_payload (subtype frame) (payload frame);;
  mret frame.

(** * SEC_QUERY, SEC_INFO and ERROR *)

Definition encode_sec_query : result bytes := encode_v1_frame V1_SEC_QUERY [].

Definition encode_sec_info (info : V1SecurityInfo) : result bytes :=
  raise_if (negb ((0 <=? level info) && (level info <=? 0xFF))
            || negb ((0 <=? enc_key_size info) && (enc_key_size info <=? 0xFF)))
    (ValueError "SEC_INFO fields must be single bytes");;
  let flags := 0 in
  let flags := if secure_connections info then Z.lor flags V1_SEC_FLAG_SC else flags in
  let flags := if authenticated info then Z.lor flags V1_SEC_FLAG_AUTHENTICATED else flags in
  let flags := if gate_open info then Z.lor flags V1_SEC_FLAG_GATE_OPEN else flags in
  p ← mk_bytes [level info; flags; enc_key_size info; Z.land (profile info) 0xFF];
  encode_v1_frame V1_SEC_INFO p.

Definition parse_sec_info (data : bytes) : result V1SecurityInfo :=
  frame ← parse_v1_frame data;
  raise_if (negb (subtype frame =? V1_SEC_INFO)) (ValueError "expected SEC_INFO");;
  match payload frame with
  | [level; flags; key_size; profile] =>
      mret {|
        level := Z_of_byte level;
        secure_connections := negb (Z.land (Z_of_byte flags) V1_SEC_FLAG_SC =? 0);
        authenticated := negb (Z.land (Z_of_byte flags) V1_SEC_FLAG_AUTHENTICATED =? 0);
        gate_open := negb (Z.land (Z_of_byte flags) V1_SEC_FLAG_GATE_OPEN =? 0);
        enc_key_size := Z_of_byte key_size;
        profile := Z_of_byte profile;
      |}
  | _ => Err (ValueError "unpack")
  end.

Definition encode_v1_error (status : Z) : result bytes :=
  p ← mk_bytes [status];
  encode_v1_frame V1_ERROR p.

Definition is_authenticated_level4 (info : V1SecurityInfo) : bool :=
  (level info =? BT_SECURITY_L4)
  && secure_connections info
  && authenticated info
  && gate_open info
  && (enc_key_size info =? L4_ENC_KEY_SIZE)
  && (profile info =? V1_PROFILE_ID).

(** * Security denials

    Of an exception the classifier reads bleak's ATT code, the message of
    another [BleakError], or an integer [winerror]. *)
Definition SECURITY_DENIAL_ATT_CODES (code : Z) : option string :=
  if code =? 0x05 then Some "ATT Insufficient Authentication"%string
  else if code =? 0x08 then Some "ATT Insufficient Authorization"%string
  else if code =? 0x0F then Some "ATT Insufficient Encryption"%string
  else None.

(** The two regular expressions of the source on ASCII text: [\b], literals
    compared without case, and the two hexadecimal digits of the group. *)
Definition lower (c : ascii) : ascii :=
  let n := N_of_ascii c in
  if (65 <=? n)%N && (n <=? 90)%N then ascii_of_N (n + 32) else c.

Definition is_word (c : ascii) : bool :=
  let n := N_of_ascii (lower c) in
  ((97 <=? n) && (n <=? 122) || (48 <=? n) && (n <=? 57) || (n =? 95))%N.

Definition hex_value (c : ascii) : option Z :=
  let n := N_of_ascii (lower c) in
  if ((48 <=? n) && (n <=? 57))%N then Some (Z.of_N n - 48)
  else if ((97 <=? n) && (n <=? 102))%N then Some (Z.of_N n - 87)
  else None.

(** A word boundary between the previous character and the rest. *)
Definition boundary (prev : option ascii) (rest : string) : bool :=
  xorb (match prev with Some c => is_word c | None => false end)
       (match rest with String c _ => is_word c | EmptyString => false end).

(** Drops a literal, ignoring case; the last character dropped is returned too. *)
Fixpoint match_literal (l s : string) (prev : option ascii) : option (option ascii * string) :=
  match l, s with
  | EmptyString, _ => Some (prev, s)
  | String a l', String b s' =>
      if ascii_dec (lower a) (lower b) then match_literal l' s' (Some b) else None
  | String _ _, EmptyString => None
  end.

Definition match_hex_at (l s : string) : option Z :=
  match match_literal l s None with
  | Some (_, String a (String b rest)) =>
      match hex_value a, hex_value b with
      | Some x, Some y => if boundary (Some b) rest then Some (16 * x + y) else None
      | _, _ => None
      end
  | _ => None
  end.

(** The first alternative that matches here. *)
Definition match_any (literals : list string) (s : string) : option Z :=
  foldr (fun l r => match match_hex_at l s with Some c => Some c | None => r end) None literals.

(** [re.search] of [\b(?:...)([0-9a-f]{2})\b]: the leftmost position that matches. *)
Fixpoint search_hex (literals : list string) (prev : option ascii) (s : string) : option Z :=
  let here := if boundary prev s then match_any literals s else None in
  match here, s with
  | Some c, _ => Some c
  | None, String a s' => search_hex literals (Some a) s'
  | None, EmptyString => None
  end.

Definition _ATT_IN_MESSAGE : option ascii -> string -> option Z :=
  search_hex ["Protocol Error 0x"; "ATT error: 0x"; "error code 0x"].

Fixpoint _ACCESS_DENIED (prev : option ascii) (s : string) : bool :=
  (boundary prev s &&
   match match_literal "Access Denied" s None with
   | Some (last, rest) => boundary last rest
   | None => false
   end)
  || match s with String a s' => _ACCESS_DENIED (Some a) s' | EmptyString => false end.

Definition _WINRT_ATT_HRESULT_BASE : Z := 0x80650000.
Definition _WINRT_E_ACCESSDENIED : Z := 0x80070005.

Definition classify_security_denial (exc : exn) : option string :=
  match exc with
  | BleakGATTProtocolError code => SECURITY_DENIAL_ATT_CODES code
  | BleakError message =>
      match _ATT_IN_MESSAGE None message with
      | Some code => SECURITY_DENIAL_ATT_CODES code
      | None =>
          if _ACCESS_DENIED None message
          then Some "WinRT Access Denied (pairing/encryption required)"%string else None
      end
  | OtherException (Some winerror) =>
      let hresult := Z.land winerror 0xFFFFFFFF in
      if hresult =? _WINRT_E_ACCESSDENIED then Some "WinRT E_ACCESSDENIED"%string
      else if Z.land hresult 0xFFFF0000 =? _WINRT_ATT_HRESULT_BASE
      then SECURITY_DENIAL_ATT_CODES (Z.land hresult 0xFF)
      else None
  | _ => None
  end.

(** * The CP2 diagnostic (v1_cp2.py); the wiped digest is local to the call *)

Definition compute_diagnostic (shared_secret session_id public_key ciphertext : bytes) : result bytes :=
  raise_if (negb (blen shared_secret =? SS_SIZE) || negb (blen session_id =? V1_CP2_SESSION_ID_SIZE)
            || negb (blen public_key =? PK_SIZE) || negb (blen ciphertext =? CT_SIZE))
    (ValueError "invalid CP2 diagnostic input length");;
  let digest := sha256 (public_key ++ ciphertext) in
  mret (hmac_sha256 shared_secret (V1_CP2_DIAGNOSTIC_LABEL ++ session_id ++ digest)).

Example att_in_message_found :
  classify_security_denial (BleakError "Could not read: PROTOCOL ERROR 0x0f: x") =
  Some "ATT Insufficient Encryption"%string.
Proof. reflexivity. Qed.

Example att_in_message_boundary :
  classify_security_denial (BleakError "protocol error 0x0f5") = None /\
  classify_security_denial (BleakError "access denied.") =
    Some "WinRT Access Denied (pairing/encryption required)"%string /\
  classify_security_denial (BleakError "inaccess denied") = None.
Proof. repeat split; reflexivity. Qed.

(** * Frames *)

(** A payload the subtype admits. *)
Definition v1_payload (s : Z) (p : bytes) : Prop := _validate_payload s p = Ok tt.

Definition v1_wire (s : Z) (p : bytes) : bytes := frame_wire V1_FRAME_MAGIC V1_FRAME_VERSION s p.
Arguments v1_wire : simpl never.

Lemma v1_payload_small s p : v1_payload s p -> 0 <= s < 256 /\ blen p < 65536.
Proof.
  unfold v1_payload, _validate_payload, _PAYLOAD_SIZES, V1_APP_C2P, V1_APP_P2C, V1_START_CP3,
    V1_READY_CP3, V1_FINISHED_C, V1_FINISHED_P, V1_START, V1_READY, V1_SEC_QUERY, V1_SEC_INFO, V1_ERROR,
    V1_CP3_SESSION_ID_SIZE, V1_CP3_HASH_SIZE, V1_CP2_SESSION_ID_SIZE, V1_CP2_DIAGNOSTIC_SIZE,
    V1_SEC_INFO_PAYLOAD_SIZE.
  repeat case_match; intros Hv; try done; apply raise_if_Ok in Hv; simplify_eq; lia.
Qed.

Lemma encode_v1_Ok s p w : encode_v1_frame s p = Ok w <-> v1_payload s p /\ w = v1_wire s p.
Proof.
  unfold encode_v1_frame, V1_FRAME_VERSION. rewrite bind_Ok.
  setoid_rewrite (frame_build_Ok V1_FRAME_MAGIC 16 s p w); [|lia]. split.
  - intros ([] & Hv & _ & _ & ->). done.
  - intros (Hv & ->). pose proof (v1_payload_small _ _ Hv). exists tt. split_and!; done || apply H.
Qed.

Lemma parse_v1_Ok data f :
  parse_v1_frame data = Ok f <->
  v1_payload (subtype f) (payload f) /\ data = v1_wire (subtype f) (payload f).
Proof.
  unfold parse_v1_frame, V1_FRAME_HEADER_SIZE, V1_FRAME_VERSION. split.
  - intros Hp. ok_inv. apply negb_false_iff, bool_decide_eq_true in Hok0.
    apply negb_false_iff, Z.eqb_eq in Hok2, Hok3. simplify_eq. split; [done|].
    eapply parse_reference_Some, parse_reference_intro; done.
  - intros (Hv & ->). pose proof (v1_payload_small _ _ Hv). unfold v1_wire, V1_FRAME_VERSION.
    autorewrite with frame. pose proof (blen_nonneg (payload f)). pass; [lia|].
    rewrite bool_decide_eq_true_2 by done. cbn [negb raise_if mbind result_bind].
    pass; [lia|]. pass; [lia|]. cbn [subtype payload]. rewrite Hv. by destruct f.
Qed.

Lemma parse_v1_wire s p : v1_payload s p -> parse_v1_frame (v1_wire s p) = Ok (mkV1Frame s p).
Proof. intros Hp. by apply parse_v1_Ok. Qed.

(** The strict PQV1 parser inverts the encoder and accepts nothing else; the
    payload of every accepted frame has the one size its subtype allows, at most
    155 bytes, so a reassembled application frame is bounded. *)
Theorem v1_frames_exact data :
  (forall f, parse_v1_frame data = Ok f <-> encode_v1_frame (subtype f) (payload f) = Ok data) /\
  (forall f, parse_v1_frame data = Ok f -> 8 <= blen data <= 163 /\
     (subtype f = V1_APP_C2P \/ subtype f = V1_APP_P2C \/
      _PAYLOAD_SIZES (subtype f) = Some (blen (payload f)))).
Proof.
  split; [intros f; by rewrite parse_v1_Ok, encode_v1_Ok|].
  intros f [Hv ->]%parse_v1_Ok. unfold v1_wire. autorewrite with frame.
  pose proof (blen_nonneg (payload f)). unfold v1_payload, _validate_payload in Hv.
  destruct ((subtype f =? V1_APP_C2P) || (subtype f =? V1_APP_P2C)) eqn:Ha.
  - apply raise_if_Ok in Hv. split; lia.
  - destruct (_PAYLOAD_SIZES (subtype f)) as [n|] eqn:Hn; [|done].
    apply raise_if_Ok in Hv. assert (n = blen (payload f)) as -> by lia.
    split; [|by right; right]. revert Hn. unfold _PAYLOAD_SIZES.
    repeat case_match; intros [= Hn]; rewrite <- ?Hn; done.
Qed.

(** * The attestation *)

Definition sec_info_of (a b c d : byte) : V1SecurityInfo :=
  mkV1SecurityInfo (Z_of_byte a)
    (negb (Z.land (Z_of_byte b) V1_SEC_FLAG_SC =? 0))
    (negb (Z.land (Z_of_byte b) V1_SEC_FLAG_AUTHENTICATED =? 0))
    (negb (Z.land (Z_of_byte b) V1_SEC_FLAG_GATE_OPEN =? 0))
    (Z_of_byte c) (Z_of_byte d).

Lemma parse_sec_info_Ok data info :
  parse_sec_info data = Ok info <->
  exists a b c d, data = v1_wire V1_SEC_INFO [a; b; c; d] /\ info = sec_info_of a b c d.
Proof.
  unfold parse_sec_info. split.
  - intros Hp. ok_inv. apply parse_v1_Ok in Hok as [_ ->].
    apply negb_false_iff, Z.eqb_eq in Hok0. rewrite Hok0.
    destruct (payload a) as [|x [|y [|z [|u [|]]]]]; try done.
    injection Hp as <-. by exists x, y, z, u.
  - intros (a & b & c & d & -> & ->). by rewrite parse_v1_wire.
Qed.

(** Parsing keeps the three low flag bits. *)
Definition flags_of (sc auth gate : bool) : Z :=
  let flags := 0 in
  let flags := if sc then Z.lor flags V1_SEC_FLAG_SC else flags in
  let flags := if auth then Z.lor flags V1_SEC_FLAG_AUTHENTICATED else flags in
  if gate then Z.lor flags V1_SEC_FLAG_GATE_OPEN else flags.

Lemma flags_of_byte b :
  flags_of (negb (Z.land (Z_of_byte b) V1_SEC_FLAG_SC =? 0))
           (negb (Z.land (Z_of_byte b) V1_SEC_FLAG_AUTHENTICATED =? 0))
           (negb (Z.land (Z_of_byte b) V1_SEC_FLAG_GATE_OPEN =? 0)) = Z.land (Z_of_byte b) 7.
Proof. by destruct b. Qed.

Lemma flags_of_bits sc auth gate :
  let b := byte_of_Z (flags_of sc auth gate) in
  sec_info_of x00 b x00 x00 = mkV1SecurityInfo 0 sc auth gate 0 0.
Proof. by destruct sc, auth, gate. Qed.

Lemma is_byte_flags sc auth gate : is_byte (flags_of sc auth gate) = true.
Proof. by destruct sc, auth, gate. Qed.

Lemma is_byte_land v : is_byte (Z.land v 0xFF) = true.
Proof. change 0xFF with (Z.ones 8). rewrite Z.land_ones by lia. change (2 ^ 8) with 256. pose proof (Z.mod_pos_bound v 256 ltac:(done)). unfold is_byte. lia. Qed.

Lemma encode_sec_info_Ok info w :
  encode_sec_info info = Ok w <->
  0 <= level info < 256 /\ 0 <= enc_key_size info < 256 /\
  w = v1_wire V1_SEC_INFO
        [byte_of_Z (level info);
         byte_of_Z (flags_of (secure_connections info) (authenticated info) (gate_open info));
         byte_of_Z (enc_key_size info); byte_of_Z (Z.land (profile info) 0xFF)].
Proof.
  unfold encode_sec_info.
  fold (flags_of (secure_connections info) (authenticated info) (gate_open info)).
  assert (0 <= level info < 256 -> 0 <= enc_key_size info < 256 ->
    mk_bytes [level info; flags_of (secure_connections info) (authenticated info) (gate_open info);
              enc_key_size info; Z.land (profile info) 0xFF] =
    Ok [byte_of_Z (level info);
         byte_of_Z (flags_of (secure_connections info) (authenticated info) (gate_open info));
         byte_of_Z (enc_key_size info); byte_of_Z (Z.land (profile info) 0xFF)]) as Hm.
  { intros Hl Hk. unfold mk_bytes. cbn [forallb].
    by rewrite is_byte_flags, is_byte_land, (proj2 (is_byte_range _) Hl), (proj2 (is_byte_range _) Hk). }
  split.
  - intros He. ok_inv. assert (0 <= level info < 256) by lia. assert (0 <= enc_key_size info < 256) by lia.
    rewrite Hm in Hok0 by done. simplify_eq. by apply encode_v1_Ok in He as [_ ->].
  - intros (Hl & Hk & ->). pass; [lia|]. rewrite Hm by done. cbn [mbind result_bind].
    by apply encode_v1_Ok.
Qed.

(** The one SEC_INFO frame of a strict Level 4 link. *)
Definition sec_info_level4 : bytes := v1_wire V1_SEC_INFO [x04; x07; x10; x10].

Lemma sec_info_payload p : blen p = 4 -> v1_payload V1_SEC_INFO p.
Proof. intros Hp. unfold v1_payload, _validate_payload. cbn. by rewrite Hp. Qed.

Lemma sec_info_of_payload a b c d : parse_sec_info (v1_wire V1_SEC_INFO [a; b; c; d]) = Ok (sec_info_of a b c d).
Proof. apply parse_sec_info_Ok. eauto 8. Qed.

Lemma parse_encode_sec_info info w :
  encode_sec_info info = Ok w ->
  parse_sec_info w = Ok {|
    level := level info; secure_connections := secure_connections info;
    authenticated := authenticated info; gate_open := gate_open info;
    enc_key_size := enc_key_size info; profile := Z.land (profile info) 0xFF |}.
Proof.
  intros (Hl & Hk & ->)%encode_sec_info_Ok. rewrite sec_info_of_payload. f_equal.
  pose proof (flags_of_bits (secure_connections info) (authenticated info) (gate_open info)) as Hf.
  pose proof (proj1 (is_byte_range _) (is_byte_land (profile info))).
  unfold sec_info_of in *. injection Hf as -> -> ->.
  by rewrite !Z_of_byte_of_Z, !Z.mod_small by done.
Qed.

Lemma encode_parsed_sec_info a b c d data :
  encode_sec_info (sec_info_of a b c d) = Ok data <->
  data = v1_wire V1_SEC_INFO [a; byte_of_Z (Z.land (Z_of_byte b) 7); c; d].
Proof.
  rewrite encode_sec_info_Ok. unfold sec_info_of.
  cbn [level secure_connections authenticated gate_open enc_key_size profile].
  rewrite flags_of_byte, !byte_of_Z_of_byte.
  assert (byte_of_Z (Z.land (Z_of_byte d) 0xFF) = d) as -> by (by destruct d).
  pose proof (Z_of_byte_range a). pose proof (Z_of_byte_range c). tauto.
Qed.

Lemma v1_wire_inj s1 s2 p1 p2 :
  0 <= s1 < 256 -> 0 <= s2 < 256 -> v1_wire s1 p1 = v1_wire s2 p2 -> s1 = s2 /\ p1 = p2.
Proof.
  intros H1 H2 H. apply frame_wire_inj in H; try done. by destruct H as (_ & -> & ->).
Qed.

Lemma is_level4_bytes a b c d :
  is_authenticated_level4 (sec_info_of a b c d) = true <->
  a = x04 /\ Z.land (Z_of_byte b) 7 = 7 /\ c = x10 /\ d = x10.
Proof.
  assert (forall x y, (Z_of_byte x =? Z_of_byte y) = true <-> x = y) as Hb.
  { intros x y. rewrite Z.eqb_eq. split; [apply Z_of_byte_inj|by intros ->]. }
  unfold is_authenticated_level4, sec_info_of.
  cbn [level secure_connections authenticated gate_open enc_key_size profile].
  change BT_SECURITY_L4 with (Z_of_byte x04). change L4_ENC_KEY_SIZE with (Z_of_byte x10).
  change V1_PROFILE_ID with (Z_of_byte x10). rewrite !andb_true_iff, !Hb.
  assert (negb (Z.land (Z_of_byte b) V1_SEC_FLAG_SC =? 0) = true /\
    negb (Z.land (Z_of_byte b) V1_SEC_FLAG_AUTHENTICATED =? 0) = true /\
    negb (Z.land (Z_of_byte b) V1_SEC_FLAG_GATE_OPEN =? 0) = true <-> Z.land (Z_of_byte b) 7 = 7) as <-
    by (destruct b; vm_compute; intuition congruence).
  tauto.
Qed.

(** The canonical attestation of a strict Level 4 link is one frame. *)
Lemma level4_canonical data info :
  parse_sec_info data = Ok info /\ is_authenticated_level4 info = true /\ encode_sec_info info = Ok data <->
  data = sec_info_level4 /\ info = mkV1SecurityInfo 4 true true true 16 16.
Proof.
  split.
  - intros ((a & b & c & d & -> & ->)%parse_sec_info_Ok & (-> & Hb & -> & ->)%is_level4_bytes & He).
    apply encode_parsed_sec_info in He. rewrite Hb in He.
    apply v1_wire_inj in He as [_ [= ->]]; [|done..]. done.
  - intros [-> ->]. split_and!; by vm_compute.
Qed.

(** SEC_INFO round trip. What [encode_sec_info] writes parses back to the
    same record up to the low byte of the profile (a profile over one byte is
    cut silently, level and key size are refused). A parsed record encodes back
    to the received bytes exactly when the reserved flag bits were zero, and
    together with the strict Level 4 predicate this leaves a single frame. *)
Theorem sec_info_exact :
  (forall info w, encode_sec_info info = Ok w ->
    parse_sec_info w = Ok {|
      level := level info; secure_connections := secure_connections info;
      authenticated := authenticated info; gate_open := gate_open info;
      enc_key_size := enc_key_size info; profile := Z.land (profile info) 0xFF |}) /\
  (forall data info flags, parse_sec_info data = Ok info -> idx data 9 = Ok flags ->
    (encode_sec_info info = Ok data <-> flags < 8)) /\
  (forall data info,
    parse_sec_info data = Ok info /\ is_authenticated_level4 info = true /\ encode_sec_info info = Ok data <->
    data = sec_info_level4 /\ info = mkV1SecurityInfo 4 true true true 16 16).
Proof.
  split; [exact parse_encode_sec_info|split; [|exact level4_canonical]].
  intros data info flags (a & b & c & d & -> & ->)%parse_sec_info_Ok Hi.
  assert (flags = Z_of_byte b) as -> by (by injection Hi).
  rewrite encode_parsed_sec_info. split.
  - intros He. apply v1_wire_inj in He as [_ [= He]]; [|done..].
    rewrite He, Z_of_byte_of_Z. destruct b; by vm_compute.
  - intros Hb. do 2 f_equal. by destruct b.
Qed.

Lemma facility_bits h : 0 <= h < 2 ^ 32 -> Z.land h 0xFFFF0000 = 2 ^ 16 * (h / 2 ^ 16).
Proof.
  intros Hh. change 0xFFFF0000 with (Z.ldiff (Z.ones 32) (Z.ones 16)).
  rewrite Z.ldiff_land, Z.land_assoc, Z.land_ones, Z.mod_small by lia.
  rewrite <- Z.ldiff_land, Z.ldiff_ones_r, Z.shiftl_mul_pow2, Z.shiftr_div_pow2 by lia. lia.
Qed.

(** Only security codes are denials. A structured ATT error is a denial
    exactly for the codes 0x05, 0x08 and 0x0F; a Windows error exactly when its
    low 32 bits are E_ACCESSDENIED or carry one of these codes under the ATT
    facility; an exception without an error number never is. *)
Theorem denial_codes_exact :
  (forall code, classify_security_denial (BleakGATTProtocolError code) <> None <->
     code = 5 \/ code = 8 \/ code = 15) /\
  (forall w, classify_security_denial (OtherException (Some w)) <> None <->
     w mod 2 ^ 32 = 0x80070005 \/
     ((w mod 2 ^ 32) / 2 ^ 16 = 0x8065 /\ (w mod 2 ^ 8 = 5 \/ w mod 2 ^ 8 = 8 \/ w mod 2 ^ 8 = 15))) /\
  classify_security_denial (OtherException None) = None.
Proof.
  assert (forall code, SECURITY_DENIAL_ATT_CODES code <> None <-> code = 5 \/ code = 8 \/ code = 15) as Hc.
  { intros code. unfold SECURITY_DENIAL_ATT_CODES.
    destruct (Z.eqb_spec code 5), (Z.eqb_spec code 8), (Z.eqb_spec code 15); split; (done || lia || naive_solver). }
  split; [exact Hc|split; [|done]]. intros w. cbn [classify_security_denial].
  assert (Z.land (Z.land w 0xFFFFFFFF) 0xFF = w mod 2 ^ 8) as ->.
  { rewrite <- Z.land_assoc. change (Z.land 0xFFFFFFFF 0xFF) with (Z.ones 8). by apply Z.land_ones. }
  assert (Z.land w 0xFFFFFFFF = w mod 2 ^ 32) as -> by (by apply (Z.land_ones w 32)).
  rewrite facility_bits by (apply Z.mod_pos_bound; lia). set (h := w mod 2 ^ 32).
  unfold _WINRT_E_ACCESSDENIED, _WINRT_ATT_HRESULT_BASE.
  destruct (Z.eqb_spec h 0x80070005) as [->|Hn]; [split; [by left|done]|].
  destruct (Z.eqb_spec (2 ^ 16 * (h / 2 ^ 16)) 0x80650000); [rewrite Hc|]; split; intros; (done || lia).
Qed.
