(* ===== verification/Phase7Auth.v ===== *)
(** src/src/central/phase7_auth.py: the Central's runner of the authenticated
    hybrid handshake v0.7, with its application rounds and its seven
    negative-test modes. The variables that its [finally] block wipes or drops
    are fields of [phase7_vars]; the others are bound where the source assigns
    them. *)

From Stdlib Require Import Ascii.
From stdpp Require Import sets.
From S2P Require V1Smp.
From S2P Require Import Prelude Py Digest Interfaces World Constants Fragmentation BleClient Runs Policy Sas Session Runner Frame Phase7.
Open Scope Z_scope.

Definition PHASE7_NEGATIVE_MODES : list string :=
  ["sas-reject"; "finished-c"; "pre-auth"; "c2p-tamper"; "c2p-replay"; "p2c-tamper"; "p2c-replay"].

Definition _tamper_last_bit (wire : bytes) : result bytes :=
  raise_if (blen wire =? 0) (ValueError "Cannot tamper an empty value");;
  mret (flip_last_bit wire).

(** ** Which write failures are rejections *)

(** [isinstance(exc, (BleakError, OSError))]: an exception with a [winerror] is
    an [OSError], and so is a timeout. *)
Definition is_write_failure (exc : exn) : bool :=
  match exc with
  | BleakGATTProtocolError _ | BleakError _ | OSError | FileNotFoundError | AsyncTimeoutError
  | OtherException (Some _) => true
  | _ => false
  end.

Definition denied_att_codes : list Z := [0x03; 0x05; 0x08; 0x0F; 0xFC].

Definition att_error : string -> option Z :=
  V1Smp.search_hex ["Protocol Error 0x"; "ATT error: 0x"] None.

(** The string ends with the literal, ignoring case. *)
Fixpoint ends_with (l s : string) : bool :=
  match V1Smp.match_literal l s None with Some (_, EmptyString) => true | _ => false end
  || match s with String _ s' => ends_with l s' | EmptyString => false end.

(** [re.fullmatch] of [Could not write value\b.*: Access Denied]. *)
Definition write_denied (message : string) : bool :=
  match V1Smp.match_literal "Could not write value" message None with
  | Some (last, rest) => V1Smp.boundary last rest && ends_with ": Access Denied" rest
  | None => false
  end.

Definition recognized_rejection (exc : exn) : bool :=
  match exc with
  | BleakGATTProtocolError gatt_code => bool_decide (gatt_code ∈ denied_att_codes)
  | BleakError message =>
      match att_error message with
      | Some code => bool_decide (code ∈ denied_att_codes)
      | None => write_denied message
      end
  | OtherException (Some winerror) =>
      bool_decide (Z.land winerror 0xFFFFFFFF ∈ 0x80070005 :: map (Z.lor 0x80650000) denied_att_codes)
  | _ => false
  end.

Record Phase7AuthResult := mkPhase7AuthResult { shown_sas : string; rounds : Z }.

(** The secrets: five of the handshake, and the two traffic keys. *)
Record phase7_secrets := mkSecrets {
  ss_mlkem : bytes;
  ss_ecdh : bytes;
  application_key : bytes;
  finished_c_value : bytes;
  expected_finished_p : bytes;
  c2p_key_buffer : bytes;
  p2c_key_buffer : bytes;
}.

Record phase7_vars := mkVars {
  secrets : phase7_secrets;
  c2p_channel : option SecureChannel;
  p2c_channel : option SecureChannel;
  negative_checked : bool;
}.

Definition phase7_start : phase7_vars := mkVars (mkSecrets [] [] [] [] [] [] []) None None false.

Definition set_secrets (s : phase7_secrets) (x : phase7_vars) : phase7_vars :=
  mkVars s (c2p_channel x) (p2c_channel x) (negative_checked x).

(** The two shared secrets; the rest of the handshake; the traffic keys. *)
Definition set_shared (ss z : bytes) (x : phase7_vars) : phase7_vars :=
  let s := secrets x in
  set_secrets (mkSecrets ss z (application_key s) (finished_c_value s) (expected_finished_p s)
                 (c2p_key_buffer s) (p2c_key_buffer s)) x.
Definition set_derived (app fc fp : bytes) (x : phase7_vars) : phase7_vars :=
  let s := secrets x in
  set_secrets (mkSecrets (ss_mlkem s) (ss_ecdh s) app fc fp (c2p_key_buffer s) (p2c_key_buffer s)) x.
Definition set_traffic (c2p p2c : bytes) (x : phase7_vars) : phase7_vars :=
  let s := secrets x in
  set_secrets (mkSecrets (ss_mlkem s) (ss_ecdh s) (application_key s) (finished_c_value s)
                 (expected_finished_p s) c2p p2c) x.

Definition set_finished_c (fc : bytes) (x : phase7_vars) : phase7_vars :=
  set_derived (application_key (secrets x)) fc (expected_finished_p (secrets x)) x.
Definition set_expected (fp : bytes) (x : phase7_vars) : phase7_vars :=
  set_derived (application_key (secrets x)) (finished_c_value (secrets x)) fp x.
Definition set_application (app : bytes) (x : phase7_vars) : phase7_vars :=
  set_derived app (finished_c_value (secrets x)) (expected_finished_p (secrets x)) x.

Definition set_c2p (c : SecureChannel) (x : phase7_vars) : phase7_vars :=
  mkVars (secrets x) (Some c) (p2c_channel x) (negative_checked x).
Definition set_p2c (c : SecureChannel) (x : phase7_vars) : phase7_vars :=
  mkVars (secrets x) (c2p_channel x) (Some c) (negative_checked x).
Definition set_checked (x : phase7_vars) : phase7_vars :=
  mkVars (secrets x) (c2p_channel x) (p2c_channel x) true.

(** The loop over the seven buffers, and [None] for the channels. *)
Definition wipe_all (x : phase7_vars) : phase7_vars :=
  let s := secrets x in
  mkVars (mkSecrets (wipe (ss_mlkem s)) (wipe (ss_ecdh s)) (wipe (application_key s))
            (wipe (finished_c_value s)) (wipe (expected_finished_p s))
            (wipe (c2p_key_buffer s)) (wipe (p2c_key_buffer s)))
    None None (negative_checked x).

Section Runner7.
Context {W : Type} `{Env W, Kem, Kdf, Aead, P256}.

Abbreviation coroutine := (method (io W (host (runner phase7_vars)))).

Definition is_mode (negative_test : option string) (m : string) : bool :=
  bool_decide (negative_test = Some m).

Definition _require_error_status (raw : bytes) (expected : Z) : coroutine unit :=
  frame ← try_except is_value_error
    (fun _ => raise (Phase7AuthError "CP4 expected a well-formed PQS7 ERROR"))
    (run (parse_phase7_frame raw));
  b ← run (mk_bytes [expected]);
  raise_when (negb (subtype frame =? PHASE7_ERROR) || negb (bool_decide (payload frame = b)))
    (Phase7AuthError "CP4 expected PQS7 ERROR").

Definition _require_quiet : coroutine unit :=
  got ← try_except is_timeout
    (fun _ => connected ← is_connected;
              raise_when (negb connected) (Phase7AuthError "CP4 connection lost during observation");;
              mret false)
    (next_notification;; mret true);
  raise_when got (Phase7AuthError "CP4 unexpected extra notification (FINISHED/data/duplicate)").

Definition _preauth_probe (application_key session_id : bytes) : coroutine bytes :=
  keys ← run (derive_phase7_traffic_keys application_key);
  channel ← run (SecureChannel_init (central_to_peripheral keys) (Some session_id) (Some CENTRAL_ROLE));
  iv ← query_env (Urandom GCM_IV_SIZE);
  run (encrypt (lit "PING 0") MSG_TYPE_DATA iv channel).1.

Definition _require_preauth_rejection (wire : bytes) : coroutine unit :=
  accepted ← try_except is_write_failure
    (fun exc =>
       connected ← is_connected;
       raise_when (negb connected || is_timeout exc)
         (Phase7AuthError "CP4 write failed due to timeout/disconnection");;
       raise_when (negb (recognized_rejection exc))
         (Phase7AuthError "CP4 write failure is not a recognized BLE write rejection");;
       mret false)
    (write_secure_data wire;; mret true);
  raise_when accepted (Phase7AuthError "CP4 Peripheral accepted pre-auth Secure Data");;
  _require_quiet.

(** The callback, or the prompt; without a callback, sas-reject supplies one. *)
Definition _confirm_sas (negative_test : option string) (sas_callback : bool) (sas : string)
  : coroutine bool :=
  if is_mode negative_test "sas-reject" && negb sas_callback then mret false
  else perform (Confirm sas).

Definition _check_error_frame (raw : bytes) : coroutine unit :=
  if negb (bool_decide (bto 4 raw = PHASE7_FRAME_MAGIC)) then mret tt
  else
    frame ← try_except is_value_error (fun _ => raise (Phase7AuthError "Invalid PQS7 response"))
      (run (parse_phase7_frame raw));
    if subtype frame =? PHASE7_ERROR
    then run (idx (payload frame) 0);; raise (Phase7AuthError "Peripheral PQS7 ERROR")
    else mret tt.

(** What the Central put on the table: key, ciphertext, session and key share. *)
Record offer := mkOffer {
  o_public_key : bytes;
  o_ciphertext : bytes;
  o_session_id : bytes;
  o_private : ec_private;
  o_central_key : bytes;
}.

Definition send_start7 : coroutine offer :=
  subscribe;;
  public_key ← read_fragmented_public_key;
  raise_when (negb (blen public_key =? PHASE7_MLKEM_PUBLIC_KEY_SIZE))
    (Phase7AuthError "ML-KEM public key has invalid size");;
  coins ← query_env Coins;
  let private_key := generate_p256_private_key coins in
  central_public_key ← run (serialize_p256_public_key private_key);
  coins ← query_env Coins;
  encapsulated ← run (encapsulate public_key coins);
  let '(ciphertext, shared_secret) := encapsulated in
  update_vars (set_shared shared_secret []);;
  raise_when (negb (blen ciphertext =? PHASE7_MLKEM_CIPHERTEXT_SIZE))
    (Phase7AuthError "ML-KEM ciphertext has invalid size");;
  raise_when (negb (blen shared_secret =? PHASE7_SHARED_SECRET_SIZE))
    (Phase7AuthError "ML-KEM shared secret has invalid size");;
  session_id ← query_env (Urandom PHASE7_SESSION_ID_SIZE);
  start7 ← run (encode_start7_auth session_id central_public_key);
  write_fragmented_ciphertext ciphertext;;
  send_control start7;;
  mret (mkOffer public_key ciphertext session_id private_key central_public_key).

(** READY7_AUTH and the key schedule; the SAS is returned. *)
Definition agree (o : offer) : coroutine string :=
  raw_ready ← _receive (Phase7AuthError "Timed out waiting for READY7_AUTH");
  _check_error_frame raw_ready;;
  peripheral_public_key ← try_except is_value_error
    (fun _ => raise (Phase7AuthError "Invalid READY7_AUTH")) (run (parse_ready7_auth raw_ready));
  z ← run (derive_p256_ecdh_shared_secret (o_private o) peripheral_public_key);
  update_vars (fun x => set_shared (ss_mlkem (secrets x)) z x);;
  transcript_hash ← run (compute_phase7_transcript_hash (o_session_id o) (o_public_key o)
                           (o_ciphertext o) (o_central_key o) peripheral_public_key);
  x ← get_vars;
  keys ← run (derive_phase7_keys (ss_mlkem (secrets x)) (ss_ecdh (secrets x)) transcript_hash);
  update_vars (fun x => set_shared (wipe (ss_mlkem (secrets x))) (wipe (ss_ecdh (secrets x))) x);;
  update_vars (set_application (application keys));;
  fc ← run (compute_phase7_finished_c (finished_c keys) transcript_hash);
  update_vars (set_finished_c fc);;
  fp ← run (compute_phase7_finished_p (finished_p keys) transcript_hash);
  update_vars (set_expected fp);;
  n ← run (compute_phase7_sas (sas keys) transcript_hash);
  run (format_phase7_sas n).

(** The modes that try Secure Data before the handshake ends. *)
Definition probes (negative_test : option string) : bool :=
  is_mode negative_test "sas-reject" || is_mode negative_test "finished-c"
  || is_mode negative_test "pre-auth".

(** The SAS decision; the probe of the modes that have one is returned. *)
Definition confirm (negative_test : option string) (sas_callback : bool) (session_id : bytes)
    (sas : string) : coroutine bytes :=
  preauth_wire ← (if probes negative_test
                  then x ← get_vars; _preauth_probe (application_key (secrets x)) session_id
                  else mret []);
  (if is_mode negative_test "pre-auth"
   then _require_preauth_rejection preauth_wire;; update_vars set_checked else mret tt);;
  confirmed ← _confirm_sas negative_test sas_callback sas;
  (if (confirmed : bool) then mret tt
   else
     (if is_mode negative_test "sas-reject" then
        _require_preauth_rejection preauth_wire;;
        raise (Phase7NegativeTestPassed "SAS rejected; FINISHED_C not sent; Secure Data blocked")
      else mret tt);;
     raise (Phase7AuthError "SAS rejected; FINISHED_C was not sent"));;
  raise_when (is_mode negative_test "sas-reject")
    (Phase7AuthError "CP4 sas-reject requires SAS rejection");;
  mret preauth_wire.

(** FINISHED_C goes out, and the answer comes back. *)
Definition exchange_finished (negative_test : option string) (preauth_wire : bytes) : coroutine bytes :=
  (if is_mode negative_test "finished-c"
   then x ← get_vars;
        tampered ← run (_tamper_last_bit (finished_c_value (secrets x)));
        update_vars (set_finished_c tampered)
   else mret tt);;
  x ← get_vars;
  frame ← run (encode_phase7_finished_c (finished_c_value (secrets x)));
  send_control frame;;
  update_vars (fun x => set_finished_c (wipe (finished_c_value (secrets x))) x);;
  raw_finished ← _receive (Phase7AuthError "Timed out waiting for FINISHED_P");
  (if is_mode negative_test "finished-c" then
     _require_error_status raw_finished 0x06;;
     _require_preauth_rejection preauth_wire;;
     raise (Phase7NegativeTestPassed
       "tampered FINISHED_C rejected; FINISHED_P not accepted; Secure Data blocked")
   else mret tt);;
  mret raw_finished.

Definition verify_peripheral (raw_finished : bytes) : coroutine unit :=
  _check_error_frame raw_finished;;
  received_finished_p ← try_except is_value_error
    (fun _ => raise (Phase7AuthError "Invalid FINISHED_P")) (run (parse_phase7_finished_p raw_finished));
  x ← get_vars;
  raise_when (negb (compare_digest received_finished_p (expected_finished_p (secrets x))))
    (Phase7AuthError "Peripheral FINISHED verification failed");;
  update_vars (fun x => set_expected (wipe (expected_finished_p (secrets x))) x).

(** The traffic keys and the two channels. *)
Definition activate (session_id : bytes) : coroutine unit :=
  x ← get_vars;
  traffic_keys ← run (derive_phase7_traffic_keys (application_key (secrets x)));
  update_vars (set_traffic (central_to_peripheral traffic_keys) (peripheral_to_central traffic_keys));;
  update_vars (fun x => set_application (wipe (application_key (secrets x))) x);;
  x ← get_vars;
  c2p ← run (SecureChannel_init (c2p_key_buffer (secrets x)) (Some session_id) (Some CENTRAL_ROLE));
  update_vars (set_c2p c2p);;
  p2c ← run (SecureChannel_init (p2c_key_buffer (secrets x)) (Some session_id) (Some CENTRAL_ROLE));
  update_vars (set_p2c p2c).

Definition on_c2p {A} : method SecureChannel A -> coroutine A := on_object c2p_channel set_c2p.
Definition on_p2c {A} : method SecureChannel A -> coroutine A := on_object p2c_channel set_p2c.

(** [channel.recv_count]. *)
Definition recv_count : method SecureChannel Z := c ← get_self; mret (_recv_count c).

(** A negative test of round 0. *)
Definition in_round0 (negative_test : option string) (m : string) (i : Z) : bool :=
  (i =? 0) && is_mode negative_test m.

(** Central to Peripheral: the wire that was sent is returned. *)
Definition send_ping (negative_test : option string) (preauth_wire : bytes) (i : Z) : coroutine bytes :=
  mtu_size;;
  iv ← query_env (Urandom GCM_IV_SIZE);
  fresh ← on_c2p (encrypt (ping i) MSG_TYPE_DATA iv);
  let c2p_wire := if in_round0 negative_test "pre-auth" i then preauth_wire else fresh in
  raise_when (negb (wire_seq c2p_wire =? i)) (Phase7AuthError "Unexpected Phase 7 C->P sequence");;
  raise_when (negb (blen c2p_wire =? 43)) (Phase7AuthError "Unexpected Phase 7 C->P wire size");;
  (if in_round0 negative_test "c2p-tamper" i then
     tampered ← run (_tamper_last_bit c2p_wire);
     write_secure_data tampered;;
     raw ← _receive (Phase7AuthError "Timed out waiting for C->P tag rejection");
     _require_error_status raw 0x06;;
     _require_quiet;;
     update_vars set_checked
   else mret tt);;
  write_secure_data c2p_wire;;
  mret c2p_wire.

(** The tampered copy must fail and leave the counter alone. *)
Definition reject_tampered (raw_response : bytes) : coroutine unit :=
  before ← on_p2c recv_count;
  tampered ← run (_tamper_last_bit raw_response);
  accepted ← try_except (fun x => bool_decide (x = InvalidTag)) (fun _ => mret false)
    (on_p2c (decrypt tampered MSG_TYPE_DATA);; mret true);
  raise_when accepted (Phase7AuthError "CP4 Central accepted tampered P->C tag");;
  after ← on_p2c recv_count;
  raise_when (negb (after =? before)) (Phase7AuthError "CP4 P->C tag failure advanced receive count");;
  update_vars set_checked.

(** The same wire again must be refused as a replay. *)
Definition reject_replayed (raw_response : bytes) : coroutine unit :=
  before ← on_p2c recv_count;
  accepted ← try_except (fun x => is_value_error x || bool_decide (x = InvalidTag))
    (fun exc =>
       if is_value_error exc then
         raise_when (negb (String.prefix "Replay or out-of-order" (exn_message exc)))
           (Phase7AuthError "CP4 expected P->C replay rejection");;
         mret false
       else raise (Phase7AuthError "CP4 P->C replay reached tag verification"))
    (on_p2c (decrypt raw_response MSG_TYPE_DATA);; mret true);
  raise_when accepted (Phase7AuthError "CP4 Central accepted P->C replay");;
  after ← on_p2c recv_count;
  raise_when (negb (after =? before)) (Phase7AuthError "CP4 P->C replay advanced receive count");;
  update_vars set_checked.

(** Peripheral to Central. *)
Definition receive_pong (negative_test : option string) (c2p_wire : bytes) (i : Z) : coroutine unit :=
  raw_response ← _receive (Phase7AuthError "Timed out waiting for Phase 7 P->C secure response");
  _check_error_frame raw_response;;
  raise_when (negb (blen raw_response =? 43)) (Phase7AuthError "Unexpected Phase 7 P->C wire size");;
  raise_when (negb (wire_seq raw_response =? i)) (Phase7AuthError "Unexpected Phase 7 P->C sequence");;
  (if in_round0 negative_test "p2c-tamper" i then reject_tampered raw_response else mret tt);;
  plaintext ← try_except (fun x => bool_decide (x = InvalidTag) || is_value_error x)
    (fun _ => raise (Phase7AuthError "Phase 7 P->C AES-256-GCM verification failed"))
    (on_p2c (decrypt raw_response MSG_TYPE_DATA));
  raise_when (negb (bool_decide (plaintext = pong i))) (Phase7AuthError "Unexpected Phase 7 P->C plaintext");;
  (if in_round0 negative_test "c2p-replay" i then
     write_secure_data c2p_wire;;
     raw ← _receive (Phase7AuthError "Timed out waiting for C->P replay rejection");
     _require_error_status raw 0x04;;
     _require_quiet;;
     update_vars set_checked
   else mret tt);;
  (if in_round0 negative_test "p2c-replay" i then reject_replayed raw_response else mret tt).

Definition round (negative_test : option string) (preauth_wire : bytes) (i : Z) : coroutine unit :=
  c2p_wire ← send_ping negative_test preauth_wire i;
  receive_pong negative_test c2p_wire i.

(** The body of the [try] block. *)
Definition handshake7 (negative_test : option string) (sas_callback : bool) : coroutine Phase7AuthResult :=
  o ← send_start7;
  sas ← agree o;
  preauth_wire ← confirm negative_test sas_callback (o_session_id o) sas;
  raw_finished ← exchange_finished negative_test preauth_wire;
  verify_peripheral raw_finished;;
  activate (o_session_id o);;
  for_each (round negative_test preauth_wire) [0; 1; 2];;
  (if bool_decide (negative_test = None) then mret tt
   else
     x ← get_vars;
     raise_when (negb (negative_checked x)) (Phase7AuthError "CP4 negative mode reached positive result");;
     _require_quiet;;
     raise (Phase7NegativeTestPassed "expected rejection and PING/PONG 0/1/2 verified"));;
  mret (mkPhase7AuthResult sas 3).

(** The [finally] block. *)
Definition leave7 (negative_test : option string) : coroutine unit :=
  update_vars wipe_all;;
  unsubscribe (fun _ => if bool_decide (negative_test = None) then mret tt
                        else raise (Phase7AuthError "CP4 notification cleanup failed")).

Definition run_phase7_authenticated_hybrid (negative_test : option string) (sas_callback : bool)
    (notification_timeout : Z) : coroutine Phase7AuthResult :=
  begin_run phase7_start;;
  raise_when (negb (match negative_test with
                    | None => true
                    | Some m => bool_decide (m ∈ PHASE7_NEGATIVE_MODES)
                    end)) (Phase7AuthError "Unknown Phase 7 negative test");;
  raise_when (notification_timeout <=? 0) (Phase7AuthError "notification_timeout must be positive");;
  connected ← is_connected;
  raise_when (negb connected) (Phase7AuthError "BLE client not connected");;
  try_finally (leave7 negative_test) (handshake7 negative_test sas_callback).
End Runner7.

(** * What may be sent, and on what evidence *)

(** The values one handshake is about. *)
Record agreement7 `{P256} := mkAgreement7 {
  g_offer : offer;
  g_ss : bytes;
  g_peripheral_key : bytes;
  g_z : bytes;
  g_th : bytes;
  g_keys : Phase7Keys;
  g_finished_c : bytes;
  g_finished_p : bytes;
  g_sas : string;
}.
Arguments mkAgreement7 {_}.

Section Evidence.
Context `{Kem, Kdf, Aead, P256}.
Variable mode : option string.

(** The key schedule of the source, from the two secrets and the transcript. *)
Definition agreed (v : agreement7) : Prop :=
  let o := g_offer v in
  derive_p256_ecdh_shared_secret (o_private o) (g_peripheral_key v) = Ok (g_z v) /\
  compute_phase7_transcript_hash (o_session_id o) (o_public_key o) (o_ciphertext o)
    (o_central_key o) (g_peripheral_key v) = Ok (g_th v) /\
  derive_phase7_keys (g_ss v) (g_z v) (g_th v) = Ok (g_keys v) /\
  compute_phase7_finished_c (finished_c (g_keys v)) (g_th v) = Ok (g_finished_c v) /\
  compute_phase7_finished_p (finished_p (g_keys v)) (g_th v) = Ok (g_finished_p v) /\
  exists n, compute_phase7_sas (sas (g_keys v)) (g_th v) = Ok n /\ format_phase7_sas n = Ok (g_sas v).

(** START7 follows the whole ciphertext, which is for the key that was read. *)
Definition offered (o : offer) (ss : bytes) (t : list observed) : Prop :=
  delivered_to (o_public_key o) (o_ciphertext o) ss t /\
  (serialize_p256_public_key (o_private o) = Ok (o_central_key o) /\
   blen (o_session_id o) = SESSION_ID_SIZE) /\
  exists start7, encode_start7_auth (o_session_id o) (o_central_key o) = Ok start7 /\
    wrote CHAR_CONTROL_UUID start7 t.

(** READY7 arrived; the person said that the two SAS match; FINISHED_C went out
    and FINISHED_P is the one expected. *)
Definition E_ready (v : agreement7) (t : list observed) : Prop :=
  agreed v /\ offered (g_offer v) (g_ss v) t /\
  exists raw, raw ∈ heard t /\ parse_ready7_auth raw = Ok (g_peripheral_key v).

Definition E_confirmed (v : agreement7) (t : list observed) : Prop :=
  E_ready v t /\ Did (Confirm (g_sas v)) (Ok true) ∈ t.

(** FINISHED_C as it goes out: tampered with in the mode that says so. *)
Definition finished_frame (v : agreement7) (d : bytes) : Prop :=
  encode_phase7_finished_c
    (if is_mode mode "finished-c" then flip_last_bit (g_finished_c v) else g_finished_c v) = Ok d.

Definition E_finished (v : agreement7) (t : list observed) : Prop :=
  E_confirmed v t /\
  (exists d, finished_frame v d /\ wrote CHAR_CONTROL_UUID d t) /\
  exists raw, raw ∈ heard t /\ parse_phase7_finished_p raw = Ok (g_finished_p v).

#[export] Instance offered_lasting o ss : Lasting (offered o ss).
Proof.
  intros t u (Hd & Ho & st & He & Hw). split; [by apply delivered_to_lasting|]. split; [done|].
  exists st. split; [done|by apply wrote_lasting].
Qed.
#[export] Instance E_ready_lasting v : Lasting (E_ready v).
Proof.
  intros t u (Ha & Ho & raw & Hr & Hp). split; [done|]. split; [by apply offered_lasting|].
  exists raw. split; [by apply (lasting_heard raw)|done].
Qed.
#[export] Instance E_confirmed_lasting v : Lasting (E_confirmed v).
Proof. apply _. Qed.
#[export] Instance E_finished_lasting v : Lasting (E_finished v).
Proof.
  intros t u (Hc & (d & Hd & Hw) & raw & Hr & Hp). split; [by apply E_confirmed_lasting|]. split.
  - exists d. split; [done|by apply wrote_lasting].
  - exists raw. split; [by apply (lasting_heard raw)|done].
Qed.

(** The wires of Secure Data: the probe of a negative mode, and the PINGs. *)
Definition traffic_keys (v : agreement7) (tk : Phase7TrafficKeys) : Prop :=
  derive_phase7_traffic_keys (application (g_keys v)) = Ok tk.

Definition ping_wire (v : agreement7) (i : Z) (d : bytes) : Prop :=
  exists tk, traffic_keys v tk /\
    sealed (central_to_peripheral tk) (o_session_id (g_offer v)) CENTRAL_ROLE i (ping i) d.

Definition data_wire (v : agreement7) (d : bytes) : Prop :=
  exists i w, 0 <= i < 3 /\ ping_wire v i w /\
    (d = w \/ mode = Some "c2p-tamper"%string /\ i = 0 /\ d = flip_last_bit w).

Definition phase7_policy (t : list observed) (a : action) : Prop :=
  match a with
  | Wait | StartNotify _ _ | StopNotify _ _ | ReadGatt _ _ => True
  | Confirm s => exists v, E_ready v t /\ s = g_sas v
  | WriteGatt _ u d =>
      u = CHAR_CIPHERTEXT_UUID /\ fresh_ciphertext t d
      \/ u = CHAR_CONTROL_UUID /\
           ((exists pk ct ss sid cpk, delivered_to pk ct ss t /\ encode_start7_auth sid cpk = Ok d)
            \/ exists v, E_confirmed v t /\ finished_frame v d)
      \/ u = CHAR_DATA_UUID /\ exists v,
           (E_ready v t /\ probes mode = true /\ ping_wire v 0 d) \/ (E_finished v t /\ data_wire v d)
  | _ => False
  end.

#[export] Instance phase7_listens : Listens phase7_policy.
Proof. by split. Qed.

(** A run that returns: no negative mode, the whole handshake, the SAS it shows
    and three rounds of traffic under its keys. *)
Definition phase7_done (res : Phase7AuthResult) (t : list observed) : Prop :=
  mode = None /\ rounds res = 3 /\ exists v tk,
    E_finished v t /\ shown_sas res = g_sas v /\ traffic_keys v tk /\
    traffic (central_to_peripheral tk) (peripheral_to_central tk) (o_session_id (g_offer v)) 3 t.

#[export] Instance phase7_done_lasting res : Lasting (phase7_done res).
Proof.
  intros t u (Hm & Hr & v & tk & Hf & Hs & Hk & Ht). split; [done|]. split; [done|]. exists v, tk.
  split_and!; [by apply E_finished_lasting|done|done|by apply traffic_lasting].
Qed.

(** Every buffer is zero and both channels are dropped. *)
Definition cleared7 (x : phase7_vars) : Prop :=
  let s := secrets x in
  (ss_mlkem s = wipe (ss_mlkem s) /\ ss_ecdh s = wipe (ss_ecdh s) /\
   application_key s = wipe (application_key s) /\ finished_c_value s = wipe (finished_c_value s)) /\
  (expected_finished_p s = wipe (expected_finished_p s) /\
   c2p_key_buffer s = wipe (c2p_key_buffer s) /\ p2c_key_buffer s = wipe (p2c_key_buffer s)) /\
  c2p_channel x = None /\ p2c_channel x = None.

Lemma wipe_all_cleared x : cleared7 (wipe_all x).
Proof. unfold cleared7, wipe_all. cbn. by rewrite !wipe_wipe. Qed.
End Evidence.

Section Runs7.
Context {W : Type} `{Env W, Kem, Kdf, Aead, P256}.
Variables (mode : option string) (cb : bool).

Abbreviation at7 := (at_ (W := W) (L := runner phase7_vars) (phase7_policy mode)).
Abbreviation coroutine := (method (io W (host (runner phase7_vars)))).
Abbreviation block x F m R := (triple (at7 (having x F)) m (fun a => at7 (R a)) (fun _ => at7 covered)).
Implicit Types F : list observed -> Prop.

(** The variables after an assignment, in normal form. *)
Ltac assign :=
  apply r_vars;
  lazymatch goal with
  | |- triple (at_ _ (having ?x _)) _ _ _ =>
      let y := eval cbv [set_secrets set_shared set_derived set_traffic set_finished_c set_expected
        set_application set_c2p set_p2c set_checked secrets ss_mlkem ss_ecdh application_key
        finished_c_value expected_finished_p c2p_key_buffer p2c_key_buffer c2p_channel p2c_channel
        negative_checked phase7_start] in x in
      change x with y
  end.

Lemma at_error_status x F raw n :
  block x F (_require_error_status raw n) (fun _ => having x F).
Proof.
  unfold _require_error_status. apply r_convert. intros frame _. apply r_run. intros b _.
  apply triple_raise_when; [|done]. intros _ s. apply at_implies, having_covered.
Qed.

Lemma at_quiet x F :
  Lasting F -> block x F _require_quiet (fun _ => having x F).
Proof.
  intros HF. unfold _require_quiet. apply r_try with (R := fun _ => having x F).
  - eapply step_at; [apply at_next; apply _|done|]. intros b. apply triple_ret. intros s.
    apply at_implies, stage_implies. by intros y t [Hy _].
  - intros e. apply r_connected. intros b. apply r_when. intros _. by apply triple_ret.
  - intros got. apply triple_raise_when; [|done]. intros _ s. apply at_implies, having_covered.
Qed.

Lemma at_check_error x F raw : block x F (_check_error_frame raw) (fun _ => having x F).
Proof.
  unfold _check_error_frame. destruct (negb _); [by apply triple_ret|].
  apply r_convert. intros frame _. destruct (subtype frame =? PHASE7_ERROR); [|by apply triple_ret].
  apply r_run. intros b _. apply r_raise.
Qed.

(** A write that must be refused. *)
Lemma at_rejection x F wire :
  Lasting F ->
  (forall t c, F t -> phase7_policy mode t (WriteGatt c CHAR_DATA_UUID wire)) ->
  block x F (_require_preauth_rejection wire) (fun _ => having x F).
Proof.
  intros HF Ha. unfold _require_preauth_rejection. apply r_try with (R := fun _ => having x F).
  - eapply step_at; [apply (at_write_secure_data _ (having x F));
      [apply _|intros c l t [_ [_ Hf]]; by apply Ha]|done|].
    intros u. apply triple_ret. intros s. apply at_implies. by intros l t [Hl _].
  - intros e. apply r_connected. intros b. apply r_when. intros _. apply r_when. intros _. by apply triple_ret.
  - intros accepted. apply r_when. intros _. by apply at_quiet.
Qed.

(** ** The handshake *)

(** The variables once everything is derived. *)
Definition derived_vars (v : agreement7) (fc fp : bytes) (checked : bool) : phase7_vars :=
  mkVars (mkSecrets (wipe (g_ss v)) (wipe (g_z v)) (application (g_keys v)) fc fp [] []) None None checked.

Lemma start7_auth_session sid cpk w : encode_start7_auth sid cpk = Ok w -> blen sid = SESSION_ID_SIZE.
Proof. unfold encode_start7_auth. by intros (s & [Hs _]%require_size_Ok & _)%bind_Ok. Qed.

Lemma at_send_start7 :
  block phase7_start (fun _ => True) send_start7
    (fun o l t => exists ss,
       having (mkVars (mkSecrets ss [] [] [] [] [] []) None None false) (offered o ss) l t).
Proof.
  unfold send_start7. rule r_subscribe. rule r_read_key. intros pk.
  apply r_when. intros Hpk%negb_false_iff%Z.eqb_eq. apply r_ask with (q := Coins). intros c1. apply r_run. intros cpk Hcpk.
  apply r_ask with (q := Coins). intros c2. apply r_run. intros [ct ss] Hct. assign. apply r_when. intros _. apply r_when. intros _.
  apply r_ask with (q := Urandom PHASE7_SESSION_ID_SIZE). intros sid. apply r_run. intros start7 Hst.
  rule r_ciphertext; [|by intros t [_ Hr]|exact Hpk|exact Hct|].
  { intros t c f _ Hf. by left. }
  intros n. rule r_control.
  { intros t c [_ Hd]. right. left. split; [done|]. left. by exists pk, ct, ss, sid, cpk. }
  apply triple_ret. intros s. apply at_implies. intros l t (Hq & He & (_ & Hd) & Hw).
  exists ss. split; [done|]. split; [done|]. split; [done|].
  split; [split; [done|by eapply start7_auth_session]|by exists start7].
Qed.

Lemma at_agree o ss :
  block (mkVars (mkSecrets ss [] [] [] [] [] []) None None false) (offered o ss) (agree o)
    (fun shown l t => exists v, (g_offer v = o /\ g_sas v = shown) /\
       having (derived_vars v (g_finished_c v) (g_finished_p v) false) (E_ready v) l t).
Proof.
  unfold agree. rule r_receive. intros raw.
  eapply r_block; [apply at_check_error|]. intros u. apply r_convert. intros ppk Hppk.
  apply r_run. intros z Hz. assign. apply r_run. intros th Hth. apply r_get.
  apply r_run. intros keys Hkeys. assign. assign. apply r_run. intros fc Hfc. assign.
  apply r_run. intros fp Hfp. assign. apply r_run. intros n Hn.
  apply triple_run; [|by intros e _ s Hs; eapply at_implies, Hs; apply having_covered].
  intros shown Hsas s. apply at_implies. intros l t (Hq & He & Ho & Hr).
  exists (mkAgreement7 o ss ppk z th keys fc fp shown). split; [done|]. split; [done|].
  split; [by rewrite He|]. split; [split_and!; [done..|by exists n]|]. split; [done|by exists raw].
Qed.

Lemma channel_sealed key sid pt iv c d :
  blen sid = SESSION_ID_SIZE -> SecureChannel_init key (Some sid) (Some CENTRAL_ROLE) = Ok c ->
  (encrypt pt MSG_TYPE_DATA iv c).1 = Ok d -> sealed key sid CENTRAL_ROLE 0 pt d.
Proof.
  intros Hs [-> _]%channel_init_ok He; [|done].
  destruct (encrypt pt MSG_TYPE_DATA iv (sender key sid 0)) as [r c'] eqn:Hc. cbn in He. subst r.
  by apply send_next in Hc as [Hd _].
Qed.

Lemma at_preauth_probe x F v :
  blen (o_session_id (g_offer v)) = SESSION_ID_SIZE ->
  block x F (_preauth_probe (application (g_keys v)) (o_session_id (g_offer v)))
    (fun d l t => ping_wire v 0 d /\ having x F l t).
Proof.
  intros Hs. unfold _preauth_probe. apply r_run. intros tk Htk. apply r_run. intros c Hc.
  apply r_ask with (q := Urandom GCM_IV_SIZE). intros iv.
  apply triple_run; [|by intros e _ s Hs'; eapply at_implies, Hs'; apply having_covered].
  intros d Hd s. apply at_implies. intros l t Hl. split; [|done]. exists tk. split; [done|].
  by eapply channel_sealed.
Qed.

Lemma at_confirm_sas x v :
  block x (E_ready v) (_confirm_sas mode cb (g_sas v))
    (fun b => having x (fun t => if b : bool then E_confirmed v t else E_ready v t)).
Proof.
  unfold _confirm_sas. destruct (_ && _); [by apply triple_ret|].
  eapply triple_conseq; [intros s Hs; exact Hs|apply (at_perform _ (having x (E_ready v)) (Confirm (g_sas v)));
    [apply _|intros l t [_ [_ Hr]]; by exists v]| |].
  - intros [] s; apply at_implies, along_having; [by intros t Hr Hd|by intros t Hr _].
  - intros e s. apply at_implies, having_covered.
Qed.

(** The probe of a mode that has one may be written from here on. *)
Definition probe_ok (v : agreement7) (d : bytes) : Prop := probes mode = true -> ping_wire v 0 d.

Lemma probe_allowed v d :
  probes mode = true -> probe_ok v d ->
  forall t c, E_ready v t -> phase7_policy mode t (WriteGatt c CHAR_DATA_UUID d).
Proof. intros Hp Hd t c Hr. right. right. split; [done|]. exists v. left. auto. Qed.

Lemma probes_sas_reject : is_mode mode "sas-reject" = true -> probes mode = true.
Proof. unfold probes. by intros ->. Qed.
Lemma probes_finished_c : is_mode mode "finished-c" = true -> probes mode = true.
Proof. unfold probes. intros ->. by rewrite orb_true_r. Qed.
Lemma probes_pre_auth : is_mode mode "pre-auth" = true -> probes mode = true.
Proof. unfold probes. intros ->. by rewrite !orb_true_r. Qed.

Lemma E_ready_session v t : E_ready v t -> blen (o_session_id (g_offer v)) = SESSION_ID_SIZE.
Proof. by intros (_ & (_ & [_ Hs] & _) & _). Qed.

Lemma at_confirm v :
  let vars c := derived_vars v (g_finished_c v) (g_finished_p v) c in
  block (vars false) (E_ready v) (confirm mode cb (o_session_id (g_offer v)) (g_sas v))
    (fun wire l t => exists c, probe_ok v wire /\ having (vars c) (E_confirmed v) l t).
Proof.
  intros vars. eapply r_fact; [by apply E_ready_session|]. intros Hs.
  unfold confirm. apply r_block with (R := fun wire l t => probe_ok v wire /\ having (vars false) (E_ready v) l t).
  { destruct (probes mode) eqn:Hp.
    - apply r_get. eapply triple_conseq; [intros s Hs'; exact Hs'|apply (at_preauth_probe _ _ v Hs)| |done].
      intros d s. apply at_implies. intros l t [Hd Hl]. by split; [intros _|].
    - apply triple_ret. intros s. apply at_implies. intros l t Hl. split; [|done]. unfold probe_ok. congruence. }
  intros wire. apply at_pure. intros Hprobe.
  apply r_block with (R := fun _ l t => exists c, having (vars c) (E_ready v) l t).
  { destruct (is_mode mode "pre-auth") eqn:Hm.
    - eapply r_block; [apply at_rejection; [apply _|]|].
      { intros t c Hr. apply (probe_allowed v); [by apply probes_pre_auth|done..]. }
      intros u. assign. apply triple_ret. intros s. apply at_implies. intros l t Hl. by exists true.
    - apply triple_ret. intros s. apply at_implies. intros l t Hl. by exists false. }
  intros u. apply at_ex. intros c. eapply r_block; [apply at_confirm_sas|]. intros b.
  apply r_block with (R := fun _ => having (vars c) (E_confirmed v)).
  { destruct b; [by apply triple_ret|]. destruct (is_mode mode "sas-reject") eqn:Hm.
    - apply r_block with (R := fun _ _ _ => False); [|by intros ? ? [[] _]].
      eapply r_block; [apply at_rejection; [apply _|]|intros w; apply r_raise].
      intros t lk Hr. apply (probe_allowed v); [by apply probes_sas_reject|done..].
    - apply r_raise. }
  intros w. apply r_when. intros _. apply triple_ret. intros s. apply at_implies. intros l t Hl. by exists c.
Qed.

(** FINISHED_C went out, and [raw] answered it. *)
Definition answered (v : agreement7) (raw : bytes) (t : list observed) : Prop :=
  (E_confirmed v t /\ exists d, finished_frame mode v d /\ wrote CHAR_CONTROL_UUID d t) /\ raw ∈ heard t.

#[local] Instance answered_lasting v raw : Lasting (answered v raw).
Proof.
  intros t u [[Hc (d & Hd & Hw)] Hr]. split; [split; [by apply E_confirmed_lasting|]|by apply (lasting_heard raw)].
  exists d. split; [done|by apply wrote_lasting].
Qed.

Lemma at_exchange_finished v c wire :
  probe_ok v wire ->
  block (derived_vars v (g_finished_c v) (g_finished_p v) c) (E_confirmed v)
    (exchange_finished mode wire)
    (fun raw => having (derived_vars v (wipe (g_finished_c v)) (g_finished_p v) c) (answered v raw)).
Proof.
  intros Hprobe. unfold exchange_finished.
  set (fc := if is_mode mode "finished-c" then flip_last_bit (g_finished_c v) else g_finished_c v).
  apply r_block with (R := fun _ => having (derived_vars v fc (g_finished_p v) c) (E_confirmed v)).
  { unfold fc. destruct (is_mode mode "finished-c"); [|by apply triple_ret].
    apply r_get. apply r_run. intros d Hd. unfold _tamper_last_bit in Hd.
    apply bind_Ok in Hd as (u & _ & [= <-]). unfold derived_vars. assign. by apply triple_ret. }
  intros u. apply r_get. apply r_run. intros frame Hframe. rule r_control.
  { intros t lk Hc. right. left. split; [done|]. right. exists v. split; [done|]. exact Hframe. }
  unfold derived_vars. assign. rule r_receive. intros raw.
  apply r_weaken with (F' := answered v raw).
  { intros t [[Hc Hw] Hr]. split; [|done]. split; [done|]. by exists frame. }
  unfold fc. destruct (is_mode mode "finished-c") eqn:Hm.
  - apply r_block with (R := fun _ _ _ => False); [|by intros ? ? [[] _]].
    eapply r_block; [apply at_error_status|]. intros w.
    eapply r_block; [apply at_rejection; [apply _|]|intros y; apply r_raise].
    intros t lk [[[Hr _] _] _]. apply (probe_allowed v); [by apply probes_finished_c|done..].
  - intros s Hs. exact Hs.
Qed.

(** The variables after FINISHED_P. *)
Lemma at_verify_peripheral v c raw :
  block (derived_vars v (wipe (g_finished_c v)) (g_finished_p v) c) (answered v raw)
    (verify_peripheral raw)
    (fun _ => having (derived_vars v (wipe (g_finished_c v)) (wipe (g_finished_p v)) c) (E_finished mode v)).
Proof.
  unfold verify_peripheral. eapply r_block; [apply at_check_error|]. intros u.
  apply r_convert. intros fp Hfp. apply r_get. apply r_when. intros Heq%negb_false_iff%bool_decide_eq_true.
  unfold derived_vars. apply r_weaken with (F' := E_finished mode v).
  { intros t [[Hc Hw] Hr]. split; [done|]. split; [done|]. exists raw. split; [done|].
    cbn in Heq. by rewrite Hfp, Heq. }
  apply at_update. intros h t [Hq [He Hf]]. unfold having, stage. cbn. by rewrite He.
Qed.

(** ** Application traffic *)

(** The variables during the rounds. *)
Definition traffic_vars (v : agreement7) (tk : Phase7TrafficKeys) (tx rx : Z) (c : bool) : phase7_vars :=
  let sid := o_session_id (g_offer v) in
  mkVars (mkSecrets (wipe (g_ss v)) (wipe (g_z v)) (wipe (application (g_keys v)))
            (wipe (g_finished_c v)) (wipe (g_finished_p v))
            (central_to_peripheral tk) (peripheral_to_central tk))
    (Some (sender (central_to_peripheral tk) sid tx)) (Some (receiver (peripheral_to_central tk) sid rx)) c.

Lemma E_finished_session v t : E_finished mode v t -> blen (o_session_id (g_offer v)) = SESSION_ID_SIZE.
Proof. by intros [[Hr _] _]; eapply E_ready_session. Qed.

Lemma at_activate v c :
  block (derived_vars v (wipe (g_finished_c v)) (wipe (g_finished_p v)) c) (E_finished mode v)
    (activate (o_session_id (g_offer v)))
    (fun _ l t => exists tk, traffic_keys v tk /\ having (traffic_vars v tk 0 0 c) (E_finished mode v) l t).
Proof.
  eapply r_fact; [by apply E_finished_session|]. intros Hs. unfold activate, derived_vars.
  apply r_get. apply r_run. intros tk Htk. assign. assign. apply r_get. apply r_run.
  intros ch1 [Hch1 _]%channel_init_ok; [|done]. assign. apply r_run.
  intros ch2 [_ Hch2]%channel_init_ok; [|done].
  apply at_update. intros h t [Hq [He Hf]]. exists tk. split; [done|].
  unfold having, stage, traffic_vars. cbn. rewrite He. cbn. by rewrite Hch1, Hch2.
Qed.

(** What is known during round [n]. *)
Definition in_rounds (v : agreement7) (tk : Phase7TrafficKeys) (n : Z) (t : list observed) : Prop :=
  E_finished mode v t /\
  traffic (central_to_peripheral tk) (peripheral_to_central tk) (o_session_id (g_offer v)) n t.

Section Rounds.
Variables (v : agreement7) (tk : Phase7TrafficKeys) (probe : bytes) (i : Z).
Hypothesis Htk : traffic_keys v tk.
Hypothesis Hprobe : probe_ok v probe.
Hypothesis Hi : 0 <= i < 3.

Lemma data_allowed d t c :
  E_finished mode v t -> data_wire mode v d -> phase7_policy mode t (WriteGatt c CHAR_DATA_UUID d).
Proof. intros Hf Hd. right. right. split; [done|]. exists v. by right. Qed.

Lemma at_send_ping c :
  block (traffic_vars v tk i i c) (in_rounds v tk i) (send_ping mode probe i)
    (fun d l t => exists c', ping_wire v i d /\
       having (traffic_vars v tk (i + 1) i c') (fun t => in_rounds v tk i t /\ wrote CHAR_DATA_UUID d t) l t).
Proof.
  unfold send_ping. apply r_mtu. intros m. apply r_ask with (q := Urandom GCM_IV_SIZE). intros iv.
  rule r_object; [done|]. intros fresh ch [Hfresh ->]%send_next.
  change (set_c2p _ _) with (traffic_vars v tk (i + 1) i c).
  set (d := if in_round0 mode "pre-auth" i then probe else fresh).
  assert (ping_wire v i d) as Hd.
  { unfold d, in_round0. destruct (Z.eqb_spec i 0) as [->|]; [|by exists tk].
    destruct (is_mode mode "pre-auth") eqn:Hm; [|by exists tk]. by apply Hprobe, probes_pre_auth. }
  apply r_when. intros _. apply r_when. intros _.
  apply r_block with (R := fun _ l t => exists c', having (traffic_vars v tk (i + 1) i c') (in_rounds v tk i) l t).
  { destruct (in_round0 mode "c2p-tamper" i) eqn:Hm; cycle 1.
    { apply triple_ret. intros s. apply at_implies. intros l t Hl. by exists c. }
    apply andb_true_iff in Hm as [Hi0%Z.eqb_eq Hm%bool_decide_eq_true].
    apply r_run. intros bad Hbad. apply bind_Ok in Hbad as (u & _ & [= <-]). rule r_data.
    { intros t lk [Hf _]. apply data_allowed; [done|]. exists i, d. split; [done|]. split; [done|]. by right. }
    rule r_receive. intros raw. eapply r_block; [apply at_error_status|]. intros u1.
    eapply r_block; [apply at_quiet, _|]. intros u2.
    eapply r_weaken; [intros t [[Ht _] _]; exact Ht|].
    apply at_update. intros h t [Hq [He Hf]]. exists true. unfold having, stage. cbn. by rewrite He. }
  intros u. apply at_ex. intros c'. rule r_data.
  { intros t lk [Hf _]. apply data_allowed; [done|]. exists i, d. split; [done|]. split; [done|]. by left. }
  apply triple_ret. intros s. apply at_implies. intros l t Hl. by exists c'.
Qed.

Section Negative.
Variables (tx rx : Z) (F : list observed -> Prop).
Context {HF : Lasting F}.

(** A check that never accepts: the channel is as it was. *)
Lemma at_refused c catches h wire e (k : coroutine unit) :
  (forall x, block (traffic_vars v tk tx rx c) F (h x)
     (fun b l t => b = false /\ having (traffic_vars v tk tx rx c) F l t)) ->
  block (traffic_vars v tk tx rx c) F k (fun _ l t => exists c', having (traffic_vars v tk tx rx c') F l t) ->
  block (traffic_vars v tk tx rx c) F
    (accepted ← try_except catches h (on_p2c (decrypt wire MSG_TYPE_DATA);; mret true);
     raise_when accepted e;; k)
    (fun _ l t => exists c', having (traffic_vars v tk tx rx c') F l t).
Proof.
  intros Hh Hk. apply r_try with (R := fun b l t =>
    if b : bool then covered l t else having (traffic_vars v tk tx rx c) F l t).
  - eapply step_at with (J' := having (traffic_vars v tk tx rx c) F); [eapply at_object; [done|done|]|done|].
    + intros x ch Hd%decrypt_err. by rewrite Hd.
    + intros a. apply triple_ret. intros s. apply at_implies. by intros l t (o' & _ & Hq & _).
  - intros x. eapply triple_conseq; [intros s Hs; exact Hs|apply Hh| |done].
    intros b s. apply at_implies. by intros l t [-> Hl].
  - intros [|].
    + apply step_raise_when; [done|]. discriminate.
    + apply r_when. intros _. exact Hk.
Qed.

Lemma at_recv_count c {B} (k : Z -> coroutine B) Q :
  (forall n, triple (at7 (having (traffic_vars v tk tx rx c) F)) (k n) Q (fun _ => at7 covered)) ->
  triple (at7 (having (traffic_vars v tk tx rx c) F)) (n ← on_p2c recv_count; k n) Q (fun _ => at7 covered).
Proof. intros Hk. rule r_object; [done|]. intros n ch Hc. injection Hc as _ <-. apply Hk. Qed.

Lemma at_set_checked c :
  block (traffic_vars v tk tx rx c) F (update_vars set_checked)
    (fun _ l t => exists c', having (traffic_vars v tk tx rx c') F l t).
Proof.
  apply (at_update _ _ (fun l t => exists c', having (traffic_vars v tk tx rx c') F l t)). intros h t [Hq [He Hf]]. exists true. unfold having, stage. cbn. by rewrite He.
Qed.

Lemma at_reject_tampered c raw :
  block (traffic_vars v tk tx rx c) F (reject_tampered raw)
    (fun _ l t => exists c', having (traffic_vars v tk tx rx c') F l t).
Proof.
  apply at_recv_count. intros before. apply r_run. intros bad _. apply at_refused.
  { intros x. apply triple_ret. intros s. by apply at_implies. }
  apply at_recv_count. intros after. apply r_when. intros _. apply at_set_checked.
Qed.

Lemma at_reject_replayed c raw :
  block (traffic_vars v tk tx rx c) F (reject_replayed raw)
    (fun _ l t => exists c', having (traffic_vars v tk tx rx c') F l t).
Proof.
  apply at_recv_count. intros before. apply at_refused.
  { intros x. destruct (is_value_error x); [|apply r_raise]. apply r_when. intros _.
    apply triple_ret. intros s. by apply at_implies. }
  apply at_recv_count. intros after. apply r_when. intros _. apply at_set_checked.
Qed.
End Negative.

Lemma at_receive_pong c d :
  ping_wire v i d ->
  block (traffic_vars v tk (i + 1) i c) (fun t => in_rounds v tk i t /\ wrote CHAR_DATA_UUID d t)
    (receive_pong mode d i)
    (fun _ l t => exists c', having (traffic_vars v tk (i + 1) (i + 1) c') (in_rounds v tk (i + 1)) l t).
Proof.
  intros (tk' & Htk' & Hsealed). assert (tk' = tk) as -> by (unfold traffic_keys in *; congruence).
  unfold receive_pong. rule r_receive. intros raw. set (F := fun t => (_ /\ _) /\ raw ∈ heard t).
  assert (Lasting F) as HF by apply _.
  eapply r_block; [apply at_check_error|]. intros u. apply r_when. intros _.
  apply r_when. intros Hseq%negb_false_iff%Z.eqb_eq.
  apply r_block with (R := fun _ l t => exists c', having (traffic_vars v tk (i + 1) i c') F l t).
  { destruct (in_round0 mode "p2c-tamper" i); [by apply at_reject_tampered|].
    apply triple_ret. intros s. apply at_implies. intros l t Hl. by exists c. }
  intros w. apply at_ex. intros c1.
  apply r_try with (R := fun pt l t => opened (peripheral_to_central tk) (o_session_id (g_offer v))
    PERIPHERAL_ROLE i pt raw /\ having (traffic_vars v tk (i + 1) (i + 1) c1) F l t).
  { eapply triple_conseq; [intros s Hs; exact Hs|eapply at_object; [done|done|]| |done].
    - intros x ch Hd%decrypt_err. by rewrite Hd.
    - intros pt s. apply at_implies. intros l t (ch & Hd & Hl). apply receive_next in Hd as [Ho ->]; done. }
  { intros x. apply r_raise. }
  intros pt. apply at_pure. intros Hopened. apply r_when. intros Hpt%negb_false_iff%bool_decide_eq_true. subst pt.
  apply r_weaken with (F' := in_rounds v tk (i + 1)).
  { intros t [[[Hf Ht] Hw] Hr]. split; [done|]. by eapply traffic_next. }
  set (G := in_rounds v tk (i + 1)). assert (Lasting G) as HG by apply _.
  apply r_block with (R := fun _ l t => exists c', having (traffic_vars v tk (i + 1) (i + 1) c') G l t).
  { destruct (in_round0 mode "c2p-replay" i) eqn:Hm; cycle 1.
    { apply triple_ret. intros s. apply at_implies. intros l t Hl. by exists c1. }
    rule r_data.
    { intros t lk [Hf _]. apply data_allowed; [done|]. exists i, d. split; [done|]. split; [by exists tk|by left]. }
    rule r_receive. intros raw'. eapply r_block; [apply at_error_status|]. intros u1.
    eapply r_block; [apply at_quiet, _|]. intros u2.
    eapply r_weaken; [intros t [[Ht _] _]; exact Ht|]. apply at_set_checked. }
  intros u1. apply at_ex. intros c2.
  destruct (in_round0 mode "p2c-replay" i); [by apply at_reject_replayed|].
  apply triple_ret. intros s. apply at_implies. intros l t Hl. by exists c2.
Qed.

Lemma at_round7 c :
  block (traffic_vars v tk i i c) (in_rounds v tk i) (round mode probe i)
    (fun _ l t => exists c', having (traffic_vars v tk (i + 1) (i + 1) c') (in_rounds v tk (i + 1)) l t).
Proof.
  eapply r_block; [apply at_send_ping|]. intros d. apply at_ex. intros c'. apply at_pure. intros Hd.
  by apply at_receive_pong.
Qed.
End Rounds.

(** The body: nothing is known of a negative mode that returns. *)
Lemma at_handshake7 :
  block phase7_start (fun _ => True) (handshake7 mode cb) (fun res => stage (fun _ => phase7_done mode res)).
Proof.
  unfold handshake7. eapply r_block; [apply at_send_start7|]. intros o. apply at_ex. intros ss.
  eapply r_block; [apply at_agree|]. intros shown. apply at_ex. intros v. apply at_pure. intros [<- <-].
  eapply r_block; [apply at_confirm|]. intros probe. apply at_ex. intros c. apply at_pure. intros Hprobe.
  eapply r_block; [by apply at_exchange_finished|]. intros raw.
  eapply r_block; [apply at_verify_peripheral|]. intros u.
  eapply r_block; [apply at_activate|]. intros w. apply at_ex. intros tk. apply at_pure. intros Htk.
  apply r_block with (R := fun _ l t => exists c', having (traffic_vars v tk 3 3 c') (in_rounds v tk 3) l t).
  { cbn [for_each]. apply r_weaken with (F' := in_rounds v tk 0).
    { intros t Hf. split; [done|]. intros j Hj. lia. }
    eapply r_block; [apply (at_round7 v tk probe 0); [done..|lia]|]. intros u0. apply at_ex. intros c0.
    eapply r_block; [apply (at_round7 v tk probe 1); [done..|lia]|]. intros u1. apply at_ex. intros c1.
    eapply r_block; [apply (at_round7 v tk probe 2); [done..|lia]|]. intros u2. by apply triple_ret. }
  intros u1. apply at_ex. intros c'.
  apply r_block with (R := fun _ l t => mode = None /\ having (traffic_vars v tk 3 3 c') (in_rounds v tk 3) l t).
  { case_bool_decide as Hm; [apply triple_ret; intros s; by apply at_implies|].
    apply r_get. apply r_when. intros _. eapply r_block; [apply at_quiet, _|]. intros u2. apply r_raise. }
  intros u2. apply at_pure. intros Hm. apply triple_ret. intros s. apply at_implies.
  intros l t (Hq & He & Hf & Ht). split; [done|]. split; [done|]. split; [done|]. by exists v, tk.
Qed.

Lemma at_leave7 (G : list observed -> Prop) :
  Lasting G ->
  triple (at7 (stage (fun _ => G))) (leave7 mode)
    (fun _ => at7 (stage (fun x t => cleared7 x /\ G t))) (fun _ => at7 (stage (fun x t => cleared7 x /\ G t))).
Proof.
  intros HG. unfold leave7. eapply step_update with (J' := stage (fun x t => cleared7 x /\ G t)).
  { intros h t [Hq Hg]. split; [done|]. split; [apply wipe_all_cleared|done]. }
  rule at_unsubscribe. intros x. destruct (bool_decide _); [by apply triple_ret|].
  by apply triple_raise.
Qed.

#[export] Instance phase7_contract notification_timeout :
  Contract (fun _ => True) (run_phase7_authenticated_hybrid mode cb notification_timeout)
    (fun l t => obeys (phase7_policy mode) t /\ cleared7 (vars l)) (phase7_done mode).
Proof.
  unfold run_phase7_authenticated_hybrid. set (J := having phase7_start (fun _ => True)).
  assert (implies J (stage (fun x _ => cleared7 x))) as HJ by (apply stage_implies; by intros x t [-> _]).
  apply (run_contract _ cleared7 (phase7_done mode) phase7_start).
  apply step_raise_when; [done|]. intros _. apply step_raise_when; [done|]. intros _.
  apply step_connected. intros b. apply step_raise_when; [done|]. intros _.
  rule r_finally; [apply at_leave7|apply at_handshake7].
Qed.

(** C2. The authenticated hybrid handshake v0.7, with any negative mode, against
    any peripheral: a ciphertext frame is one of a fresh encapsulation to the
    key that was read; START7 follows the whole ciphertext; the SAS shown is
    derived from the two shared secrets and the transcript of the READY7 that
    arrived; FINISHED_C leaves only after the person confirmed that SAS, and is
    tampered with only in the mode that says so; Secure Data is written only
    after the FINISHED_P of that key schedule arrived, except for the probe of
    the three modes that test exactly this, and carries PING 0 to 2 under its
    sequence number. A run that returns has no negative mode, showed the SAS it
    reports and made three rounds of traffic under the derived keys. However a
    run ends, all seven buffers are zeros and both channels are dropped. *)
Theorem phase7_run_safe notification_timeout (s : io W (host (runner phase7_vars))) :
  trace s = [] ->
  let '(r, s') := run_phase7_authenticated_hybrid mode cb notification_timeout s in
  obeys (phase7_policy mode) (trace s') /\ cleared7 (vars (local (self s'))) /\
  forall res, r = Ok res -> phase7_done mode res (trace s').
Proof.
  intros Ht. pose proof (contract (Contract := (phase7_contract notification_timeout)) s Ht I) as Hc. cbn beta in Hc.
  destruct (run_phase7_authenticated_hybrid mode cb notification_timeout s) as [r s']. by destruct Hc as [[Ho Hc] Hd].
Qed.
End Runs7.

(** * A peripheral of v0.7

    It answers START7, FINISHED_C and every PING with the keys it derives. *)
Module Responder7.
Record peer := mkPeer { fragments : list bytes; offer_heard : bytes; pings : Z }.

Section Peer.
Context `{Kem, Kdf, Aead, P256}.

Definition public_key : bytes := (oqs_generate_keypair [x17]).1.
Definition private : ec_private := generate_p256_private_key [x09].

(** What START7 and the transported ciphertext determine. *)
Definition keys_of (w : peer) : result (bytes * Phase7Keys * bytes) :=
  offer ← parse_start7_auth (offer_heard w);
  let '(sid, cpk) := offer in
  ct ← reassemble_data (fragments w);
  ss ← oqs_decap_secret (oqs_generate_keypair [x17]).2 ct;
  z ← derive_p256_ecdh_shared_secret private cpk;
  ppk ← serialize_p256_public_key private;
  th ← compute_phase7_transcript_hash sid public_key ct cpk ppk;
  keys ← derive_phase7_keys ss z th;
  mret (sid, keys, th).

Definition on_control (w : peer) (d : bytes) : result (bytes * peer) :=
  match parse_start7_auth d with
  | Ok _ =>
      ppk ← serialize_p256_public_key private;
      ready ← encode_ready7_auth ppk;
      mret (ready, mkPeer (fragments w) d 0)
  | Err _ =>
      agreement ← keys_of w;
      let '(_, keys, th) := agreement in
      fc ← parse_phase7_finished_c d;
      expected ← compute_phase7_finished_c (finished_c keys) th;
      raise_if (negb (compare_digest fc expected)) (ValueError "FINISHED_C");;
      fp ← compute_phase7_finished_p (finished_p keys) th;
      frame ← encode_phase7_finished_p fp;
      mret (frame, w)
  end.

Definition on_secure_data (w : peer) (d : bytes) : result (bytes * peer) :=
  agreement ← keys_of w;
  let '(sid, keys, _) := agreement in
  tk ← derive_phase7_traffic_keys (application keys);
  let i := pings w in
  let rx := mkSecureChannel (central_to_peripheral tk) sid PERIPHERAL_ROLE CENTRAL_ROLE 0 (i - 1) 0 i in
  let tx := mkSecureChannel (peripheral_to_central tk) sid PERIPHERAL_ROLE CENTRAL_ROLE i (-1) i 0 in
  pt ← (decrypt d MSG_TYPE_DATA rx).1;
  raise_if (negb (bool_decide (pt = ping i))) (ValueError "PING");;
  answer ← (encrypt (pong i) MSG_TYPE_DATA (zeros 12) tx).1;
  mret (answer, mkPeer (fragments w) (offer_heard w) (i + 1)).

#[export] Instance environment : Env peer := {
  ask q w := match q as q return World.answer q * peer with
             | IsConnected _ => (true, w)
             | MtuSize _ => (247, w)
             | Urandom n => (zeros n, w)
             | Coins => ([x2a], w)
             | TimerFired | GuardFailed => (false, w)
             | Now => (0, w)
             end;
  await a w :=
    match a as a return list event * result (value a) * peer with
    | ReadGatt _ _ => ([], Ok public_key, w)
    | WriteGatt _ u d =>
        if bool_decide (u = CHAR_CIPHERTEXT_UUID)
        then ([], Ok tt, mkPeer (fragments w ++ [d]) (offer_heard w) (pings w))
        else match (if bool_decide (u = CHAR_DATA_UUID) then on_secure_data w d else on_control w d) with
             | Ok (b, w') => ([Notified b true], Ok tt, w')
             | Err _ => ([], Ok tt, w)
             end
    | Confirm _ => ([], Ok true, w)
    | InspectPairing => ([], Ok (Pairing.mkPairingState true false "ENCRYPTION"), w)
    | PairNumericComparison | PairJustWorks => ([], Err (OtherException None), w)
    | FindByName _ | FindByAddress _ => ([], Ok None, w)
    | StartNotify _ _ | Connect _ | Disconnect _ | StopNotify _ _ | Wait | Unpair => ([], Ok tt, w)
    end;
}.
End Peer.

Definition initial : io peer (host (runner phase7_vars)) :=
  mkIo (mkPeer [] [] 0)
    (mkHost (mkClient DEVICE_NAME (Some (mkLink 0 false)) None None None None None false) 1
       (mkRunner [] false phase7_start)) [].

Definition outcome :=
  @run_phase7_authenticated_hybrid peer (@environment Toy.kem Toy.kdf Toy.aead Toy.p256)
    Toy.kem Toy.kdf Toy.aead Toy.p256 None true SECOND initial.
End Responder7.

Lemma phase7_run_safe_witness :
  exists res, Responder7.outcome.1 = Ok res /\ rounds res = 3 /\
    @phase7_done Toy.kem Toy.kdf Toy.aead Toy.p256 None res (trace Responder7.outcome.2).
Proof.
  assert (match Responder7.outcome.1 with Ok res => rounds res = 3 | Err _ => False end) as Hok
    by (vm_compute; reflexivity).
  pose proof (@phase7_run_safe Responder7.peer
    (@Responder7.environment Toy.kem Toy.kdf Toy.aead Toy.p256) Toy.kem Toy.kdf Toy.aead Toy.p256
    None true SECOND Responder7.initial eq_refl) as Hs.
  assert (Responder7.outcome = @run_phase7_authenticated_hybrid Responder7.peer
    (@Responder7.environment Toy.kem Toy.kdf Toy.aead Toy.p256)
    Toy.kem Toy.kdf Toy.aead Toy.p256 None true SECOND Responder7.initial) as He by reflexivity.
  rewrite <- He in Hs. clear He.
  generalize dependent Responder7.outcome. intros [[res|x] s'] Hok Hs; [|destruct Hok].
  exists res. destruct Hs as (_ & _ & Hres). exact (conj eq_refl (conj Hok (Hres res eq_refl))).
Defined.
