(* ===== verification/Phase7Hybrid.v ===== *)
(** src/src/central/phase7_hybrid.py: the hybrid key agreement of v0.7 on its
    own, checked by one diagnostic and never used for traffic. *)

From stdpp Require Import sets.
From S2P Require Import Prelude Py Digest Interfaces World Constants Fragmentation BleClient Runs Policy Sas Session Runner Frame Phase7.
Open Scope Z_scope.

Definition PHASE7_READY7_CP2_FRAME_SIZE : Z := 105.

(** Phase7HybridResult. *)
Record Phase7HybridResult := mkPhase7HybridResult { response_size : Z }.

(** The four buffers that the [finally] block wipes. *)
Record hybrid_vars := mkHybridVars {
  ss_mlkem : bytes;
  ss_ecdh : bytes;
  application_key : bytes;
  expected_diagnostic : bytes;
}.

Definition wipe_hybrid (x : hybrid_vars) : hybrid_vars :=
  mkHybridVars (wipe (ss_mlkem x)) (wipe (ss_ecdh x)) (wipe (application_key x)) (wipe (expected_diagnostic x)).

Section RunnerHybrid.
Context {W : Type} `{Env W, Kem, Kdf, P256}.

Abbreviation coroutine := (method (io W (host (runner hybrid_vars)))).

(** What the Central sent: key, ciphertext, session and key share. *)
Record hybrid_offer := mkHybridOffer {
  h_public_key : bytes;
  h_ciphertext : bytes;
  h_session_id : bytes;
  h_private : ec_private;
  h_central_key : bytes;
}.

(** Up to START7. *)
Definition offer_start7 : coroutine hybrid_offer :=
  subscribe;;
  mtu ← mtu_size;
  (if mtu <? PHASE7_READY7_CP2_FRAME_SIZE + 3
   then mtu_size;; raise (ExperimentError "CP2 requires negotiated ATT MTU >= 108") else mret tt);;
  public_key ← read_fragmented_public_key;
  raise_when (negb (blen public_key =? PHASE7_MLKEM_PUBLIC_KEY_SIZE))
    (ExperimentError "ML-KEM public key must be 1184 bytes");;
  coins ← query_env Coins;
  let private_key := generate_p256_private_key coins in
  central_public_key ← run (serialize_p256_public_key private_key);
  coins ← query_env Coins;
  encapsulated ← run (encapsulate public_key coins);
  let '(ciphertext, shared_secret) := encapsulated in
  update_vars (fun x => mkHybridVars shared_secret (ss_ecdh x) (application_key x) (expected_diagnostic x));;
  raise_when (negb (blen ciphertext =? PHASE7_MLKEM_CIPHERTEXT_SIZE))
    (ExperimentError "ML-KEM ciphertext must be 1088 bytes");;
  raise_when (negb (blen shared_secret =? PHASE7_SHARED_SECRET_SIZE))
    (ExperimentError "ML-KEM shared secret must be 32 bytes");;
  session_id ← query_env (Urandom PHASE7_SESSION_ID_SIZE);
  start7 ← run (encode_start7 session_id central_public_key);
  write_fragmented_ciphertext ciphertext;;
  send_control start7;;
  mret (mkHybridOffer public_key ciphertext session_id private_key central_public_key).

(** READY7_CP2 and the comparison of its diagnostic. *)
Definition compare_diagnostic (o : hybrid_offer) : coroutine Phase7HybridResult :=
  response ← _receive (ExperimentError "Timed out waiting for READY7_CP2 or PQS7 ERROR");
  frame ← run (parse_phase7_frame response);
  (if subtype frame =? PHASE7_ERROR
   then run (idx (payload frame) 0);; raise (ExperimentError "Peripheral PQS7 ERROR") else mret tt);;
  ready ← run (parse_ready7_cp2 response);
  let '(peripheral_public_key, diagnostic) := ready in
  z ← run (derive_p256_ecdh_shared_secret (h_private o) peripheral_public_key);
  update_vars (fun x => mkHybridVars (ss_mlkem x) z (application_key x) (expected_diagnostic x));;
  transcript_hash ← run (compute_phase7_transcript_hash (h_session_id o) (h_public_key o)
                           (h_ciphertext o) (h_central_key o) peripheral_public_key);
  x ← get_vars;
  keys ← run (derive_phase7_keys (ss_mlkem x) (ss_ecdh x) transcript_hash);
  update_vars (fun x => mkHybridVars (ss_mlkem x) (ss_ecdh x) (application keys) (expected_diagnostic x));;
  x ← get_vars;
  expected ← run (compute_phase7_cp2_diagnostic (application_key x) transcript_hash);
  update_vars (fun x => mkHybridVars (ss_mlkem x) (ss_ecdh x) (application_key x) expected);;
  x ← get_vars;
  raise_when (negb (compare_digest diagnostic (expected_diagnostic x)))
    (ExperimentError "CP2 diagnostic proof: FAIL (hybrid key-agreement mismatch)");;
  mret (mkPhase7HybridResult (blen response)).

Definition run_phase7_hybrid_e2e : coroutine Phase7HybridResult :=
  begin_run (mkHybridVars [] [] [] []);;
  connected ← is_connected;
  raise_when (negb connected) (ExperimentError "BLE client not connected");;
  try_finally (update_vars wipe_hybrid;; unsubscribe (fun _ => mret tt))
    (try_except is_value_error (fun exc => raise (ExperimentError (exn_message exc)))
       (o ← offer_start7; compare_diagnostic o)).
End RunnerHybrid.

(** * What is sent, and what a run shows *)

Section Hybrid.
Context {W : Type} `{Env W, Kem, Kdf, P256}.

(** Only START7 follows the ciphertext, and nothing else is written. *)
Definition hybrid_policy (t : list observed) (a : action) : Prop :=
  match a with
  | Wait | StartNotify _ _ | StopNotify _ _ | ReadGatt _ _ => True
  | WriteGatt _ u d =>
      u = CHAR_CIPHERTEXT_UUID /\ fresh_ciphertext t d
      \/ u = CHAR_CONTROL_UUID /\
           exists pk ct ss sid cpk, delivered_to pk ct ss t /\ encode_start7 sid cpk = Ok d
  | _ => False
  end.

#[export] Instance hybrid_listens : Listens hybrid_policy.
Proof. by split. Qed.

Definition offered7 (o : hybrid_offer) (ss : bytes) (t : list observed) : Prop :=
  delivered_to (h_public_key o) (h_ciphertext o) ss t /\
  serialize_p256_public_key (h_private o) = Ok (h_central_key o) /\
  exists start7, encode_start7 (h_session_id o) (h_central_key o) = Ok start7 /\
    wrote CHAR_CONTROL_UUID start7 t.

#[export] Instance offered7_lasting o ss : Lasting (offered7 o ss).
Proof.
  intros t u (Hd & Hs & st & He & Hw). split; [by apply delivered_to_lasting|]. split; [done|].
  exists st. split; [done|by apply wrote_lasting].
Qed.

(** The peripheral's diagnostic is the one of the hybrid key schedule. *)
Definition hybrid_done (res : Phase7HybridResult) (t : list observed) : Prop :=
  exists o ss response ppk z th keys diagnostic, offered7 o ss t /\
    response ∈ heard t /\ response_size res = blen response /\
    parse_ready7_cp2 response = Ok (ppk, diagnostic) /\
    derive_p256_ecdh_shared_secret (h_private o) ppk = Ok z /\
    compute_phase7_transcript_hash (h_session_id o) (h_public_key o) (h_ciphertext o)
      (h_central_key o) ppk = Ok th /\
    derive_phase7_keys ss z th = Ok keys /\
    compute_phase7_cp2_diagnostic (application keys) th = Ok diagnostic.

#[export] Instance hybrid_done_lasting res : Lasting (hybrid_done res).
Proof.
  intros t u (o & ss & raw & ppk & z & th & keys & dg & Ho & Hr & Hres).
  exists o, ss, raw, ppk, z, th, keys, dg. split; [by apply offered7_lasting|].
  split; [by apply (lasting_heard raw)|done].
Qed.

Definition cleared_hybrid (x : hybrid_vars) : Prop := x = wipe_hybrid x.

Lemma wipe_hybrid_cleared x : cleared_hybrid (wipe_hybrid x).
Proof. unfold cleared_hybrid, wipe_hybrid. cbn. by rewrite !wipe_wipe. Qed.

Abbreviation at_h := (at_ (W := W) (L := runner hybrid_vars) hybrid_policy).
Abbreviation block x F m R := (triple (at_h (having x F)) m (fun a => at_h (R a)) (fun _ => at_h covered)).

Ltac assign :=
  apply r_vars;
  lazymatch goal with
  | |- triple (at_ _ (having ?x _)) _ _ _ =>
      let y := eval cbv [ss_mlkem ss_ecdh application_key expected_diagnostic] in x in change x with y
  end.

Lemma at_offer_start7 :
  block (mkHybridVars [] [] [] []) (fun _ => True) offer_start7
    (fun o l t => exists ss, having (mkHybridVars ss [] [] []) (offered7 o ss) l t).
Proof.
  unfold offer_start7. rule r_subscribe. apply r_mtu. intros m.
  apply r_block with (R := fun _ => having (mkHybridVars [] [] [] []) (fun _ => True)).
  { destruct (m <? _); [|by apply triple_ret]. apply r_mtu. intros m'. apply r_raise. }
  intros u. rule r_read_key. intros pk. apply r_when. intros Hpk%negb_false_iff%Z.eqb_eq.
  apply r_ask with (q := Coins). intros c1. apply r_run. intros cpk Hcpk.
  apply r_ask with (q := Coins). intros c2. apply r_run. intros [ct ss] Hct. assign.
  apply r_when. intros _. apply r_when. intros _.
  apply r_ask with (q := Urandom PHASE7_SESSION_ID_SIZE). intros sid. apply r_run. intros start7 Hst.
  rule r_ciphertext; [|by intros t [_ Hr]|exact Hpk|exact Hct|].
  { intros t c f _ Hf. by left. }
  intros n. rule r_control.
  { intros t c [_ Hd]. right. split; [done|]. by exists pk, ct, ss, sid, cpk. }
  apply triple_ret. intros s. apply at_implies. intros l t (Hq & He & (_ & Hd) & Hw).
  exists ss. split; [done|]. split; [done|]. split; [done|]. split; [done|]. by exists start7.
Qed.

Lemma at_compare_diagnostic o ss :
  block (mkHybridVars ss [] [] []) (offered7 o ss) (compare_diagnostic o)
    (fun res => stage (fun _ => hybrid_done res)).
Proof.
  unfold compare_diagnostic. rule r_receive. intros raw. apply r_run. intros frame _.
  apply r_block with (R := fun _ => having (mkHybridVars ss [] [] []) (fun t => offered7 o ss t /\ raw ∈ heard t)).
  { destruct (subtype frame =? PHASE7_ERROR); [|by apply triple_ret].
    apply r_run. intros b _. apply r_raise. }
  intros u. apply r_run. intros [ppk dg] Hready. apply r_run. intros z Hz. assign.
  apply r_run. intros th Hth. apply r_get. apply r_run. intros keys Hkeys. assign. apply r_get.
  apply r_run. intros expected Hexp. assign. apply r_get. apply r_when.
  intros Heq%negb_false_iff%bool_decide_eq_true. cbn in Heq. subst dg.
  apply triple_ret. intros s. apply at_implies. intros l t (Hq & He & Ho & Hr). split; [done|].
  exists o, ss, raw, ppk, z, th, keys, expected. by split_and!.
Qed.

Lemma at_leave_hybrid (G : list observed -> Prop) :
  Lasting G ->
  triple (at_h (stage (fun _ => G))) (update_vars wipe_hybrid;; unsubscribe (fun _ => mret tt))
    (fun _ => at_h (stage (fun x t => cleared_hybrid x /\ G t)))
    (fun _ => at_h (stage (fun x t => cleared_hybrid x /\ G t))).
Proof.
  intros HG. eapply step_update with (J' := stage (fun x t => cleared_hybrid x /\ G t)).
  { intros h t [Hq Hg]. split; [done|]. split; [apply wipe_hybrid_cleared|done]. }
  rule at_unsubscribe. intros x. by apply triple_ret.
Qed.

#[export] Instance hybrid_contract :
  Contract (fun _ => True) run_phase7_hybrid_e2e
    (fun l t => obeys hybrid_policy t /\ cleared_hybrid (vars l)) hybrid_done.
Proof.
  unfold run_phase7_hybrid_e2e. set (J := having (mkHybridVars [] [] [] []) (fun _ => True)).
  assert (implies J (stage (fun x _ => cleared_hybrid x))) as HJ by (apply stage_implies; by intros x t [-> _]).
  apply (run_contract _ cleared_hybrid hybrid_done (mkHybridVars [] [] [] [])).
  apply step_connected. intros b. apply step_raise_when; [done|]. intros _.
  rule r_finally; [apply at_leave_hybrid|].
  eapply triple_except with (E' := fun _ => at_h covered); [|intros x _; by apply at_raise|done].
  eapply r_block; [apply at_offer_start7|]. intros o. apply at_ex. intros ss. apply at_compare_diagnostic.
Qed.

(** C5. The hybrid agreement of CP2, against any peripheral: a ciphertext frame
    is one of a fresh encapsulation to the key that was read, START7 follows the
    whole ciphertext, and nothing else is written, so no application data and no
    FINISHED value leaves. A run that returns received a READY7 whose diagnostic
    is that of the key schedule over both shared secrets and the transcript.
    However a run ends, its four buffers are zeros. *)
Theorem phase7_hybrid_run_safe (s : io W (host (runner hybrid_vars))) :
  trace s = [] ->
  let '(r, s') := run_phase7_hybrid_e2e s in
  obeys hybrid_policy (trace s') /\ cleared_hybrid (vars (local (self s'))) /\
  forall res, r = Ok res -> hybrid_done res (trace s').
Proof.
  intros Ht. pose proof (contract (Contract := hybrid_contract) s Ht I) as Hc. cbn beta in Hc.
  destruct (run_phase7_hybrid_e2e s) as [r s']. by destruct Hc as [[Ho Hc] Hd].
Qed.
End Hybrid.

(** * A peripheral that answers START7

    It derives the hybrid keys and sends their diagnostic. *)
Module ResponderHybrid.
Section Peer.
Context `{Kem, Kdf, P256}.

Definition private : ec_private := generate_p256_private_key [x09].

Definition on_start7 (written : list bytes) (d : bytes) : result bytes :=
  let (pk, sk) := oqs_generate_keypair [x17] in
  start7 ← parse_start7 d;
  let '(sid, cpk) := start7 in
  ct ← reassemble_data written;
  ss ← oqs_decap_secret sk ct;
  z ← derive_p256_ecdh_shared_secret private cpk;
  ppk ← serialize_p256_public_key private;
  th ← compute_phase7_transcript_hash sid pk ct cpk ppk;
  keys ← derive_phase7_keys ss z th;
  diagnostic ← compute_phase7_cp2_diagnostic (application keys) th;
  encode_ready7_cp2 ppk diagnostic.

Definition environment : Env (list bytes) := {|
  ask q w := match q as q return World.answer q * list bytes with
             | IsConnected _ => (true, w)
             | MtuSize _ => (247, w)
             | Urandom n => (zeros n, w)
             | Coins => ([x2a], w)
             | TimerFired | GuardFailed => (false, w)
             | Now => (0, w)
             end;
  await a w :=
    match a as a return list event * result (value a) * list bytes with
    | ReadGatt _ _ => ([], Ok (oqs_generate_keypair [x17]).1, w)
    | WriteGatt _ u d =>
        if bool_decide (u = CHAR_CIPHERTEXT_UUID) then ([], Ok tt, w ++ [d])
        else match on_start7 w d with
             | Ok b => ([Notified b true], Ok tt, w)
             | Err _ => ([], Ok tt, w)
             end
    | Confirm _ => ([], Ok true, w)
    | InspectPairing => ([], Ok (Pairing.mkPairingState true false "ENCRYPTION"), w)
    | PairNumericComparison | PairJustWorks => ([], Err (OtherException None), w)
    | FindByName _ | FindByAddress _ => ([], Ok None, w)
    | StartNotify _ _ | Connect _ | Disconnect _ | StopNotify _ _ | Wait | Unpair => ([], Ok tt, w)
    end;
|}.
End Peer.

Definition initial : io (list bytes) (host (runner hybrid_vars)) :=
  mkIo []
    (mkHost (mkClient DEVICE_NAME (Some (mkLink 0 false)) None None None None None false) 1
       (mkRunner [] false (mkHybridVars [] [] [] []))) [].

Definition outcome :=
  @run_phase7_hybrid_e2e (list bytes) (@environment Toy.kem Toy.kdf Toy.p256) Toy.kem Toy.kdf Toy.p256 initial.
End ResponderHybrid.

Lemma phase7_hybrid_run_safe_witness :
  exists res, ResponderHybrid.outcome.1 = Ok res /\ response_size res = 105 /\
    @hybrid_done Toy.kem Toy.kdf Toy.p256 res (trace ResponderHybrid.outcome.2).
Proof.
  assert (match ResponderHybrid.outcome.1 with Ok res => response_size res = 105 | Err _ => False end) as Hok
    by (vm_compute; reflexivity).
  pose proof (@phase7_hybrid_run_safe (list bytes) (@ResponderHybrid.environment Toy.kem Toy.kdf Toy.p256)
    Toy.kem Toy.kdf Toy.p256 ResponderHybrid.initial eq_refl) as Hs.
  assert (ResponderHybrid.outcome = @run_phase7_hybrid_e2e (list bytes)
    (@ResponderHybrid.environment Toy.kem Toy.kdf Toy.p256) Toy.kem Toy.kdf Toy.p256
    ResponderHybrid.initial) as He by reflexivity.
  rewrite <- He in Hs. clear He.
  generalize dependent ResponderHybrid.outcome. intros [[res|x] s'] Hok Hs; [|destruct Hok].
  exists res. destruct Hs as (_ & _ & Hres). exact (conj eq_refl (conj Hok (Hres res eq_refl))).
Defined.
