(* ===== verification/MlkemE2E.v ===== *)
(** src/src/central/mlkem_e2e.py: the ML-KEM interoperability run of phase 2. The
    peripheral answers START with a checksum of its shared secret, a diagnostic
    that is compared and never used. *)

From stdpp Require Import sets.
From S2P Require Import Prelude Py Digest Interfaces World Constants Fragmentation BleClient Runs Policy Sas Runner.
Open Scope Z_scope.

Record Phase2E2EResult := mkPhase2E2EResult {
  central_checksum : Z;
  peripheral_checksum : Z;
}.

Definition matches (r : Phase2E2EResult) : bool := central_checksum r =? peripheral_checksum r.

Section RunnerPhase2.
Context {W : Type} `{Env W, Kem}.

Abbreviation coroutine := (method (io W (host (runner unit)))).

(** Up to START; the checksum of the shared secret. *)
Definition start_phase2 : coroutine Z :=
  subscribe;;
  public_key ← read_fragmented_public_key;
  raise_when (negb (blen public_key =? PK_SIZE)) (ExperimentError "Public key size mismatch");;
  coins ← query_env Coins;
  encapsulated ← run (encapsulate public_key coins);
  let '(ciphertext, shared_secret) := encapsulated in
  raise_when (negb (blen ciphertext =? CT_SIZE)) (ExperimentError "Ciphertext size mismatch");;
  raise_when (negb (blen shared_secret =? SS_SIZE)) (ExperimentError "Shared secret size mismatch");;
  checksum ← run (shared_secret_diagnostic_checksum shared_secret);
  write_fragmented_ciphertext ciphertext;;
  send_control (lit "START");;
  mret checksum.

(** The diagnostic of the peripheral. *)
Definition compare_checksum (central : Z) : coroutine Phase2E2EResult :=
  raw_result ← _receive (ExperimentError "Timed out waiting for the exact nine-byte PQM2 diagnostic result");
  diagnostic ← try_except is_value_error (fun exc => raise (ExperimentError (exn_message exc)))
                 (run (parse_phase2_diagnostic raw_result));
  raise_when (negb (Sas.status diagnostic =? PHASE2_STATUS_SUCCESS))
    (ExperimentError "Peripheral returned non-success PQM2 status");;
  let result := mkPhase2E2EResult central (checksum diagnostic) in
  raise_when (negb (matches result)) (ExperimentError "ML-KEM E2E shared-secret mismatch");;
  mret result.

Definition run_phase2_e2e : coroutine Phase2E2EResult :=
  begin_run tt;;
  connected ← is_connected;
  raise_when (negb connected) (ExperimentError "BLE client not connected");;
  try_finally (unsubscribe (fun _ => mret tt))
    (checksum ← start_phase2; compare_checksum checksum).
End RunnerPhase2.

(** * What is sent, and what a run shows *)

Section Phase2.
Context {W : Type} `{Env W, Kem}.

Definition phase2_policy (t : list observed) (a : action) : Prop :=
  match a with
  | Wait | StartNotify _ _ | StopNotify _ _ | ReadGatt _ _ => True
  | WriteGatt _ u d =>
      u = CHAR_CIPHERTEXT_UUID /\ fresh_ciphertext t d
      \/ u = CHAR_CONTROL_UUID /\ d = lit "START" /\ exists pk ct ss, delivered_to pk ct ss t
  | _ => False
  end.

#[export] Instance phase2_listens : Listens phase2_policy.
Proof. by split. Qed.

(** The ciphertext of [ss] and START were sent. *)
Definition started2 (ss : bytes) (t : list observed) : Prop :=
  (exists pk ct, delivered_to pk ct ss t) /\ wrote CHAR_CONTROL_UUID (lit "START") t.

#[export] Instance started2_lasting ss : Lasting (started2 ss).
Proof.
  intros t u [(pk & ct & Hd) Hw]. split; [exists pk, ct; by apply delivered_to_lasting|by apply wrote_lasting].
Qed.

(** The peripheral reported success and the checksum of the same secret. *)
Definition phase2_done (res : Phase2E2EResult) (t : list observed) : Prop :=
  exists ss raw, started2 ss t /\ raw ∈ heard t /\
    shared_secret_diagnostic_checksum ss = Ok (central_checksum res) /\
    parse_phase2_diagnostic raw = Ok (mkPhase2Diagnostic PHASE2_STATUS_SUCCESS (central_checksum res)) /\
    peripheral_checksum res = central_checksum res.

#[export] Instance phase2_done_lasting res : Lasting (phase2_done res).
Proof.
  intros t u (ss & raw & Hs & Hr & He). exists ss, raw.
  split; [by apply started2_lasting|]. split; [by apply (lasting_heard raw)|done].
Qed.

Abbreviation at_2 := (at_ (W := W) (L := runner unit) phase2_policy).

Lemma at_start_phase2 :
  triple (at_2 (having tt (fun _ => True))) start_phase2
    (fun c => at_2 (fun l t => exists ss, shared_secret_diagnostic_checksum ss = Ok c /\ having tt (started2 ss) l t))
    (fun _ => at_2 covered).
Proof.
  unfold start_phase2. rule r_subscribe. rule r_read_key. intros pk.
  apply r_when. intros Hpk%negb_false_iff%Z.eqb_eq.
  apply r_ask with (q := Coins). intros c. apply r_run. intros [ct ss] Hct.
  apply r_when. intros _. apply r_when. intros _. apply r_run. intros checksum Hc.
  rule r_ciphertext; [|by intros t [_ Hr]|exact Hpk|exact Hct|].
  { intros t c' f _ Hf. by left. }
  intros n. rule r_control.
  { intros t c' [_ Hd]. right. split; [done|]. split; [done|]. by exists pk, ct, ss. }
  apply triple_ret. intros s. apply at_implies. intros l t (Hq & He & (_ & Hd) & Hw).
  exists ss. split; [done|]. split; [done|]. split; [done|]. split; [by exists pk, ct|done].
Qed.

Lemma at_compare_checksum ss c :
  shared_secret_diagnostic_checksum ss = Ok c ->
  triple (at_2 (having tt (started2 ss))) (compare_checksum c)
    (fun res => at_2 (stage (fun _ => phase2_done res))) (fun _ => at_2 covered).
Proof.
  intros Hc. unfold compare_checksum. rule r_receive. intros raw.
  eapply r_try with (R := fun d l t => parse_phase2_diagnostic raw = Ok d /\
    having tt (fun t => started2 ss t /\ raw ∈ heard t) l t); [| |].
  - apply triple_run; [|done]. intros d Hd s. by apply at_implies.
  - intros e. apply r_raise.
  - intros d. apply at_pure. intros Hd. apply r_when. intros Hs%negb_false_iff%Z.eqb_eq.
    apply r_when. intros Hm%negb_false_iff%Z.eqb_eq. cbn in Hm.
    apply triple_ret. intros s. apply at_implies. intros l t (Hq & He & Ho & Hr). split; [done|].
    exists ss, raw. split; [done|]. split; [done|]. split; [done|]. split; [|done].
    cbn. rewrite Hd. destruct d as [st k]. cbn in Hs, Hm. by rewrite Hs, Hm.
Qed.

#[export] Instance phase2_contract :
  Contract (fun _ => True) run_phase2_e2e (fun _ t => obeys phase2_policy t) phase2_done.
Proof.
  intros s Ht _. unfold run_phase2_e2e.
  pose proof (fun m => run_safe phase2_policy (fun _ => True) phase2_done tt m s Ht) as Hrun.
  lazymatch goal with |- context [(begin_run tt ≫= (fun _ => ?m)) s] => specialize (Hrun m) end.
  destruct ((begin_run tt ≫= _) s) as [r s']. destruct Hrun as (Ho & _ & Hd); [|by split].
  apply step_connected. intros b. apply step_raise_when; [by apply stage_implies|]. intros _.
  rule r_finally.
  - intros G HG. eapply triple_conseq; [intros s1 Hs1; exact Hs1|rule at_unsubscribe; intros x; by apply triple_ret| |];
      [intros u s1|intros x s1]; apply at_implies, stage_implies; by split.
  - eapply r_block; [apply at_start_phase2|]. intros c. apply at_ex. intros ss. apply at_pure.
    apply at_compare_checksum.
Qed.

(** The run of phase 2 against any peripheral: it writes a fresh ciphertext for
    the key that was read, then START, and nothing else. A run that returns
    received a success diagnostic with the checksum of the secret it
    encapsulated. *)
Theorem phase2_run_safe (s : io W (host (runner unit))) :
  trace s = [] ->
  let '(r, s') := run_phase2_e2e s in
  obeys phase2_policy (trace s') /\ forall res, r = Ok res -> phase2_done res (trace s').
Proof. intros Ht. exact (phase2_contract s Ht I). Qed.
End Phase2.

(** * A peripheral that answers START *)
Module ResponderPhase2.
Section Peer.
Context `{Kem}.

Definition on_start (written : list bytes) : result bytes :=
  ct ← reassemble_data written;
  ss ← oqs_decap_secret (oqs_generate_keypair [x17]).2 ct;
  c ← shared_secret_diagnostic_checksum ss;
  encode_phase2_diagnostic PHASE2_STATUS_SUCCESS c.

Definition environment : Env (list bytes) := {|
  ask q w := match q as q return World.answer q * list bytes with
             | IsConnected _ => (true, w)
             | MtuSize _ => (247, w)
             | Urandom n => (zeros n, w)
             | Coins => ([x2a], w)
             | TimerFired | GuardFailed => (false, w)
             | Now => (0, w)
             end;
  await a w :=
    match a as a return list event * result (value a) * list bytes with
    | ReadGatt _ _ => ([], Ok (oqs_generate_keypair [x17]).1, w)
    | WriteGatt _ u d =>
        if bool_decide (u = CHAR_CIPHERTEXT_UUID) then ([], Ok tt, w ++ [d])
        else match on_start w with
             | Ok b => ([Notified b true], Ok tt, w)
             | Err _ => ([], Ok tt, w)
             end
    | Confirm _ => ([], Ok true, w)
    | InspectPairing => ([], Ok (Pairing.mkPairingState true false "ENCRYPTION"), w)
    | PairNumericComparison | PairJustWorks => ([], Err (OtherException None), w)
    | FindByName _ | FindByAddress _ => ([], Ok None, w)
    | StartNotify _ _ | Connect _ | Disconnect _ | StopNotify _ _ | Wait | Unpair => ([], Ok tt, w)
    end;
|}.
End Peer.

Definition initial : io (list bytes) (host (runner unit)) :=
  mkIo []
    (mkHost (mkClient DEVICE_NAME (Some (mkLink 0 false)) None None None None None false) 1 (mkRunner [] false tt)) [].

Definition outcome := @run_phase2_e2e (list bytes) (@environment Toy.kem) Toy.kem initial.
End ResponderPhase2.

Lemma phase2_run_safe_witness :
  exists res, ResponderPhase2.outcome.1 = Ok res /\ matches res = true /\
    @phase2_done Toy.kem res (trace ResponderPhase2.outcome.2).
Proof.
  assert (match ResponderPhase2.outcome.1 with Ok res => matches res = true | Err _ => False end) as Hok
    by (vm_compute; reflexivity).
  pose proof (@phase2_run_safe (list bytes) (@ResponderPhase2.environment Toy.kem) Toy.kem
    ResponderPhase2.initial eq_refl) as Hs.
  assert (ResponderPhase2.outcome = @run_phase2_e2e (list bytes)
    (@ResponderPhase2.environment Toy.kem) Toy.kem ResponderPhase2.initial) as He by reflexivity.
  rewrite <- He in Hs. clear He.
  generalize dependent ResponderPhase2.outcome. intros [[res|x] s'] Hok Hs; [|destruct Hok].
  exists res. destruct Hs as (_ & Hres). exact (conj eq_refl (conj Hok (Hres res eq_refl))).
Defined.
