(* ===== verification/Phase3Secure.v ===== *)
(** src/src/central/phase3_secure.py: the secure-channel run of phase 3, one record
    from the peripheral under the key of an ML-KEM encapsulation, and its three
    negative tests. *)

From stdpp Require Import sets.
From S2P Require Import Prelude Py Digest Interfaces World Constants Fragmentation BleClient Runs Policy Sas Session Runner.
Open Scope Z_scope.

Definition PHASE3_START_MAGIC : bytes := lit "START3".
Definition PHASE3_EXPECTED_PLAINTEXT : bytes := lit "PQ-BLE SECURE CHANNEL".
Definition PHASE3_EXPECTED_WIRE_SIZE : Z := blen PHASE3_EXPECTED_PLAINTEXT + SECURE_CHANNEL_OVERHEAD.

Record Phase3SecureResult := mkPhase3SecureResult {
  plaintext : bytes;
  wire_size : Z;
}.

Record phase3_vars := mkPhase3Vars {
  secure_channel : option SecureChannel;
  negative_channel : option SecureChannel;
}.

Definition set_secure (c : SecureChannel) (x : phase3_vars) : phase3_vars :=
  mkPhase3Vars (Some c) (negative_channel x).
Definition set_negative (c : SecureChannel) (x : phase3_vars) : phase3_vars :=
  mkPhase3Vars (secure_channel x) (Some c).

(** [sub in s] *)
Definition contains (sub s : string) : bool :=
  match String.index 0 sub s with Some _ => true | None => false end.

(** [wrong_session_id[0] ^= 0x01] of an id that is not empty. *)
Definition flip_first_bit (session_id : bytes) : bytes := alter (fun x => byte_xor x x01) 0%nat session_id.

Section RunnerPhase3.
Context {W : Type} `{Env W, Kem, Kdf, Aead}.
Variable negative_test : option string.

Abbreviation coroutine := (method (io W (host (runner phase3_vars)))).

Definition is_mode (m : string) : bool := bool_decide (negative_test = Some m).
Definition is_invalid_tag (x : exn) : bool := bool_decide (x = InvalidTag).

(** The channel of the negative tests. *)
Definition open_negative_channel (session_key session_id : bytes) : coroutine unit :=
  if is_mode "tamper" then
    c ← run (SecureChannel_init session_key (Some session_id) (Some CENTRAL_ROLE));
    update_vars (set_negative c)
  else if is_mode "aad" then
    c ← run (SecureChannel_init session_key (Some (flip_first_bit session_id)) (Some CENTRAL_ROLE));
    update_vars (set_negative c)
  else if is_mode "replay" then mret tt
  else raise_when (negb (bool_decide (negative_test = None))) (ExperimentError "Unknown Phase 3 negative test").

(** Up to START3. *)
Definition start_phase3 : coroutine unit :=
  subscribe;;
  public_key ← read_fragmented_public_key;
  raise_when (negb (blen public_key =? PK_SIZE)) (ExperimentError "Public key size mismatch");;
  coins ← query_env Coins;
  encapsulated ← run (encapsulate public_key coins);
  let '(ciphertext, shared_secret) := encapsulated in
  raise_when (negb (blen ciphertext =? CT_SIZE)) (ExperimentError "Ciphertext size mismatch");;
  raise_when (negb (blen shared_secret =? SS_SIZE)) (ExperimentError "Shared-secret size mismatch");;
  session_id ← query_env (Urandom SESSION_ID_SIZE);
  raise_when (negb (blen session_id =? SESSION_ID_SIZE)) (ExperimentError "Session ID size mismatch");;
  let session_key := derive_session_key shared_secret in
  c ← run (SecureChannel_init session_key (Some session_id) (Some CENTRAL_ROLE));
  update_vars (set_secure c);;
  open_negative_channel session_key session_id;;
  write_fragmented_ciphertext ciphertext;;
  let control_message := PHASE3_START_MAGIC ++ session_id in
  raise_when (negb (blen control_message =? blen PHASE3_START_MAGIC + SESSION_ID_SIZE))
    (ExperimentError "Internal START3 control-message size error");;
  send_control control_message.

(** The notification, and its size. *)
Definition receive_record : coroutine bytes :=
  raw ← _receive (ExperimentError "Timed out waiting for Phase 3 encrypted notification");
  (if (blen raw =? 9) && bool_decide (bto 4 raw = lit "PQM2")
   then run (idx raw 4);;
        raise (ExperimentError "Peripheral returned PQM2 failure diagnostic instead of encrypted Phase 3 data")
   else mret tt);;
  raise_when (negb (blen raw =? PHASE3_EXPECTED_WIRE_SIZE))
    (ExperimentError "Unexpected Phase 3 secure-wire size");;
  mret raw.

(** A record that the negative channel has to refuse. *)
Definition must_refuse (record : bytes) (message : string) : coroutine unit :=
  accepted ← try_except is_invalid_tag (fun _ => mret false)
               (on_object negative_channel set_negative (decrypt record MSG_TYPE_DATA);; mret true);
  raise_when accepted (ExperimentError message).

(** The tests before the record is used. *)
Definition negative_tests (raw : bytes) : coroutine unit :=
  if is_mode "tamper" then
    must_refuse (flip_last_bit raw) "NEGATIVE TEST FAIL: tampered AES-GCM message was accepted"
  else if is_mode "aad" then
    must_refuse raw "NEGATIVE TEST FAIL: message authenticated with the wrong session_id"
  else mret tt.

(** The same record a second time. *)
Definition replay_test (raw : bytes) : coroutine unit :=
  if is_mode "replay" then
    accepted ← try_except is_value_error
      (fun exc =>
         raise_when (negb (contains "Replay or out-of-order" (exn_message exc)))
           (ExperimentError "NEGATIVE TEST FAIL: replay was rejected for an unexpected reason");;
         mret false)
      (on_object secure_channel set_secure (decrypt raw MSG_TYPE_DATA);; mret true);
    raise_when accepted (ExperimentError "NEGATIVE TEST FAIL: replayed secure frame was accepted")
  else mret tt.

Definition open_record (raw : bytes) : coroutine Phase3SecureResult :=
  negative_tests raw;;
  plaintext ← try_except (fun x => is_invalid_tag x || is_value_error x)
    (fun exc => raise (ExperimentError (if is_invalid_tag exc
       then "AES-256-GCM authentication failed: invalid tag" else "Secure-channel wire validation failed")))
    (on_object secure_channel set_secure (decrypt raw MSG_TYPE_DATA));
  raise_when (negb (bool_decide (plaintext = PHASE3_EXPECTED_PLAINTEXT)))
    (ExperimentError "Authenticated plaintext mismatch");;
  replay_test raw;;
  mret (mkPhase3SecureResult plaintext (blen raw)).

Definition run_phase3_secure : coroutine Phase3SecureResult :=
  begin_run (mkPhase3Vars None None);;
  connected ← is_connected;
  raise_when (negb connected) (ExperimentError "BLE client not connected");;
  try_finally (unsubscribe (fun _ => mret tt))
    (start_phase3;; raw ← receive_record; open_record raw).
End RunnerPhase3.

(** * What is sent, and what a run shows *)

Lemma triple_last_unit {S} (P : S -> Prop) (m : method S unit) Q E :
  triple P (m;; mret tt) Q E -> triple P m Q E.
Proof. intros Hm. apply triple_last. intros s Hs. specialize (Hm s Hs). revert Hm. meth. by destruct (m s) as [[[]|e] s']. Qed.

Section Phase3.
Context {W : Type} `{Env W, Kem, Kdf, Aead}.
Variable negative_test : option string.

Definition phase3_policy (t : list observed) (a : action) : Prop :=
  match a with
  | Wait | StartNotify _ _ | StopNotify _ _ | ReadGatt _ _ => True
  | WriteGatt _ u d =>
      u = CHAR_CIPHERTEXT_UUID /\ fresh_ciphertext t d
      \/ u = CHAR_CONTROL_UUID /\ exists pk ct ss sid, d = PHASE3_START_MAGIC ++ sid /\
           blen sid = SESSION_ID_SIZE /\ delivered_to pk ct ss t
  | _ => False
  end.

#[export] Instance phase3_listens : Listens phase3_policy.
Proof. by split. Qed.

(** The ciphertext of [ss] and START3 were sent. *)
Definition started3 (ss sid : bytes) (t : list observed) : Prop :=
  blen sid = SESSION_ID_SIZE /\ (exists pk ct, delivered_to pk ct ss t) /\
  wrote CHAR_CONTROL_UUID (PHASE3_START_MAGIC ++ sid) t.

#[export] Instance started3_lasting ss sid : Lasting (started3 ss sid).
Proof.
  intros t u (Hs & (pk & ct & Hd) & Hw). split; [done|].
  split; [exists pk, ct; by apply delivered_to_lasting|by apply wrote_lasting].
Qed.

(** The record the negative channel refused. *)
Definition refused (ss sid record : bytes) : Prop :=
  (decrypt record MSG_TYPE_DATA (receiver (derive_session_key ss) sid 0)).1 = Err InvalidTag.

(** The record of the peripheral opened to the expected text under the key of
    [ss] and this session; the negative tests were refused. *)
Definition phase3_done (res : Phase3SecureResult) (t : list observed) : Prop :=
  exists ss sid raw, started3 ss sid t /\ raw ∈ heard t /\ blen raw = PHASE3_EXPECTED_WIRE_SIZE /\
    res = mkPhase3SecureResult PHASE3_EXPECTED_PLAINTEXT (blen raw) /\
    opened (derive_session_key ss) sid PERIPHERAL_ROLE (wire_seq raw) PHASE3_EXPECTED_PLAINTEXT raw /\
    (negative_test = None \/ negative_test = Some "replay" \/
     negative_test = Some "tamper" /\ refused ss sid (flip_last_bit raw) \/
     negative_test = Some "aad" /\ refused ss (flip_first_bit sid) raw)%string.

#[export] Instance phase3_done_lasting res : Lasting (phase3_done res).
Proof.
  intros t u (ss & sid & raw & Hs & Hr & He). exists ss, sid, raw.
  split; [by apply started3_lasting|]. split; [by apply (lasting_heard raw)|done].
Qed.

Abbreviation at_3 := (at_ (W := W) (L := runner phase3_vars) phase3_policy).
Abbreviation block x F m R := (triple (at_3 (having x F)) m (fun a => at_3 (R a)) (fun _ => at_3 covered)).

(** The channel of a session, and that of the negative tests. *)
Definition channel_of (ss sid : bytes) : SecureChannel := receiver (derive_session_key ss) sid 0.
Definition negative_of (ss sid : bytes) : option SecureChannel :=
  if is_mode negative_test "tamper" then Some (channel_of ss sid)
  else if is_mode negative_test "aad" then Some (channel_of ss (flip_first_bit sid))
  else None.
Definition opened_vars (ss sid : bytes) : phase3_vars := mkPhase3Vars (Some (channel_of ss sid)) (negative_of ss sid).

Definition known_mode : Prop :=
  (negative_test = None \/ negative_test = Some "tamper" \/ negative_test = Some "aad" \/
   negative_test = Some "replay")%string.

Lemma blen_flip_first sid : blen (flip_first_bit sid) = blen sid.
Proof. unfold blen, flip_first_bit. by rewrite length_alter. Qed.

Lemma channel_opens ss sid c :
  blen sid = SESSION_ID_SIZE ->
  SecureChannel_init (derive_session_key ss) (Some sid) (Some CENTRAL_ROLE) = Ok c -> c = channel_of ss sid.
Proof. intros Hs Hc. by apply channel_init_ok in Hc as [_ ->]. Qed.

Lemma at_open_negative F ss sid :
  Lasting F -> blen sid = SESSION_ID_SIZE ->
  block (mkPhase3Vars (Some (channel_of ss sid)) None) F (open_negative_channel negative_test (derive_session_key ss) sid)
    (fun _ l t => known_mode /\ having (opened_vars ss sid) F l t).
Proof.
  intros HF Hs. unfold open_negative_channel, opened_vars, negative_of, known_mode, is_mode.
  assert (forall (phi : Prop) x s, phi -> at_3 (having x F) s -> at_3 (fun l t => phi /\ having x F l t) s) as Hadd.
  { intros phi x s Hphi [Hj Ho]. by split. }
  destruct (bool_decide_reflect (negative_test = Some "tamper"%string)) as [Ht|Ht].
  { apply r_run. intros c Hc%channel_opens; [|done]. apply triple_last, r_vars, triple_ret. cbn. rewrite Hc.
    intros s. apply Hadd. by right; left. }
  destruct (bool_decide_reflect (negative_test = Some "aad"%string)) as [Ha|Ha].
  { apply r_run. intros c Hc%channel_opens; [|by rewrite blen_flip_first].
    apply triple_last, r_vars, triple_ret. cbn. rewrite Hc. intros s. apply Hadd. by right; right; left. }
  destruct (bool_decide_reflect (negative_test = Some "replay"%string)) as [Hr|Hr].
  { apply triple_ret. intros s. apply Hadd. by right; right; right. }
  apply triple_raise_when; [intros _ s; apply at_implies, having_covered|].
  intros Hn%negb_false_iff%bool_decide_eq_true s. apply Hadd. by left.
Qed.

Lemma at_start_phase3 :
  block (mkPhase3Vars None None) (fun _ => True) (start_phase3 negative_test)
    (fun _ l t => exists ss sid, known_mode /\ having (opened_vars ss sid) (started3 ss sid) l t).
Proof.
  unfold start_phase3. rule r_subscribe. rule r_read_key. intros pk.
  apply r_when. intros Hpk%negb_false_iff%Z.eqb_eq.
  apply r_ask with (q := Coins). intros c. apply r_run. intros [ct ss] Hct.
  apply r_when. intros _. apply r_when. intros _.
  apply r_ask with (q := Urandom SESSION_ID_SIZE). intros sid. apply r_when. intros Hsid%negb_false_iff%Z.eqb_eq.
  apply r_run. intros ch Hch%channel_opens; [|done]. apply r_vars. cbn. rewrite Hch.
  eapply r_block; [apply at_open_negative; [apply _|exact Hsid]|]. intros u. apply at_pure. intros Hm.
  rule r_ciphertext; [|by intros t [_ Hr]|exact Hpk|exact Hct|].
  { intros t c' f _ Hf. by left. }
  intros n. apply r_when. intros _. apply triple_last_unit. rule r_control.
  { intros t c' [_ Hd]. right. split; [done|]. by exists pk, ct, ss, sid. }
  apply triple_ret. intros s. apply at_implies. intros l t (Hq & He & (_ & Hd) & Hw).
  exists ss, sid. split; [done|]. split; [done|]. split; [done|]. split; [done|]. split; [by exists pk, ct|done].
Qed.

Lemma at_receive_record ss sid :
  block (opened_vars ss sid) (started3 ss sid) receive_record
    (fun raw l t => blen raw = PHASE3_EXPECTED_WIRE_SIZE /\
       having (opened_vars ss sid) (fun t => started3 ss sid t /\ raw ∈ heard t) l t).
Proof.
  unfold receive_record. rule r_receive. intros raw.
  eapply r_block with (R := fun _ => having (opened_vars ss sid) (fun t => started3 ss sid t /\ raw ∈ heard t)).
  { destruct (_ && _); [|by apply triple_ret]. apply r_run. intros b _. apply r_raise. }
  intros u. apply r_when. intros Hl%negb_false_iff%Z.eqb_eq. apply triple_ret. intros s [Hj Ho]. by split.
Qed.

(** What the negative channel refused. *)
Lemma at_must_refuse x c record message F :
  Lasting F -> negative_channel x = Some c ->
  block x F (must_refuse record message)
    (fun _ l t => (decrypt record MSG_TYPE_DATA c).1 = Err InvalidTag /\ having x F l t).
Proof.
  intros HF Hc. unfold must_refuse.
  eapply r_block with (R := fun accepted l t => accepted = true /\ covered l t \/
    (decrypt record MSG_TYPE_DATA c).1 = Err InvalidTag /\ having x F l t).
  - intros s [[Hq [Hx Hf]] Ho]. unfold on_object, get_vars, get_own, update_vars, update_own, try_except. meth. cbn.
    rewrite Hx, Hc. destruct (decrypt record MSG_TYPE_DATA c) as [[p|e] c'] eqn:Hd; cbn.
    + split; [left; by split|done].
    + apply decrypt_err in Hd. unfold is_invalid_tag.
      destruct (bool_decide_reflect (e = InvalidTag)) as [->|Hne]; (split; [|done]); [|done].
      right. split; [done|]. split; [done|]. split; [|done]. cbn. rewrite Hx. subst c'.
      destruct x as [a b]. cbn in Hc. by rewrite Hc.
  - intros accepted. apply triple_raise_when; intros -> s [[[Ha Hj]|[Hr Hj]] Ho]; try done.
    split; [by eapply having_covered|done].
Qed.

Lemma negative_of_tamper ss sid : negative_test = Some "tamper"%string -> negative_of ss sid = Some (channel_of ss sid).
Proof. intros Hn. unfold negative_of, is_mode. by rewrite bool_decide_eq_true_2. Qed.
Lemma negative_of_aad ss sid :
  negative_test = Some "aad"%string -> negative_of ss sid = Some (channel_of ss (flip_first_bit sid)).
Proof.
  intros Hn. unfold negative_of, is_mode. rewrite bool_decide_eq_false_2 by (rewrite Hn; done).
  by rewrite bool_decide_eq_true_2.
Qed.

Definition tests_passed (ss sid raw : bytes) : Prop :=
  (negative_test = None \/ negative_test = Some "replay" \/
   negative_test = Some "tamper" /\ refused ss sid (flip_last_bit raw) \/
   negative_test = Some "aad" /\ refused ss (flip_first_bit sid) raw)%string.

Lemma at_negative_tests ss sid raw F :
  Lasting F -> known_mode ->
  block (opened_vars ss sid) F (negative_tests negative_test raw)
    (fun _ l t => tests_passed ss sid raw /\ having (opened_vars ss sid) F l t).
Proof.
  intros HF Hm. unfold negative_tests, tests_passed, is_mode.
  destruct (bool_decide_reflect (negative_test = Some "tamper"%string)) as [Ht|Ht].
  { eapply triple_conseq; [intros s Hs; exact Hs|apply (at_must_refuse _ (channel_of ss sid)); [done|by apply negative_of_tamper]| |done].
    intros u s. apply at_implies. intros l t [Hr Hj]. split; [|done]. by right; right; left. }
  destruct (bool_decide_reflect (negative_test = Some "aad"%string)) as [Ha|Ha].
  { eapply triple_conseq; [intros s Hs; exact Hs|apply (at_must_refuse _ (channel_of ss (flip_first_bit sid)));
      [done|by apply negative_of_aad]| |done].
    intros u s. apply at_implies. intros l t [Hr Hj]. split; [|done]. by right; right; right. }
  apply triple_ret. intros s [Hj Ho]. split; [|done]. split; [|done].
  destruct Hm as [Hm|[Hm|[Hm|Hm]]]; [by left|done|done|by right; left].
Qed.

(** The replay test ends, if it ends, where it began. *)
Lemma at_replay_test x raw F :
  Lasting F ->
  block x F (replay_test negative_test raw) (fun _ => stage (fun _ => F)).
Proof.
  intros HF. assert (implies (having x F) (stage (fun _ => F))) as HJ by (apply stage_implies; by intros y t [_ Hf]).
  assert (implies (stage (fun (_ : phase3_vars) => F)) covered) as HC by by apply stage_implies.
  unfold replay_test. destruct (is_mode _ _); [|apply triple_ret; intros s; by apply at_implies].
  eapply triple_weaken with (P' := at_3 (stage (fun _ => F))); [intros s; by apply at_implies|].
  eapply triple_bind with (R := fun _ => at_3 (stage (fun _ => F))).
  - eapply triple_except with (E' := fun _ => at_3 (stage (fun _ => F))).
    + eapply triple_bind with (R := fun _ => at_3 (stage (fun _ => F))); [|intros a; by apply triple_ret].
      intros s [[Hq Hf] Ho]. unfold on_object, get_vars, get_own, update_vars, update_own. meth. cbn.
      destruct (secure_channel _) as [c|]; [|done]. by destruct (decrypt raw MSG_TYPE_DATA c) as [[p|e] c'].
    + intros e _. eapply triple_bind with (R := fun _ => at_3 (stage (fun _ => F))); [|intros u; by apply triple_ret].
      apply triple_raise_when; [|done]. intros _ s. by apply at_implies.
    + intros e s _. by apply at_implies.
  - intros accepted. apply triple_raise_when; [|done]. intros _ s. by apply at_implies.
Qed.

Lemma at_open_record ss sid raw :
  known_mode -> blen raw = PHASE3_EXPECTED_WIRE_SIZE ->
  block (opened_vars ss sid) (fun t => started3 ss sid t /\ raw ∈ heard t) (open_record negative_test raw)
    (fun res => stage (fun _ => phase3_done res)).
Proof.
  intros Hm Hl. unfold open_record. eapply r_block; [apply at_negative_tests; [apply _|exact Hm]|]. intros u.
  apply at_pure. intros Htests.
  set (F := fun t => started3 ss sid t /\ raw ∈ heard t).
  eapply r_try with (R := fun p l t => opened (derive_session_key ss) sid PERIPHERAL_ROLE (wire_seq raw) p raw /\
    exists x, having x F l t).
  - eapply triple_conseq; [intros s Hs; exact Hs|apply (at_object _ secure_channel set_secure _ (channel_of ss sid)); [apply _|done|]| |done].
    { intros e c' Hd%decrypt_err. by subst c'. }
    intros p s. apply at_implies. intros l t (c' & (Hop & _)%decrypt_opened & Hj). split; [exact Hop|]. by eexists.
  - intros e. apply r_raise.
  - intros p. apply at_pure. intros Hop. apply at_ex. intros x. apply r_when.
    intros ->%negb_false_iff%bool_decide_eq_true.
    eapply r_block; [apply at_replay_test; apply _|]. intros v. apply triple_ret. intros s. apply at_implies.
    intros l t [Hq [Hs Hr]]. split; [done|]. exists ss, sid, raw. by split_and!.
Qed.

#[export] Instance phase3_contract :
  Contract (fun _ => True) (run_phase3_secure negative_test) (fun _ t => obeys phase3_policy t) phase3_done.
Proof.
  intros s Ht _. unfold run_phase3_secure.
  pose proof (fun m => run_safe phase3_policy (fun _ => True) phase3_done (mkPhase3Vars None None) m s Ht) as Hrun.
  lazymatch goal with |- context [(begin_run _ ≫= (fun _ => ?m)) s] => specialize (Hrun m) end.
  destruct ((begin_run _ ≫= _) s) as [r s']. destruct Hrun as (Ho & _ & Hd); [|by split].
  apply step_connected. intros b. apply step_raise_when; [by apply stage_implies|]. intros _.
  rule r_finally.
  - intros G HG. eapply triple_conseq; [intros s1 Hs1; exact Hs1|rule at_unsubscribe; intros x; by apply triple_ret| |];
      [intros u s1|intros x s1]; apply at_implies, stage_implies; by split.
  - eapply r_block; [apply at_start_phase3|]. intros u. apply at_ex. intros ss. apply at_ex. intros sid.
    apply at_pure. intros Hm. eapply r_block; [apply at_receive_record|]. intros raw. apply at_pure. intros Hl.
    by apply at_open_record.
Qed.

(** C6. A run of phase 3 against any peripheral, in every test mode: it writes a
    fresh ciphertext for the key that was read, then START3 with its session id,
    and nothing else. A run that returns received one record, of the expected
    size, that opens to the expected text under the key of the secret it
    encapsulated, this session and the role of the peripheral; in the mode
    "tamper" the record with a bit of its tag flipped was refused, in the mode
    "aad" the record was refused under another session id. *)
Theorem phase3_run_safe (s : io W (host (runner phase3_vars))) :
  trace s = [] ->
  let '(r, s') := run_phase3_secure negative_test s in
  obeys phase3_policy (trace s') /\ forall res, r = Ok res -> phase3_done res (trace s').
Proof. intros Ht. exact (phase3_contract s Ht I). Qed.
End Phase3.

(** * A peripheral that answers START3 *)
Module ResponderPhase3.
Section Peer.
Context `{Kem, Kdf, Aead}.

Definition on_start3 (written : list bytes) (d : bytes) : result bytes :=
  ct ← reassemble_data written;
  ss ← oqs_decap_secret (oqs_generate_keypair [x17]).2 ct;
  c ← SecureChannel_init (derive_session_key ss) (Some (bfrom 6 d)) (Some PERIPHERAL_ROLE);
  (encrypt PHASE3_EXPECTED_PLAINTEXT MSG_TYPE_DATA (zeros 12) c).1.

Definition environment : Env (list bytes) := {|
  ask q w := match q as q return World.answer q * list bytes with
             | IsConnected _ => (true, w)
             | MtuSize _ => (247, w)
             | Urandom n => (zeros n, w)
             | Coins => ([x2a], w)
             | TimerFired | GuardFailed => (false, w)
             | Now => (0, w)
             end;
  await a w :=
    match a as a return list event * result (value a) * list bytes with
    | ReadGatt _ _ => ([], Ok (oqs_generate_keypair [x17]).1, w)
    | WriteGatt _ u d =>
        if bool_decide (u = CHAR_CIPHERTEXT_UUID) then ([], Ok tt, w ++ [d])
        else match on_start3 w d with
             | Ok b => ([Notified b true], Ok tt, w)
             | Err _ => ([], Ok tt, w)
             end
    | Confirm _ => ([], Ok true, w)
    | InspectPairing => ([], Ok (Pairing.mkPairingState true false "ENCRYPTION"), w)
    | PairNumericComparison | PairJustWorks => ([], Err (OtherException None), w)
    | FindByName _ | FindByAddress _ => ([], Ok None, w)
    | StartNotify _ _ | Connect _ | Disconnect _ | StopNotify _ _ | Wait | Unpair => ([], Ok tt, w)
    end;
|}.
End Peer.

Definition initial : io (list bytes) (host (runner phase3_vars)) :=
  mkIo []
    (mkHost (mkClient DEVICE_NAME (Some (mkLink 0 false)) None None None None None false) 1
       (mkRunner [] false (mkPhase3Vars None None))) [].

Definition outcome (mode : option string) :=
  @run_phase3_secure (list bytes) (@environment Toy.kem Toy.kdf Toy.aead) Toy.kem Toy.kdf Toy.aead mode initial.
End ResponderPhase3.

(** The mode "aad" returns. *)
Lemma phase3_run_safe_witness :
  exists res, (ResponderPhase3.outcome (Some "aad"%string)).1 = Ok res /\ wire_size res = 58 /\
    @phase3_done Toy.kem Toy.kdf Toy.aead (Some "aad"%string) res (trace (ResponderPhase3.outcome (Some "aad"%string)).2).
Proof.
  assert (match (ResponderPhase3.outcome (Some "aad"%string)).1 with Ok res => wire_size res = 58 | Err _ => False end)
    as Hok by (vm_compute; reflexivity).
  pose proof (@phase3_run_safe (list bytes) (@ResponderPhase3.environment Toy.kem Toy.kdf Toy.aead) Toy.kem Toy.kdf
    Toy.aead (Some "aad"%string) ResponderPhase3.initial eq_refl) as Hs.
  assert (ResponderPhase3.outcome (Some "aad"%string) = @run_phase3_secure (list bytes)
    (@ResponderPhase3.environment Toy.kem Toy.kdf Toy.aead) Toy.kem Toy.kdf Toy.aead (Some "aad"%string)
    ResponderPhase3.initial) as He by reflexivity.
  rewrite <- He in Hs. clear He.
  generalize dependent (ResponderPhase3.outcome (Some "aad"%string)). intros [[res|x] s'] Hok Hs; [|destruct Hok].
  exists res. destruct Hs as (_ & Hres). exact (conj eq_refl (conj Hok (Hres res eq_refl))).
Defined.
