(* ===== verification/V1Central.v ===== *)
(** src/src/central/v1_smp_mlkem.py: the Central's runner of v1.0 up to an
    authenticated Security Mode 1 Level 4 link, over the pairing backend that the
    environment answers for: the probes that every PQ operation is denied before
    pairing, the pairing and its evidence, the negative modes, and CP1's own
    exchange. [_run_v1] is generic in the exchange that runs once the gate is
    open, as in the source; CP2, CP3, CP4 and the resumption runner pass theirs. *)

From stdpp Require Import sets.
From S2P Require Import Prelude Py Dict Interfaces World BleClient Runs Policy Constants Fragmentation Frame Sas V1Smp Pairing.
Open Scope Z_scope.

Definition V1_NEGATIVE_MODES : list string := ["pre-l4-only"; "nc-reject"; "just-works"].

Definition PRE_L4_PROBES : list string :=
  ["public-key-read"; "ciphertext-write"; "control-write"; "secure-data-cccd"].

(** Durations are nanoseconds. *)
Record V1CP1Result := mkV1CP1Result {
  scenario : string;
  security_info : V1SecurityInfo;
  pre_l4_denials : dict string;
  pairing_status : string;
  pairing_protection : string;
  pairing_ms : Z;
  public_key_len : Z;
  ciphertext_fragments : Z;
  post_l4_ms : Z;
  total_ms : Z;
}.

Definition no_security_info : V1SecurityInfo := mkV1SecurityInfo 0 false false false 0 0.

Definition V1CP1Result_init (scenario : string) : V1CP1Result :=
  mkV1CP1Result scenario no_security_info [] "" "" 0 0 0 0 0.

Definition set_security_info (v : V1SecurityInfo) (r : V1CP1Result) : V1CP1Result :=
  mkV1CP1Result (scenario r) v (pre_l4_denials r) (pairing_status r) (pairing_protection r)
    (pairing_ms r) (public_key_len r) (ciphertext_fragments r) (post_l4_ms r) (total_ms r).
Definition set_denials (v : dict string) (r : V1CP1Result) : V1CP1Result :=
  mkV1CP1Result (scenario r) (security_info r) v (pairing_status r) (pairing_protection r)
    (pairing_ms r) (public_key_len r) (ciphertext_fragments r) (post_l4_ms r) (total_ms r).
Definition set_pairing (status protection : string) (ms : Z) (r : V1CP1Result) : V1CP1Result :=
  mkV1CP1Result (scenario r) (security_info r) (pre_l4_denials r) status protection
    ms (public_key_len r) (ciphertext_fragments r) (post_l4_ms r) (total_ms r).
Definition set_public_key_len (v : Z) (r : V1CP1Result) : V1CP1Result :=
  mkV1CP1Result (scenario r) (security_info r) (pre_l4_denials r) (pairing_status r)
    (pairing_protection r) (pairing_ms r) v (ciphertext_fragments r) (post_l4_ms r) (total_ms r).
Definition set_fragments (v : Z) (r : V1CP1Result) : V1CP1Result :=
  mkV1CP1Result (scenario r) (security_info r) (pre_l4_denials r) (pairing_status r)
    (pairing_protection r) (pairing_ms r) (public_key_len r) v (post_l4_ms r) (total_ms r).
Definition set_post_l4_ms (v : Z) (r : V1CP1Result) : V1CP1Result :=
  mkV1CP1Result (scenario r) (security_info r) (pre_l4_denials r) (pairing_status r)
    (pairing_protection r) (pairing_ms r) (public_key_len r) (ciphertext_fragments r) v (total_ms r).
Definition set_total_ms (v : Z) (r : V1CP1Result) : V1CP1Result :=
  mkV1CP1Result (scenario r) (security_info r) (pre_l4_denials r) (pairing_status r)
    (pairing_protection r) (pairing_ms r) (public_key_len r) (ciphertext_fragments r) (post_l4_ms r) v.

(** The queue and the variables of [_run_v1]. *)
Record v1_run := mkV1Run {
  v1_notifications : list bytes;
  v1_result : V1CP1Result;
  v1_notify_started : bool;
  v1_completed : bool;
}.

Definition set_v1_notifications (q : list bytes) (r : v1_run) : v1_run :=
  mkV1Run q (v1_result r) (v1_notify_started r) (v1_completed r).
Definition set_v1_result (f : V1CP1Result -> V1CP1Result) (r : v1_run) : v1_run :=
  mkV1Run (v1_notifications r) (f (v1_result r)) (v1_notify_started r) (v1_completed r).
Definition set_v1_flags (started completed : bool) (r : v1_run) : v1_run :=
  mkV1Run (v1_notifications r) (v1_result r) started completed.

(** What a runner's variables offer to [_run_v1]: the part above, and making a
    result of its own [result_type]. *)
Class V1Locals (L : Type) `{Program L} := {
  v1 : L -> v1_run;
  set_v1 : (v1_run -> v1_run) -> L -> L;
  new_result : V1CP1Result -> L -> L;
}.

Section Runner.
Context {W L : Type} `{Env W, V1Locals L, Kem}.

Abbreviation coroutine := (method (io W (host L))).

Definition get_v1 : coroutine v1_run := h ← get_own; mret (v1 (local h)).
Definition update_v1 (f : v1_run -> v1_run) : coroutine unit := update_own (on_local (set_v1 f)).

(** [await asyncio.wait_for(notifications.get(), timeout)]. *)
Definition next_notification : coroutine bytes :=
  perform Wait;;
  r ← get_v1;
  match v1_notifications r with
  | [] => raise AsyncTimeoutError
  | b :: q => update_v1 (set_v1_notifications q);; mret b
  end.

(** [if not notifications.empty(): raise]. *)
Definition require_empty (message : string) : coroutine unit :=
  r ← get_v1;
  raise_when (negb (bool_decide (v1_notifications r = []))) (V1Error message).

(** [set(l) == set(k)]. *)
Definition same_names (l k : list string) : bool :=
  forallb (fun x => bool_decide (x ∈ k)) l && forallb (fun x => bool_decide (x ∈ l)) k.

(** The only way out without an exception is a security denial. *)
Definition _probe_denied (name : string) (operation : coroutine unit) (denials : dict string)
  : coroutine (dict string) :=
  denied ← try_except is_exception
    (fun exc =>
       match classify_security_denial exc with
       | None =>
           connected ← is_connected;
           raise_when (negb connected) (V1ErrorFrom "connection lost during the pre-L4 probe" exc);;
           raise (V1ErrorFrom "failed for a non-security reason before L4" exc)
       | Some reason => mret (Some reason)
       end)
    (operation;; mret None);
  match denied with
  | Some reason => mret (dict_set name reason denials)
  | None => raise (V1Error "GATING FAILURE: succeeded before Security Level 4")
  end.

Definition _run_pre_l4_probes : coroutine (dict string) :=
  negotiated ← mtu_size;
  mtu ← (if 23 <? negotiated then m ← mtu_size; mret (Z.min m BLE_MTU) else mret BLE_MTU);
  fragments ← run (fragment_data (zeros CT_SIZE) mtu);
  probe_fragment ← run (match fragments with f :: _ => Ok f | [] => Err IndexError end);
  denials ← _probe_denied "public-key-read" (read_fragmented_public_key;; mret tt) [];
  denials ← _probe_denied "ciphertext-write" (write_raw_ciphertext_fragment probe_fragment) denials;
  denials ← _probe_denied "control-write" (q ← run encode_sec_query; send_control q) denials;
  denials ← _probe_denied "secure-data-cccd" start_notify denials;
  raise_when (negb (same_names (keys denials) PRE_L4_PROBES))
    (V1Error "pre-L4 probe bookkeeping mismatch");;
  mret denials.

Definition _ensure_connected : coroutine unit :=
  connected ← is_connected;
  if (connected : bool) then mret tt
  else ok ← reconnect_v1_peer;
       raise_when (negb ok) (V1Error "could not reconnect after pairing").

Definition security_statuses : list string :=
  ["REJECTED_BY_HANDLER"; "AUTHENTICATION_FAILURE"; "AUTHENTICATION_NOT_ALLOWED";
   "PROTECTION_LEVEL_COULD_NOT_BE_MET"].

(** What kind of rejection an outcome is evidence of. *)
Definition _rejection_evidence (mode : string) (outcome : PairingOutcome) : result string :=
  raise_if (paired outcome || Pairing.authenticated outcome)
    (V1Error "SECURITY FAILURE: pairing was accepted");;
  let inconclusive := Err (V1NegativeTestInconclusive "INCONCLUSIVE") in
  let refused := bool_decide (status outcome ∈ security_statuses) in
  if bool_decide (mode = "nc-reject"%string) then
    let local_reject :=
      bool_decide (outcome_ceremony outcome = Some "CONFIRM_PIN_MATCH"%string)
      && negb (bool_decide (pin_shown outcome = None))
      && bool_decide (outcome_decision outcome = Some false)
      && negb (outcome_accept_invoked outcome) in
    if local_reject && (refused || bool_decide (status outcome = "FAILED"%string)
                        || bool_decide (status outcome = "PAIRING_CANCELED"%string))
    then Ok "explicit PC Numeric Comparison rejection"%string else inconclusive
  else
    if refused then Ok "Windows refused the CONFIRM_ONLY-only attempt"%string
    else if bool_decide (status outcome = "FAILED"%string)
            && bool_decide (outcome_ceremony outcome = Some "CONFIRM_ONLY"%string)
            && outcome_accept_invoked outcome
    then Ok "CONFIRM_ONLY ceremony observed and accepted; pairing failed"%string else inconclusive.

(** Always raises. *)
Definition _verify_negative_closed (mode : string) (outcome : PairingOutcome) : coroutine unit :=
  run (_rejection_evidence mode outcome);;
  require_empty "SECURITY FAILURE: PQ notification received during rejected pairing";;
  state ← perform InspectPairing;
  raise_when (is_paired state) (V1Error "SECURITY FAILURE: Windows retained a bond after rejected pairing");;
  ok ← reconnect_v1_peer;
  raise_when (negb ok) (V1NegativeTestInconclusive
    "INCONCLUSIVE: cannot establish fresh link to verify rejected pairing");;
  state ← perform InspectPairing;
  raise_when (is_paired state) (V1Error "SECURITY FAILURE: fresh verification link has a Windows bond");;
  _run_pre_l4_probes;;
  require_empty "SECURITY FAILURE: PQ notification received in negative test";;
  raise (V1NegativeTestPassed "all PQ operations remain denied").

(** CP1's own exchange: every PQ operation once, and the attestation. *)
Definition _post_l4_exchange : coroutine V1SecurityInfo :=
  started ← query_env Now;
  start_notify;;
  public_key ← read_fragmented_public_key;
  raise_when (negb (blen public_key =? PK_SIZE)) (V1Error "ML-KEM public key size");;
  update_v1 (set_v1_result (set_public_key_len (blen public_key)));;
  coins ← query_env Coins;
  encapsulated ← run (encapsulate public_key coins);
  let ciphertext := encapsulated.1 in
  fragments ← write_fragmented_ciphertext ciphertext;
  update_v1 (set_v1_result (set_fragments fragments));;
  sec_query ← run encode_sec_query;
  send_control sec_query;;
  raw ← try_except (fun x => bool_decide (x = AsyncTimeoutError))
    (fun exc => raise (V1ErrorFrom "timed out waiting for SEC_INFO" exc)) next_notification;
  frame ← try_except is_value_error (fun exc => raise (V1ErrorFrom "invalid DK reply" exc))
    (run (parse_v1_frame raw));
  (if subtype frame =? V1_ERROR then run (idx (payload frame) 0);; raise (V1Error "DK PQV1 ERROR")
   else mret tt);;
  raise_when (negb (subtype frame =? V1_SEC_INFO)) (V1Error "unexpected PQV1 subtype");;
  info ← run (parse_sec_info raw);
  extra ← try_except (fun x => bool_decide (x = AsyncTimeoutError)) (fun _ => mret None)
    (b ← next_notification; mret (Some b));
  raise_when (negb (bool_decide (extra = None)))
    (V1Error "unexpected extra notification after SEC_INFO");;
  raise_when (negb (is_authenticated_level4 info))
    (V1Error "DK reports a link that is NOT authenticated Security Mode 1 Level 4");;
  now ← query_env Now;
  update_v1 (set_v1_result (set_post_l4_ms (now - started)));;
  mret info.

(** [negative_test == m]. *)
Definition is_mode (negative_test : option string) (m : string) : bool :=
  bool_decide (negative_test = Some m).

(** The bond state, after removing a bond when asked to. *)
Definition bond_state (unpair_first : bool) : coroutine PairingState :=
  state ← perform InspectPairing;
  if unpair_first && is_paired state then
    perform Unpair;;
    _ensure_connected;;
    state ← perform InspectPairing;
    raise_when (is_paired state) (V1Error "Windows still reports the device as paired after unpair");;
    mret state
  else mret state.

(** Cold pairing: from the probes to an authenticated bond. *)
Definition pair_cold (negative_test : option string) : coroutine unit :=
  pairing_started ← query_env Now;
  outcome ← (if is_mode negative_test "just-works" then perform PairJustWorks
             else perform PairNumericComparison);
  now ← query_env Now;
  update_v1 (set_v1_result (set_pairing (status outcome) (used_protection outcome)
                              (now - pairing_started)));;
  match negative_test with
  | Some mode => if is_mode negative_test "just-works" || is_mode negative_test "nc-reject"
                 then _verify_negative_closed mode outcome else mret tt
  | None => mret tt
  end;;
  raise_when (negb (paired outcome) || negb (bool_decide (status outcome = "PAIRED"%string)))
    (V1Error "SMP pairing failed; PQ GATT stays closed");;
  raise_when (negb (Pairing.authenticated outcome)) (V1Error "pairing completed WITHOUT authentication");;
  _ensure_connected.

(** How an exception of the exchange leaves the runner. *)
Definition explain_failure (scenario : string) (exc : exn) : exn :=
  if is_v1_error exc then exc
  else match classify_security_denial exc with
       | Some _ => if bool_decide (scenario = "bonded"%string)
                   then V1ErrorFrom "stale/corrupted bond: protected GATT access denied" exc
                   else V1ErrorFrom "PQ GATT still denied after pairing" exc
       | None => V1ErrorFrom "post-L4 exchange failed" exc
       end.

(** The body of the [try] block. *)
Definition run_v1_body (negative_test : option string) (unpair_first : bool)
    (post_l4_exchange : coroutine V1SecurityInfo) (total_started : Z) : coroutine V1CP1Result :=
  state ← bond_state unpair_first;
  let scenario := if is_paired state then "bonded"%string else "cold"%string in
  update_own (on_local (new_result (V1CP1Result_init scenario)));;
  raise_when (negb (bool_decide (negative_test = None)) && is_paired state)
    (V1Error "negative test requires the cold-pairing state");;
  (if is_paired state then mret tt
   else denials ← _run_pre_l4_probes;
        update_v1 (set_v1_result (set_denials denials)));;
  raise_when (is_mode negative_test "pre-l4-only")
    (V1NegativeTestPassed "all four PQ GATT operations denied before Level 4");;
  (if is_paired state
   then update_v1 (set_v1_result (set_pairing "ALREADY_PAIRED" (protection_level state) 0))
   else pair_cold negative_test);;
  update_v1 (set_v1_flags true false);;
  info ← try_except is_exception (fun exc => raise (explain_failure scenario exc)) post_l4_exchange;
  now ← query_env Now;
  update_v1 (set_v1_result (fun r => set_total_ms (now - total_started) (set_security_info info r)));;
  update_v1 (set_v1_flags true true);;
  r ← get_v1;
  mret (v1_result r).

(** The [finally] block. *)
Definition leave_v1 (retain_notify : bool) : coroutine unit :=
  r ← get_v1;
  if v1_notify_started r && negb (v1_completed r && retain_notify)
  then try_except is_exception (fun _ => mret tt) stop_notify else mret tt.

Definition _run_v1 (negative_test : option string) (unpair_first retain_notify : bool)
    (post_l4_exchange : coroutine V1SecurityInfo) : coroutine V1CP1Result :=
  raise_when (match negative_test with
              | Some m => negb (bool_decide (m ∈ V1_NEGATIVE_MODES))
              | None => false
              end) (ValueError "unknown v1 negative test");;
  connected ← is_connected;
  raise_when (negb connected) (V1Error "BLE client not connected");;
  update_own (on_client enable_security_test);;
  total_started ← query_env Now;
  update_v1 (fun r => set_v1_notifications [] (set_v1_flags false false r));;
  try_finally (leave_v1 retain_notify)
    (run_v1_body negative_test unpair_first post_l4_exchange total_started).

Definition run_v1_cp1 (negative_test : option string) (unpair_first : bool) : coroutine V1CP1Result :=
  _run_v1 negative_test unpair_first false _post_l4_exchange.
End Runner.

(** * The laws of the interface *)

(** Notifications reach the queue at most as they arrive; the rest of the
    variables of [_run_v1] is written by [_run_v1] and its exchange only. *)
Class V1Laws (L : Type) `{V1Locals L} : Prop := {
  v1_set f l : v1 (set_v1 f l) = f (v1 l);
  v1_new r l : v1 (new_result r l) = set_v1_result (fun _ => r) (v1 l);
  v1_on_data x b data l :
    v1_notifications (v1 (on_data x b data l)) ⊆ v1_notifications (v1 l) ++ [data];
  v1_clear o l : v1_notifications (v1 (clear_object o l)) = v1_notifications (v1 l);
}.

Section Conditions.
Context {L : Type} `{V1Laws L}.
Implicit Types J : L -> list observed -> Prop.

(** Conditions that _run_v1's own bookkeeping keeps: it never puts a
    notification in the queue. *)
Class V1Kept J : Prop := {
  v1_kept :: Kept J;
  v1_kept_set f l t :
    v1_notifications (f (v1 l)) ⊆ v1_notifications (v1 l) -> J l t -> J (set_v1 f l) t;
  v1_kept_new r l t : J l t -> J (new_result r l) t;
}.

(** Every notification in the queue was heard. *)
Definition queued (l : L) (t : list observed) : Prop :=
  forall b, b ∈ v1_notifications (v1 l) -> b ∈ heard t.

#[export] Instance queued_kept : V1Kept queued.
Proof.
  unfold queued. split; [split|..].
  - intros x b data l t Hq d Hd%v1_on_data. rewrite heard_app.
    apply elem_of_app in Hd as [Hd|Hd]; apply elem_of_app; [left; auto|by right].
  - intros c l t Hq d Hd. rewrite heard_app. apply elem_of_app. left. auto.
  - intros a r l t Hq d Hd. rewrite heard_app. apply elem_of_app. left. auto.
  - intros o l t Hq d. rewrite v1_clear. auto.
  - intros f l t Hf Hq d. rewrite v1_set. intros Hd%Hf. auto.
  - intros r l t Hq d. rewrite v1_new. auto.
Qed.

(** Every notification in the queue was heard since the trace was [p]. *)
Definition queued_since (p : list observed) (l : L) (t : list observed) : Prop :=
  exists u, t = p ++ u /\ forall b, b ∈ v1_notifications (v1 l) -> b ∈ heard u.

Lemma queued_since_more p l u o b0 :
  (forall b, b ∈ v1_notifications (v1 l) -> b ∈ heard u ++ b0) ->
  heard (u ++ [o]) = heard u ++ b0 -> queued_since p l ((p ++ u) ++ [o]).
Proof. intros Hq Ho. exists (u ++ [o]). rewrite app_assoc, Ho. by split. Qed.

#[export] Instance queued_since_kept p : V1Kept (queued_since p).
Proof.
  assert (forall l l' t, v1_notifications (v1 l') ⊆ v1_notifications (v1 l) ->
    queued_since p l t -> queued_since p l' t) as Hsub.
  { intros l l' t Hl (u & -> & Hq). exists u. split; [done|]. auto. }
  split; [split|..].
  - intros x b data l t (u & -> & Hq). apply (queued_since_more p _ u _ [data]); [|by rewrite heard_app].
    intros d Hd%v1_on_data. apply elem_of_app in Hd as [Hd|Hd]; apply elem_of_app; [left; auto|by right].
  - intros c l t (u & -> & Hq). apply (queued_since_more p _ u _ []); [|by rewrite heard_app].
    intros d Hd. apply elem_of_app. left. auto.
  - intros a r l t (u & -> & Hq). apply (queued_since_more p _ u _ []); [|by rewrite heard_app].
    intros d Hd. apply elem_of_app. left. auto.
  - intros o l t. apply Hsub. by rewrite v1_clear.
  - intros f l t Hf. apply Hsub. by rewrite v1_set.
  - intros r l t. apply Hsub. by rewrite v1_new.
Qed.

#[export] Instance v1_kept_and J J' : V1Kept J -> V1Kept J' -> V1Kept (fun l t => J l t /\ J' l t).
Proof.
  intros HJ HJ'. split; [split|..].
  - intros x b data l t [? ?]. split; by apply kept_notified.
  - intros c l t [? ?]. split; by apply kept_disconnected.
  - intros a r l t [? ?]. split; by apply kept_did.
  - intros o l t [? ?]. split; by apply kept_clear.
  - intros f l t Hf [? ?]. split; by apply v1_kept_set.
  - intros r l t [? ?]. split; by apply v1_kept_new.
Qed.

#[export] Instance along_v1_kept J F : V1Kept J -> Lasting F -> V1Kept (along J F).
Proof.
  intros HJ HF. split; [apply _|..].
  - intros f l t Hf [Hj Ht]. split; [by apply v1_kept_set|done].
  - intros r l t [Hj Ht]. split; [by apply v1_kept_new|done].
Qed.
End Conditions.

(** * The gate *)

Definition sec_query : bytes := v1_wire V1_SEC_QUERY [].

Lemma encode_sec_query_Ok q : encode_sec_query = Ok q -> q = sec_query.
Proof. unfold encode_sec_query. by intros [_ ->]%encode_v1_Ok. Qed.

(** A fragment of an all-zero ciphertext: what the ciphertext probe writes. *)
Definition probe_fragment (f : bytes) : Prop :=
  exists mtu frames, fragment_data (zeros CT_SIZE) mtu = Ok frames /\ f ∈ frames.

(** A request of this shape failed with a security denial. *)
Definition denied (a : link -> action) (t : list observed) : Prop :=
  exists c x, Did (a c) (Err x) ∈ t /\ is_Some (classify_security_denial x).

(** Every kind of PQ operation was denied. *)
Definition probes_denied (t : list observed) : Prop :=
  denied (fun c => ReadGatt c CHAR_PUBKEY_UUID) t /\
  (exists f, probe_fragment f /\ denied (fun c => WriteGatt c CHAR_CIPHERTEXT_UUID f) t) /\
  denied (fun c => WriteGatt c CHAR_CONTROL_UUID sec_query) t /\
  denied (fun c => StartNotify c CHAR_DATA_UUID) t.

Definition paired_authenticated (t : list observed) : Prop :=
  exists o, Did PairNumericComparison (Ok o) ∈ t /\ paired o = true /\ status o = "PAIRED"%string /\
    Pairing.authenticated o = true.

Definition bonded (t : list observed) : Prop :=
  exists st, Did InspectPairing (Ok st) ∈ t /\ is_paired st = true.

(** When the exchange may run: no negative mode, and a bond, or a pairing with
    Numeric Comparison after all four denials. *)
Definition gate (mode : option string) (t : list observed) : Prop :=
  mode = None /\ (bonded t \/ probes_denied t /\ paired_authenticated t).

#[export] Instance denied_lasting a : Lasting (denied a).
Proof. intros t u (c & x & Hd & Hx). exists c, x. split; [by apply (lasting_did _)|done]. Qed.
#[export] Instance probes_denied_lasting : Lasting probes_denied.
Proof.
  intros t u (H1 & (f & Hf & H2) & H3 & H4). split_and!; [|exists f; split; [done|]|..]; by apply denied_lasting.
Qed.
#[export] Instance paired_authenticated_lasting : Lasting paired_authenticated.
Proof. intros t u (o & Ho & Hp). exists o. split; [by apply (lasting_did _)|done]. Qed.
#[export] Instance bonded_lasting : Lasting bonded.
Proof. intros t u (o & Ho & Hp). exists o. split; [by apply (lasting_did _)|done]. Qed.
#[export] Instance gate_lasting mode : Lasting (gate mode).
Proof.
  intros t u [Hm [Hb|[Hp Ha]]]; split; [done|left; by apply bonded_lasting|done|right].
  split; [by apply probes_denied_lasting|by apply paired_authenticated_lasting].
Qed.

(** The requests of a run in which [exch] says what its exchange may do. *)
Definition v1_policy (mode : option string) (unpair_first : bool)
    (exch : list observed -> action -> Prop) (t : list observed) (a : action) : Prop :=
  match a with
  | Wait | InspectPairing | Disconnect _ | FindByAddress _ | Connect _ | StopNotify _ _ => True
  | Unpair => unpair_first = true
  | PairNumericComparison => probes_denied t /\ mode <> Some "just-works"%string
  | PairJustWorks => probes_denied t /\ mode = Some "just-works"%string
  | ReadGatt _ u => u = CHAR_PUBKEY_UUID
  | StartNotify _ u => u = CHAR_DATA_UUID
  | WriteGatt _ u d =>
      (u = CHAR_CONTROL_UUID /\ d = sec_query \/ u = CHAR_CIPHERTEXT_UUID /\ probe_fragment d)
      \/ gate mode t /\ exch t a
  | _ => gate mode t /\ exch t a
  end.

Section Gate.
Context {W L : Type} `{Env W, V1Laws L, Kem}.
Variables (mode : option string) (unpair_first : bool) (exch : list observed -> action -> Prop).
Implicit Types J : L -> list observed -> Prop.

Abbreviation policy := (v1_policy mode unpair_first exch).
Abbreviation at_v1 := (at_ (W := W) policy).
Abbreviation coroutine := (method (io W (host L))).

(** An exception that counts as a denial is the answer to this request. *)
Definition blames (a : link -> action) (x : exn) (t : list observed) : Prop :=
  is_Some (classify_security_denial x) -> denied a t.

#[local] Instance blames_lasting a x : Lasting (blames a x).
Proof. intros t u Hb Hx. apply denied_lasting. by apply Hb. Qed.

Section Blame.
Variables (J : L -> list observed -> Prop) (a : link -> action).
Context {HJ : Kept J}.
Hypothesis Hallowed : forall c t, policy t (a c).

Abbreviation Ex := (fun x => at_v1 (along J (blames a x))).

Lemma blame_none x s : classify_security_denial x = None -> at_v1 J s -> Ex x s.
Proof.
  intros Hx [Hj Ho]. split; [split; [done|]|done]. unfold blames. rewrite Hx. by intros [??].
Qed.

Lemma blame_connected : triple (at_v1 J) require_connected (fun _ => at_v1 J) Ex.
Proof.
  eapply triple_bind; [apply at_is_connected|]. intros b.
  apply triple_raise_when; [|done]. intros _ s. by apply blame_none.
Qed.

Lemma blame_backend : triple (at_v1 J) backend (fun _ => at_v1 J) Ex.
Proof.
  eapply triple_bind; [apply at_raw_client|]. intros [c|]; [by apply triple_ret|].
  apply triple_raise. intros s. by apply blame_none.
Qed.

Lemma blame_request c : triple (at_v1 J) (perform (a c)) (fun _ => at_v1 J) Ex.
Proof.
  eapply triple_conseq;
    [intros s Hs; exact Hs|apply (at_perform_err policy J (a c)); [done|intros l t _; apply Hallowed]| |].
  - intros v s. apply at_implies. by intros l t [Hj _].
  - intros x s [[Hj Hd] Ho]. split; [split; [done|]|done]. intros Hx. by exists c, x.
Qed.
End Blame.

Lemma probe_read J :
  Kept J ->
  triple (at_v1 J) (read_fragmented_public_key;; mret tt) (fun _ => at_v1 J)
    (fun x => at_v1 (along J (blames (fun c => ReadGatt c CHAR_PUBKEY_UUID) x))).
Proof.
  intros HJ. eapply triple_bind with (R := fun _ => at_v1 J); [|intros b; by apply triple_ret].
  eapply triple_bind; [apply blame_connected|]. intros u.
  eapply triple_bind; [apply at_mtu_size|]. intros m.
  eapply triple_bind; [apply blame_backend|]. intros c.
  eapply triple_bind;
    [by apply (blame_request J (fun c => ReadGatt c CHAR_PUBKEY_UUID))|]. intros b.
  eapply triple_bind; [apply at_mtu_size|]. intros m'. by apply triple_ret.
Qed.

Lemma probe_write J f :
  Kept J -> probe_fragment f ->
  triple (at_v1 J) (write_raw_ciphertext_fragment f) (fun _ => at_v1 J)
    (fun x => at_v1 (along J (blames (fun c => WriteGatt c CHAR_CIPHERTEXT_UUID f) x))).
Proof.
  intros HJ Hf. eapply triple_bind; [apply blame_connected|]. intros u.
  eapply triple_bind; [apply blame_backend|]. intros c.
  apply (blame_request J (fun c => WriteGatt c CHAR_CIPHERTEXT_UUID f)).
  intros c' t. left. by right.
Qed.

Lemma probe_control J :
  Kept J ->
  triple (at_v1 J) (q ← run encode_sec_query; send_control q) (fun _ => at_v1 J)
    (fun x => at_v1 (along J (blames (fun c => WriteGatt c CHAR_CONTROL_UUID sec_query) x))).
Proof.
  intros HJ. apply step_run; [|done]. intros q ->%encode_sec_query_Ok.
  eapply triple_bind; [apply blame_connected|]. intros u.
  eapply triple_bind; [apply blame_backend|]. intros c.
  apply (blame_request J (fun c => WriteGatt c CHAR_CONTROL_UUID sec_query)).
  intros c' t. left. by left.
Qed.

Lemma probe_subscribe J :
  Kept J ->
  triple (at_v1 J) start_notify (fun _ => at_v1 J)
    (fun x => at_v1 (along J (blames (fun c => StartNotify c CHAR_DATA_UUID) x))).
Proof.
  intros HJ. eapply triple_bind; [apply blame_connected|]. intros u.
  eapply triple_bind; [apply blame_backend|]. intros c.
  eapply triple_bind; [by apply (blame_request J (fun c => StartNotify c CHAR_DATA_UUID))|].
  intros v. by apply at_update.
Qed.

Lemma at_probe_denied J a name (op : coroutine unit) denials :
  Kept J ->
  triple (at_v1 J) op (fun _ => at_v1 J) (fun x => at_v1 (along J (blames a x))) ->
  triple (at_v1 J) (_probe_denied name op denials)
    (fun _ => at_v1 (along J (denied a))) (fun _ => at_v1 J).
Proof.
  intros HJ Hop. unfold _probe_denied.
  eapply triple_bind with (R := fun d s => match d with
    | Some _ => at_v1 (along J (denied a)) s | None => at_v1 J s end).
  - eapply triple_except.
    + eapply triple_bind; [exact Hop|]. intros u. apply triple_ret. intros s Hs. exact Hs.
    + intros x Hx. destruct (classify_security_denial x) as [r|] eqn:Hc.
      * apply triple_ret. intros s [[Hj Hb] Ho]. split; [split; [done|]|done]. apply Hb. by rewrite Hc.
      * eapply at_weaken with (J' := J); [by intros l t [Hj _]|].
        apply step_connected. intros b. apply step_raise_when; [done|]. intros _. by apply at_raise.
    + intros x s _. apply at_implies. by intros l t [Hj _].
  - intros [r|]; [by apply triple_ret|]. by apply at_raise.
Qed.

Lemma at_run_pre_l4_probes J :
  Kept J ->
  triple (at_v1 J) _run_pre_l4_probes (fun _ => at_v1 (along J probes_denied)) (fun _ => at_v1 J).
Proof.
  intros HJ. unfold _run_pre_l4_probes. apply step_mtu. intros m.
  eapply step_at with (R := fun _ => J) (J' := J); [|done|].
  { destruct (23 <? m); [|by apply triple_ret]. apply step_mtu. intros m'. by apply triple_ret. }
  intros mtu. apply step_result; [done|]. intros frames Hf. apply step_result; [done|].
  intros f Hin. destruct frames as [|f' frames]; [done|]. injection Hin as ->.
  assert (probe_fragment f) as Hp by (exists mtu, (f :: frames); split; [done|by left]).
  eapply step_at; [by apply at_probe_denied, probe_read|done|]. intros d1.
  eapply step_at; [apply at_probe_denied; [apply _|]; apply probe_write; [apply _|done]|apply implies_along, implies_refl|].
  intros d2. eapply step_at; [apply at_probe_denied; [apply _|]; apply probe_control, _|by do 2 apply implies_along|].
  intros d3. eapply step_at; [apply at_probe_denied; [apply _|]; apply probe_subscribe, _|by do 3 apply implies_along|].
  intros d4. apply step_raise_when; [by do 4 apply implies_along|]. intros _. apply triple_ret.
  intros s [((((Hj & D1) & D2) & D3) & D4) Ho]. split; [|done]. split; [done|].
  split_and!; [done|by exists f|done|done].
Qed.
Lemma at_reconnect J :
  Kept J -> triple (at_v1 J) reconnect_v1_peer (fun _ => at_v1 J) (fun _ => at_v1 J).
Proof. intros HJ. apply at_reconnect_v1_peer; [done|intros ? ? ? ?; exact I..]. Qed.

Lemma at_ensure_connected J :
  Kept J -> triple (at_v1 J) _ensure_connected (fun _ => at_v1 J) (fun _ => at_v1 J).
Proof.
  intros HJ. apply step_connected. intros [|]; [by apply triple_ret|].
  eapply step_at; [by apply (at_reconnect J)|done|]. intros ok. by apply triple_raise_when.
Qed.

Lemma at_inspect J :
  Kept J ->
  triple (at_v1 J) (perform InspectPairing)
    (fun st => at_v1 (along J (fun t => is_paired st = true -> bonded t))) (fun _ => at_v1 J).
Proof.
  intros HJ. eapply triple_conseq; [intros s Hs; exact Hs|by apply (at_perform policy J InspectPairing)| |done].
  intros st s. apply at_implies. intros l t [Hj Hd]. split; [done|]. intros Hp. by exists st.
Qed.

#[local] Instance lasting_if (P : Prop) F : Lasting F -> Lasting (fun t => P -> F t).
Proof. intros HF t u Hf Hp. apply HF. auto. Qed.

Lemma step_get_v1 {B} J Jx Q (k : v1_run -> coroutine B) :
  (forall r, triple (at_v1 (fun l t => r = v1 l /\ J l t)) (k r) Q (fun _ => at_v1 Jx)) ->
  triple (at_v1 J) (r ← get_v1; k r) Q (fun _ => at_v1 Jx).
Proof. intros Hk s [Hj Ho]. by apply (Hk (v1 (local (self s))) s). Qed.

Lemma at_require_empty J m :
  triple (at_v1 J) (require_empty m) (fun _ => at_v1 J) (fun _ => at_v1 J).
Proof.
  apply step_get_v1. intros r. eapply at_weaken with (J' := J); [by intros l t [_ Hj]|].
  by apply triple_raise_when.
Qed.

(** The queue is empty after it. *)
Lemma at_queue_empty J m :
  triple (at_v1 J) (require_empty m) (fun _ => at_v1 (fun l t => J l t /\ v1_notifications (v1 l) = []))
    (fun _ => at_v1 J).
Proof.
  apply step_get_v1. intros r. apply triple_raise_when; [by intros _ s [[_ Hj] Ho]|].
  intros Hr s [[-> Hj] Ho]. apply negb_false_iff, bool_decide_eq_true in Hr. by split.
Qed.

(** Weakens the condition to [J]. *)
Ltac back_to J := eapply at_weaken with (J' := J); [by intros l t [Hj _]|].

Lemma at_verify_negative_closed J m o :
  Kept J ->
  triple (at_v1 J) (_verify_negative_closed m o) (fun _ _ => False) (fun _ => at_v1 J).
Proof.
  intros HJ. unfold _verify_negative_closed. apply step_result; [done|]. intros e He.
  eapply step_at; [apply (at_require_empty J)|done|]. intros u.
  eapply step_at; [by apply (at_inspect J)|done|]. intros st. back_to J.
  apply step_raise_when; [done|]. intros _.
  eapply step_at; [by apply (at_reconnect J)|done|]. intros ok.
  apply step_raise_when; [done|]. intros _.
  eapply step_at; [by apply (at_inspect J)|done|]. intros st'. back_to J.
  apply step_raise_when; [done|]. intros _.
  eapply step_at; [by apply (at_run_pre_l4_probes J)|done|]. intros d. back_to J.
  eapply step_at; [apply (at_require_empty J)|done|]. intros u'. by apply at_raise.
Qed.

Lemma at_bond_state J :
  Kept J ->
  triple (at_v1 J) (bond_state unpair_first)
    (fun st => at_v1 (along J (fun t => is_paired st = true -> bonded t))) (fun _ => at_v1 J).
Proof.
  intros HJ. unfold bond_state. eapply step_at; [by apply (at_inspect J)|done|]. intros st.
  destruct (unpair_first && is_paired st) eqn:Hu; [|by apply triple_ret].
  back_to J. apply andb_true_iff in Hu as [Hu _].
  apply (step_perform _ _ _ J Unpair); [done|by intros|done|]. intros v. back_to J.
  eapply step_at; [by apply (at_ensure_connected J)|done|]. intros w.
  eapply step_at; [by apply (at_inspect J)|done|]. intros st'.
  apply step_raise_when; [by apply implies_along|]. intros _. by apply triple_ret.
Qed.

Lemma at_pair_cold J :
  V1Kept J -> mode <> Some "pre-l4-only"%string ->
  match mode with Some m => m ∈ V1_NEGATIVE_MODES | None => True end ->
  triple (at_v1 (along J probes_denied)) (pair_cold mode)
    (fun _ => at_v1 (along J (gate mode))) (fun _ => at_v1 J).
Proof.
  intros HJ Hpre Hvalid. unfold pair_cold. apply (step_ask _ _ _ _ Now). intros t0.
  eapply step_at with (R := fun o => along (along J probes_denied)
    (fun t => mode = None -> Did PairNumericComparison (Ok o) ∈ t)) (J' := J); [|done|].
  { unfold is_mode. case_bool_decide as Hm.
    - eapply triple_conseq; [intros s Hs; exact Hs
        |apply (at_perform policy (along J probes_denied) PairJustWorks); [apply _|]| |].
      + intros l t [_ Hp]. by split.
      + intros o s. apply at_implies. intros l t [Hj _]. split; [done|]. congruence.
      + intros x s. apply at_implies. by intros l t [Hj _].
    - eapply triple_conseq; [intros s Hs; exact Hs
        |apply (at_perform policy (along J probes_denied) PairNumericComparison); [apply _|]| |].
      + intros l t [_ Hp]. by split.
      + intros o s. apply at_implies. intros l t [Hj Hd]. by split.
      + intros x s. apply at_implies. by intros l t [Hj _]. }
  intros o. apply (step_ask _ _ _ _ Now). intros t1.
  eapply step_update with (J' := along (along J probes_denied)
    (fun t => mode = None -> Did PairNumericComparison (Ok o) ∈ t)).
  { intros h t [[Hj Hp] Hd]. split; [split; [|done]|done]. by apply v1_kept_set. }
  eapply step_at with (R := fun _ l t => mode = None /\ along (along J probes_denied)
    (fun t => mode = None -> Did PairNumericComparison (Ok o) ∈ t) l t) (J' := J); [|done|].
  { pose proof (at_verify_negative_closed J) as Hneg.
    unfold is_mode. destruct mode as [m|]; [|apply triple_ret; intros s [Hj Ho]; by split].
    eapply at_weaken with (J' := J); [by intros l t [[Hj _] _]|].
    assert (bool_decide (Some m = Some "just-works"%string) || bool_decide (Some m = Some "nc-reject"%string) = true) as ->.
    { unfold V1_NEGATIVE_MODES in Hvalid. rewrite !elem_of_cons, elem_of_nil in Hvalid.
      destruct Hvalid as [->|[->|[->|[]]]]; [congruence|done|done]. }
    eapply triple_conseq; [intros s Hs; exact Hs|by apply Hneg, _|by intros ? ? []|done]. }
  intros u. apply at_pure. intros Hnone.
  apply step_raise_when; [by intros l t [[Hj _] _]|]. intros Hst.
  apply step_raise_when; [by intros l t [[Hj _] _]|]. intros Hau.
  apply orb_false_iff in Hst as [Hpd Hst]. apply negb_false_iff in Hpd, Hst, Hau.
  apply bool_decide_eq_true in Hst.
  eapply at_weaken with (J' := along J (gate mode)).
  { intros l t [[Hj Hp] Hd]. split; [done|]. split; [done|]. right. split; [done|].
    exists o. split_and!; [by apply Hd|done..]. }
  eapply triple_conseq; [intros s Hs; exact Hs|apply (at_ensure_connected (along J (gate mode))), _|by intros u' s Hs|].
  intros x s. apply at_implies. by intros l t [Hj _].
Qed.
Lemma at_next_notification J :
  V1Kept J -> implies J queued ->
  triple (at_v1 J) next_notification (fun b => at_v1 (along J (fun t => b ∈ heard t))) (fun _ => at_v1 J).
Proof.
  intros HJ Hq. unfold next_notification. apply (step_perform _ _ _ J Wait); [apply _|done|done|].
  intros v. back_to J. apply step_get_v1. intros r. destruct (v1_notifications r) as [|b q] eqn:Hr.
  - apply at_raise. by intros l t [_ Hj].
  - eapply step_update with (J' := along J (fun t => b ∈ heard t)).
    + intros h t [-> Hj]. split; [|apply (Hq _ _ Hj); rewrite Hr; by left].
      apply v1_kept_set; [|done]. cbn. rewrite Hr. intros d Hd. by right.
    + by apply triple_ret.
Qed.

Lemma at_next_since J p :
  V1Kept J -> implies J (queued_since p) ->
  triple (at_v1 J) next_notification (fun b => at_v1 (along J (since p (fun u => b ∈ heard u)))) (fun _ => at_v1 J).
Proof.
  intros HJ Hq. unfold next_notification. apply (step_perform _ _ _ J Wait); [apply _|done|done|].
  intros v. back_to J. apply step_get_v1. intros r. destruct (v1_notifications r) as [|b q] eqn:Hr.
  - apply at_raise. by intros l t [_ Hj].
  - eapply step_update with (J' := along J (since p (fun u => b ∈ heard u))).
    + intros h t [-> Hj]. split.
      * apply v1_kept_set; [|done]. cbn. rewrite Hr. intros d Hd. by right.
      * destruct (Hq _ _ Hj) as (u & -> & Hu). exists u. split; [done|]. apply Hu. rewrite Hr. by left.
    + by apply triple_ret.
Qed.

(** ** Whole runs, for any exchange *)

Section Exchange.
Variables (exchange : coroutine V1SecurityInfo).
Variables (J Jx : L -> list observed -> Prop) (R : V1SecurityInfo -> L -> list observed -> Prop).
Context {HJ : V1Kept J} {HJx : Kept Jx} {HR : forall info, V1Kept (R info)}.
Hypothesis HJJx : implies J Jx.
Hypothesis Hexchange :
  triple (at_v1 (along J (gate mode))) exchange (fun info => at_v1 (R info)) (fun _ => at_v1 Jx).

Lemma at_run_v1_body started :
  match mode with Some m => m ∈ V1_NEGATIVE_MODES | None => True end ->
  triple (at_v1 J) (run_v1_body mode unpair_first exchange started)
    (fun res => at_v1 (fun l t => R (security_info res) l t /\ v1_completed (v1 l) = true))
    (fun _ => at_v1 Jx).
Proof.
  intros Hvalid. unfold run_v1_body. eapply step_at; [apply at_bond_state, _|done|]. intros st.
  eapply step_update with (J' := along J (fun t => is_paired st = true -> bonded t)).
  { intros h t [Hj Hb]. split; [by apply v1_kept_new|done]. }
  apply step_raise_when; [by apply implies_along|]. intros Hneg.
  eapply step_at with (J' := J) (R := fun _ => along J (fun t =>
    if is_paired st then mode = None /\ bonded t else probes_denied t)); [|done|].
  { destruct (is_paired st) eqn:Hp.
    - apply triple_ret. intros s [[Hj Hb] Ho]. split; [|done]. split; [done|]. split; [|by apply Hb].
      rewrite andb_true_r in Hneg. by apply negb_false_iff, bool_decide_eq_true in Hneg.
    - back_to J. eapply step_at; [apply (at_run_pre_l4_probes J), _|done|]. intros d.
      apply at_update. intros h t [Hj Hd]. split; [by apply v1_kept_set|done]. }
  intros u. apply step_raise_when; [by apply implies_along|]. intros Hpre.
  assert (mode <> Some "pre-l4-only"%string) as Hpre'.
  { unfold is_mode in Hpre. by apply bool_decide_eq_false in Hpre. }
  eapply step_at with (J' := J) (R := fun _ => along J (gate mode)); [|done|].
  { destruct (is_paired st).
    - apply at_update. intros h t [Hj [Hm Hb]]. split; [by apply v1_kept_set|]. split; [done|by left].
    - by apply at_pair_cold. }
  intros v. eapply step_update with (J' := along J (gate mode)).
  { intros h t [Hj Hg]. split; [by apply v1_kept_set|done]. }
  eapply step_at with (J' := Jx) (R := R); [|done|].
  { eapply triple_except; [exact Hexchange|intros x _; by apply at_raise|done]. }
  intros info. apply (step_ask _ _ _ _ Now). intros now.
  eapply step_update with (J' := fun l t => R info l t /\ security_info (v1_result (v1 l)) = info).
  { intros h t Hr. split; [by apply v1_kept_set|]. cbn. by rewrite v1_set. }
  eapply step_update with (J' := fun l t => (R info l t /\ security_info (v1_result (v1 l)) = info) /\
    v1_completed (v1 l) = true).
  { intros h t [Hr Hi]. cbn. rewrite v1_set. split; [split; [by apply v1_kept_set|done]|done]. }
  apply step_get_v1. intros r. apply triple_ret. intros s [(-> & (Hr & Hi) & Hc) Ho]. by rewrite Hi.
Qed.

Lemma at_leave_v1 retain G :
  Kept G -> triple (at_v1 G) (leave_v1 retain) (fun _ => at_v1 G) (fun _ => at_v1 G).
Proof.
  intros HG. apply step_get_v1. intros r. eapply at_weaken with (J' := G); [by intros l t [_ Hg]|].
  destruct (_ && _); [|by apply triple_ret].
  eapply triple_except; [apply (at_stop_notify policy G); [done|intros c l t Hg; exact I]| |done].
  intros x _. by apply triple_ret.
Qed.

(** The rules for a runner: its exchange starts behind the gate, and a run that
    returns returned from it. A runner that keeps its subscription does nothing
    after that. *)
Definition run_start (J0 : L -> list observed -> Prop) : Prop :=
  implies J0 Jx /\
  forall l t, J0 l t -> J (set_v1 (fun r => set_v1_notifications [] (set_v1_flags false false r)) l) t.

Lemma at_run_v1_with retain J0 :
  run_start J0 ->
  (forall info, triple (at_v1 (fun l t => R info l t /\ v1_completed (v1 l) = true)) (leave_v1 retain)
     (fun _ => at_v1 (R info)) (fun _ => at_v1 Jx)) ->
  triple (at_v1 J0) (_run_v1 mode unpair_first retain exchange)
    (fun res => at_v1 (R (security_info res))) (fun _ => at_v1 Jx).
Proof.
  intros [H0x H0J] Hleave. unfold _run_v1. apply step_raise_when; [done|]. intros Hm.
  assert (match mode with Some m => m ∈ V1_NEGATIVE_MODES | None => True end) as Hvalid.
  { destruct mode; [|done]. by apply negb_false_iff, bool_decide_eq_true in Hm. }
  apply step_connected. intros b. apply step_raise_when; [done|]. intros _.
  eapply step_update with (J' := J0); [done|]. apply (step_ask _ _ _ _ Now). intros started.
  eapply step_update with (J' := J); [by intros h t Hj; apply H0J|].
  eapply triple_finally; [by apply at_run_v1_body|intros res; apply Hleave|].
  intros x. by apply at_leave_v1.
Qed.

Lemma at_run_v1 J0 :
  run_start J0 -> (forall info, implies (R info) Jx) ->
  triple (at_v1 J0) (_run_v1 mode unpair_first false exchange)
    (fun res => at_v1 (R (security_info res))) (fun _ => at_v1 Jx).
Proof.
  intros Hst HRJx. apply at_run_v1_with; [done|]. intros info.
  eapply at_weaken with (J' := R info); [by intros l t [Hr _]|].
  eapply triple_conseq; [intros s Hs; exact Hs|apply (at_leave_v1 false (R info)), _|done|].
  intros x s. by apply at_implies.
Qed.

Lemma at_run_v1_retain J0 :
  run_start J0 ->
  triple (at_v1 J0) (_run_v1 mode unpair_first true exchange)
    (fun res => at_v1 (R (security_info res))) (fun _ => at_v1 Jx).
Proof.
  intros Hst. apply at_run_v1_with; [done|]. intros info. apply step_get_v1. intros r.
  eapply triple_weaken with (P' := fun s => v1_completed r = true /\ at_v1 (R info) s).
  { intros s [(-> & Hr & Hc) Ho]. by split. }
  apply triple_pure. intros ->. rewrite andb_false_r. by apply triple_ret.
Qed.
End Exchange.
End Gate.

(** * CP1 *)

(** The attestation: a notification that reads as authenticated Level 4. *)
Definition attested (info : V1SecurityInfo) (t : list observed) : Prop :=
  exists raw, raw ∈ heard t /\ parse_sec_info raw = Ok info /\ is_authenticated_level4 info = true.

#[export] Instance attested_lasting info : Lasting (attested info).
Proof. intros t u (raw & Hr & Hi). exists raw. split; [by apply (lasting_heard _)|done]. Qed.

(** Some strict attestation was received. *)
Definition attested_once (t : list observed) : Prop := exists info, attested info t.

#[export] Instance attested_once_lasting : Lasting attested_once.
Proof. intros t u [info Hi]. exists info. by apply attested_lasting. Qed.

Section Cp1.
Context {W L : Type} `{Env W, V1Laws L, Kem}.

Definition cp1_exchange (t : list observed) (a : action) : Prop :=
  match a with
  | WriteGatt _ u d => u = CHAR_CIPHERTEXT_UUID /\ fresh_ciphertext t d
  | _ => False
  end.

(** What a run of CP1 that returns went through. *)
Definition cp1_done (mode : option string) (info : V1SecurityInfo) (t : list observed) : Prop :=
  gate mode t /\ attested info t /\ subscribed t /\ wrote CHAR_CONTROL_UUID sec_query t.

Lemma at_post_l4_exchange mode unpair_first :
  let policy := v1_policy mode unpair_first cp1_exchange in
  triple (at_ policy (along queued (gate mode))) (_post_l4_exchange : method (io W (host L)) _)
    (fun info => at_ policy (along queued (cp1_done mode info)))
    (fun _ => at_ policy queued).
Proof.
  intros policy. set (G := along queued (gate mode)).
  assert (implies G queued) as HGq by by intros l t [Hq _].
  assert (V1Kept G) as HG by apply _. unfold _post_l4_exchange.
  apply (step_ask _ _ _ _ Now). intros started.
  eapply step_at; [apply (at_start_notify _ G); [apply _|done]|implied|]. intros u.
  eapply step_at; [apply at_read_public_key; [apply _|done]|implied|]. intros pk.
  apply step_raise_when; [implied|]. intros Hpk.
  apply negb_false_iff, Z.eqb_eq in Hpk.
  set (G1 := along (along G subscribed) (read_key pk)).
  assert (V1Kept G1) as HG1 by apply _.
  assert (implies G1 G) as HG1G by by intros l t [[Hg _] _].
  eapply step_update with (J' := G1); [intros h t Hj; by apply v1_kept_set|].
  apply (step_ask _ _ _ _ Coins). intros coins. apply step_result; [implied|]. intros [ct ss] Hct.
  eapply step_at; [apply at_write_ciphertext; [apply _|]|implied|].
  { intros f Hf c l t [[[Hq Hg] Hs] Hr]. right. split; [done|]. split; [done|].
    exists pk, coins, ct, ss. by split_and!. }
  intros n. eapply at_weaken with (J' := G1); [by intros l t [Hj _]|].
  eapply step_update with (J' := G1); [intros h t Hj; by apply v1_kept_set|].
  apply step_result; [implied|]. intros q ->%encode_sec_query_Ok.
  eapply step_at; [apply at_send_control; [apply _|]|implied|].
  { intros c l t Hj. left. by left. }
  intros v. set (G2 := along G1 (wrote CHAR_CONTROL_UUID sec_query)).
  assert (V1Kept G2) as HG2 by apply _.
  assert (implies G2 G) as HG2G by by intros l t [Hj%HG1G _].
  assert (implies G2 queued) as HG2q by by intros l t Hj%HG2G%HGq.
  eapply step_at with (R := fun raw => along G2 (fun t => raw ∈ heard t)) (J' := G); [|implied|].
  { eapply triple_except with (E' := fun _ => at_ policy G2).
    - by apply at_next_notification.
    - intros x _. apply at_raise; implied.
    - intros x s _. by apply at_implies. }
  intros raw. set (G3 := along G2 (fun t => raw ∈ heard t)).
  assert (V1Kept G3) as HG3 by apply _.
  assert (implies G3 G) as HG3G by by intros l t [Hj%HG2G _].
  eapply step_at with (R := fun _ => G3) (J' := G); [|implied|].
  { eapply triple_except with (E' := fun _ => at_ policy G3).
    - by apply triple_run.
    - intros x _. apply at_raise; implied.
    - intros x s _. by apply at_implies. }
  intros frame. eapply step_at with (R := fun _ => G3) (J' := G); [|implied|].
  { destruct (subtype frame =? V1_ERROR); [|by apply triple_ret].
    apply step_result; [implied|]. intros b _. apply at_raise; implied. }
  intros w. apply step_raise_when; [implied|]. intros Hs. apply step_result; [implied|]. intros info Hinfo.
  eapply step_at with (R := fun _ => G3) (J' := G); [|implied|].
  { eapply triple_except with (E' := fun _ => at_ policy G3).
    - eapply step_at; [apply at_next_notification; [apply _|by intros l t Hj%HG3G%HGq]|implied|].
      intros b. apply triple_ret. intros s. apply at_implies. by intros l t [Hj _].
    - intros x _. by apply triple_ret.
    - intros x s _. by apply at_implies. }
  intros extra. apply step_raise_when; [implied|]. intros _.
  apply step_raise_when; [implied|]. intros Hl4%negb_false_iff.
  apply (step_ask _ _ _ _ Now). intros now.
  eapply step_update with (J' := G3); [intros h t Hj; by apply v1_kept_set|].
  apply triple_ret. intros s. apply at_implies.
  intros l t [[[[[Hq Hg] Hsub] Hread] Hwr] Hraw]. split; [done|]. split_and!; [done|by exists raw|done..].
Qed.

#[export] Instance cp1_done_lasting mode info : Lasting (cp1_done mode info).
Proof.
  intros t u (? & ? & ? & ?). split_and!; [by apply gate_lasting|by apply attested_lasting
    |by apply subscribed_lasting|by apply wrote_lasting].
Qed.

#[export] Instance cp1_contract mode unpair_first :
  Contract (fun _ => True) (run_v1_cp1 mode unpair_first : method (io W (host L)) V1CP1Result)
    (fun _ t => obeys (v1_policy mode unpair_first cp1_exchange) t)
    (fun res => cp1_done mode (security_info res)).
Proof.
  intros s Ht _. unfold run_v1_cp1.
  assert (at_ (v1_policy mode unpair_first cp1_exchange) (fun _ t => t = []) s) as Hs.
  { split; [done|]. rewrite Ht. apply obeys_nil. }
  eapply (at_run_v1 mode unpair_first cp1_exchange _post_l4_exchange queued (fun _ _ => True)
    (fun info => along queued (cp1_done mode info))) in Hs as Hrun; cycle 1.
  { by intros l t. }
  { eapply triple_conseq; [intros s' Hs'; exact Hs'|apply at_post_l4_exchange|done|].
    intros x s'. apply at_implies. by intros l t. }
  { split; [by intros l t|]. intros l t _. unfold queued. rewrite v1_set. by intros b Hb%elem_of_nil. }
  { by intros info l t. }
  destruct (_run_v1 _ _ _ _ s) as [[res|x] s'].
  - destruct Hrun as [[_ Hd] Ho]. split; [done|]. by intros ? [= <-].
  - destruct Hrun as [_ Ho]. by split.
Qed.

(** C10. Nothing secret before Level 4: for every peripheral, Windows and link,
    with any negative mode, a CP1 run asks for a pairing only after all four
    kinds of PQ operation were denied with a security error; before the gate
    (a bond, or after the denials a pairing that Windows reports as
    authenticated) it writes only the probe fragment and SEC_QUERY, and after it
    frames of a fresh encapsulation to the key it read; it removes a bond only
    when asked to. A run that returns is not a negative mode, passed the gate and
    reports the attestation it received, which is strict Level 4. *)
Theorem v1_cp1_gated mode unpair_first (s : io W (host L)) :
  trace s = [] ->
  let '(r, s') := run_v1_cp1 mode unpair_first s in
  obeys (v1_policy mode unpair_first cp1_exchange) (trace s') /\
  forall res, r = Ok res -> cp1_done mode (security_info res) (trace s').
Proof. intros Ht. exact (cp1_contract mode unpair_first s Ht I). Qed.
End Cp1.

(** The variables of CP1's runner are those of [_run_v1]. *)
#[export] Instance v1_program : Program v1_run := {
  clear_object _ r := r;
  on_data _ _ b r := set_v1_notifications (v1_notifications r ++ [b]) r;
}.

#[export] Instance v1_locals : V1Locals v1_run := {
  v1 r := r;
  set_v1 f r := f r;
  new_result res r := set_v1_result (fun _ => res) r;
}.

#[export] Instance v1_laws : V1Laws v1_run.
Proof. split; [done|done| |done]. by intros x b data l d Hd. Qed.

(** * A peripheral of CP1

    It denies everything until Numeric Comparison pairing, and then serves its
    key and its attestation. *)
Module ColdPeer.
Definition denial {A} : list event * result A := ([], Err (BleakGATTProtocolError 0x05)).

#[export] Instance environment `{Kem} : Env bool := {
  ask q w := match q as q return answer q * bool with
             | IsConnected _ => (true, w)
             | MtuSize _ => (247, w)
             | Urandom n => (zeros n, w)
             | Coins => ([x2a], w)
             | TimerFired | GuardFailed => (false, w)
             | Now => (0, w)
             end;
  await a w :=
    match a as a return list event * result (value a) * bool with
    | ReadGatt _ _ => (if w then ([], Ok (oqs_generate_keypair [x17]).1) else denial, w)
    | WriteGatt _ u d =>
        (if w then (if bool_decide (d = sec_query) then [Notified sec_info_level4 true] else [], Ok tt)
         else denial, w)
    | StartNotify _ _ => (if w then ([], Ok tt) else denial, w)
    | Confirm _ => ([], Ok true, w)
    | InspectPairing => ([], Ok (mkPairingState w (negb w) "NONE"), w)
    | PairNumericComparison =>
        ([], Ok (mkPairingOutcome "PAIRED" true PROTECTION_ENCRYPTION_AND_AUTHENTICATION
                   (Some "012345"%string) (Some "CONFIRM_PIN_MATCH"%string) (Some true) true), true)
    | PairJustWorks => ([], Err (OtherException None), w)
    | FindByName _ | FindByAddress _ => ([], Ok None, w)
    | Connect _ | Disconnect _ | StopNotify _ _ | Wait | Unpair => ([], Ok tt, w)
    end;
}.

Definition initial : io bool (host v1_run) :=
  mkIo false
    (mkHost (mkClient DEVICE_NAME (Some (mkLink 0 false)) None None None None None false) 1
       (mkV1Run [] (V1CP1Result_init "") false false)) [].

Definition outcome := @run_v1_cp1 bool v1_run (@environment Toy.kem) _ _ Toy.kem None false initial.
End ColdPeer.

Lemma v1_cp1_gated_witness :
  exists res, ColdPeer.outcome.1 = Ok res /\ scenario res = "cold"%string /\
    keys (pre_l4_denials res) = PRE_L4_PROBES /\
    @cp1_done None (security_info res) (trace ColdPeer.outcome.2).
Proof.
  assert (match ColdPeer.outcome.1 with
          | Ok res => scenario res = "cold"%string /\ keys (pre_l4_denials res) = PRE_L4_PROBES
          | Err _ => False
          end) as Hok by (vm_compute; split; reflexivity).
  pose proof (@v1_cp1_gated bool v1_run (@ColdPeer.environment Toy.kem) _ _ _ Toy.kem None false
                ColdPeer.initial eq_refl) as Hs.
  assert (ColdPeer.outcome = @run_v1_cp1 bool v1_run (@ColdPeer.environment Toy.kem) _ _ Toy.kem None false
                ColdPeer.initial) as He by reflexivity.
  rewrite <- He in Hs. clear He.
  generalize dependent ColdPeer.outcome. intros [[res|x] s'] Hok Hs; [|destruct Hok].
  exists res. destruct Hs as [_ Hres]. exact (conj eq_refl (conj (proj1 Hok) (conj (proj2 Hok) (Hres res eq_refl)))).
Defined.
