(* ===== verification/Cp2Central.v ===== *)
(** src/src/central/v1_cp2.py: the interoperability check of CP2, which runs
    ML-KEM once over the attested link and compares a diagnostic. *)

From stdpp Require Import sets.
From S2P Require Import Prelude Py Interfaces World BleClient Runs Policy Constants Fragmentation Frame Sas V1Smp V1Central.
Open Scope Z_scope.

(** The variables of [_run_v1], the fields that [V1CP2Result] adds, and the two
    buffers of the exchange. *)
Record cp2_locals := mkCp2Locals {
  c2_v1 : v1_run;
  diagnostic_match : bool;
  start_sent : bool;
  ready_received : bool;
  secret : bytes;
  expected : bytes;
}.

Definition set_buffers (s e : bytes) (l : cp2_locals) : cp2_locals :=
  mkCp2Locals (c2_v1 l) (diagnostic_match l) (start_sent l) (ready_received l) s e.

Definition set_progress (m s r : bool) (l : cp2_locals) : cp2_locals :=
  mkCp2Locals (c2_v1 l) m s r (secret l) (expected l).

#[export] Instance cp2_program : Program cp2_locals := {
  clear_object _ l := l;
  on_data _ _ b l := mkCp2Locals (set_v1_notifications (v1_notifications (c2_v1 l) ++ [b]) (c2_v1 l))
    (diagnostic_match l) (start_sent l) (ready_received l) (secret l) (expected l);
}.

#[export] Instance cp2_v1_locals : V1Locals cp2_locals := {
  v1 := c2_v1;
  set_v1 f l := mkCp2Locals (f (c2_v1 l)) (diagnostic_match l) (start_sent l) (ready_received l)
                  (secret l) (expected l);
  new_result r l := mkCp2Locals (set_v1_result (fun _ => r) (c2_v1 l)) false false false
                      (secret l) (expected l);
}.

#[export] Instance cp2_v1_laws : V1Laws cp2_locals.
Proof. split; [done|done| |done]. by intros x b data l d Hd. Qed.

Section Exchange.
Context {W : Type} `{Env W, Kem}.

Abbreviation coroutine := (method (io W (host cp2_locals))).

Definition get_local : coroutine cp2_locals := h ← get_own; mret (local h).
Definition update_local (f : cp2_locals -> cp2_locals) : coroutine unit := update_own (on_local f).

(** [link] is what [client.raw_client] was when the exchange began. *)
Definition require_same_link (snapshot : option link) : coroutine unit :=
  raise_when (bool_decide (snapshot = None))
    (V1Error "CP2 connection lost or replaced; refusing to continue");;
  connected ← is_connected;
  current ← raw_client;
  raise_when (negb connected || negb (bool_decide (current = snapshot)))
    (V1Error "CP2 connection lost or replaced; refusing to continue").

Definition receive (snapshot : option link) (expected_subtype : Z) : coroutine (bytes * bytes) :=
  raw ← try_except (fun x => bool_decide (x = AsyncTimeoutError))
    (fun exc => raise (V1ErrorFrom "CP2 timed out waiting" exc)) next_notification;
  require_same_link snapshot;;
  frame ← run (parse_v1_frame raw);
  (if subtype frame =? V1_ERROR then run (idx (payload frame) 0);; raise (V1Error "DK CP2 ERROR")
   else mret tt);;
  raise_when (negb (subtype frame =? expected_subtype)) (V1Error "CP2 expected another subtype");;
  mret (raw, payload frame).

Definition attest (snapshot : option link) : coroutine V1SecurityInfo :=
  require_same_link snapshot;;
  require_empty "unsolicited CP2 notification before SEC_QUERY";;
  query ← run encode_sec_query;
  send_control query;;
  reply ← receive snapshot V1_SEC_INFO;
  info ← run (parse_sec_info reply.1);
  raise_when (negb (is_authenticated_level4 info)) (V1Error "CP2 requires strict authenticated Level 4");;
  mret info.

(** The end of the [try] block, from the second attestation on. *)
Definition finish_cp2 (snapshot : option link) (started : Z) (session_id : bytes)
  : coroutine V1SecurityInfo :=
  info ← attest snapshot;
  perform Wait;;
  require_same_link snapshot;;
  require_empty "unsolicited CP2 notification before START_V1";;
  start ← run (encode_v1_frame V1_START session_id);
  send_control start;;
  update_local (fun l => set_progress (diagnostic_match l) true (ready_received l) l);;
  reply ← receive snapshot V1_READY;
  update_local (fun l => set_progress (diagnostic_match l) (start_sent l) true l);;
  l ← get_local;
  raise_when (negb (compare_digest (expected l) reply.2)) (V1Error "CP2 diagnostic mismatch; fail closed");;
  extra ← try_except (fun x => bool_decide (x = AsyncTimeoutError)) (fun _ => mret None)
    (b ← next_notification; mret (Some b));
  raise_when (negb (bool_decide (extra = None))) (V1Error "unexpected extra notification after READY_V1");;
  require_same_link snapshot;;
  update_local (fun l => set_progress true (start_sent l) (ready_received l) l);;
  now ← query_env Now;
  update_v1 (set_v1_result (set_post_l4_ms (now - started)));;
  mret info.

(** The body of the [try] block. *)
Definition cp2_body (snapshot : option link) (started : Z) : coroutine V1SecurityInfo :=
  require_same_link snapshot;;
  start_notify;;
  attest snapshot;;
  public_key ← read_fragmented_public_key;
  require_same_link snapshot;;
  raise_when (negb (blen public_key =? PK_SIZE)) (V1Error "ML-KEM public key size");;
  update_v1 (set_v1_result (set_public_key_len (blen public_key)));;
  coins ← query_env Coins;
  encapsulated ← run (encapsulate public_key coins);
  let '(ciphertext, raw_secret) := encapsulated in
  update_local (set_buffers raw_secret []);;
  raise_when (negb (blen ciphertext =? CT_SIZE) || negb (blen raw_secret =? SS_SIZE))
    (V1Error "invalid ML-KEM-768 ciphertext/shared-secret size");;
  require_same_link snapshot;;
  fragments ← write_fragmented_ciphertext ciphertext;
  update_v1 (set_v1_result (set_fragments fragments));;
  session_id ← query_env (Urandom V1_CP2_SESSION_ID_SIZE);
  diagnostic ← run (compute_diagnostic raw_secret session_id public_key ciphertext);
  update_local (set_buffers raw_secret diagnostic);;
  finish_cp2 snapshot started session_id.

Definition _cp2_exchange : coroutine V1SecurityInfo :=
  started ← query_env Now;
  snapshot ← raw_client;
  update_local (set_buffers [] []);;
  try_finally (update_local (fun l => set_buffers (wipe (secret l)) (wipe (expected l)) l))
    (cp2_body snapshot started).

Definition run_v1_cp2 (negative_test : option string) (unpair_first : bool) : coroutine V1CP1Result :=
  raise_when (negb (bool_decide (negative_test = None)))
    (ValueError "CP1 negative modes cannot be combined with CP2");;
  _run_v1 negative_test unpair_first false _cp2_exchange.
End Exchange.

(** * What a run may send, and what it shows *)

Section Cp2.
Context {W : Type} `{Env W, Kem}.

(** [data] was written to the control characteristic, and [G] of what came after. *)
Definition answered (data : bytes) (G : list observed -> Prop) (u : list observed) : Prop :=
  exists c v, u = Did (WriteGatt c CHAR_CONTROL_UUID data) (Ok tt) :: v /\ G v.

#[export] Instance answered_lasting data G : Lasting G -> Lasting (answered data G).
Proof. intros HG t u (c & v & -> & Hv). exists c, (v ++ u). split; [done|by apply HG]. Qed.

(** After an attestation and the whole ciphertext, SEC_QUERY was answered with [info]. *)
Definition attested_again (pk ct ss : bytes) (info : V1SecurityInfo) : list observed -> Prop :=
  followed (fun p => attested_once p /\ delivered_to pk ct ss p) (answered sec_query (attested info)).

(** The ciphertext needs an attestation, START the whole ciphertext and another one. *)
Definition cp2_exchange (t : list observed) (a : action) : Prop :=
  match a with
  | WriteGatt _ u d =>
      attested_once t /\
      (u = CHAR_CIPHERTEXT_UUID /\ fresh_ciphertext t d
       \/ u = CHAR_CONTROL_UUID /\
          exists sid pk ct ss info, d = v1_wire V1_START sid /\ attested_again pk ct ss info t)
  | _ => False
  end.

(** What a run that returns went through: after the second attestation START, and
    after START the agreed diagnostic. *)
Definition cp2_done (mode : option string) (info : V1SecurityInfo) (t : list observed) : Prop :=
  gate mode t /\
  exists pk ct ss sid diagnostic, compute_diagnostic ss sid pk ct = Ok diagnostic /\
    followed (attested_again pk ct ss info)
      (answered (v1_wire V1_START sid) (fun v => v1_wire V1_READY diagnostic ∈ heard v)) t.

#[export] Instance cp2_done_lasting mode info : Lasting (cp2_done mode info).
Proof.
  intros t u (Hg & pk & ct & ss & sid & dg & Hc & Hf). split; [by apply gate_lasting|].
  exists pk, ct, ss, sid, dg. split; [done|]. revert Hf. apply lasting_followed, _.
Qed.

Lemma followed_attested F data info t :
  followed F (answered data (attested info)) t -> attested info t.
Proof.
  intros (p & _ & u & -> & c & v & -> & raw & Hr & Hi). exists raw. split; [|done].
  rewrite heard_app. apply elem_of_app. by right.
Qed.

(** The buffers hold these values, and the queue what was heard. *)
Definition held (s e : bytes) (l : cp2_locals) (t : list observed) : Prop :=
  (secret l = s /\ expected l = e) /\ queued l t.

#[export] Instance held_kept s e : V1Kept (held s e).
Proof.
  split; [split|..].
  - intros x b d l t [Hb Hq]. split; [done|by apply kept_notified].
  - intros c l t [Hb Hq]. split; [done|by apply kept_disconnected].
  - intros a r l t [Hb Hq]. split; [done|by apply kept_did].
  - intros o l t Hl. exact Hl.
  - intros f l t Hf [Hb Hq]. split; [done|by apply v1_kept_set].
  - intros r l t [Hb Hq]. split; [done|by apply v1_kept_new].
Qed.

Variables (mode : option string) (unpair_first : bool).
Abbreviation policy := (v1_policy mode unpair_first cp2_exchange).
Abbreviation at_cp2 := (at_ (W := W) policy).
Implicit Types J : cp2_locals -> list observed -> Prop.

Lemma at_same_link J snapshot :
  triple (at_cp2 J) (require_same_link snapshot) (fun _ => at_cp2 J) (fun _ => at_cp2 J).
Proof.
  apply step_raise_when; [done|]. intros _. apply step_connected. intros b.
  apply step_raw_client. intros c. by apply triple_raise_when.
Qed.

(** At a moment of [F], with nothing queued, [data] was written. *)
Definition asked (F : list observed -> Prop) (data : bytes) (l : cp2_locals) (t : list observed) : Prop :=
  exists p c, F p /\ queued_since (p ++ [Did (WriteGatt c CHAR_CONTROL_UUID data) (Ok tt)]) l t.

#[local] Instance asked_kept F data : V1Kept (asked F data).
Proof.
  split; [split|..].
  - intros x b d l t (p & c & Hf & Hq). exists p, c. split; [done|by apply kept_notified].
  - intros x l t (p & c & Hf & Hq). exists p, c. split; [done|by apply kept_disconnected].
  - intros a r l t (p & c & Hf & Hq). exists p, c. split; [done|by apply kept_did].
  - intros o l t (p & c & Hf & Hq). exists p, c. split; [done|by apply kept_clear].
  - intros f l t Hl (p & c & Hf & Hq). exists p, c. split; [done|by apply v1_kept_set].
  - intros r l t (p & c & Hf & Hq). exists p, c. split; [done|by apply v1_kept_new].
Qed.

Lemma at_ask J F data :
  V1Kept J -> implies J (fun _ => F) -> may policy J (fun c => WriteGatt c CHAR_CONTROL_UUID data) ->
  triple (at_cp2 (fun l t => J l t /\ v1_notifications (v1 l) = [])) (send_control data)
    (fun _ => at_cp2 (fun l t => J l t /\ asked F data l t)) (fun _ => at_cp2 J).
Proof.
  intros HJ HF Hm.
  eapply triple_conseq; [intros s Hs; exact Hs| | |].
  - eapply (at_send_control_next policy J (fun l _ => v1_notifications (v1 l) = []) data
      (fun c l t => J l t /\ asked F data l t)); [apply _|apply _|done|].
    intros c l t Hj Hq. split; [by apply kept_did|]. exists t, c. split; [by eapply HF|].
    exists []. rewrite app_nil_r. split; [done|]. rewrite Hq. by intros b Hb%elem_of_nil.
  - intros v s. apply at_implies. by intros l t [c Hj].
  - by intros x s Hs.
Qed.

Lemma at_next_asked J F data :
  V1Kept J -> implies J (asked F data) ->
  triple (at_cp2 J) next_notification
    (fun b => at_cp2 (along J (followed F (answered data (fun v => b ∈ heard v))))) (fun _ => at_cp2 J).
Proof.
  intros HJ Hq.
  eapply at_weaken with (J' := fun l t => exists p c, F p /\
      (J l t /\ queued_since (p ++ [Did (WriteGatt c CHAR_CONTROL_UUID data) (Ok tt)]) l t)).
  { intros l t Hj. destruct (Hq l t Hj) as (p & c & ? & ?). by exists p, c. }
  apply at_ex. intros p. apply at_ex. intros c. apply at_pure. intros Hf.
  eapply triple_conseq; [intros s Hs; exact Hs|
    apply (at_next_since _ _ _ _ (p ++ [Did (WriteGatt c CHAR_CONTROL_UUID data) (Ok tt)])); [apply _|by intros l t [_ ?]]| |].
  - intros b s. apply at_implies. intros l t [[Hj _] (u & -> & Hu)]. split; [done|].
    exists p. split; [done|]. exists (Did (WriteGatt c CHAR_CONTROL_UUID data) (Ok tt) :: u).
    rewrite <- app_assoc. split; [done|]. by exists c, u.
  - intros x s. apply at_implies. by intros l t [Hj _].
Qed.

Lemma cp2_receive J F data snapshot st :
  V1Kept J -> implies J (asked F data) ->
  triple (at_cp2 J) (receive snapshot st)
    (fun reply => at_cp2 (fun l t => parse_v1_frame reply.1 = Ok (mkV1Frame st reply.2) /\
       along J (followed F (answered data (fun v => reply.1 ∈ heard v))) l t))
    (fun _ => at_cp2 J).
Proof.
  intros HJ Hq. unfold receive.
  eapply step_at with (J' := J)
    (R := fun raw => along J (followed F (answered data (fun v => raw ∈ heard v)))); [|done|].
  { eapply triple_except with (E' := fun _ => at_cp2 J);
      [by apply at_next_asked|intros x _; by apply at_raise|done]. }
  intros raw. set (J1 := along J (followed F (answered data (fun v => raw ∈ heard v)))).
  assert (implies J1 J) as HJ1 by by intros l t [Hj _].
  apply step_same; [apply at_same_link|implied|]. intros u.
  apply step_result; [implied|]. intros [s p] Hf. cbn [subtype payload].
  eapply step_at with (J' := J) (R := fun _ => J1); [|done|].
  { destruct (s =? V1_ERROR); [|by apply triple_ret].
    apply step_result; [implied|]. intros b _. apply at_raise. implied. }
  intros v. apply step_raise_when; [implied|]. intros Hs%negb_false_iff%Z.eqb_eq. subst s.
  apply triple_ret. intros s. apply at_implies. by intros l t Hj.
Qed.

Lemma cp2_attest J F snapshot :
  V1Kept J -> implies J (fun _ => F) ->
  triple (at_cp2 J) (attest snapshot)
    (fun info => at_cp2 (along J (followed F (answered sec_query (attested info))))) (fun _ => at_cp2 J).
Proof.
  intros HJ HF. unfold attest.
  apply step_same; [apply at_same_link|done|]. intros u.
  eapply step_at; [apply at_queue_empty|done|]. intros v.
  apply step_result; [by intros l t [Hj _]|]. intros q ->%encode_sec_query_Ok.
  eapply step_at; [apply (at_ask J F); [apply _|done|]|done|].
  { intros c l t Hj. left. by left. }
  intros w. eapply step_at; [apply (cp2_receive (fun l t => J l t /\ asked F sec_query l t) F sec_query); [apply _|by intros l t [_ ?]]| |].
  { by intros l t [Hj _]. }
  intros [raw p]. apply at_pure. intros _.
  apply step_result; [by intros l t [[Hj _] _]|]. intros info Hi.
  apply step_raise_when; [by intros l t [[Hj _] _]|].
  intros Hl%negb_false_iff. apply triple_ret. intros s. apply at_implies.
  intros l t [[Hj _] (p0 & Hp & u0 & -> & c & v0 & -> & Hr)]. split; [done|].
  exists p0. split; [done|]. eexists. split; [done|]. exists c, v0. split; [done|]. by exists raw.
Qed.

(** Where the body stands: the gate, and what else happened. *)
Abbreviation stage s e F := (along (held s e) (fun t => gate mode t /\ F t)).

#[local] Instance stage_lasting F : Lasting F -> Lasting (fun t => gate mode t /\ F t).
Proof. intros HF. apply _. Qed.

Lemma at_finish_cp2 snapshot started pk ct ss sid diagnostic :
  compute_diagnostic ss sid pk ct = Ok diagnostic ->
  triple (at_cp2 (stage ss diagnostic (fun t => attested_once t /\ delivered_to pk ct ss t)))
    (finish_cp2 snapshot started sid)
    (fun info => at_cp2 (along queued (cp2_done mode info))) (fun _ => at_cp2 anywhere).
Proof.
  intros Hdiag. unfold finish_cp2.
  set (J := stage ss diagnostic (fun t => attested_once t /\ delivered_to pk ct ss t)).
  assert (implies J anywhere) as HJx by apply any_implies.
  assert (V1Kept J) as HJ by apply _.
  eapply step_at; [apply (cp2_attest J (fun t => attested_once t /\ delivered_to pk ct ss t));
    [apply _|by intros l t [_ [_ Hd]]]|done|].
  intros info. set (J1 := along J (attested_again pk ct ss info)).
  assert (V1Kept J1) as HJ1 by (apply along_v1_kept; [apply _|apply lasting_followed, _]).
  assert (implies J1 J) as HJ1J by apply implies_along, implies_refl.
  apply step_same; [apply (at_do policy J1 Wait); [apply _|done]|implied|]. intros v.
  apply step_same; [apply at_same_link|implied|]. intros u.
  eapply step_at; [apply (at_queue_empty _ _ _ J1)|implied|]. intros w.
  apply step_result; [by apply any_implies|]. intros start [Hsid ->]%encode_v1_Ok.
  eapply step_at; [apply (at_ask J1 (attested_again pk ct ss info)); [apply _|by intros l t [_ Ha]|]|implied|].
  { intros c l t [[_ [Hg [Ha Hd]]] Hag]. right. split; [done|]. split; [done|].
    right. split; [done|]. by exists sid, pk, ct, ss, info. }
  intros x. set (J2 := fun l t => J1 l t /\ asked (attested_again pk ct ss info) (v1_wire V1_START sid) l t).
  assert (V1Kept J2) as HJ2 by apply _.
  apply step_update with (J' := J2); [by intros h t Hj|].
  eapply step_at; [apply (cp2_receive J2 (attested_again pk ct ss info) (v1_wire V1_START sid)); [apply _|by intros l t [_ ?]]|by apply any_implies|].
  intros [raw p]. apply at_pure. cbn [fst snd]. intros Hf.
  set (J3 := along J2 _). assert (V1Kept J3) as HJ3 by (apply along_v1_kept; [apply _|apply lasting_followed, _]).
  assert (implies J3 anywhere) as HJ3x by apply any_implies.
  assert (implies J3 queued) as HJ3q by by intros l t [[[[[_ Hq] _] _] _] _].
  apply step_update with (J' := J3); [by intros h t Hj|].
  eapply triple_bind with (R := fun l s => expected l = diagnostic /\ at_cp2 J3 s).
  { intros s [Hj Ho]. split; [|by split]. by destruct Hj as [[[[[[_ He] _] _] _] _] _]. }
  intros l. apply triple_pure. intros ->.
  apply step_raise_when; [implied|]. intros Heq%negb_false_iff%bool_decide_eq_true. cbn in Heq. subst p.
  apply step_same; [|implied|].
  { eapply triple_except with (E' := fun _ => at_cp2 J3).
    - eapply step_at; [apply at_next_notification; [apply _|implied]|implied|].
      intros b. apply triple_ret. intros s. apply at_implies. implied.
    - intros y _. by apply triple_ret.
    - done. }
  intros extra. apply step_raise_when; [implied|]. intros _.
  apply step_same; [apply at_same_link|implied|]. intros y.
  apply step_update with (J' := J3); [by intros h t Hj|].
  apply (step_ask _ _ _ _ Now). intros now.
  apply step_update with (J' := J3); [intros h t Hj; by apply v1_kept_set|].
  apply triple_ret. intros s. apply at_implies.
  apply parse_v1_Ok in Hf as [_ ->].
  intros l' t [[[[[_ Hq] [Hg _]] _] _] Hr]. split; [done|]. split; [done|].
  exists pk, ct, ss, sid, diagnostic. split; [done|]. exact Hr.
Qed.

Lemma at_cp2_body snapshot started :
  triple (at_cp2 (along (held [] []) (gate mode))) (cp2_body snapshot started)
    (fun info => at_cp2 (along queued (cp2_done mode info))) (fun _ => at_cp2 anywhere).
Proof.
  unfold cp2_body. set (J := along (held [] []) (gate mode)).
  assert (implies J anywhere) as HJx by apply any_implies.
  assert (implies J queued) as HJq by by intros l t [[_ Hq] _].
  assert (V1Kept J) as HJ by apply _.
  apply step_same; [apply at_same_link|done|]. intros u.
  eapply step_at; [apply (at_start_notify _ J); [apply _|done]|done|]. intros v.
  eapply at_weaken with (J' := J); [by intros l t [Hj _]|].
  eapply step_at; [apply (cp2_attest J (gate mode)); [apply _|by intros l t [_ Hg]]|done|]. intros info.
  eapply at_weaken with (J' := along J attested_once);
    [intros l t [Hj Ha%followed_attested]; split; [done|by exists info]|].
  eapply step_at; [apply at_read_public_key; [apply _|done]|implied|]. intros pk.
  set (J1 := along (along J attested_once) (read_key pk)).
  assert (V1Kept J1) as HJ1 by apply _. assert (implies J1 anywhere) as HJ1x by apply any_implies.
  apply step_same; [apply at_same_link|implied|]. intros w.
  apply step_raise_when; [implied|]. intros Hpk%negb_false_iff%Z.eqb_eq.
  apply step_update with (J' := J1); [intros h t Hj; by apply v1_kept_set|].
  apply (step_ask _ _ _ _ Coins). intros coins. apply step_result; [implied|]. intros [ct ss] Hct.
  set (J2 := along (held ss []) (fun t => gate mode t /\ attested_once t /\ read_key pk t)).
  assert (V1Kept J2) as HJ2 by apply _. assert (implies J2 anywhere) as HJ2x by apply any_implies.
  apply step_update with (J' := J2).
  { intros h t [[[[Hb Hq] Hg] Ha] Hr]. split; [by split|done]. }
  apply step_raise_when; [implied|]. intros _.
  apply step_same; [apply at_same_link|implied|]. intros x.
  eapply step_at; [apply (at_write_ciphertext _ J2 ct); [apply _|]|implied|].
  { intros f Hf c l t (_ & Hg & Ha & Hr). right. split; [done|]. split; [done|]. left.
    split; [done|]. by exists pk, coins, ct, ss. }
  intros n. set (sent := fun t => attested_once t /\ delivered_to pk ct ss t).
  eapply at_weaken with (J' := stage ss [] sent).
  { intros l t [(Hb & Hg & Ha & Hr) (mtu & frames & Hf & Hw)]. split; [done|]. split; [done|].
    split; [done|]. by exists coins, mtu, frames. }
  assert (implies (stage ss [] sent) anywhere) as Hsx by apply any_implies.
  apply step_update with (J' := stage ss [] sent); [intros h t Hj; by apply v1_kept_set|].
  apply (step_ask _ _ _ _ (Urandom V1_CP2_SESSION_ID_SIZE)). intros sid.
  apply step_result; [implied|]. intros diagnostic Hd.
  apply step_update with (J' := stage ss diagnostic sent).
  { intros h t [[Hb Hq] Hg]. by split. }
  by apply at_finish_cp2.
Qed.

(** Both buffers are zero. *)
Definition cleared (l : cp2_locals) (t : list observed) : Prop :=
  secret l = wipe (secret l) /\ expected l = wipe (expected l).

#[export] Instance cleared_kept : Kept cleared.
Proof. by split. Qed.

#[export] Instance cleared_done_kept m info : V1Kept (fun l t => cleared l t /\ along queued (cp2_done m info) l t).
Proof.
  split; [split|..].
  - intros x b d l t [Hb Hq]. split; [done|by apply kept_notified].
  - intros c l t [Hb Hq]. split; [done|by apply kept_disconnected].
  - intros a r l t [Hb Hq]. split; [done|by apply kept_did].
  - intros o l t Hl. exact Hl.
  - intros f l t Hf [Hb Hq]. split; [done|by apply v1_kept_set].
  - intros r l t [Hb Hq]. split; [done|by apply v1_kept_new].
Qed.

Lemma at_cp2_exchange :
  triple (at_cp2 (along (held [] []) (gate mode))) _cp2_exchange
    (fun info => at_cp2 (fun l t => cleared l t /\ along queued (cp2_done mode info) l t))
    (fun _ => at_cp2 cleared).
Proof.
  unfold _cp2_exchange. apply (step_ask _ _ _ _ Now). intros started.
  apply step_raw_client. intros snapshot.
  apply step_update with (J' := along (held [] []) (gate mode)).
  { intros h t [[Hb Hq] Hg]. by split. }
  eapply triple_finally; [apply at_cp2_body| |].
  - intros info. apply at_update. intros h t [Hq Hd]. split; [|by split].
    split; cbn; by rewrite wipe_wipe.
  - intros x. apply at_update. intros h t _. split; cbn; by rewrite wipe_wipe.
Qed.
End Cp2.

Section Theorems.
Context {W : Type} `{Env W, Kem}.

(** The buffers at the start. *)
Definition no_buffers (h : host cp2_locals) : Prop := secret (local h) = [] /\ expected (local h) = [].

#[export] Instance cp2_contract negative_test unpair_first :
  Contract no_buffers (run_v1_cp2 negative_test unpair_first)
    (fun l t => obeys (v1_policy negative_test unpair_first cp2_exchange) t /\ cleared l t)
    (fun res => cp2_done negative_test (security_info res)).
Proof.
  intros s Ht [Hsec Hexp]. unfold run_v1_cp2.
  set (start := fun (l : cp2_locals) (t : list observed) => secret l = [] /\ expected l = [] /\ t = []).
  assert (at_ (v1_policy negative_test unpair_first cp2_exchange) start s) as Hs.
  { split; [done|]. rewrite Ht. apply obeys_nil. }
  assert (implies start cleared) as Hc by (intros l t (Ha & Hb & _); unfold cleared; by rewrite Ha, Hb).
  assert (triple (at_ (v1_policy negative_test unpair_first cp2_exchange) start)
    (raise_when (negb (bool_decide (negative_test = None)))
       (ValueError "CP1 negative modes cannot be combined with CP2");;
     _run_v1 negative_test unpair_first false _cp2_exchange)
    (fun res => at_ (v1_policy negative_test unpair_first cp2_exchange)
       (fun l t => cleared l t /\ along queued (cp2_done negative_test (security_info res)) l t))
    (fun _ => at_ (v1_policy negative_test unpair_first cp2_exchange) cleared)) as Hrun.
  { apply step_raise_when; [done|]. intros _.
    eapply (at_run_v1 negative_test unpair_first cp2_exchange _cp2_exchange (held [] []) cleared
      (fun info l t => cleared l t /\ along queued (cp2_done negative_test info) l t)).
    - intros l t [[Ha Hb] _]. unfold cleared. by rewrite Ha, Hb.
    - apply at_cp2_exchange.
    - split; [done|]. intros l t (Ha & Hb & _). split; [done|]. by intros b Hq%elem_of_nil.
    - by intros info l t [Hj _]. }
  specialize (Hrun s Hs).
  match type of Hrun with context [let (_, _) := ?m s in _] => destruct (m s) as [[res|x] s'] end.
  - destruct Hrun as [[Hcl [_ Hd]] Ho]. split_and!; [done|done|]. by intros ? [= <-].
  - destruct Hrun as [Hcl Ho]. by split_and!.
Qed.

(** C13. CP2 against any peripheral: behind the gate of [_run_v1], the ciphertext
    leaves only after a strict attestation, and START only after the whole
    ciphertext and, after that, another strict attestation that answers a new
    SEC_QUERY. A run that returns reports this second attestation and sent START
    after it; and after START a READY came whose payload is the diagnostic of the
    encapsulated secret, the session id, the key it read and the ciphertext it
    delivered (what was heard before START does not count). However a run ends,
    the secret and the expected diagnostic are zeros. *)
Theorem v1_cp2_matches negative_test unpair_first (s : io W (host cp2_locals)) :
  trace s = [] -> secret (local (self s)) = [] -> expected (local (self s)) = [] ->
  let '(r, s') := run_v1_cp2 negative_test unpair_first s in
  obeys (v1_policy negative_test unpair_first cp2_exchange) (trace s') /\
  cleared (local (self s')) (trace s') /\
  forall res, r = Ok res -> cp2_done negative_test (security_info res) (trace s').
Proof.
  intros Ht Hsec Hexp. pose proof (contract (Contract := cp2_contract negative_test unpair_first) s Ht (conj Hsec Hexp)) as Hc. cbn beta in Hc.
  destruct (run_v1_cp2 negative_test unpair_first s) as [r s']. by destruct Hc as [[Ho Hc] Hd].
Qed.
End Theorems.

(** * A bonded peripheral of CP2

    It attests on every SEC_QUERY, and answers START with the diagnostic of the
    ciphertext it reassembles. *)
Module Bonded.
Section Peer.
Context `{Kem}.

Definition answer_start (written : list bytes) (sid : bytes) : list event :=
  let (pk, sk) := oqs_generate_keypair [x17] in
  match (ct ← reassemble_data written; ss ← oqs_decap_secret sk ct; compute_diagnostic ss sid pk ct) with
  | Ok d => [Notified (v1_wire V1_READY d) true]
  | Err _ => []
  end.

Definition on_control (written : list bytes) (d : bytes) : list event :=
  if bool_decide (d = sec_query) then [Notified sec_info_level4 true]
  else match parse_v1_frame d with
       | Ok f => answer_start written (payload f)
       | Err _ => []
       end.

#[export] Instance environment : Env (list bytes) := {
  ask q w := match q as q return answer q * list bytes with
             | IsConnected _ => (true, w)
             | MtuSize _ => (247, w)
             | Urandom n => (zeros n, w)
             | Coins => ([x2a], w)
             | TimerFired | GuardFailed => (false, w)
             | Now => (0, w)
             end;
  await a w :=
    match a as a return list event * result (value a) * list bytes with
    | ReadGatt _ _ => ([], Ok (oqs_generate_keypair [x17]).1, w)
    | WriteGatt _ u d => if bool_decide (u = CHAR_CIPHERTEXT_UUID) then ([], Ok tt, w ++ [d])
                         else (on_control w d, Ok tt, w)
    | Confirm _ => ([], Ok true, w)
    | InspectPairing => ([], Ok (Pairing.mkPairingState true false "ENCRYPTION"), w)
    | PairNumericComparison | PairJustWorks => ([], Err (OtherException None), w)
    | FindByName _ | FindByAddress _ => ([], Ok None, w)
    | StartNotify _ _ | Connect _ | Disconnect _ | StopNotify _ _ | Wait | Unpair => ([], Ok tt, w)
    end;
}.
End Peer.

Definition initial : io (list bytes) (host cp2_locals) :=
  mkIo []
    (mkHost (mkClient DEVICE_NAME (Some (mkLink 0 false)) None None None None None false) 1
       (mkCp2Locals (mkV1Run [] (V1CP1Result_init "") false false) false false false [] [])) [].

Definition outcome := @run_v1_cp2 (list bytes) (@environment Toy.kem) Toy.kem None false initial.
End Bonded.

Lemma v1_cp2_matches_witness :
  exists res, Bonded.outcome.1 = Ok res /\ diagnostic_match (local (self Bonded.outcome.2)) = true /\
    @cp2_done Toy.kem None (security_info res) (trace Bonded.outcome.2).
Proof.
  assert (match Bonded.outcome.1 with
          | Ok res => diagnostic_match (local (self Bonded.outcome.2)) = true
          | Err _ => False
          end) as Hok by (vm_compute; reflexivity).
  pose proof (@v1_cp2_matches (list bytes) (@Bonded.environment Toy.kem) Toy.kem None false
                Bonded.initial eq_refl eq_refl eq_refl) as Hs.
  assert (Bonded.outcome = @run_v1_cp2 (list bytes) (@Bonded.environment Toy.kem) Toy.kem None false
                Bonded.initial) as He by reflexivity.
  rewrite <- He in Hs. clear He.
  generalize dependent Bonded.outcome. intros [[res|x] s'] Hok Hs; [|destruct Hok].
  exists res. destruct Hs as (_ & _ & Hres). exact (conj eq_refl (conj Hok (Hres res eq_refl))).
Defined.
