(* ===== verification/V1Cp3.v ===== *)
(** src/src/common/v1_cp3.py: the transcript of v1.0 CP3, its HKDF key schedule
    and the Central handshake object, which turns the ML-KEM secret and the
    Level 4 attestation into two application keys once FINISHED_P verifies.

    A [bytearray] of the object is a field of its state; the temporary [tag] and
    [expected] buffers die with their call, so their wiping is not visible. *)

From S2P Require Import Prelude Py Digest Interfaces Constants Frame V1Smp.
Open Scope Z_scope.

Definition CP3_TRANSCRIPT_LABEL : bytes := lit "PQ-BLE-HANDSHAKE-v1.0/CP3-TRANSCRIPT".
Definition FINISHED_C_LABEL : bytes := lit "PQ-BLE-HANDSHAKE-v1.0/FINISHED-C".
Definition FINISHED_P_LABEL : bytes := lit "PQ-BLE-HANDSHAKE-v1.0/FINISHED-P".
Definition VERIFY_C_LABEL : bytes := lit "PQ-BLE-HANDSHAKE-v1.0/VERIFY-C".
Definition VERIFY_P_LABEL : bytes := lit "PQ-BLE-HANDSHAKE-v1.0/VERIFY-P".
Definition APP_C2P_LABEL : bytes := lit "PQ-BLE-HANDSHAKE-v1.0/APP-C2P".
Definition APP_P2C_LABEL : bytes := lit "PQ-BLE-HANDSHAKE-v1.0/APP-P2C".

(** * Transcript and key schedule *)

Definition build_transcript (sec_info pk ct start : bytes) : result bytes :=
  info ← parse_sec_info sec_info;
  e ← encode_sec_info info;
  raise_if (negb (bool_decide (e = sec_info))) (ValueError "noncanonical SEC_INFO");;
  raise_if (negb (blen pk =? PK_SIZE) || negb (blen ct =? CT_SIZE))
    (ValueError "invalid ML-KEM transcript input size");;
  f ← parse_v1_frame start;
  raise_if (negb (subtype f =? V1_START_CP3)) (ValueError "expected START_CP3");;
  mret (CP3_TRANSCRIPT_LABEL ++ sec_info ++ pk ++ ct ++ start).

Definition transcript_hash (sec_info pk ct start : bytes) : result bytes :=
  t ← build_transcript sec_info pk ct start;
  mret (sha256 t).

Definition extract (th0 ss_mlkem : bytes) : result bytes :=
  raise_if (negb (blen th0 =? 32) || negb (blen ss_mlkem =? 32))
    (ValueError "HKDF-Extract requires 32-byte TH0 and SS_MLKEM");;
  mret (hmac_sha256 th0 ss_mlkem).

Definition expand (prk label th : bytes) : result bytes :=
  raise_if (negb (blen prk =? 32) || negb (blen th =? 32))
    (ValueError "HKDF-Expand requires 32-byte PRK and transcript hash");;
  mret (hmac_sha256 prk (label ++ th ++ [x01])).

Definition verify_data (key label th : bytes) : result bytes :=
  raise_if (negb (blen key =? 32) || negb (blen th =? 32)) (ValueError "invalid FINISHED input size");;
  mret (hmac_sha256 key (label ++ th)).

(** The frame is parsed only when the hash has its size: [or] is lazy. *)
Definition chain (th frame : bytes) : result bytes :=
  bad ← (if negb (blen th =? 32) then mret true
         else f ← parse_v1_frame frame;
              mret (negb ((subtype f =? V1_FINISHED_C) || (subtype f =? V1_FINISHED_P))));
  raise_if bad (ValueError "invalid transcript chaining input");;
  mret (sha256 (th ++ frame)).

(** * The Central handshake object *)

Inductive handshake_state := NEW | WAIT_READY_CP3 | WAIT_FINISHED_P | APP_SECURE | CLOSED.

#[global] Instance handshake_state_eq_dec : EqDecision handshake_state.
Proof. solve_decision. Defined.

Record CentralHandshake := mkCentralHandshake {
  state : handshake_state;
  th : bytes;
  prk : bytes;
  finished_c : bytes;
  finished_p : bytes;
  app_c2p : bytes;
  app_p2c : bytes;
  session_id : bytes;
}.

Definition CentralHandshake_init : CentralHandshake :=
  mkCentralHandshake NEW [] [] [] [] [] [] [].

Definition set_state (v : handshake_state) (h : CentralHandshake) : CentralHandshake :=
  mkCentralHandshake v (th h) (prk h) (finished_c h) (finished_p h) (app_c2p h) (app_p2c h) (session_id h).
Definition set_th (v : bytes) (h : CentralHandshake) : CentralHandshake :=
  mkCentralHandshake (state h) v (prk h) (finished_c h) (finished_p h) (app_c2p h) (app_p2c h) (session_id h).
Definition set_prk (v : bytes) (h : CentralHandshake) : CentralHandshake :=
  mkCentralHandshake (state h) (th h) v (finished_c h) (finished_p h) (app_c2p h) (app_p2c h) (session_id h).
Definition set_finished_c (v : bytes) (h : CentralHandshake) : CentralHandshake :=
  mkCentralHandshake (state h) (th h) (prk h) v (finished_p h) (app_c2p h) (app_p2c h) (session_id h).
Definition set_finished_p (v : bytes) (h : CentralHandshake) : CentralHandshake :=
  mkCentralHandshake (state h) (th h) (prk h) (finished_c h) v (app_c2p h) (app_p2c h) (session_id h).
Definition set_app_c2p (v : bytes) (h : CentralHandshake) : CentralHandshake :=
  mkCentralHandshake (state h) (th h) (prk h) (finished_c h) (finished_p h) v (app_p2c h) (session_id h).
Definition set_app_p2c (v : bytes) (h : CentralHandshake) : CentralHandshake :=
  mkCentralHandshake (state h) (th h) (prk h) (finished_c h) (finished_p h) (app_c2p h) v (session_id h).
Definition set_session_id (v : bytes) (h : CentralHandshake) : CentralHandshake :=
  mkCentralHandshake (state h) (th h) (prk h) (finished_c h) (finished_p h) (app_c2p h) (app_p2c h) v.

Definition clear_handshake (h : CentralHandshake) : CentralHandshake :=
  mkCentralHandshake (state h) (wipe (th h)) (wipe (prk h)) (wipe (finished_c h)) (wipe (finished_p h))
    (app_c2p h) (app_p2c h) (session_id h).

Definition clear (h : CentralHandshake) : CentralHandshake :=
  let h := clear_handshake h in
  let h := set_app_c2p (wipe (app_c2p h)) h in
  let h := set_app_p2c (wipe (app_p2c h)) h in
  let h := set_session_id [] h in
  set_state CLOSED h.

Definition begin (ss_mlkem sec_info pk ct start : bytes) : method CentralHandshake unit :=
  cleanup_on_error clear (
    self ← get_self;
    (* [or] is lazy: the attestation is parsed only in the state NEW *)
    (if negb (bool_decide (state self = NEW)) then
       raise (ValueError "CP3 requires a new transaction on strict L4")
     else
       info ← run (parse_sec_info sec_info);
       raise_when (negb (is_authenticated_level4 info))
         (ValueError "CP3 requires a new transaction on strict L4"));;
    h ← run (transcript_hash sec_info pk ct start);
    update (set_th h);;
    f ← run (parse_v1_frame start);
    update (set_session_id (payload f));;
    self ← get_self;
    v ← run (extract (th self) ss_mlkem);
    update (set_prk v);;
    self ← get_self;
    v ← run (expand (prk self) FINISHED_C_LABEL (th self));
    update (set_finished_c v);;
    self ← get_self;
    v ← run (expand (prk self) FINISHED_P_LABEL (th self));
    update (set_finished_p v);;
    update (set_state WAIT_READY_CP3)).

Definition accept_ready (raw : bytes) : method CentralHandshake bytes :=
  cleanup_on_error clear (
    frame ← run (parse_v1_frame raw);
    self ← get_self;
    raise_when (negb (bool_decide (state self = WAIT_READY_CP3)) || negb (subtype frame =? V1_READY_CP3)
                || negb (compare_digest (th self) (payload frame)))
      (ValueError "READY_CP3 transcript mismatch or invalid state");;
    tag ← run (verify_data (finished_c self) VERIFY_C_LABEL (th self));
    finished ← run (encode_v1_frame V1_FINISHED_C tag);
    next_hash ← run (chain (th self) finished);
    update (set_th next_hash);;
    update (set_state WAIT_FINISHED_P);;
    mret finished).

Definition accept_finished_p (raw : bytes) : method CentralHandshake unit :=
  cleanup_on_error clear (
    frame ← run (parse_v1_frame raw);
    self ← get_self;
    raise_when (negb (bool_decide (state self = WAIT_FINISHED_P)) || negb (subtype frame =? V1_FINISHED_P))
      (ValueError "unexpected FINISHED direction/state");;
    expected ← run (verify_data (finished_p self) VERIFY_P_LABEL (th self));
    raise_when (negb (compare_digest expected (payload frame))) (ValueError "FINISHED_P verification failed");;
    th2 ← run (chain (th self) raw);
    update (set_th th2);;
    self ← get_self;
    v ← run (expand (prk self) APP_C2P_LABEL (th self));
    update (set_app_c2p v);;
    self ← get_self;
    v ← run (expand (prk self) APP_P2C_LABEL (th self));
    update (set_app_p2c v);;
    update clear_handshake;;
    update (set_state APP_SECURE)).

(** * The reference key schedule

    What both sides compute from the shared secret, the ML-KEM public values and
    the session id, on a strict Level 4 link. *)

Section Reference.
Variables (ss pk ct sid : bytes).

Definition start_cp3 : bytes := v1_wire V1_START_CP3 sid.
Definition ref_th0 : bytes := sha256 (CP3_TRANSCRIPT_LABEL ++ sec_info_level4 ++ pk ++ ct ++ start_cp3).
Definition ref_prk : bytes := hmac_sha256 ref_th0 ss.
Definition ref_fc : bytes := hmac_sha256 ref_prk (FINISHED_C_LABEL ++ ref_th0 ++ [x01]).
Definition ref_fp : bytes := hmac_sha256 ref_prk (FINISHED_P_LABEL ++ ref_th0 ++ [x01]).
Definition ready_cp3 : bytes := v1_wire V1_READY_CP3 ref_th0.
Definition finished_c_frame : bytes :=
  v1_wire V1_FINISHED_C (hmac_sha256 ref_fc (VERIFY_C_LABEL ++ ref_th0)).
Definition ref_th1 : bytes := sha256 (ref_th0 ++ finished_c_frame).
Definition finished_p_frame : bytes :=
  v1_wire V1_FINISHED_P (hmac_sha256 ref_fp (VERIFY_P_LABEL ++ ref_th1)).
Definition ref_th2 : bytes := sha256 (ref_th1 ++ finished_p_frame).
Definition ref_app_c2p : bytes := hmac_sha256 ref_prk (APP_C2P_LABEL ++ ref_th2 ++ [x01]).
Definition ref_app_p2c : bytes := hmac_sha256 ref_prk (APP_P2C_LABEL ++ ref_th2 ++ [x01]).

Definition cp3_inputs : Prop :=
  blen ss = 32 /\ blen pk = 1184 /\ blen ct = 1088 /\ blen sid = 16.

(** The object in the three states of a run. *)
Definition cp3_wait_ready : CentralHandshake :=
  mkCentralHandshake WAIT_READY_CP3 ref_th0 ref_prk ref_fc ref_fp [] [] sid.
Definition cp3_wait_finished : CentralHandshake :=
  mkCentralHandshake WAIT_FINISHED_P ref_th1 ref_prk ref_fc ref_fp [] [] sid.
Definition cp3_secure : CentralHandshake :=
  mkCentralHandshake APP_SECURE (zeros 32) (zeros 32) (zeros 32) (zeros 32) ref_app_c2p ref_app_p2c sid.
End Reference.

Arguments sec_info_level4 : simpl never.
Arguments ready_cp3 : simpl never.
Arguments start_cp3 : simpl never.
Arguments ref_th0 : simpl never.
Arguments ref_th1 : simpl never.
Arguments ref_prk : simpl never.
Arguments ref_fc : simpl never.
Arguments ref_fp : simpl never.
Arguments finished_c_frame : simpl never.
Arguments finished_p_frame : simpl never.

(** Everything is overwritten and the state is terminal. *)
Definition closed (h : CentralHandshake) : Prop := h = clear h.

Lemma wipe_32 l : blen l = 32 -> wipe l = zeros 32.
Proof. unfold wipe. by intros ->. Qed.

Lemma clear_eq h :
  clear h = mkCentralHandshake CLOSED (wipe (th h)) (wipe (prk h)) (wipe (finished_c h))
              (wipe (finished_p h)) (wipe (app_c2p h)) (wipe (app_p2c h)) [].
Proof. destruct h. reflexivity. Qed.

Lemma closed_clear h : closed (clear h).
Proof.
  unfold closed. rewrite !clear_eq. cbn [th prk finished_c finished_p app_c2p app_p2c].
  by rewrite !wipe_wipe.
Qed.

Lemma cleanup_closed {A} (m : method CentralHandshake A) h e h' :
  cleanup_on_error clear m h = (Err e, h') -> closed h'.
Proof.
  unfold cleanup_on_error. destruct (m h) as [[a|x] s]; [done|].
  intros [= <- <-]. apply closed_clear.
Qed.

(** The payloads of the CP3 messages. *)
Lemma start_cp3_payload s : blen s = 16 <-> v1_payload V1_START_CP3 s.
Proof.
  unfold v1_payload, _validate_payload. cbn. rewrite raise_if_Ok. unfold V1_CP3_SESSION_ID_SIZE.
  destruct (Z.eqb_spec (blen s) 16); cbn; intuition congruence.
Qed.

Lemma hash_payload s v :
  s = V1_READY_CP3 \/ s = V1_FINISHED_C \/ s = V1_FINISHED_P -> blen v = 32 -> v1_payload s v.
Proof. intros [->|[->| ->]] Hv; unfold v1_payload, _validate_payload; cbn; by rewrite Hv. Qed.

Lemma parse_start_cp3 s :
  blen s = 16 -> parse_v1_frame (start_cp3 s) = Ok (mkV1Frame V1_START_CP3 s).
Proof. intros Hs%start_cp3_payload. by apply parse_v1_wire. Qed.

Lemma build_transcript_Ok sec pk ct start t :
  build_transcript sec pk ct start = Ok t <->
  (exists info, parse_sec_info sec = Ok info /\ encode_sec_info info = Ok sec) /\
  blen pk = 1184 /\ blen ct = 1088 /\
  (exists sid, blen sid = 16 /\ start = start_cp3 sid) /\
  t = CP3_TRANSCRIPT_LABEL ++ sec ++ pk ++ ct ++ start.
Proof.
  unfold build_transcript, PK_SIZE, CT_SIZE. split.
  - intros Ht. ok_inv. apply negb_false_iff, bool_decide_eq_true in Hok1.
    apply parse_v1_Ok in Hok3 as [Hp Hs]. apply negb_false_iff, Z.eqb_eq in Hok4. rewrite Hok4 in *.
    subst a0. split_and!; [eauto|lia|lia| |done].
    exists (payload a3). split; [by apply start_cp3_payload|exact Hs].
  - intros ((info & Hi & He) & Hpk & Hct & (sid & Hs & ->) & ->).
    rewrite Hi. cbn [mbind result_bind]. rewrite He. cbn [mbind result_bind].
    rewrite bool_decide_eq_true_2 by done. cbn [negb raise_if mbind result_bind].
    pass; [lia|]. by rewrite parse_start_cp3.
Qed.

Lemma transcript_hash_Ok sec pk ct start h :
  transcript_hash sec pk ct start = Ok h <->
  exists t, build_transcript sec pk ct start = Ok t /\ h = sha256 t.
Proof.
  unfold transcript_hash. rewrite bind_Ok. split.
  - intros (t & Ht & Hh). exists t. injection Hh as <-. done.
  - intros (t & Ht & ->). by exists t.
Qed.

Lemma expand_Ok k l t : blen k = 32 -> blen t = 32 -> expand k l t = Ok (hmac_sha256 k (l ++ t ++ [x01])).
Proof. intros Hk Ht. unfold expand. by rewrite Hk, Ht. Qed.

Lemma extract_Ok t ss : blen t = 32 -> blen ss = 32 -> extract t ss = Ok (hmac_sha256 t ss).
Proof. intros Hk Ht. unfold extract. by rewrite Hk, Ht. Qed.

Lemma verify_data_Ok k l t : blen k = 32 -> blen t = 32 -> verify_data k l t = Ok (hmac_sha256 k (l ++ t)).
Proof. intros Hk Ht. unfold verify_data. by rewrite Hk, Ht. Qed.

Lemma chain_Ok t s p :
  blen t = 32 -> blen p = 32 -> s = V1_FINISHED_C \/ s = V1_FINISHED_P ->
  chain t (v1_wire s p) = Ok (sha256 (t ++ v1_wire s p)).
Proof.
  intros Ht Hp Hs. unfold chain. rewrite Ht. cbn [Z.eqb Pos.eqb negb].
  rewrite parse_v1_wire by (apply hash_payload; tauto). by destruct Hs as [->| ->].
Qed.

(** * Exact steps *)

Section Steps.
Variables (ss pk ct sid : bytes).
Hypothesis Hin : cp3_inputs ss pk ct sid.

Lemma blen_ref_th0 : blen (ref_th0 pk ct sid) = 32.
Proof using. apply blen_sha256. Qed.
Lemma blen_ref_prk : blen (ref_prk ss pk ct sid) = 32.
Proof using. apply blen_hmac_sha256. Qed.
Lemma blen_ref_fc : blen (ref_fc ss pk ct sid) = 32.
Proof using. apply blen_hmac_sha256. Qed.
Lemma blen_ref_fp : blen (ref_fp ss pk ct sid) = 32.
Proof using. apply blen_hmac_sha256. Qed.
Lemma blen_ref_th1 : blen (ref_th1 ss pk ct sid) = 32.
Proof using. apply blen_sha256. Qed.
Lemma blen_ref_th2 : blen (ref_th2 ss pk ct sid) = 32.
Proof using. apply blen_sha256. Qed.

Lemma begin_init :
  begin ss sec_info_level4 pk ct (start_cp3 sid) CentralHandshake_init =
  (Ok tt, cp3_wait_ready ss pk ct sid).
Proof using Hin.
  destruct Hin as (Hss & Hpk & Hct & Hsid).
  assert (parse_sec_info sec_info_level4 = Ok (mkV1SecurityInfo 4 true true true 16 16)) as Hi
    by (by apply level4_canonical).
  assert (transcript_hash sec_info_level4 pk ct (start_cp3 sid) = Ok (ref_th0 pk ct sid)) as Ht.
  { apply transcript_hash_Ok. eexists. split; [|done]. apply build_transcript_Ok.
    split_and!; [|done|done|by exists sid|done].
    eexists. split; [exact Hi|]. by apply (level4_canonical _ _). }
  unfold begin. meth. cbn [state CentralHandshake_init]. rewrite bool_decide_eq_true_2 by done.
  cbn [negb]. rewrite Hi. cbn [raise_if is_authenticated_level4 negb].
  rewrite Ht, parse_start_cp3 by done. cbn [set_th set_session_id th prk payload].
  rewrite (extract_Ok (ref_th0 pk ct sid) ss) by (done || apply blen_ref_th0).
  fold (ref_prk ss pk ct sid). cbn [set_prk set_finished_c th prk].
  rewrite !expand_Ok by (apply blen_ref_th0 || apply blen_ref_prk). done.
Qed.

Lemma accept_ready_eq raw :
  accept_ready raw (cp3_wait_ready ss pk ct sid) =
  if bool_decide (raw = ready_cp3 pk ct sid)
  then (Ok (finished_c_frame ss pk ct sid), cp3_wait_finished ss pk ct sid)
  else ((accept_ready raw (cp3_wait_ready ss pk ct sid)).1, clear (cp3_wait_ready ss pk ct sid)).
Proof using.
  destruct (bool_decide_reflect (raw = ready_cp3 pk ct sid)) as [->|Hr].
  - unfold accept_ready, ready_cp3. meth.
    rewrite parse_v1_wire by (apply hash_payload; [by left|apply blen_ref_th0]).
    cbn [state subtype payload cp3_wait_ready th finished_c]. unfold compare_digest.
    rewrite !bool_decide_eq_true_2 by done. cbn [negb orb raise_if Z.eqb Pos.eqb].
    rewrite verify_data_Ok by (apply blen_ref_th0 || apply blen_ref_fc).
    rewrite (proj2 (encode_v1_Ok V1_FINISHED_C _ _))
      by (split; [apply hash_payload; [tauto|apply blen_hmac_sha256]|reflexivity]).
    rewrite chain_Ok by (apply blen_ref_th0 || apply blen_hmac_sha256 || tauto). done.
  - unfold accept_ready. meth. destruct (parse_v1_frame raw) as [f|x] eqn:Hf; [|done].
    cbn [state cp3_wait_ready th]. rewrite (bool_decide_eq_true_2 (_ = _)) by done. cbn [negb orb].
    apply parse_v1_Ok in Hf as [_ Hf].
    destruct (Z.eqb_spec (subtype f) V1_READY_CP3) as [Hs|]; cbn [negb orb raise_if]; [|done].
    unfold compare_digest. rewrite bool_decide_eq_false_2; [done|].
    intros Heq. apply Hr. rewrite Hf, Hs, <- Heq. done.
Qed.

Lemma accept_finished_p_eq raw :
  accept_finished_p raw (cp3_wait_finished ss pk ct sid) =
  if bool_decide (raw = finished_p_frame ss pk ct sid)
  then (Ok tt, cp3_secure ss pk ct sid)
  else ((accept_finished_p raw (cp3_wait_finished ss pk ct sid)).1, clear (cp3_wait_finished ss pk ct sid)).
Proof using.
  set (tag := hmac_sha256 (ref_fp ss pk ct sid) (VERIFY_P_LABEL ++ ref_th1 ss pk ct sid)).
  assert (blen tag = 32) as Htag by apply blen_hmac_sha256.
  destruct (bool_decide_reflect (raw = finished_p_frame ss pk ct sid)) as [->|Hr].
  - unfold accept_finished_p, finished_p_frame, cp3_wait_finished, cp3_secure. fold tag. meth.
    rewrite parse_v1_wire by (apply hash_payload; tauto).
    cbn [state subtype payload th finished_p].
    rewrite !bool_decide_eq_true_2 by done. cbn [negb orb raise_if Z.eqb Pos.eqb].
    rewrite verify_data_Ok by (apply blen_ref_fp || apply blen_ref_th1). fold tag.
    unfold compare_digest. rewrite bool_decide_eq_true_2 by done. cbn [negb raise_if].
    rewrite chain_Ok by (apply blen_ref_th1 || tauto).
    change (sha256 (ref_th1 ss pk ct sid ++ v1_wire V1_FINISHED_P tag)) with (ref_th2 ss pk ct sid).
    unfold set_th. cbn [state th prk finished_c finished_p app_c2p app_p2c session_id].
    rewrite !expand_Ok by (apply blen_ref_th2 || apply blen_ref_prk).
    unfold set_app_c2p. cbn [state th prk finished_c finished_p app_c2p app_p2c session_id].
    unfold set_app_p2c. cbn [state th prk finished_c finished_p app_c2p app_p2c session_id].
    unfold clear_handshake. cbn [state th prk finished_c finished_p app_c2p app_p2c session_id].
    rewrite !wipe_32 by (apply blen_ref_th2 || apply blen_ref_prk || apply blen_ref_fc || apply blen_ref_fp).
    reflexivity.
  - unfold accept_finished_p. meth. destruct (parse_v1_frame raw) as [f|x] eqn:Hf; [|done].
    cbn [state cp3_wait_finished th finished_p].
    rewrite (bool_decide_eq_true_2 (_ = _)) by done. cbn [negb orb].
    apply parse_v1_Ok in Hf as [_ Hf].
    destruct (Z.eqb_spec (subtype f) V1_FINISHED_P) as [Hs|]; cbn [negb orb raise_if]; [|done].
    rewrite verify_data_Ok by (apply blen_ref_fp || apply blen_ref_th1). fold tag.
    unfold compare_digest. rewrite bool_decide_eq_false_2; [done|].
    intros Heq. apply Hr. by rewrite Hf, Hs, <- Heq.
Qed.
End Steps.

Lemma begin_Ok_inv ss sec pk ct start h u h' :
  begin ss sec pk ct start h = (Ok u, h') ->
  state h = NEW /\
  exists sid, cp3_inputs ss pk ct sid /\ sec = sec_info_level4 /\ start = start_cp3 sid.
Proof.
  unfold begin. meth. destruct (bool_decide_reflect (state h = NEW)) as [Hs|]; [|done]. cbn [negb].
  destruct (parse_sec_info sec) as [info|] eqn:Hi; [|done].
  destruct (is_authenticated_level4 info) eqn:Hl4; [|done]. cbn [negb raise_if].
  destruct (transcript_hash sec pk ct start) as [t|] eqn:Ht; [|done].
  apply transcript_hash_Ok in Ht as (? & ((info' & Hi' & He) & Hpk & Hct & (sid & Hsid & ->) & ->)%build_transcript_Ok & ->).
  rewrite Hi in Hi'. injection Hi' as <-.
  rewrite parse_start_cp3 by done.
  change (th (set_session_id ?x (set_th ?y h))) with y.
  unfold extract at 1. destruct (_ || _) eqn:Hss; [done|]. intros _. split; [done|].
  exists sid. split_and!; [|by apply (level4_canonical sec info)|done].
  split_and!; [|done..]. rewrite blen_sha256 in Hss. lia.
Qed.

(** In any other state the two receivers refuse and close. *)
Lemma accept_ready_Ok_inv raw h w h' :
  accept_ready raw h = (Ok w, h') -> state h = WAIT_READY_CP3.
Proof.
  unfold accept_ready. meth. destruct (parse_v1_frame raw); [|done].
  by destruct (bool_decide_reflect (state h = WAIT_READY_CP3)).
Qed.

Lemma accept_finished_p_Ok_inv raw h u h' :
  accept_finished_p raw h = (Ok u, h') -> state h = WAIT_FINISHED_P.
Proof.
  unfold accept_finished_p. meth. destruct (parse_v1_frame raw); [|done].
  by destruct (bool_decide_reflect (state h = WAIT_FINISHED_P)).
Qed.

(** * Every sequence of calls *)

Inductive cp3_event :=
  | EvBegin (ss_mlkem sec_info pk ct start : bytes)
  | EvReady (raw : bytes)
  | EvFinishedP (raw : bytes)
  | EvClear.

(** What the call returns for sending, or its exception. *)
Definition cp3_apply (e : cp3_event) : method CentralHandshake (list bytes) :=
  match e with
  | EvBegin ss sec pk ct start => begin ss sec pk ct start;; mret []
  | EvReady raw => w ← accept_ready raw; mret [w]
  | EvFinishedP raw => accept_finished_p raw;; mret []
  | EvClear => update clear;; mret []
  end.

(** The final object, the accepted events and the frames sent. *)
Fixpoint cp3_run (es : list cp3_event) (h : CentralHandshake) : CentralHandshake * list cp3_event * list bytes :=
  match es with
  | [] => (h, [], [])
  | e :: r =>
      let '(out, h') := cp3_apply e h in
      let '(hf, accepted, sent) := cp3_run r h' in
      match out with
      | Ok ws => (hf, e :: accepted, ws ++ sent)
      | Err _ => (hf, accepted, sent)
      end
  end.

Section History.
Variables (ss pk ct sid : bytes).
Definition ev_begin : cp3_event := EvBegin ss sec_info_level4 pk ct (start_cp3 sid).
Definition ev_ready : cp3_event := EvReady (ready_cp3 pk ct sid).
Definition ev_finished : cp3_event := EvFinishedP (finished_p_frame ss pk ct sid).
End History.

(** The object after the accepted events [l] that sent [sent]. *)
Inductive cp3_history : CentralHandshake -> list cp3_event -> list bytes -> Prop :=
  | h_new : cp3_history CentralHandshake_init [] []
  | h_ready ss pk ct sid : cp3_inputs ss pk ct sid ->
      cp3_history (cp3_wait_ready ss pk ct sid) [ev_begin ss pk ct sid] []
  | h_finished ss pk ct sid : cp3_inputs ss pk ct sid ->
      cp3_history (cp3_wait_finished ss pk ct sid) [ev_begin ss pk ct sid; ev_ready pk ct sid]
        [finished_c_frame ss pk ct sid]
  | h_secure ss pk ct sid : cp3_inputs ss pk ct sid ->
      cp3_history (cp3_secure ss pk ct sid)
        [ev_begin ss pk ct sid; ev_ready pk ct sid; ev_finished ss pk ct sid]
        [finished_c_frame ss pk ct sid]
  | h_closed h l sent : closed h -> cp3_history h l sent.

Lemma closed_state h : closed h -> state h = CLOSED.
Proof. unfold closed. intros ->. by rewrite clear_eq. Qed.

Lemma bind_mret_inv {S A B} (m : method S A) (g : A -> B) s r s' :
  (x ← m; mret (g x)) s = (Ok r, s') -> exists a, m s = (Ok a, s') /\ r = g a.
Proof. meth. destruct (m s) as [[a|e] t]; [|done]. intros [= <- <-]. eauto. Qed.

Lemma bind_mret_err {S A B} (m : method S A) (g : A -> B) s e s' :
  (x ← m; mret (g x)) s = (Err e, s') -> m s = (Err e, s').
Proof. meth. destruct (m s) as [[a|x] t]; [done|]. by intros [= -> ->]. Qed.

Lemma cp3_apply_err e h x h' : cp3_apply e h = (Err x, h') -> closed h'.
Proof.
  destruct e; cbn [cp3_apply]; [| | |done].
  - intros H%(bind_mret_err _ (fun _ => [])). by apply cleanup_closed in H.
  - intros H%bind_mret_err. by apply cleanup_closed in H.
  - intros H%(bind_mret_err _ (fun _ => [])). by apply cleanup_closed in H.
Qed.

Lemma cp3_apply_ok e h l sent ws h' :
  cp3_history h l sent -> cp3_apply e h = (Ok ws, h') -> cp3_history h' (l ++ [e]) (sent ++ ws).
Proof.
  intros Hh. destruct e as [ss sec pk ct start|raw|raw|]; cbn [cp3_apply].
  - intros (u & Hb & ->)%(bind_mret_inv _ (fun _ => [])).
    pose proof Hb as (Hs & sid & Hin & -> & ->)%begin_Ok_inv.
    destruct Hh as [| | | |? ? ? Hc%closed_state]; try done; [|by rewrite Hc in Hs].
    rewrite begin_init in Hb by done. injection Hb as <- <-. by constructor.
  - intros (w & Hb & ->)%bind_mret_inv. pose proof Hb as Hs%accept_ready_Ok_inv.
    destruct Hh as [|ss pk ct sid Hin| | |? ? ? Hc%closed_state]; try done; [|by rewrite Hc in Hs].
    rewrite accept_ready_eq in Hb. destruct (bool_decide_reflect (raw = ready_cp3 pk ct sid)) as [->|].
    + injection Hb as <- <-. by constructor.
    + injection Hb as _ <-. apply h_closed, closed_clear.
  - intros (u & Hb & ->)%(bind_mret_inv _ (fun _ => [])). pose proof Hb as Hs%accept_finished_p_Ok_inv.
    destruct Hh as [| |ss pk ct sid Hin| |? ? ? Hc%closed_state]; try done; [|by rewrite Hc in Hs].
    rewrite accept_finished_p_eq in Hb.
    destruct (bool_decide_reflect (raw = finished_p_frame ss pk ct sid)) as [->|].
    + injection Hb as <- <-. by constructor.
    + injection Hb as _ <-. apply h_closed, closed_clear.
  - intros (u & [= _ <-] & ->)%(bind_mret_inv _ (fun _ => [])). apply h_closed, closed_clear.
Qed.

Lemma cp3_run_history es h l sent hf accepted out :
  cp3_history h l sent -> cp3_run es h = (hf, accepted, out) -> cp3_history hf (l ++ accepted) (sent ++ out).
Proof.
  revert h l sent accepted out. induction es as [|e es IH]; intros h l sent accepted out Hh; cbn [cp3_run].
  { intros [= <- <- <-]. by rewrite !app_nil_r. }
  destruct (cp3_apply e h) as [[ws|x] h'] eqn:He; destruct (cp3_run es h') as [[hr acc] o] eqn:Hr;
    intros [= <- <- <-].
  - rewrite cons_middle, !app_assoc. eapply IH; [|done]. by eapply cp3_apply_ok.
  - eapply IH; [|done]. apply h_closed. by eapply cp3_apply_err.
Qed.

(** C16. CP3 authentication by trace: whatever frames and calls reach a fresh
    handshake object, in any order, it is APP_SECURE only after it accepted
    exactly three events: [begin] on the one canonical strict Level 4
    attestation, the READY_CP3 carrying this transcript's hash, and the
    FINISHED_P tag computed from the ML-KEM secret over the chained transcript.
    It then sent exactly its FINISHED_C, holds the two derived application keys,
    and every handshake secret is zero. In every other state no application key
    exists: the fields are empty or the object is wiped and closed. *)
Theorem cp3_secure_trace es h accepted sent :
  cp3_run es CentralHandshake_init = (h, accepted, sent) ->
  (state h = APP_SECURE -> exists ss pk ct sid, cp3_inputs ss pk ct sid /\
     h = cp3_secure ss pk ct sid /\ sent = [finished_c_frame ss pk ct sid] /\
     accepted = [EvBegin ss sec_info_level4 pk ct (start_cp3 sid); EvReady (ready_cp3 pk ct sid);
                 EvFinishedP (finished_p_frame ss pk ct sid)]) /\
  (state h <> APP_SECURE -> closed h \/ (app_c2p h = [] /\ app_p2c h = [])).
Proof.
  intros Hr. eapply (cp3_run_history _ _ [] []) in Hr; [|constructor]. cbn [app] in Hr. split.
  - intros Hs. inversion Hr as [| | |ss pk ct sid Hin|? ? ? Hc%closed_state]; subst; try done.
    + by exists ss, pk, ct, sid.
    + by rewrite Hc in Hs.
  - intros Hs. inversion Hr; subst; try (by right). by left.
Qed.

(** C35. CP3 completes with an honest Peripheral: on inputs of the protocol's
    sizes the three events are all accepted, FINISHED_C is sent, and the keys are
    those of the reference schedule, 32 bytes each, equal to two one-block RFC
    5869 expansions of the same pseudo-random key. *)
Theorem cp3_honest_run ss pk ct sid :
  cp3_inputs ss pk ct sid ->
  cp3_run [EvBegin ss sec_info_level4 pk ct (start_cp3 sid); EvReady (ready_cp3 pk ct sid);
           EvFinishedP (finished_p_frame ss pk ct sid)] CentralHandshake_init =
    (cp3_secure ss pk ct sid,
     [EvBegin ss sec_info_level4 pk ct (start_cp3 sid); EvReady (ready_cp3 pk ct sid);
      EvFinishedP (finished_p_frame ss pk ct sid)], [finished_c_frame ss pk ct sid]) /\
  app_c2p (cp3_secure ss pk ct sid) =
    rfc5869_expand 32 (APP_C2P_LABEL ++ ref_th2 ss pk ct sid) (ref_prk ss pk ct sid) /\
  app_p2c (cp3_secure ss pk ct sid) =
    rfc5869_expand 32 (APP_P2C_LABEL ++ ref_th2 ss pk ct sid) (ref_prk ss pk ct sid) /\
  blen (app_c2p (cp3_secure ss pk ct sid)) = 32 /\ blen (app_p2c (cp3_secure ss pk ct sid)) = 32.
Proof.
  intros Hin. cbn [cp3_run cp3_apply]. meth. rewrite begin_init by done.
  rewrite accept_ready_eq, bool_decide_eq_true_2 by done.
  rewrite accept_finished_p_eq, bool_decide_eq_true_2 by done.
  split; [done|]. rewrite !rfc5869_expand_32, <- !app_assoc.
  cbn [app_c2p app_p2c cp3_secure]. split_and!; [done|done|apply blen_hmac_sha256..].
Qed.

(** C36. Failure is final: a call that raises wipes every buffer and closes the
    object, and a closed object refuses every protocol call and stays closed. *)
Theorem cp3_failure_final e h :
  (forall x h', cp3_apply e h = (Err x, h') -> h' = clear h' /\ state h' = CLOSED) /\
  (h = clear h -> e <> EvClear -> exists x, cp3_apply e h = (Err x, (cp3_apply e h).2)).
Proof.
  split.
  - intros x h' Hc%cp3_apply_err. split; [done|by apply closed_state].
  - intros Hc%closed_state He. destruct (cp3_apply e h) as [[ws|x] h'] eqn:Ha; [exfalso|by exists x].
    destruct e; cbn [cp3_apply] in Ha; [| | |done].
    + apply (bind_mret_inv _ (fun _ => [])) in Ha as (? & [Hs _]%begin_Ok_inv & _). by rewrite Hc in Hs.
    + apply bind_mret_inv in Ha as (? & Hs%accept_ready_Ok_inv & _). by rewrite Hc in Hs.
    + apply (bind_mret_inv _ (fun _ => [])) in Ha as (? & Hs%accept_finished_p_Ok_inv & _).
      by rewrite Hc in Hs.
Qed.

(** * Witnesses *)

Definition demo_cp3_events : list cp3_event :=
  [EvBegin (zeros 32) sec_info_level4 (zeros 1184) (zeros 1088) (start_cp3 (zeros 16));
   EvReady (ready_cp3 (zeros 1184) (zeros 1088) (zeros 16));
   EvFinishedP (finished_p_frame (zeros 32) (zeros 1184) (zeros 1088) (zeros 16))].

Lemma cp3_secure_trace_witness :
  exists h accepted sent, cp3_run demo_cp3_events CentralHandshake_init = (h, accepted, sent) /\
    state h = APP_SECURE /\ exists ss pk ct sid, h = cp3_secure ss pk ct sid.
Proof.
  assert (state (cp3_run demo_cp3_events CentralHandshake_init).1.1 = APP_SECURE) as Hs
    by (vm_compute; reflexivity).
  destruct (cp3_run demo_cp3_events CentralHandshake_init) as [[h accepted] sent] eqn:Hr.
  destruct (proj1 (cp3_secure_trace demo_cp3_events h accepted sent Hr) Hs)
    as (ss & pk & ct & sid & _ & He & _).
  exists h, accepted, sent. split; [reflexivity|]. split; [exact Hs|].
  exists ss, pk, ct, sid. exact He.
Defined.

Lemma cp3_honest_run_witness :
  cp3_inputs (zeros 32) (zeros 1184) (zeros 1088) (zeros 16) /\
  blen (app_c2p (cp3_secure (zeros 32) (zeros 1184) (zeros 1088) (zeros 16))) = 32.
Proof.
  assert (cp3_inputs (zeros 32) (zeros 1184) (zeros 1088) (zeros 16)) as Hin
    by (unfold cp3_inputs; repeat split; reflexivity).
  split; [exact Hin|].
  destruct (cp3_honest_run (zeros 32) (zeros 1184) (zeros 1088) (zeros 16) Hin) as (_ & _ & _ & Hl & _).
  exact Hl.
Defined.
