(* ===== verification/Resumption.v ===== *)
(** src/src/common/resumption.py: authenticated resumption of v0.8 and v1.1, its
    PQRS frames, key derivations, session keys, tickets, the Central and the
    Peripheral state machines.

    Clocks and random values are arguments, in the order the code reads them; a
    time is an integer number of nanoseconds. A wiped [bytearray] is a field of
    zeros. *)

From S2P Require Import Prelude Py Digest Interfaces Constants Frame V1Cp3.
Open Scope Z_scope.

Definition V08 : Z := 0x08.
Definition V11 : Z := 0x11.
Definition TTL : Z := 24 * 60 * 60 * SECOND.
Definition MAX_RESUMES : Z := 100.
Definition REPLAY_CAPACITY : Z := 128.
Definition MAGIC : bytes := lit "PQRS".
Definition INIT : Z := 0x30.
Definition ACCEPT : Z := 0x31.
Definition FINISH_C : Z := 0x32.
Definition FINISH_P : Z := 0x33.
Definition REJECT : Z := 0x34.

Definition PAYLOAD_SIZES (subtype : Z) : option Z :=
  if subtype =? INIT then Some 96
  else if subtype =? ACCEPT then Some 64
  else if subtype =? FINISH_C then Some 32
  else if subtype =? FINISH_P then Some 32
  else if subtype =? REJECT then Some 0
  else None.

Definition domain (profile : Z) : result bytes :=
  raise_if (negb ((profile =? V08) || (profile =? V11))) (ResumeError PROFILE_MISMATCH);;
  mret (lit "PQ-BLE-HANDSHAKE-" ++ (if profile =? V08 then lit "v0.8" else lit "v1.1")).

Definition sized (value : bytes) (length : Z) : result bytes :=
  raise_if (negb (blen value =? length)) (ResumeError MALFORMED);;
  mret value.

Definition lp (value : bytes) : result bytes :=
  n ← to_bytes 2 (blen value);
  mret (n ++ value).

(** * Frames *)

Definition encode (profile subtype : Z) (payload : bytes) : result bytes :=
  domain profile;;
  match PAYLOAD_SIZES subtype with
  | None => Err (ResumeError MALFORMED)
  | Some size =>
      payload ← sized payload size;
      h ← mk_bytes [profile; subtype];
      n ← to_bytes 2 (blen payload);
      mret (MAGIC ++ h ++ n ++ payload)
  end.

Definition parse (raw : bytes) (profile : Z) (expected : option Z) : result (Z * bytes) :=
  domain profile;;
  raise_if ((blen raw <? 8) || negb (bool_decide (bto 4 raw = MAGIC))) (ResumeError MALFORMED);;
  v ← idx raw 4;
  raise_if (negb (v =? profile)) (ResumeError PROFILE_MISMATCH);;
  subtype ← idx raw 5;
  match PAYLOAD_SIZES subtype with
  | None => Err (ResumeError MALFORMED)
  | Some size =>
      raise_if (negb (blen raw =? 8 + size) || negb (from_be (bslice 6 8 raw) =? size)
                || match expected with Some e => negb (subtype =? e) | None => false end)
        (ResumeError MALFORMED);;
      mret (subtype, bfrom 8 raw)
  end.

(** * Derivations *)

Definition derive_root (profile : Z) (full_prk full_th : bytes) : result bytes :=
  prk ← sized full_prk 32;
  d ← domain profile;
  h ← sized full_th 32;
  expand prk (d ++ lit "/RESUME-ROOT") h.

Definition resume_id (profile : Z) (root full_th : bytes) : result bytes :=
  root ← sized root 32;
  d ← domain profile;
  h ← sized full_th 32;
  mret (bto 16 (hmac_sha256 root (d ++ lit "/RESUME-ID" ++ h))).

Definition context (profile : Z) (rid sid nc : bytes) (np : option bytes) : result bytes :=
  p ← mk_bytes [profile];
  rid ← sized rid 16;
  sid ← sized sid 16;
  nc ← sized nc 32;
  let value := p ++ rid ++ sid ++ nc in
  match np with
  | None => mret value
  | Some np => np ← sized np 32; mret (value ++ np)
  end.

Definition auth (profile : Z) (root label rid sid nc : bytes) (np : option bytes) : result bytes :=
  root ← sized root 32;
  d ← domain profile;
  c ← context profile rid sid nc np;
  mret (hmac_sha256 root (d ++ lit "/RESUME-" ++ label ++ c)).

Definition transcript (profile : Z) (rid sid nc np : bytes) : result bytes :=
  d ← domain profile;
  p ← mk_bytes [profile];
  rid ← sized rid 16;
  sid ← sized sid 16;
  nc ← sized nc 32;
  np ← sized np 32;
  fields ← mapM lp [d ++ lit "/RESUME-TRANSCRIPT"; p; rid; sid; nc; np];
  mret (concat fields).

(** * Session keys *)

Record SessionKeys := mkSessionKeys {
  k_profile : Z;
  k_th : bytes;
  k_confirm_c : bytes;
  k_confirm_p : bytes;
  k_app_c2p : bytes;
  k_app_p2c : bytes;
  k_iv_c2p : bytes;
  k_iv_p2c : bytes;
}.

Definition session_key (profile : Z) (prk th label : bytes) (length : Z) : result bytes :=
  d ← domain profile;
  block ← expand prk (d ++ lit "/RESUME-" ++ label) th;
  mret (bto length block).

Definition SessionKeys_init (profile : Z) (root rid sid nc np : bytes) : result SessionKeys :=
  t ← transcript profile rid sid nc np;
  let th := sha256 t in
  root ← sized root 32;
  let prk := hmac_sha256 th root in
  confirm_c ← session_key profile prk th (lit "CONFIRM-C") 32;
  confirm_p ← session_key profile prk th (lit "CONFIRM-P") 32;
  app_c2p ← session_key profile prk th (lit "APP-C2P") 32;
  app_p2c ← session_key profile prk th (lit "APP-P2C") 32;
  iv_c2p ← session_key profile prk th (lit "IV-C2P") 12;
  iv_p2c ← session_key profile prk th (lit "IV-P2C") 12;
  mret (mkSessionKeys profile th confirm_c confirm_p app_c2p app_p2c iv_c2p iv_p2c).

Definition SessionKeys_finish (k : SessionKeys) (central : bool) : result bytes :=
  let label := if central then lit "C" else lit "P" in
  d ← domain (k_profile k);
  mret (hmac_sha256 (if central then k_confirm_c k else k_confirm_p k)
          (d ++ lit "/RESUME-FINISH-" ++ label ++ k_th k)).

Definition clear_confirmation (k : SessionKeys) : SessionKeys :=
  mkSessionKeys (k_profile k) (wipe (k_th k)) (wipe (k_confirm_c k)) (wipe (k_confirm_p k))
    (k_app_c2p k) (k_app_p2c k) (k_iv_c2p k) (k_iv_p2c k).

Definition SessionKeys_clear (k : SessionKeys) : SessionKeys :=
  let k := clear_confirmation k in
  mkSessionKeys (k_profile k) (k_th k) (k_confirm_c k) (k_confirm_p k)
    (wipe (k_app_c2p k)) (wipe (k_app_p2c k)) (wipe (k_iv_c2p k)) (wipe (k_iv_p2c k)).

(** * Tickets *)

Record Ticket := mkTicket {
  t_profile : Z;
  t_peer : string;
  t_rid : bytes;
  t_root : bytes;
  t_created_at : Z;
  t_successful_resumes : Z;
  t_replay : list (bytes * bytes);
  t_valid : bool;
}.

Definition Ticket_issue (profile : Z) (peer : string) (prk th : bytes) (authenticated : bool) (now : Z)
  : result Ticket :=
  raise_if (negb authenticated) (ResumeError BAD_AUTH);;
  root ← derive_root profile prk th;
  rid ← resume_id profile root th;
  mret (mkTicket profile peer rid root now 0 [] true).

Definition Ticket_clear (t : Ticket) : Ticket :=
  mkTicket (t_profile t) (t_peer t) [] (wipe (t_root t)) (t_created_at t) (t_successful_resumes t) [] false.

Definition Ticket_check (profile : Z) (peer : string) (now : Z) : method Ticket unit :=
  t ← get_self;
  raise_when (negb (t_valid t)) (ResumeError NO_TICKET);;
  (if (now <? t_created_at t) || (now - t_created_at t >=? TTL) then
     update Ticket_clear;; raise (ResumeError EXPIRED)
   else mret tt);;
  (if t_successful_resumes t >=? MAX_RESUMES then
     update Ticket_clear;; raise (ResumeError MAX_USES)
   else mret tt);;
  raise_when (negb (t_profile t =? profile) || negb (bool_decide (t_peer t = peer)))
    (ResumeError PROFILE_MISMATCH).

Definition Ticket_used (t : Ticket) : Ticket :=
  let t := mkTicket (t_profile t) (t_peer t) (t_rid t) (t_root t) (t_created_at t)
             (t_successful_resumes t + 1) (t_replay t) (t_valid t) in
  if t_successful_resumes t >=? MAX_RESUMES then Ticket_clear t else t.

Definition replay_append (nc sid : bytes) (t : Ticket) : Ticket :=
  mkTicket (t_profile t) (t_peer t) (t_rid t) (t_root t) (t_created_at t) (t_successful_resumes t)
    (t_replay t ++ [(nc, sid)]) (t_valid t).

(** * The Central *)

Inductive resume_state := RNEW | WAIT_ACCEPT | WAIT_FINISH_P | RAPP_SECURE | RCLOSED.

#[global] Instance resume_state_eq_dec : EqDecision resume_state.
Proof. solve_decision. Defined.

Record CentralResume := mkCentralResume {
  c_ticket : Ticket;
  c_profile : Z;
  c_state : resume_state;
  c_session_id : bytes;
  c_nc : bytes;
  c_keys : option SessionKeys;
}.

(** The constructor checks the ticket, which the check may have cleared. *)
Definition CentralResume_init (now : Z) (session_id nc : bytes) : method Ticket CentralResume :=
  ticket ← get_self;
  Ticket_check (t_profile ticket) (t_peer ticket) now;;
  ticket ← get_self;
  mret (mkCentralResume ticket (t_profile ticket) RNEW session_id nc None).

Definition c_set_state (v : resume_state) (c : CentralResume) : CentralResume :=
  mkCentralResume (c_ticket c) (c_profile c) v (c_session_id c) (c_nc c) (c_keys c).
Definition c_set_keys (v : option SessionKeys) (c : CentralResume) : CentralResume :=
  mkCentralResume (c_ticket c) (c_profile c) (c_state c) (c_session_id c) (c_nc c) v.
Definition c_set_ticket (v : Ticket) (c : CentralResume) : CentralResume :=
  mkCentralResume v (c_profile c) (c_state c) (c_session_id c) (c_nc c) (c_keys c).

Definition CentralResume_clear (c : CentralResume) : CentralResume :=
  mkCentralResume (c_ticket c) (c_profile c) RCLOSED [] [] (option_map SessionKeys_clear (c_keys c)).

Definition CentralResume_begin : method CentralResume bytes :=
  self ← get_self;
  (if negb (bool_decide (c_state self = RNEW)) then
     update CentralResume_clear;; raise (ResumeError MALFORMED)
   else mret tt);;
  update (c_set_state WAIT_ACCEPT);;
  let t := c_ticket self in
  mac ← run (auth (c_profile self) (t_root t) (lit "INIT") (t_rid t) (c_session_id self) (c_nc self) None);
  run (encode (c_profile self) INIT (t_rid t ++ c_session_id self ++ c_nc self ++ mac)).

(** The properties [app_c2p] and [app_p2c]. *)
Definition c_app_c2p (c : CentralResume) : bytes :=
  match c_keys c with Some k => k_app_c2p k | None => [] end.
Definition c_app_p2c (c : CentralResume) : bytes :=
  match c_keys c with Some k => k_app_p2c k | None => [] end.

Definition CentralResume_accept (raw : bytes) : method CentralResume bytes :=
  cleanup_on_error CentralResume_clear (
    self ← get_self;
    raise_when (negb (bool_decide (c_state self = WAIT_ACCEPT))) (ResumeError MALFORMED);;
    p ← run (parse raw (c_profile self) (Some ACCEPT));
    let payload := p.2 in
    let t := c_ticket self in
    let np := bto 32 payload in
    expected ← run (auth (c_profile self) (t_root t) (lit "ACCEPT") (t_rid t) (c_session_id self)
                      (c_nc self) (Some np));
    raise_when (negb (compare_digest expected (bfrom 32 payload))) (ResumeError BAD_AUTH);;
    keys ← run (SessionKeys_init (c_profile self) (t_root t) (t_rid t) (c_session_id self) (c_nc self) np);
    update (c_set_keys (Some keys));;
    update (c_set_state WAIT_FINISH_P);;
    f ← run (SessionKeys_finish keys true);
    run (encode (c_profile self) FINISH_C f)).

Definition CentralResume_finish (raw : bytes) : method CentralResume unit :=
  cleanup_on_error CentralResume_clear (
    self ← get_self;
    raise_when (negb (bool_decide (c_state self = WAIT_FINISH_P))) (ResumeError MALFORMED);;
    p ← run (parse raw (c_profile self) (Some FINISH_P));
    match c_keys self with
    | None => raise AttributeError
    | Some keys =>
        f ← run (SessionKeys_finish keys false);
        raise_when (negb (compare_digest f p.2)) (ResumeError BAD_AUTH);;
        update (c_set_keys (Some (clear_confirmation keys)));;
        update (fun c => c_set_ticket (Ticket_used (c_ticket c)) c);;
        update (c_set_state RAPP_SECURE)
    end).

(** * The Peripheral *)

Inductive peripheral_state := IDLE | WAIT_FINISH_C | PENDING_SEND | PAPP_SECURE.

#[global] Instance peripheral_state_eq_dec : EqDecision peripheral_state.
Proof. solve_decision. Defined.

Record PeripheralResume := mkPeripheralResume {
  p_profile : Z;
  p_ticket : option Ticket;
  p_keys : option SessionKeys;
  p_state : peripheral_state;
  p_session_id : bytes;
  p_deadline : Z;
}.

Definition PeripheralResume_init (profile : Z) (ticket : option Ticket) : PeripheralResume :=
  mkPeripheralResume profile ticket None IDLE [] 0.

Definition p_set_ticket (v : Ticket) (p : PeripheralResume) : PeripheralResume :=
  mkPeripheralResume (p_profile p) (Some v) (p_keys p) (p_state p) (p_session_id p) (p_deadline p).
Definition p_set_keys (v : option SessionKeys) (p : PeripheralResume) : PeripheralResume :=
  mkPeripheralResume (p_profile p) (p_ticket p) v (p_state p) (p_session_id p) (p_deadline p).
Definition p_set_state (v : peripheral_state) (p : PeripheralResume) : PeripheralResume :=
  mkPeripheralResume (p_profile p) (p_ticket p) (p_keys p) v (p_session_id p) (p_deadline p).
Definition p_set_session (sid : bytes) (deadline : Z) (p : PeripheralResume) : PeripheralResume :=
  mkPeripheralResume (p_profile p) (p_ticket p) (p_keys p) (p_state p) sid deadline.

(** The key object is dropped after it was cleared. *)
Definition disconnect (p : PeripheralResume) : PeripheralResume :=
  mkPeripheralResume (p_profile p) (p_ticket p) None IDLE [] 0.

(** [self.ticket.check(...)] *)
Definition p_check (peer : Ticket -> string) (now : Z) : method PeripheralResume unit :=
  self ← get_self;
  match p_ticket self with
  | None => raise AttributeError
  | Some t => on_field (fun _ => t) p_set_ticket (Ticket_check (p_profile self) (peer t) now)
  end.

Definition peripheral_init (raw : bytes) (peer : string) (l4 bonded : bool) (now1 now2 : Z) (np : bytes)
  : method PeripheralResume bytes :=
  cleanup_on_error disconnect (
    self ← get_self;
    raise_when (negb (bool_decide (p_state self = IDLE))) (ResumeError REPLAY);;
    p ← run (parse raw (p_profile self) (Some INIT));
    let payload := p.2 in
    raise_when ((p_profile self =? V11) && negb (l4 && bonded)) (ResumeError L4_REQUIRED);;
    raise_when (match p_ticket self with None => true | Some _ => false end) (ResumeError NO_TICKET);;
    p_check (fun _ => peer) now1;;
    self ← get_self;
    match p_ticket self with
    | None => raise AttributeError
    | Some t =>
        let rid := bto 16 payload in
        let sid := bslice 16 32 payload in
        let nc := bslice 32 64 payload in
        let tag := bfrom 64 payload in
        (if negb (compare_digest rid (t_rid t)) then raise (ResumeError BAD_AUTH)
         else
           a ← run (auth (p_profile self) (t_root t) (lit "INIT") rid sid nc None);
           raise_when (negb (compare_digest tag a)) (ResumeError BAD_AUTH));;
        raise_when (existsb (fun e => bool_decide (nc = e.1) || bool_decide (sid = e.2)) (t_replay t))
          (ResumeError REPLAY);;
        raise_when (REPLAY_CAPACITY <=? Z.of_nat (length (t_replay t))) (ResumeError REPLAY_CACHE_FULL);;
        update (p_set_ticket (replay_append nc sid t));;
        keys ← run (SessionKeys_init (p_profile self) (t_root t) rid sid nc np);
        update (p_set_keys (Some keys));;
        update (p_set_session sid (now2 + 30 * SECOND));;
        update (p_set_state WAIT_FINISH_C);;
        a ← run (auth (p_profile self) (t_root t) (lit "ACCEPT") rid sid nc (Some np));
        run (encode (p_profile self) ACCEPT (np ++ a))
    end).

Definition peripheral_finish (raw : bytes) (l4 bonded : bool) (now1 now2 : Z) : method PeripheralResume bytes :=
  cleanup_on_error disconnect (
    self ← get_self;
    raise_when ((p_profile self =? V11) && negb (l4 && bonded)) (ResumeError L4_REQUIRED);;
    raise_when (negb (bool_decide (p_state self = WAIT_FINISH_C)) || (p_deadline self <=? now1))
      (ResumeError MALFORMED);;
    p_check t_peer now2;;
    p ← run (parse raw (p_profile self) (Some FINISH_C));
    match p_keys self with
    | None => raise AttributeError
    | Some keys =>
        f ← run (SessionKeys_finish keys true);
        raise_when (negb (compare_digest p.2 f)) (ResumeError BAD_AUTH);;
        f ← run (SessionKeys_finish keys false);
        result ← run (encode (p_profile self) FINISH_P f);
        update (p_set_state PENDING_SEND);;
        mret result
    end).

Definition commit (now : Z) : method PeripheralResume unit :=
  self ← get_self;
  (if negb (bool_decide (p_state self = PENDING_SEND)) || (p_deadline self <=? now) then
     update disconnect;; raise (ResumeError MALFORMED)
   else mret tt);;
  match p_keys self, p_ticket self with
  | Some keys, Some t =>
      update (p_set_keys (Some (clear_confirmation keys)));;
      update (p_set_ticket (Ticket_used t));;
      update (p_set_state PAPP_SECURE)
  | _, _ => raise AttributeError
  end.

(** * Frames *)

Definition valid_profile (p : Z) : Prop := p = V08 \/ p = V11.
Definition dom (p : Z) : bytes := lit "PQ-BLE-HANDSHAKE-" ++ (if p =? V08 then lit "v0.8" else lit "v1.1").
Arguments dom : simpl never.

Lemma domain_Ok p d : domain p = Ok d <-> valid_profile p /\ d = dom p.
Proof.
  unfold domain, valid_profile, dom. split.
  - intros Hd. apply bind_Ok in Hd as ([] & Hp & Hd). apply raise_if_Ok in Hp.
    split; [lia|]. by injection Hd.
  - intros [Hp ->]. by rewrite raise_if_false by lia.
Qed.

Lemma domain_eq p : valid_profile p -> domain p = Ok (dom p).
Proof. intros. by apply domain_Ok. Qed.

Lemma valid_profile_byte p : valid_profile p -> 0 <= p < 256.
Proof. unfold valid_profile, V08, V11. lia. Qed.

Lemma sized_Ok v n r : sized v n = Ok r <-> blen v = n /\ r = v.
Proof.
  unfold sized. destruct (Z.eqb_spec (blen v) n); cbn; split.
  - by intros [= <-].
  - by intros [_ ->].
  - done.
  - by intros [].
Qed.

Lemma sized_eq v n : blen v = n -> sized v n = Ok v.
Proof. intros. by apply sized_Ok. Qed.

Lemma payload_size_small s n : PAYLOAD_SIZES s = Some n -> 0 <= s < 256 /\ 0 <= n < 65536.
Proof.
  unfold PAYLOAD_SIZES, INIT, ACCEPT, FINISH_C, FINISH_P, REJECT.
  repeat case_match; intros [= <-]; lia.
Qed.

Lemma encode_Ok p s pl raw :
  encode p s pl = Ok raw <->
  valid_profile p /\ PAYLOAD_SIZES s = Some (blen pl) /\ raw = frame_wire MAGIC p s pl.
Proof.
  unfold encode. split.
  - intros He. apply bind_Ok in He as (d & [Hp ->]%domain_Ok & He).
    destruct (PAYLOAD_SIZES s) as [n|] eqn:Hs; [|done].
    apply bind_Ok in He as (pl' & [<- ->]%sized_Ok & He).
    apply frame_build_Ok in He as (_ & _ & ->); [done|by apply valid_profile_byte].
  - intros (Hp & Hs & ->). rewrite domain_eq by done. cbn [mbind result_bind]. rewrite Hs.
    rewrite sized_eq by done. cbn [mbind result_bind]. pose proof (payload_size_small _ _ Hs).
    apply frame_build_Ok; [by apply valid_profile_byte|]. split_and!; [lia..|done].
Qed.

Lemma parse_Ok raw p exp s pl :
  parse raw p exp = Ok (s, pl) <->
  valid_profile p /\ PAYLOAD_SIZES s = Some (blen pl) /\ raw = frame_wire MAGIC p s pl /\
  (exp = None \/ exp = Some s).
Proof.
  unfold parse. split.
  - intros H. apply bind_Ok in H as (d & [Hp ->]%domain_Ok & H).
    apply bind_Ok in H as ([] & [Hl Hm]%raise_if_Ok%orb_false_iff & H).
    apply negb_false_iff, bool_decide_eq_true in Hm.
    apply bind_Ok in H as (v & Hv & H). apply bind_Ok in H as ([] & Hvp%raise_if_Ok & H).
    apply negb_false_iff, Z.eqb_eq in Hvp. subst v.
    apply bind_Ok in H as (s' & Hs & H). destruct (PAYLOAD_SIZES s') as [n|] eqn:Hn; [|done].
    apply bind_Ok in H as ([] & Hc%raise_if_Ok & H).
    rewrite !orb_false_iff in Hc. destruct Hc as [[Hlen Hdecl] He].
    apply negb_false_iff, Z.eqb_eq in Hlen, Hdecl.
    injection H as <- <-. simplify_eq.
    assert (from_be (bslice 6 8 raw) = blen (bfrom 8 raw)) as Hb by (rewrite blen_bfrom by lia; lia).
    split_and!; [done|by rewrite <- Hb| |].
    + apply frame_wire_complete; [done..|lia].
    + destruct exp as [e|]; [right|by left]. apply negb_false_iff, Z.eqb_eq in He. by subst.
  - intros (Hp & Hs & -> & He). pose proof (valid_profile_byte _ Hp).
    pose proof (payload_size_small _ _ Hs). pose proof (blen_nonneg pl).
    rewrite domain_eq by done. cbn [mbind result_bind]. autorewrite with frame.
    rewrite bool_decide_eq_true_2 by done. pass; [lia|]. pass; [lia|]. rewrite Hs.
    pass; [|done]. rewrite !orb_false_iff. split_and!; [lia|lia|].
    destruct He as [->| ->]; [done|]. lia.
Qed.

Definition resume_wire (p s : Z) (pl : bytes) : bytes := frame_wire MAGIC p s pl.

(** The PQRS parser inverts the encoder under either profile, accepts only
    the five subtypes at their exact sizes, honours the expected subtype, and a
    frame of one profile is never accepted under the other. *)
Theorem resume_frames_exact raw p exp s pl :
  (parse raw p exp = Ok (s, pl) <-> encode p s pl = Ok raw /\ (exp = None \/ exp = Some s)) /\
  (forall q r, parse raw p exp = Ok (s, pl) -> parse raw q exp = Ok r -> q = p).
Proof.
  split; [rewrite parse_Ok, encode_Ok; tauto|].
  intros q [s' pl'] (Hp & Hs & -> & _)%parse_Ok (Hq & Hs' & He & _)%parse_Ok.
  apply frame_wire_inj in He as (-> & _ & _); try (by apply valid_profile_byte); [done|..];
    by eapply payload_size_small.
Qed.

(** * Reference derivations *)

Section Reference.
Variables (p : Z) (root rid sid nc : bytes).

Definition ref_context (np : option bytes) : bytes :=
  [byte_of_Z p] ++ rid ++ sid ++ nc ++ default [] np.
Definition ref_auth (label : bytes) (np : option bytes) : bytes :=
  hmac_sha256 root (dom p ++ lit "/RESUME-" ++ label ++ ref_context np).
Definition transcript_fields (np : bytes) : list bytes :=
  [dom p ++ lit "/RESUME-TRANSCRIPT"; [byte_of_Z p]; rid; sid; nc; np].
Definition ref_th (np : bytes) : bytes := sha256 (concat (map lp_wire (transcript_fields np))).
Definition ref_key (np label : bytes) (n : Z) : bytes :=
  bto n (hmac_sha256 (hmac_sha256 (ref_th np) root)
           ((dom p ++ lit "/RESUME-" ++ label) ++ ref_th np ++ [x01])).
Definition ref_keys (np : bytes) : SessionKeys :=
  mkSessionKeys p (ref_th np) (ref_key np (lit "CONFIRM-C") 32) (ref_key np (lit "CONFIRM-P") 32)
    (ref_key np (lit "APP-C2P") 32) (ref_key np (lit "APP-P2C") 32)
    (ref_key np (lit "IV-C2P") 12) (ref_key np (lit "IV-P2C") 12).
Definition ref_finish (np : bytes) (central : bool) : bytes :=
  hmac_sha256 (if central then ref_key np (lit "CONFIRM-C") 32 else ref_key np (lit "CONFIRM-P") 32)
    (dom p ++ lit "/RESUME-FINISH-" ++ (if central then lit "C" else lit "P") ++ ref_th np).

Definition init_frame : bytes := resume_wire p INIT (rid ++ sid ++ nc ++ ref_auth (lit "INIT") None).
Definition accept_frame (np : bytes) : bytes :=
  resume_wire p ACCEPT (np ++ ref_auth (lit "ACCEPT") (Some np)).
Definition finish_c_frame (np : bytes) : bytes := resume_wire p FINISH_C (ref_finish np true).
Definition finish_p_frame (np : bytes) : bytes := resume_wire p FINISH_P (ref_finish np false).

Definition resume_sizes : Prop :=
  valid_profile p /\ blen root = 32 /\ blen rid = 16 /\ blen sid = 16 /\ blen nc = 32.

Lemma auth_Ok label np :
  resume_sizes -> match np with Some v => blen v = 32 | None => True end ->
  auth p root label rid sid nc np = Ok (ref_auth label np).
Proof.
  intros (Hp & Hr & Hi & Hs & Hn) Hnp. unfold auth, context.
  rewrite !sized_eq by done. cbn [mbind result_bind]. rewrite domain_eq by done. cbn [mbind result_bind].
  rewrite mk_bytes_1 by (by apply is_byte_range, valid_profile_byte). cbn [mbind result_bind].
  unfold ref_auth, ref_context. destruct np as [v|]; cbn [default].
  - rewrite sized_eq by done. cbn [mbind result_bind mret result_ret].
    by rewrite <- !app_assoc.
  - by rewrite app_nil_r.
Qed.

Lemma session_key_Ok prk t label n :
  valid_profile p -> blen prk = 32 -> blen t = 32 ->
  session_key p prk t label n =
    Ok (bto n (hmac_sha256 prk ((dom p ++ lit "/RESUME-" ++ label) ++ t ++ [x01]))).
Proof.
  intros Hp Hk Ht. unfold session_key. rewrite domain_eq by done. cbn [mbind result_bind].
  by rewrite expand_Ok.
Qed.

Lemma lp_Ok v : blen v < 65536 -> lp v = Ok (lp_wire v).
Proof.
  intros Hv. unfold lp. pose proof (blen_nonneg v).
  by rewrite to_bytes_Ok by (change (256 ^ Z.of_nat 2) with 65536; lia).
Qed.

Lemma blen_dom : blen (dom p) = 21.
Proof. unfold dom. by destruct (p =? V08). Qed.

Lemma transcript_Ok np :
  resume_sizes -> blen np = 32 ->
  transcript p rid sid nc np = Ok (concat (map lp_wire (transcript_fields np))).
Proof.
  intros (Hp & Hr & Hi & Hs & Hn) Hnp. unfold transcript.
  rewrite domain_eq by done. cbn [mbind result_bind].
  rewrite mk_bytes_1 by (by apply is_byte_range, valid_profile_byte). cbn [mbind result_bind].
  rewrite !sized_eq by done. cbn [mbind result_bind]. fold (transcript_fields np).
  rewrite (mapM_Ok_map _ lp_wire); [done|]. intros x Hx. apply lp_Ok.
  unfold transcript_fields in Hx. rewrite !elem_of_cons in Hx.
  destruct Hx as [->|[->|[->|[->|[->|[->|Hx]]]]]]; try lia; [| |inversion Hx].
  - rewrite blen_app, blen_dom. reflexivity.
  - reflexivity.
Qed.

Lemma SessionKeys_init_Ok np :
  resume_sizes -> blen np = 32 -> SessionKeys_init p root rid sid nc np = Ok (ref_keys np).
Proof.
  intros Hz Hnp. unfold SessionKeys_init. rewrite transcript_Ok by done. cbn [mbind result_bind].
  fold (ref_th np). destruct Hz as (Hp & Hr & _). rewrite sized_eq by done. cbn [mbind result_bind].
  by rewrite !session_key_Ok by (done || apply blen_sha256 || apply blen_hmac_sha256).
Qed.

Lemma SessionKeys_finish_Ok np central :
  valid_profile p -> SessionKeys_finish (ref_keys np) central = Ok (ref_finish np central).
Proof.
  intros Hp. unfold SessionKeys_finish. cbn [k_profile ref_keys]. rewrite domain_eq by done.
  by destruct central.
Qed.
End Reference.

Arguments ref_auth : simpl never.
Arguments ref_keys : simpl never.
Arguments ref_key : simpl never.
Arguments ref_th : simpl never.
Arguments ref_finish : simpl never.

Lemma resume_payload_INIT v : blen v = 96 -> PAYLOAD_SIZES INIT = Some (blen v).
Proof. by intros ->. Qed.

Lemma parse_wire p s pl exp :
  valid_profile p -> PAYLOAD_SIZES s = Some (blen pl) -> exp = None \/ exp = Some s ->
  parse (resume_wire p s pl) p exp = Ok (s, pl).
Proof. intros. by apply parse_Ok. Qed.

Lemma encode_wire p s pl :
  valid_profile p -> PAYLOAD_SIZES s = Some (blen pl) -> encode p s pl = Ok (resume_wire p s pl).
Proof. intros. by apply encode_Ok. Qed.

Lemma blen_ref_auth p root rid sid nc l np : blen (ref_auth p root rid sid nc l np) = 32.
Proof. apply blen_hmac_sha256. Qed.

Lemma blen_ref_finish p root rid sid nc np c : blen (ref_finish p root rid sid nc np c) = 32.
Proof. apply blen_hmac_sha256. Qed.

(** * The Central, step by step *)

Section Central.
Variables (t : Ticket) (sid nc : bytes).
Let p := t_profile t.
Let root := t_root t.
Let rid := t_rid t.
Hypothesis Hz : resume_sizes p root rid sid nc.

Definition c_new : CentralResume := mkCentralResume t p RNEW sid nc None.
Definition c_wait : CentralResume := mkCentralResume t p WAIT_ACCEPT sid nc None.
Definition c_wait_finish (np : bytes) : CentralResume :=
  mkCentralResume t p WAIT_FINISH_P sid nc (Some (ref_keys p root rid sid nc np)).
Definition c_secure (np : bytes) : CentralResume :=
  mkCentralResume (Ticket_used t) p RAPP_SECURE sid nc
    (Some (clear_confirmation (ref_keys p root rid sid nc np))).

Lemma begin_eq : CentralResume_begin c_new = (Ok (init_frame p root rid sid nc), c_wait).
Proof using Hz.
  unfold CentralResume_begin, c_new. meth. cbn [c_state]. rewrite bool_decide_eq_true_2 by done.
  cbn [negb c_ticket c_profile c_session_id c_nc]. fold p root rid.
  rewrite auth_Ok by done. destruct Hz as (Hp & _ & Hi & Hs & Hn).
  rewrite encode_wire; [done|done|]. apply resume_payload_INIT.
  rewrite !blen_app, blen_ref_auth. lia.
Qed.

Lemma accept_ok np :
  blen np = 32 ->
  CentralResume_accept (accept_frame p root rid sid nc np) c_wait =
  (Ok (finish_c_frame p root rid sid nc np), c_wait_finish np).
Proof using Hz.
  intros Hnp. pose proof Hz as (Hp & _). unfold CentralResume_accept, c_wait, accept_frame. meth.
  cbn [c_state c_ticket c_profile c_session_id c_nc]. rewrite bool_decide_eq_true_2 by done.
  cbn [negb raise_if]. fold p root rid. rewrite parse_wire;
    [|done|by rewrite blen_app, blen_ref_auth, Hnp|by right].
  cbn [snd]. rewrite bto_app, bfrom_app by done. rewrite auth_Ok by done.
  unfold compare_digest. rewrite bool_decide_eq_true_2 by done. cbn [negb raise_if].
  rewrite SessionKeys_init_Ok by done. rewrite SessionKeys_finish_Ok by done.
  by rewrite encode_wire by (done || by rewrite blen_ref_finish).
Qed.

Lemma accept_inv raw w c :
  CentralResume_accept raw c_wait = (Ok w, c) ->
  exists np, blen np = 32 /\ raw = accept_frame p root rid sid nc np.
Proof using Hz.
  unfold CentralResume_accept, c_wait. meth.
  cbn [c_state c_ticket c_profile c_session_id c_nc]. rewrite bool_decide_eq_true_2 by done.
  cbn [negb raise_if]. fold p root rid.
  destruct (parse raw p (Some ACCEPT)) as [[s pl]|x] eqn:Hp; [|done]. cbn [snd].
  apply parse_Ok in Hp as (Hp & Hs & -> & [|[= <-]]); [done|]. injection Hs as Hs.
  assert (blen (bto 32 pl) = 32) as Hb by (rewrite blen_bto by lia; lia).
  rewrite auth_Ok by done. unfold compare_digest.
  destruct (bool_decide_reflect (ref_auth p root rid sid nc (lit "ACCEPT") (Some (bto 32 pl)) = bfrom 32 pl))
    as [He|]; [|done]. intros _. exists (bto 32 pl). split; [done|].
  unfold accept_frame. by rewrite He, bto_bfrom.
Qed.

Lemma finish_ok np :
  CentralResume_finish (finish_p_frame p root rid sid nc np) (c_wait_finish np) = (Ok tt, c_secure np).
Proof using Hz.
  pose proof Hz as (Hp & _). unfold CentralResume_finish, c_wait_finish, finish_p_frame. meth.
  cbn [c_state c_ticket c_profile c_keys]. rewrite bool_decide_eq_true_2 by done. cbn [negb raise_if].
  rewrite parse_wire; [|done|by rewrite blen_ref_finish|by right].
  rewrite SessionKeys_finish_Ok by done. cbn [snd]. unfold compare_digest.
  by rewrite bool_decide_eq_true_2.
Qed.

Lemma finish_inv np raw u c :
  CentralResume_finish raw (c_wait_finish np) = (Ok u, c) ->
  raw = finish_p_frame p root rid sid nc np.
Proof using Hz.
  pose proof Hz as (Hp & _). unfold CentralResume_finish, c_wait_finish. meth.
  cbn [c_state c_ticket c_profile c_keys]. rewrite bool_decide_eq_true_2 by done. cbn [negb raise_if].
  destruct (parse raw p (Some FINISH_P)) as [[s pl]|x] eqn:Hr; [|done]. cbn [snd].
  apply parse_Ok in Hr as (_ & Hs & -> & [|[= <-]]); [done|].
  rewrite SessionKeys_finish_Ok by done. unfold compare_digest.
  destruct (bool_decide_reflect (ref_finish p root rid sid nc np false = pl)) as [<-|]; [|done]. done.
Qed.
End Central.

Definition c_closed (c : CentralResume) : Prop := c = CentralResume_clear c.

Lemma SessionKeys_clear_idem k : SessionKeys_clear (SessionKeys_clear k) = SessionKeys_clear k.
Proof.
  unfold SessionKeys_clear, clear_confirmation.
  cbn [k_profile k_th k_confirm_c k_confirm_p k_app_c2p k_app_p2c k_iv_c2p k_iv_p2c].
  by rewrite !wipe_wipe.
Qed.

Lemma c_closed_clear c : c_closed (CentralResume_clear c).
Proof.
  unfold c_closed, CentralResume_clear. cbn [c_ticket c_profile c_keys].
  destruct (c_keys c); cbn; [|done]. by rewrite SessionKeys_clear_idem.
Qed.

Lemma cleanup_c_closed {A} (m : method CentralResume A) c e c' :
  cleanup_on_error CentralResume_clear m c = (Err e, c') -> c_closed c'.
Proof.
  unfold cleanup_on_error. destruct (m c) as [[a|x] s]; [done|].
  intros [= <- <-]. apply c_closed_clear.
Qed.

Inductive c_event := CBegin | CAccept (raw : bytes) | CFinish (raw : bytes) | CClear.

(** What the call returns for sending, or its exception. *)
Definition c_apply (e : c_event) : method CentralResume (list bytes) :=
  match e with
  | CBegin => w ← CentralResume_begin; mret [w]
  | CAccept raw => w ← CentralResume_accept raw; mret [w]
  | CFinish raw => CentralResume_finish raw;; mret []
  | CClear => update CentralResume_clear;; mret []
  end.

(** The final object, the accepted events and the frames sent. *)
Fixpoint c_run (es : list c_event) (c : CentralResume) : CentralResume * list c_event * list bytes :=
  match es with
  | [] => (c, [], [])
  | e :: r =>
      let '(out, c') := c_apply e c in
      let '(cf, accepted, sent) := c_run r c' in
      match out with
      | Ok ws => (cf, e :: accepted, ws ++ sent)
      | Err _ => (cf, accepted, sent)
      end
  end.

Lemma accept_state raw c w c' : CentralResume_accept raw c = (Ok w, c') -> c_state c = WAIT_ACCEPT.
Proof. unfold CentralResume_accept. meth. by destruct (bool_decide_reflect (c_state c = WAIT_ACCEPT)). Qed.

Lemma finish_state raw c w c' : CentralResume_finish raw c = (Ok w, c') -> c_state c = WAIT_FINISH_P.
Proof. unfold CentralResume_finish. meth. by destruct (bool_decide_reflect (c_state c = WAIT_FINISH_P)). Qed.

Lemma begin_refused c : c_state c <> RNEW ->
  CentralResume_begin c = (Err (ResumeError MALFORMED), CentralResume_clear c).
Proof. intros Hs. unfold CentralResume_begin. meth. by rewrite bool_decide_eq_false_2. Qed.

Section CentralTrace.
Variables (t : Ticket) (sid nc : bytes).
Let p := t_profile t.
Let root := t_root t.
Let rid := t_rid t.
Hypothesis Hz : resume_sizes p root rid sid nc.

Inductive c_history : CentralResume -> list c_event -> list bytes -> Prop :=
  | ch_new : c_history (c_new t sid nc) [] []
  | ch_wait : c_history (c_wait t sid nc) [CBegin] [init_frame p root rid sid nc]
  | ch_finish np : blen np = 32 ->
      c_history (c_wait_finish t sid nc np) [CBegin; CAccept (accept_frame p root rid sid nc np)]
        [init_frame p root rid sid nc; finish_c_frame p root rid sid nc np]
  | ch_secure np : blen np = 32 ->
      c_history (c_secure t sid nc np)
        [CBegin; CAccept (accept_frame p root rid sid nc np); CFinish (finish_p_frame p root rid sid nc np)]
        [init_frame p root rid sid nc; finish_c_frame p root rid sid nc np]
  | ch_closed c l sent : c_closed c -> c_history c l sent.

Lemma c_closed_state c : c_closed c -> c_state c = RCLOSED.
Proof using. by intros ->. Qed.

Lemma c_apply_err e c l sent x c' :
  c_history c l sent -> c_apply e c = (Err x, c') -> c_closed c'.
Proof using Hz.
  intros Hh. destruct e; cbn [c_apply]; [| | |done].
  - intros Hb%bind_mret_err. destruct (decide (c_state c = RNEW)) as [Hs|Hs].
    + inversion Hh as [| | | |? ? ? Hc]; subst; try done.
      * by rewrite begin_eq in Hb.
      * by rewrite (c_closed_state _ Hc) in Hs.
    + rewrite begin_refused in Hb by done. injection Hb as _ <-. apply c_closed_clear.
  - intros H%bind_mret_err. by apply cleanup_c_closed in H.
  - intros H%(bind_mret_err _ (fun _ => [])). by apply cleanup_c_closed in H.
Qed.

Lemma c_apply_ok e c l sent ws c' :
  c_history c l sent -> c_apply e c = (Ok ws, c') -> c_history c' (l ++ [e]) (sent ++ ws).
Proof using Hz.
  intros Hh. destruct e as [|raw|raw|]; cbn [c_apply].
  - intros (w & Hb & ->)%bind_mret_inv. destruct (decide (c_state c = RNEW)) as [Hs|Hs].
    + inversion Hh as [| | | |? ? ? Hc]; subst; try done.
      * rewrite begin_eq in Hb by done. injection Hb as <- <-. constructor.
      * by rewrite (c_closed_state _ Hc) in Hs.
    + by rewrite begin_refused in Hb.
  - intros (w & Hb & ->)%bind_mret_inv. pose proof Hb as Hs%accept_state.
    inversion Hh as [| | | |? ? ? Hc]; subst; try done; [|by rewrite (c_closed_state _ Hc) in Hs].
    pose proof Hb as (np & Hnp & ->)%accept_inv; [|done].
    rewrite accept_ok in Hb by done. injection Hb as <- <-. by constructor.
  - intros (w & Hb & ->)%(bind_mret_inv _ (fun _ => [])). pose proof Hb as Hs%finish_state.
    inversion Hh as [| |np Hnp| |? ? ? Hc]; subst; try done; [|by rewrite (c_closed_state _ Hc) in Hs].
    pose proof Hb as ->%finish_inv; [|done].
    rewrite finish_ok in Hb by done. injection Hb as <- <-. by constructor.
  - intros (u & [= _ <-] & ->)%(bind_mret_inv _ (fun _ => [])). apply ch_closed, c_closed_clear.
Qed.

Lemma c_run_history es c l sent cf accepted out :
  c_history c l sent -> c_run es c = (cf, accepted, out) -> c_history cf (l ++ accepted) (sent ++ out).
Proof using Hz.
  revert c l sent accepted out. induction es as [|e es IH]; intros c l sent accepted out Hh; cbn [c_run].
  { intros [= <- <- <-]. by rewrite !app_nil_r. }
  destruct (c_apply e c) as [[ws|x] c'] eqn:He; destruct (c_run es c') as [[hr acc] o] eqn:Hr;
    intros [= <- <- <-].
  - rewrite cons_middle, !app_assoc. eapply IH; [|done]. by eapply c_apply_ok.
  - eapply IH; [|done]. apply ch_closed. by eapply c_apply_err.
Qed.
End CentralTrace.

(** C18. Central resumption by trace: whatever frames reach a fresh attempt on a
    well-formed ticket, in any order, it is APP_SECURE only after exactly
    [begin], one ACCEPT whose tag is the ticket's HMAC over this attempt's
    session id and nonce, and one FINISH_P whose tag is the HMAC under the
    session's Peripheral confirmation key over the transcript of both nonces. It
    then sent exactly INIT and FINISH_C, the ticket lost one use, the
    confirmation keys are zero and the traffic keys are the derived ones;
    otherwise no key object exists, or it waits for FINISH_P, or it is wiped. *)
Theorem resume_central_trace t sid nc es c accepted sent :
  resume_sizes (t_profile t) (t_root t) (t_rid t) sid nc ->
  c_run es (c_new t sid nc) = (c, accepted, sent) ->
  let keys np := ref_keys (t_profile t) (t_root t) (t_rid t) sid nc np in
  (c_state c = RAPP_SECURE -> exists np, blen np = 32 /\
     accepted = [CBegin; CAccept (accept_frame (t_profile t) (t_root t) (t_rid t) sid nc np);
                 CFinish (finish_p_frame (t_profile t) (t_root t) (t_rid t) sid nc np)] /\
     sent = [init_frame (t_profile t) (t_root t) (t_rid t) sid nc;
             finish_c_frame (t_profile t) (t_root t) (t_rid t) sid nc np] /\
     c_ticket c = Ticket_used t /\ c_keys c = Some (clear_confirmation (keys np))) /\
  (c_state c <> RAPP_SECURE ->
     c_keys c = None \/ c_state c = WAIT_FINISH_P \/ c = CentralResume_clear c).
Proof.
  intros Hz Hr keys. eapply (c_run_history t sid nc Hz _ _ [] []) in Hr; [|constructor].
  cbn [app] in Hr. split.
  - intros Hs. inversion Hr as [| | |np Hnp|? ? ? Hc%c_closed_state]; subst; try done.
    + by exists np.
    + by rewrite Hc in Hs.
  - intros Hs. inversion Hr; subst; try done; [by left|by left|by right; left|by right; right].
Qed.

(** * Tickets *)

Lemma Ticket_check_cases profile peer now t r t' :
  Ticket_check profile peer now t = (r, t') ->
  (r = Ok tt /\ t' = t /\ t_valid t = true /\ t_created_at t <= now < t_created_at t + TTL /\
   t_successful_resumes t < MAX_RESUMES /\ t_profile t = profile /\ t_peer t = peer) \/
  ((exists x, r = Err x) /\ (t' = t \/ t' = Ticket_clear t)).
Proof.
  unfold Ticket_check. meth. destruct (t_valid t); cbn [negb raise_if]; [|intros [= <- <-]; eauto].
  destruct ((now <? t_created_at t) || _) eqn:Ht; [intros [= <- <-]; eauto|].
  destruct (t_successful_resumes t >=? MAX_RESUMES) eqn:Hm; [intros [= <- <-]; eauto|].
  destruct (Z.eqb_spec (t_profile t) profile), (bool_decide_reflect (t_peer t = peer)); cbn [negb orb raise_if];
    intros [= <- <-]; eauto.
  left. split_and!; (done || lia).
Qed.

Lemma Ticket_check_pass profile peer now t :
  t_valid t = true -> t_created_at t <= now < t_created_at t + TTL ->
  t_successful_resumes t < MAX_RESUMES -> t_profile t = profile -> t_peer t = peer ->
  Ticket_check profile peer now t = (Ok tt, t).
Proof.
  intros Hv Hn Hm Hp He. unfold Ticket_check. meth. rewrite Hv, Hp, He. cbn [negb raise_if].
  replace (_ || _) with false by lia. replace (_ >=? MAX_RESUMES) with false by lia.
  by rewrite Z.eqb_refl, bool_decide_eq_true_2.
Qed.

(** The pair is new to the replay cache. *)
Definition fresh (nc sid : bytes) (t : Ticket) : Prop :=
  (nc ∉ ((t_replay t).*1)) /\ (sid ∉ ((t_replay t).*2)).

Lemma existsb_fresh nc sid t :
  existsb (fun e => bool_decide (nc = e.1) || bool_decide (sid = e.2)) (t_replay t) = false <->
  fresh nc sid t.
Proof.
  unfold fresh. induction (t_replay t) as [|[a b] l IH]; cbn.
  { split; [intros _; split; by intros ?%elem_of_nil|done]. }
  rewrite !not_elem_of_cons, !orb_false_iff, !bool_decide_eq_false, IH. tauto.
Qed.

Lemma auth_inv p root label rid sid nc np a :
  auth p root label rid sid nc np = Ok a -> blen root = 32 /\ valid_profile p.
Proof.
  unfold auth. intros H. apply bind_Ok in H as (r & [Hl _]%sized_Ok & H).
  apply bind_Ok in H as (d & [Hp _]%domain_Ok & _). done.
Qed.

(** * The Peripheral, step by step *)

(** The guard both handlers apply under v1.1. *)
Definition link_ok (p : Z) (l4 bonded : bool) : Prop := (p =? V11) && negb (l4 && bonded) = false.

Definition p_waiting (profile : Z) (t : Ticket) (sid nc np : bytes) (deadline : Z) : PeripheralResume :=
  mkPeripheralResume profile (Some (replay_append nc sid t))
    (Some (ref_keys profile (t_root t) (t_rid t) sid nc np)) WAIT_FINISH_C sid deadline.

(** What a successful INIT needs, besides the frame. *)
Definition init_allowed (p : PeripheralResume) (t : Ticket) (peer : string) (l4 bonded : bool) (now : Z)
    (sid nc : bytes) : Prop :=
  p_state p = IDLE /\ p_ticket p = Some t /\ link_ok (p_profile p) l4 bonded /\
  Ticket_check (p_profile p) peer now t = (Ok tt, t) /\ fresh nc sid t /\
  Z.of_nat (length (t_replay t)) < REPLAY_CAPACITY.

Lemma init_payload_parts (rid sid nc tag : bytes) :
  blen rid = 16 -> blen sid = 16 -> blen nc = 32 ->
  let pl := rid ++ sid ++ nc ++ tag in
  bto 16 pl = rid /\ bslice 16 32 pl = sid /\ bslice 32 64 pl = nc /\ bfrom 64 pl = tag.
Proof.
  intros Hr Hs Hn pl. unfold pl. split_and!.
  - by apply bto_app.
  - by apply bslice_app.
  - rewrite (app_assoc rid). apply bslice_app; [bytes_len|done].
  - rewrite !app_assoc. apply bfrom_app. bytes_len.
Qed.

Lemma init_payload_join (pl : bytes) :
  blen pl = 96 ->
  pl = bto 16 pl ++ bslice 16 32 pl ++ bslice 32 64 pl ++ bfrom 64 pl /\
  blen (bto 16 pl) = 16 /\ blen (bslice 16 32 pl) = 16 /\ blen (bslice 32 64 pl) = 32.
Proof.
  intros Hl. split.
  - rewrite (bslice_bfrom 32 64), (bslice_bfrom 16 32) by lia. symmetry. apply bto_bfrom.
  - rewrite blen_bto, !blen_bslice by lia. lia.
Qed.

Lemma p_set_ticket_same p t : p_ticket p = Some t -> p_set_ticket t p = p.
Proof. intros Ht. destruct p. cbn in *. by rewrite Ht. Qed.

Lemma p_check_run peer now p t :
  p_ticket p = Some t ->
  p_check peer now p =
  ((Ticket_check (p_profile p) (peer t) now t).1, p_set_ticket (Ticket_check (p_profile p) (peer t) now t).2 p).
Proof. intros Ht. unfold p_check. meth. rewrite Ht. by destruct (Ticket_check _ _ _ _). Qed.

(** The rest of [peripheral_init] once the ticket has passed its check. *)
Definition p_admit (p : PeripheralResume) (t : Ticket) (payload : bytes) (now2 : Z) (np : bytes)
  : method PeripheralResume bytes :=
  let rid := bto 16 payload in
  let sid := bslice 16 32 payload in
  let nc := bslice 32 64 payload in
  let tag := bfrom 64 payload in
  (if negb (compare_digest rid (t_rid t)) then raise (ResumeError BAD_AUTH)
   else
     a ← run (auth (p_profile p) (t_root t) (lit "INIT") rid sid nc None);
     raise_when (negb (compare_digest tag a)) (ResumeError BAD_AUTH));;
  raise_when (existsb (fun e => bool_decide (nc = e.1) || bool_decide (sid = e.2)) (t_replay t))
    (ResumeError REPLAY);;
  raise_when (REPLAY_CAPACITY <=? Z.of_nat (length (t_replay t))) (ResumeError REPLAY_CACHE_FULL);;
  update (p_set_ticket (replay_append nc sid t));;
  keys ← run (SessionKeys_init (p_profile p) (t_root t) rid sid nc np);
  update (p_set_keys (Some keys));;
  update (p_set_session sid (now2 + 30 * SECOND));;
  update (p_set_state WAIT_FINISH_C);;
  a ← run (auth (p_profile p) (t_root t) (lit "ACCEPT") rid sid nc (Some np));
  run (encode (p_profile p) ACCEPT (np ++ a)).

Lemma p_admit_ok p t sid nc np now2 :
  resume_sizes (p_profile p) (t_root t) (t_rid t) sid nc -> blen np = 32 ->
  fresh nc sid t -> Z.of_nat (length (t_replay t)) < REPLAY_CAPACITY ->
  p_admit p t (t_rid t ++ sid ++ nc ++ ref_auth (p_profile p) (t_root t) (t_rid t) sid nc (lit "INIT") None)
    now2 np p =
  (Ok (accept_frame (p_profile p) (t_root t) (t_rid t) sid nc np),
   p_waiting (p_profile p) t sid nc np (now2 + 30 * SECOND)).
Proof.
  intros Hz Hnp Hf Hn. pose proof Hz as (Hp & Hr & Hi & Hs & Hnc). unfold p_admit.
  destruct (init_payload_parts (t_rid t) sid nc
    (ref_auth (p_profile p) (t_root t) (t_rid t) sid nc (lit "INIT") None) Hi Hs Hnc) as (-> & -> & -> & ->).
  meth. unfold compare_digest. rewrite !bool_decide_eq_true_2 by done. cbn [negb].
  rewrite !auth_Ok by done. rewrite bool_decide_eq_true_2 by done. cbn [negb raise_if].
  rewrite (proj2 (existsb_fresh nc sid t)) by done. cbn [raise_if].
  rewrite (raise_if_false (REPLAY_CAPACITY <=? _)) by lia.
  rewrite SessionKeys_init_Ok by done. rewrite encode_wire; [done|done|].
  by rewrite blen_app, blen_ref_auth, Hnp.
Qed.

Lemma SessionKeys_np p root rid sid nc np k : SessionKeys_init p root rid sid nc np = Ok k -> blen np = 32.
Proof.
  unfold SessionKeys_init. intros (t & Ht & _)%bind_Ok. revert Ht. unfold transcript.
  intros Ht. ok_inv. by apply sized_Ok in Hok4 as [? _].
Qed.

(** What happens to the ticket on the way, whatever the outcome. *)
Definition ticket_step (t t' : Ticket) : Prop :=
  t' = t \/ t' = Ticket_clear t \/
  (t_valid t = true /\ Z.of_nat (length (t_replay t)) < REPLAY_CAPACITY /\
   exists nc sid, fresh nc sid t /\ t' = replay_append nc sid t).

Lemma p_admit_inv p t payload now2 np r p' :
  p_ticket p = Some t -> t_valid t = true -> blen payload = 96 ->
  p_admit p t payload now2 np p = (r, p') ->
  (exists t', p_ticket p' = Some t' /\ ticket_step t t') /\
  (forall w, r = Ok w -> exists sid nc,
     payload = t_rid t ++ sid ++ nc ++ ref_auth (p_profile p) (t_root t) (t_rid t) sid nc (lit "INIT") None /\
     blen (t_root t) = 32 /\ blen (t_rid t) = 16 /\ blen sid = 16 /\ blen nc = 32 /\
     fresh nc sid t /\ Z.of_nat (length (t_replay t)) < REPLAY_CAPACITY /\
     valid_profile (p_profile p) /\ blen np = 32).
Proof.
  intros Ht Hv Hl. destruct (init_payload_join payload Hl) as (Hj & Hrid & Hsid & Hnc).
  set (sid := bslice 16 32 payload) in *. set (nc := bslice 32 64 payload) in *.
  assert (exists t', p_ticket p = Some t' /\ ticket_step t t') as Hsame by (exists t; split; [done|by left]).
  unfold p_admit. fold sid nc. unfold compare_digest.
  destruct (bool_decide_reflect (bto 16 payload = t_rid t)) as [Hr|]; [|by meth; intros [= <- <-]].
  destruct (auth (p_profile p) (t_root t) (lit "INIT") (bto 16 payload) sid nc None) as [a|x] eqn:Ha;
    [|by meth; intros [= <- <-]].
  pose proof (auth_inv _ _ _ _ _ _ _ _ Ha) as [Hroot Hp].
  rewrite auth_Ok in Ha by (done || split_and!; done). injection Ha as <-.
  meth. cbn [negb].
  destruct (bool_decide_reflect (bfrom 64 payload = ref_auth (p_profile p) (t_root t) (bto 16 payload) sid nc
    (lit "INIT") None)) as [Htag|]; cbn [negb raise_if]; [|by intros [= <- <-]].
  destruct (existsb _ _) eqn:Hex; cbn [raise_if]; [by intros [= <- <-]|].
  apply existsb_fresh in Hex.
  destruct (REPLAY_CAPACITY <=? Z.of_nat (length (t_replay t))) eqn:Hc; cbn [raise_if]; [by intros [= <- <-]|].
  intros Hrun. split.
  - exists (replay_append nc sid t). split.
    + destruct (SessionKeys_init _ _ _ _ _ _) as [k|x]; [destruct (auth _ _ _ _ _ _ _)|];
        by injection Hrun as <- <-.
    + right; right. split_and!; [done|lia|by exists nc, sid].
  - intros w ->. exists sid, nc. rewrite <- Hr. split_and!; [by rewrite <- Htag|done|done|done|done|done|lia|done|].
    destruct (SessionKeys_init _ _ _ _ _ _) as [k|x] eqn:Hk; [|done].
    by eapply SessionKeys_np.
Qed.

Lemma p_admit_unfold raw peer l4 bonded now1 now2 np p :
  peripheral_init raw peer l4 bonded now1 now2 np p =
  cleanup_on_error disconnect (
    raise_when (negb (bool_decide (p_state p = IDLE))) (ResumeError REPLAY);;
    pl ← run (parse raw (p_profile p) (Some INIT));
    raise_when ((p_profile p =? V11) && negb (l4 && bonded)) (ResumeError L4_REQUIRED);;
    raise_when (match p_ticket p with None => true | Some _ => false end) (ResumeError NO_TICKET);;
    p_check (fun _ => peer) now1;;
    self ← get_self;
    match p_ticket self with
    | None => raise AttributeError
    | Some t => p_admit self t pl.2 now2 np
    end) p.
Proof. reflexivity. Qed.

Lemma peripheral_init_inv raw peer l4 bonded now1 now2 np p t r p' :
  p_ticket p = Some t ->
  peripheral_init raw peer l4 bonded now1 now2 np p = (r, p') ->
  (exists t', p_ticket p' = Some t' /\ ticket_step t t') /\
  match r with
  | Err _ => p_state p' = IDLE /\ p_keys p' = None
  | Ok _ => exists sid nc,
      raw = init_frame (p_profile p) (t_root t) (t_rid t) sid nc /\
      resume_sizes (p_profile p) (t_root t) (t_rid t) sid nc /\ blen np = 32 /\
      init_allowed p t peer l4 bonded now1 sid nc
  end.
Proof.
  intros Ht. rewrite p_admit_unfold. unfold cleanup_on_error. meth.
  assert (exists t', p_ticket (disconnect p) = Some t' /\ ticket_step t t') as Hsame
    by (exists t; split; [done|by left]).
  destruct (bool_decide_reflect (p_state p = IDLE)) as [Hst|]; cbn [negb raise_if]; [|by intros [= <- <-]].
  destruct (parse raw (p_profile p) (Some INIT)) as [[s pl]|x] eqn:Hp; [|by intros [= <- <-]].
  destruct ((p_profile p =? V11) && negb (l4 && bonded)) eqn:Hl; cbn [raise_if]; [by intros [= <- <-]|].
  rewrite Ht. cbn [raise_if]. rewrite (p_check_run _ _ _ t Ht).
  destruct (Ticket_check (p_profile p) peer now1 t) as [rc t'] eqn:Hc. cbn [fst snd].
  pose proof (Ticket_check_cases _ _ _ _ _ _ Hc) as [(-> & -> & Hv & _)|[[x ->] Ht']]; cycle 1.
  { intros [= <- <-]. split; [|done]. exists t'. split; [done|].
    destruct Ht' as [->| ->]; [by left|by right; left]. }
  rewrite (p_set_ticket_same p t Ht), Ht. cbn [snd].
  apply parse_Ok in Hp as (Hpr & Hs & -> & [|[= <-]]); [done|]. injection Hs as Hs.
  destruct (p_admit p t pl now2 np p) as [ra pa] eqn:Ha.
  destruct (p_admit_inv p t pl now2 np ra pa Ht Hv (eq_sym Hs) Ha) as [(t' & Ht' & Hstep) Hok].
  destruct ra as [w|x]; intros [= <- <-]; (split; [by exists t'|]); [|done].
  destruct (Hok w eq_refl) as (sid & nc & -> & Hr & Hi & Hsid & Hnc & Hf & Hcap & _ & Hnp).
  exists sid, nc. split_and!; [done|split_and!; done|done|]. by split_and!.
Qed.

Lemma peripheral_init_ok raw peer l4 bonded now1 now2 np p t sid nc :
  raw = init_frame (p_profile p) (t_root t) (t_rid t) sid nc ->
  resume_sizes (p_profile p) (t_root t) (t_rid t) sid nc -> blen np = 32 ->
  init_allowed p t peer l4 bonded now1 sid nc ->
  peripheral_init raw peer l4 bonded now1 now2 np p =
  (Ok (accept_frame (p_profile p) (t_root t) (t_rid t) sid nc np),
   p_waiting (p_profile p) t sid nc np (now2 + 30 * SECOND)).
Proof.
  intros -> Hz Hnp (Hst & Ht & Hl & Hc & Hf & Hn). pose proof Hz as (Hp & Hr & Hi & Hs & Hnc).
  rewrite p_admit_unfold. unfold cleanup_on_error. meth. rewrite Hst, bool_decide_eq_true_2 by done.
  cbn [negb raise_if]. unfold init_frame.
  rewrite parse_wire by (done || (by right) || (apply resume_payload_INIT; rewrite !blen_app, blen_ref_auth; lia)).
  unfold link_ok in Hl. rewrite Hl, Ht. cbn [raise_if]. rewrite (p_check_run _ _ _ t Ht), Hc. cbn [fst snd].
  rewrite (p_set_ticket_same p t Ht), Ht. by rewrite p_admit_ok.
Qed.

Lemma peripheral_finish_inv raw l4 bonded now1 now2 p t r p' :
  p_ticket p = Some t ->
  peripheral_finish raw l4 bonded now1 now2 p = (r, p') ->
  (exists t', p_ticket p' = Some t' /\ ticket_step t t') /\
  match r with
  | Err _ => p_state p' = IDLE /\ p_keys p' = None
  | Ok w => p_state p = WAIT_FINISH_C /\ now1 < p_deadline p /\ link_ok (p_profile p) l4 bonded /\
      t_valid t = true /\ t_successful_resumes t < MAX_RESUMES /\ p' = p_set_state PENDING_SEND p /\
      exists k fc fp, p_keys p = Some k /\ SessionKeys_finish k true = Ok fc /\
        SessionKeys_finish k false = Ok fp /\
        raw = resume_wire (p_profile p) FINISH_C fc /\ w = resume_wire (p_profile p) FINISH_P fp
  end.
Proof.
  intros Ht. unfold peripheral_finish. meth.
  assert (exists t', p_ticket (disconnect p) = Some t' /\ ticket_step t t') as Hsame
    by (exists t; split; [done|by left]).
  destruct ((p_profile p =? V11) && negb (l4 && bonded)) eqn:Hl; cbn [raise_if]; [by intros [= <- <-]|].
  destruct (bool_decide_reflect (p_state p = WAIT_FINISH_C)) as [Hst|]; cbn [negb orb raise_if];
    [|by intros [= <- <-]].
  destruct (p_deadline p <=? now1) eqn:Hd; cbn [raise_if]; [by intros [= <- <-]|].
  rewrite (p_check_run _ _ _ t Ht).
  destruct (Ticket_check (p_profile p) (t_peer t) now2 t) as [rc t'] eqn:Hc. cbn [fst snd].
  pose proof (Ticket_check_cases _ _ _ _ _ _ Hc) as [(-> & -> & Hv & _ & Hm & _)|[[x ->] Ht']]; cycle 1.
  { intros [= <- <-]. split; [|done]. exists t'. split; [done|].
    destruct Ht' as [->| ->]; [by left|by right; left]. }
  rewrite (p_set_ticket_same p t Ht).
  destruct (parse raw (p_profile p) (Some FINISH_C)) as [[s pl]|x] eqn:Hp; [|by intros [= <- <-]].
  apply parse_Ok in Hp as (Hpr & Hs & -> & [|[= <-]]); [done|].
  destruct (p_keys p) as [k|] eqn:Hk; [|by intros [= <- <-]].
  destruct (SessionKeys_finish k true) as [fc|] eqn:Hfc; [|by intros [= <- <-]]. cbn [snd].
  unfold compare_digest. destruct (bool_decide_reflect (pl = fc)) as [->|]; cbn [negb raise_if];
    [|by intros [= <- <-]].
  destruct (SessionKeys_finish k false) as [fp|] eqn:Hfp; [|by intros [= <- <-]].
  destruct (encode (p_profile p) FINISH_P fp) as [w|] eqn:He; [|by intros [= <- <-]].
  apply encode_Ok in He as (_ & _ & ->). intros [= <- <-].
  split; [exists t; split; [exact Ht|by left]|]. split_and!; try done; [lia|]. by exists k, fc, fp.
Qed.

Lemma peripheral_finish_ok sid nc np l4 bonded now1 now2 p t root rid :
  p_ticket p = Some t -> p_state p = WAIT_FINISH_C -> now1 < p_deadline p ->
  link_ok (p_profile p) l4 bonded -> Ticket_check (p_profile p) (t_peer t) now2 t = (Ok tt, t) ->
  valid_profile (p_profile p) -> p_keys p = Some (ref_keys (p_profile p) root rid sid nc np) ->
  peripheral_finish (finish_c_frame (p_profile p) root rid sid nc np) l4 bonded now1 now2 p =
  (Ok (finish_p_frame (p_profile p) root rid sid nc np), p_set_state PENDING_SEND p).
Proof.
  intros Ht Hst Hd Hl Hc Hp Hk. unfold peripheral_finish. meth. unfold link_ok in Hl. rewrite Hl.
  cbn [raise_if]. rewrite Hst, bool_decide_eq_true_2 by done. cbn [negb orb].
  rewrite raise_if_false by lia. rewrite (p_check_run _ _ _ t Ht), Hc. cbn [fst snd].
  rewrite (p_set_ticket_same p t Ht). unfold finish_c_frame.
  rewrite parse_wire by (done || (by right) || by rewrite blen_ref_finish).
  rewrite Hk, !SessionKeys_finish_Ok by done. cbn [snd]. unfold compare_digest.
  rewrite bool_decide_eq_true_2 by done. cbn [negb raise_if].
  by rewrite encode_wire by (done || by rewrite blen_ref_finish).
Qed.

Lemma commit_inv now p r p' t :
  p_ticket p = Some t -> commit now p = (r, p') ->
  match r with
  | Err _ => (p_state p = PENDING_SEND -> p_keys p <> None) -> p' = disconnect p
  | Ok _ => p_state p = PENDING_SEND /\ now < p_deadline p /\ exists k, p_keys p = Some k /\
      p' = mkPeripheralResume (p_profile p) (Some (Ticket_used t)) (Some (clear_confirmation k))
             PAPP_SECURE (p_session_id p) (p_deadline p)
  end.
Proof.
  intros Ht. unfold commit. meth. destruct (bool_decide_reflect (p_state p = PENDING_SEND)) as [Hs|];
    cbn [negb orb]; [|by intros [= <- <-]].
  destruct (p_deadline p <=? now) eqn:Hd; [by intros [= <- <-]|].
  destruct (p_keys p) as [k|] eqn:Hk; [|intros [= <- <-] Hn; by destruct (Hn Hs)].
  rewrite Ht. intros [= <- <-]. split_and!; [done|lia|]. by exists k.
Qed.

(** * Every sequence of Peripheral events *)

Inductive p_event :=
  | PInit (raw : bytes) (peer : string) (l4 bonded : bool) (now1 now2 : Z) (np : bytes)
  | PFinish (raw : bytes) (l4 bonded : bool) (now1 now2 : Z)
  | PCommit (now : Z)
  | PDisconnect.

Definition p_apply (e : p_event) : method PeripheralResume (option bytes) :=
  match e with
  | PInit raw peer l4 bonded now1 now2 np => w ← peripheral_init raw peer l4 bonded now1 now2 np; mret (Some w)
  | PFinish raw l4 bonded now1 now2 => w ← peripheral_finish raw l4 bonded now1 now2; mret (Some w)
  | PCommit now => commit now;; mret None
  | PDisconnect => update disconnect;; mret None
  end.

(** The final object and the accepted events. *)
Fixpoint p_run (es : list p_event) (p : PeripheralResume) : PeripheralResume * list p_event :=
  match es with
  | [] => (p, [])
  | e :: r =>
      let '(out, p') := p_apply e p in
      let '(pf, accepted) := p_run r p' in
      match out with Ok _ => (pf, e :: accepted) | Err _ => (pf, accepted) end
  end.

(** The (nonce, session id) pair an INIT carries. *)
Definition init_pair (raw : bytes) : bytes * bytes :=
  (bslice 32 64 (bfrom 8 raw), bslice 16 32 (bfrom 8 raw)).

Fixpoint pairs (l : list p_event) : list (bytes * bytes) :=
  match l with
  | [] => []
  | PInit raw _ _ _ _ _ _ :: r => init_pair raw :: pairs r
  | _ :: r => pairs r
  end.

Fixpoint commits (l : list p_event) : Z :=
  match l with
  | [] => 0
  | PCommit _ :: r => 1 + commits r
  | _ :: r => commits r
  end.

Lemma pairs_app l k : pairs (l ++ k) = pairs l ++ pairs k.
Proof. induction l as [|[] l IH]; cbn; [done|by rewrite IH|done..]. Qed.

Lemma commits_app l k : commits (l ++ k) = commits l + commits k.
Proof. induction l as [|[] l IH]; cbn; lia. Qed.

Lemma init_pair_frame p root rid sid nc :
  blen rid = 16 -> blen sid = 16 -> blen nc = 32 -> init_pair (init_frame p root rid sid nc) = (nc, sid).
Proof.
  intros Hr Hs Hn. unfold init_pair, init_frame, resume_wire. rewrite frame_wire_payload by done.
  by destruct (init_payload_parts rid sid nc (ref_auth p root rid sid nc (lit "INIT") None) Hr Hs Hn)
    as (_ & -> & -> & _).
Qed.

Lemma p_profile_finish raw l4 bonded n1 n2 p r p' :
  peripheral_finish raw l4 bonded n1 n2 p = (r, p') -> p_profile p' = p_profile p.
Proof.
  unfold peripheral_finish, p_check. meth.
  repeat first [case_match_goal | intros [= <- <-]; reflexivity].
Qed.

(** The handlers never change the profile. *)
Lemma p_profile_init raw peer l4 bonded n1 n2 np p r p' :
  peripheral_init raw peer l4 bonded n1 n2 np p = (r, p') -> p_profile p' = p_profile p.
Proof.
  unfold peripheral_init, p_check. meth.
  repeat first [case_match_goal | intros [= <- <-]; reflexivity].
Qed.

Section PeripheralTrace.
Variables (root rid : bytes).

(** The ticket against the log of accepted events. *)
Definition ticket_inv (l : list p_event) (t : Ticket) : Prop :=
  NoDup ((pairs l).*1) /\ NoDup ((pairs l).*2) /\ Z.of_nat (length (pairs l)) <= REPLAY_CAPACITY /\
  t_successful_resumes t = commits l /\ commits l <= MAX_RESUMES /\
  (t_valid t = true -> t_root t = root /\ t_rid t = rid /\ commits l < MAX_RESUMES /\
     Z.of_nat (length (t_replay t)) <= REPLAY_CAPACITY /\ pairs l `sublist_of` t_replay t).

Lemma ticket_inv_step l t t' : ticket_inv l t -> ticket_step t t' -> ticket_inv l t'.
Proof using.
  intros (H1 & H2 & H3 & H4 & H5 & H6) [->|[->|(Hv & Hc & nc & sid & Hf & ->)]]; [done|done|].
  unfold ticket_inv. cbn [replay_append t_valid t_root t_rid t_replay t_successful_resumes].
  split_and!; try done. intros _. destruct (H6 Hv) as (? & ? & ? & ? & Hs). split_and!; try done.
  - rewrite length_app. cbn. lia.
  - by apply sublist_inserts_r.
Qed.

Lemma ticket_inv_init l t sid nc e :
  pairs [e] = [(nc, sid)] -> commits [e] = 0 -> ticket_inv l t -> t_valid t = true -> fresh nc sid t ->
  Z.of_nat (length (t_replay t)) < REPLAY_CAPACITY ->
  ticket_inv (l ++ [e]) (replay_append nc sid t).
Proof using.
  intros Hp Hc (H1 & H2 & H3 & H4 & H5 & H6) Hv [Hf1 Hf2] Hlen.
  destruct (H6 Hv) as (Hr & Hi & Hm & _ & Hs).
  assert (forall {B} (f : bytes * bytes -> B) x, x ∉ f <$> t_replay t -> x ∉ f <$> pairs l) as Hsub.
  { intros B f x Hx (y & -> & Hy)%list_elem_of_fmap. apply Hx, list_elem_of_fmap.
    exists y. split; [done|]. by eapply elem_of_submseteq, sublist_submseteq. }
  unfold ticket_inv. cbn [replay_append t_valid t_root t_rid t_replay t_successful_resumes].
  rewrite pairs_app, commits_app, Hp, Hc, !fmap_app. cbn [fmap list_fmap fst snd].
  pose proof (sublist_length _ _ Hs). split_and!.
  - apply list.NoDup_app. split_and!; [done| |by apply NoDup_singleton].
    intros x Hx ->%list_elem_of_singleton. by apply (Hsub _ fst) in Hf1.
  - apply list.NoDup_app. split_and!; [done| |by apply NoDup_singleton].
    intros x Hx ->%list_elem_of_singleton. by apply (Hsub _ snd) in Hf2.
  - rewrite length_app. cbn. lia.
  - lia.
  - lia.
  - intros _. split_and!; [done|done|lia| |].
    + rewrite length_app. cbn. lia.
    + by apply sublist_app.
Qed.

(** One session's accepted events, by how far it has come. *)
Definition session_log (prof : Z) (sid nc np : bytes) (stage : nat) (l : list p_event) : Prop :=
  exists pre peer l4 bonded n1 n2 l4' bonded' n3 n4 n5,
    link_ok prof l4 bonded /\ (1 <= stage -> link_ok prof l4' bonded')%nat /\
    l = pre ++ take (S stage)
      [PInit (init_frame prof root rid sid nc) peer l4 bonded n1 n2 np;
       PFinish (finish_c_frame prof root rid sid nc np) l4' bonded' n3 n4; PCommit n5].

Definition p_inv (prof : Z) (p : PeripheralResume) (l : list p_event) : Prop :=
  p_profile p = prof /\ exists t, p_ticket p = Some t /\ ticket_inv l t /\
  match p_state p with
  | IDLE => True
  | WAIT_FINISH_C => t_valid t = true /\ exists sid nc np, resume_sizes prof root rid sid nc /\
      p_keys p = Some (ref_keys prof root rid sid nc np) /\ session_log prof sid nc np 0 l
  | PENDING_SEND => t_valid t = true /\ exists sid nc np, resume_sizes prof root rid sid nc /\
      p_keys p = Some (ref_keys prof root rid sid nc np) /\ session_log prof sid nc np 1 l
  | PAPP_SECURE => exists sid nc np, resume_sizes prof root rid sid nc /\
      p_keys p = Some (clear_confirmation (ref_keys prof root rid sid nc np)) /\
      session_log prof sid nc np 2 l
  end.

Lemma ticket_inv_neutral l e t :
  pairs [e] = [] -> commits [e] = 0 -> ticket_inv l t -> ticket_inv (l ++ [e]) t.
Proof using.
  intros Hp Hc. unfold ticket_inv. by rewrite pairs_app, commits_app, Hp, Hc, app_nil_r, Z.add_0_r.
Qed.

Lemma ticket_inv_commit l now t :
  t_valid t = true -> ticket_inv l t -> ticket_inv (l ++ [PCommit now]) (Ticket_used t).
Proof using.
  intros Hv (H1 & H2 & H3 & H4 & H5 & H6). destruct (H6 Hv) as (Hr & Hi & Hm & Hl & Hs).
  unfold ticket_inv, Ticket_used. rewrite pairs_app, commits_app. cbn [pairs commits]. rewrite app_nil_r.
  cbn [t_successful_resumes].
  destruct (t_successful_resumes t + 1 >=? MAX_RESUMES) eqn:Hx;
    cbn [Ticket_clear t_valid t_root t_rid t_replay t_successful_resumes]; split_and!; try (done || lia).
  intros _. split_and!; (done || lia).
Qed.

Lemma p_idle_inv prof p p' l :
  p_inv prof p l -> p_profile p' = p_profile p ->
  (forall t, p_ticket p = Some t -> exists t', p_ticket p' = Some t' /\ ticket_step t t') ->
  p_state p' = IDLE -> p_inv prof p' l.
Proof using.
  intros (Hp & t & Ht & Hi & _) Hp' Hs Hst. split; [by rewrite Hp'|].
  destruct (Hs t Ht) as (t' & Ht' & Hstep). exists t'. rewrite Hst.
  split_and!; [done|by eapply ticket_inv_step|done].
Qed.

Lemma p_init_step prof raw peer l4 bonded n1 n2 np p l r p' :
  p_inv prof p l -> peripheral_init raw peer l4 bonded n1 n2 np p = (r, p') ->
  p_inv prof p' (match r with Ok _ => l ++ [PInit raw peer l4 bonded n1 n2 np] | Err _ => l end).
Proof using.
  intros Hinv Hrun. pose proof Hinv as (<- & t & Ht & Hi & _).
  pose proof Hrun as [Hstep Hr]%(peripheral_init_inv _ _ _ _ _ _ _ _ t); [|done].
  destruct r as [w|x]; cycle 1.
  { destruct Hr as [Hst _]. eapply p_idle_inv; [done| |by intros t1 ?; simplify_eq|done].
    by eapply p_profile_init. }
  destruct Hr as (sid & nc & -> & Hz & Hnp & Hall). pose proof Hall as (_ & _ & Hl & Hc & Hf & Hlen).
  rewrite (peripheral_init_ok _ _ _ _ _ _ _ p t sid nc) in Hrun by done. injection Hrun as <- <-.
  destruct (Ticket_check_cases _ _ _ _ _ _ Hc) as [(_ & _ & Hv & _)|[[? ?] _]]; [|done].
  pose proof Hi as (_ & _ & _ & _ & _ & Hi'). destruct (Hi' Hv) as (Hroot & Hrid & _).
  unfold p_waiting. rewrite Hroot, Hrid in *. pose proof Hz as (_ & _ & Hbr & Hsid & Hnc).
  split; [done|]. eexists. split; [done|]. split.
  - apply ticket_inv_init; [|done..]. cbn. by rewrite init_pair_frame.
  - split; [done|]. exists sid, nc, np. split_and!; [done|done|].
    exists l, peer, l4, bonded, n1, n2, false, false, 0, 0, 0. split_and!; [done|lia|done].
Qed.

Lemma p_finish_step prof raw l4 bonded n1 n2 p l r p' :
  p_inv prof p l -> peripheral_finish raw l4 bonded n1 n2 p = (r, p') ->
  p_inv prof p' (match r with Ok _ => l ++ [PFinish raw l4 bonded n1 n2] | Err _ => l end).
Proof using.
  intros Hinv Hrun. pose proof Hinv as (<- & t & Ht & Hi & Hst).
  pose proof Hrun as [Hstep Hr]%(peripheral_finish_inv _ _ _ _ _ _ t); [|done].
  destruct r as [w|x]; cycle 1.
  { destruct Hr as [Hsi _]. eapply p_idle_inv; [done| |by intros t1 ?; simplify_eq|done].
    by eapply p_profile_finish. }
  destruct Hr as (Hw & _ & Hl & Hv & _ & -> & k & fc & fp & Hk & Hfc & _ & -> & _).
  rewrite Hw in Hst. destruct Hst as (_ & sid & nc & np & Hz & Hk' & Hlog). simplify_eq.
  rewrite SessionKeys_finish_Ok in Hfc by apply Hz. injection Hfc as <-.
  split; [done|]. exists t. split; [done|]. split; [by apply ticket_inv_neutral|].
  split; [done|]. exists sid, nc, np. split_and!; [done|done|].
  destruct Hlog as (pre & peer & a & b & m1 & m2 & x1 & x2 & x3 & x4 & m5 & Hlk & _ & ->).
  exists pre, peer, a, b, m1, m2, l4, bonded, n1, n2, m5. split_and!; [done|done|].
  by rewrite <- app_assoc.
Qed.

Lemma p_commit_step prof now p l r p' :
  p_inv prof p l -> commit now p = (r, p') ->
  p_inv prof p' (match r with Ok _ => l ++ [PCommit now] | Err _ => l end).
Proof using.
  intros Hinv Hrun. pose proof Hinv as (<- & t & Ht & Hi & Hst).
  pose proof (commit_inv _ _ _ _ t Ht Hrun) as Hr. destruct r as [u|x]; cycle 1.
  { rewrite Hr.
    - eapply p_idle_inv; [done|done| |done]. intros t1 Ht1. exists t1. split; [done|by left].
    - intros Hs. rewrite Hs in Hst. destruct Hst as (_ & ? & ? & ? & _ & -> & _). done. }
  destruct Hr as (Hw & _ & k & Hk & ->). rewrite Hw in Hst.
  destruct Hst as (Hv & sid & nc & np & Hz & Hk' & Hlog). simplify_eq.
  split; [done|]. eexists. split; [done|]. split; [by apply ticket_inv_commit|].
  exists sid, nc, np. split_and!; [done|done|].
  destruct Hlog as (pre & peer & a & b & m1 & m2 & a' & b' & m3 & m4 & m5 & Hlk & Hlk' & ->).
  exists pre, peer, a, b, m1, m2, a', b', m3, m4, now. split_and!; [done|intros; apply Hlk'; lia|].
  by rewrite <- app_assoc.
Qed.

Lemma p_run_inv prof es p l pf accepted :
  p_inv prof p l -> p_run es p = (pf, accepted) -> p_inv prof pf (l ++ accepted).
Proof using.
  revert p l accepted. induction es as [|e es IH]; intros p l accepted Hp; cbn [p_run].
  { intros [= <- <-]. by rewrite app_nil_r. }
  destruct (p_apply e p) as [out p'] eqn:He. destruct (p_run es p') as [pr acc] eqn:Hr.
  assert (p_inv prof p' (match out with Ok _ => l ++ [e] | Err _ => l end)) as Hp'.
  { destruct e as [raw peer l4 bonded n1 n2 np|raw l4 bonded n1 n2|now|]; cbn [p_apply] in He.
    - destruct (peripheral_init raw peer l4 bonded n1 n2 np p) as [r q] eqn:Hq.
      pose proof (p_init_step _ _ _ _ _ _ _ _ _ _ _ _ Hp Hq) as Hs. revert He. meth. rewrite Hq.
      by destruct r; intros [= <- <-].
    - destruct (peripheral_finish raw l4 bonded n1 n2 p) as [r q] eqn:Hq.
      pose proof (p_finish_step _ _ _ _ _ _ _ _ _ _ Hp Hq) as Hs. revert He. meth. rewrite Hq.
      by destruct r; intros [= <- <-].
    - destruct (commit now p) as [r q] eqn:Hq.
      pose proof (p_commit_step _ _ _ _ _ _ Hp Hq) as Hs. revert He. meth. rewrite Hq.
      by destruct r; intros [= <- <-].
    - revert He. meth. intros [= <- <-]. destruct Hp as (Hpp & t & Ht & Hi & _).
      split; [done|]. exists t. split_and!; [done|by apply ticket_inv_neutral|done]. }
  destruct out as [w|x]; intros [= <- <-].
  - rewrite cons_middle, app_assoc. by eapply IH.
  - by eapply IH.
Qed.
End PeripheralTrace.

(** C19. The Peripheral's replay protection and ticket budget, over any sequence
    of frames, clock values and disconnections against a fresh ticket: no two
    accepted INITs share a nonce or a session id, at most 128 are ever accepted
    and at most 100 resumptions are committed. The session is APP_SECURE only
    when the last three accepted events are an INIT under this ticket's HMAC on
    an admissible link, the FINISH_C of that very session, and its commit. *)
Theorem peripheral_trace prof t es pf accepted :
  t_valid t = true -> t_replay t = [] -> t_successful_resumes t = 0 ->
  p_run es (PeripheralResume_init prof (Some t)) = (pf, accepted) ->
  NoDup ((pairs accepted).*1) /\ NoDup ((pairs accepted).*2) /\
  Z.of_nat (length (pairs accepted)) <= 128 /\ commits accepted <= 100 /\
  (p_state pf = PAPP_SECURE -> exists sid nc np,
     resume_sizes prof (t_root t) (t_rid t) sid nc /\
     p_keys pf = Some (clear_confirmation (ref_keys prof (t_root t) (t_rid t) sid nc np)) /\
     session_log (t_root t) (t_rid t) prof sid nc np 2 accepted).
Proof.
  intros Hv Hr Hs Hrun.
  apply (p_run_inv (t_root t) (t_rid t) prof _ _ []) in Hrun as (_ & t' & _ & Hi & Hst).
  - destruct Hi as (H1 & H2 & H3 & _ & H5 & _). split_and!; try done.
    intros Hp. rewrite Hp in Hst. exact Hst.
  - split; [done|]. exists t. cbn. split_and!; [done| |done]. unfold ticket_inv. cbn.
    rewrite Hr, Hs. do 2 (split; [constructor|]). do 3 (split; [done|]). intros _.
    do 4 (split; [done|]). constructor.
Qed.

(** The clock conditions of an undisturbed resumption. *)
Definition clocks_ok (t : Ticket) (n1 n2 n3 n4 n5 : Z) : Prop :=
  t_created_at t <= n1 < t_created_at t + TTL /\ t_created_at t <= n4 < t_created_at t + TTL /\
  n3 < n2 + 30 * SECOND /\ n5 < n2 + 30 * SECOND.

(** C17. Agreement: a Central and an idle Peripheral that hold the same ticket
    secret, over a link that the profile admits, with a live ticket, a session id and
    nonce new to a replay cache with room, and clocks within the deadlines, complete the four-message resumption; every
    step succeeds, both end APP_SECURE with the same session keys, and each side
    charges one use of its ticket. *)
Theorem resumption_agreement tc p tp peer l4 bonded n1 n2 n3 n4 n5 sid nc np :
  let prof := t_profile tc in
  p_profile p = prof -> p_state p = IDLE -> p_ticket p = Some tp ->
  t_root tp = t_root tc -> t_rid tp = t_rid tc -> t_profile tp = prof -> t_peer tp = peer ->
  t_valid tp = true -> t_successful_resumes tp < MAX_RESUMES -> link_ok prof l4 bonded ->
  resume_sizes prof (t_root tc) (t_rid tc) sid nc -> blen np = 32 ->
  fresh nc sid tp -> Z.of_nat (length (t_replay tp)) < REPLAY_CAPACITY ->
  clocks_ok tp n1 n2 n3 n4 n5 ->
  exists init accept fc fp c1 c2 c3 p1 p2 p3 k,
    CentralResume_begin (mkCentralResume tc prof RNEW sid nc None) = (Ok init, c1) /\
    peripheral_init init peer l4 bonded n1 n2 np p = (Ok accept, p1) /\
    CentralResume_accept accept c1 = (Ok fc, c2) /\
    peripheral_finish fc l4 bonded n3 n4 p1 = (Ok fp, p2) /\
    CentralResume_finish fp c2 = (Ok tt, c3) /\
    commit n5 p2 = (Ok tt, p3) /\
    c_state c3 = RAPP_SECURE /\ p_state p3 = PAPP_SECURE /\
    c_keys c3 = Some k /\ p_keys p3 = Some k /\
    blen (k_app_c2p k) = 32 /\ blen (k_app_p2c k) = 32 /\ blen (k_iv_c2p k) = 12 /\ blen (k_iv_p2c k) = 12 /\
    c_ticket c3 = Ticket_used tc /\ p_ticket p3 = Some (Ticket_used (replay_append nc sid tp)).
Proof.
  intros prof Hpp Hst Ht Hroot Hrid Htp Hpeer Hv Hm Hl Hz Hnp Hf Hcap (Hn1 & Hn4 & Hn3 & Hn5).
  assert (peripheral_init (init_frame prof (t_root tc) (t_rid tc) sid nc) peer l4 bonded n1 n2 np p =
    (Ok (accept_frame prof (t_root tc) (t_rid tc) sid nc np), p_waiting prof tp sid nc np (n2 + 30 * SECOND)))
    as Hinit.
  { rewrite (peripheral_init_ok _ _ _ _ _ _ _ p tp sid nc); rewrite ?Hpp, ?Hroot, ?Hrid; try done.
    split_and!; try done; rewrite Hpp; [done|]. by apply Ticket_check_pass. }
  unfold p_waiting in Hinit. rewrite Hroot, Hrid in Hinit.
  set (p1 := mkPeripheralResume _ _ _ _ _ _) in Hinit.
  assert (peripheral_finish (finish_c_frame prof (t_root tc) (t_rid tc) sid nc np) l4 bonded n3 n4 p1 =
    (Ok (finish_p_frame prof (t_root tc) (t_rid tc) sid nc np), p_set_state PENDING_SEND p1)) as Hfin.
  { apply (peripheral_finish_ok sid nc np _ _ _ _ p1 (replay_append nc sid tp)); try done; [|apply Hz].
    by apply Ticket_check_pass. }
  do 11 eexists. split; [apply (begin_eq tc sid nc Hz)|]. split; [exact Hinit|].
  split; [by apply (accept_ok tc sid nc Hz)|]. split; [exact Hfin|].
  split; [by apply (finish_ok tc sid nc Hz)|]. split.
  { unfold commit. meth. cbn [p_set_state p_state p_deadline p_keys p_ticket p1].
    rewrite bool_decide_eq_true_2 by done. cbn [negb orb]. rewrite (proj2 (Z.leb_gt _ _)) by lia. done. }
  assert (forall l n, 0 <= n <= 32 -> blen (ref_key prof (t_root tc) (t_rid tc) sid nc np l n) = n) as Hk.
  { intros l n Hn. unfold ref_key. rewrite blen_bto, blen_hmac_sha256 by lia. lia. }
  do 3 (split; [done|]). split; [done|].
  cbn [clear_confirmation ref_keys k_app_c2p k_app_p2c k_iv_c2p k_iv_p2c].
  unfold ref_keys. cbn [k_app_c2p k_app_p2c k_iv_c2p k_iv_p2c].
  rewrite !Hk by lia. done.
Qed.

(** * Witnesses *)

Definition demo_ticket : Ticket := mkTicket V08 "peer" (zeros 16) (zeros 32) 0 0 [] true.
Definition demo_np : bytes := be_bytes 32 5.

Lemma demo_sizes : resume_sizes V08 (zeros 32) (zeros 16) (zeros 16) (zeros 32).
Proof. unfold resume_sizes, valid_profile. repeat split; (reflexivity || (left; reflexivity)). Defined.

Definition demo_central_honest : list c_event :=
  [CBegin; CAccept (accept_frame V08 (zeros 32) (zeros 16) (zeros 16) (zeros 32) demo_np);
   CFinish (finish_p_frame V08 (zeros 32) (zeros 16) (zeros 16) (zeros 32) demo_np)].

Lemma resume_central_trace_witness :
  exists c accepted sent, c_run demo_central_honest (c_new demo_ticket (zeros 16) (zeros 32)) = (c, accepted, sent) /\
    c_state c = RAPP_SECURE /\ c_ticket c = Ticket_used demo_ticket.
Proof.
  assert (c_state (c_run demo_central_honest (c_new demo_ticket (zeros 16) (zeros 32))).1.1 = RAPP_SECURE) as Hs
    by (vm_compute; reflexivity).
  destruct (c_run demo_central_honest (c_new demo_ticket (zeros 16) (zeros 32))) as [[c accepted] sent] eqn:Hr.
  destruct (proj1 (resume_central_trace demo_ticket (zeros 16) (zeros 32) demo_central_honest c accepted sent
    demo_sizes Hr) Hs) as (np & _ & _ & _ & Ht & _).
  exists c, accepted, sent. exact (conj eq_refl (conj Hs Ht)).
Defined.

Definition demo_peripheral_events : list p_event :=
  let raw := init_frame V08 (zeros 32) (zeros 16) (zeros 16) (zeros 32) in
  [PInit raw "peer" false false 1 2 demo_np; PDisconnect;
   PInit raw "peer" false false 3 4 demo_np;
   PFinish (finish_c_frame V08 (zeros 32) (zeros 16) (zeros 16) (zeros 32) demo_np) false false 5 6].

(** The second, replayed INIT is refused, and so is the FINISH_C after it. *)
Lemma peripheral_trace_witness :
  exists pf accepted, p_run demo_peripheral_events (PeripheralResume_init V08 (Some demo_ticket)) = (pf, accepted) /\
    length (pairs accepted) = 1%nat /\ Z.of_nat (length (pairs accepted)) <= 128.
Proof.
  assert (length (pairs (p_run demo_peripheral_events (PeripheralResume_init V08 (Some demo_ticket))).2) = 1%nat)
    as Hl by (vm_compute; reflexivity).
  destruct (p_run demo_peripheral_events (PeripheralResume_init V08 (Some demo_ticket))) as [pf accepted] eqn:Hr.
  destruct (peripheral_trace V08 demo_ticket demo_peripheral_events pf accepted eq_refl eq_refl eq_refl Hr)
    as (_ & _ & H128 & _).
  exists pf, accepted. exact (conj eq_refl (conj Hl H128)).
Defined.

Lemma resumption_agreement_witness :
  exists init accept fc fp c1 c2 c3 p1 p2 p3,
    CentralResume_begin (mkCentralResume demo_ticket V08 RNEW (zeros 16) (zeros 32) None) = (Ok init, c1) /\
    peripheral_init init "peer" false false 1 2 demo_np (PeripheralResume_init V08 (Some demo_ticket)) = (Ok accept, p1) /\
    CentralResume_accept accept c1 = (Ok fc, c2) /\
    peripheral_finish fc false false 3 4 p1 = (Ok fp, p2) /\
    CentralResume_finish fp c2 = (Ok tt, c3) /\ commit 5 p2 = (Ok tt, p3) /\
    c_state c3 = RAPP_SECURE /\ p_state p3 = PAPP_SECURE /\ c_keys c3 = p_keys p3.
Proof.
  destruct (resumption_agreement demo_ticket (PeripheralResume_init V08 (Some demo_ticket)) demo_ticket "peer"
    false false 1 2 3 4 5 (zeros 16) (zeros 32) demo_np eq_refl eq_refl eq_refl eq_refl eq_refl eq_refl eq_refl
    eq_refl ltac:(vm_compute; reflexivity) eq_refl demo_sizes eq_refl
    ltac:(split; apply not_elem_of_nil) ltac:(vm_compute; reflexivity)
    ltac:(unfold clocks_ok; vm_compute; repeat split; congruence))
    as (init & accept & fc & fp & c1 & c2 & c3 & p1 & p2 & p3 & k & H1 & H2 & H3 & H4 & H5 & H6 & H7 & H8 & H9 & H10 & _).
  exists init, accept, fc, fp, c1, c2, c3, p1, p2, p3. repeat split; try assumption. rewrite H9, H10. reflexivity.
Defined.
