(* ===== verification/V1Cp4.v ===== *)
(** src/src/common/v1_cp4.py: the application frames of v1.0 CP4 (reused by
    v1.1): sequence numbers, IV bases and nonces, the authenticated header, AES
    sealing and the Central application object.

    The object borrows the key buffers of the handshake that owns them; an
    [AppSession] is what it needs of that owner. *)

From S2P Require Import Prelude Py Digest Interfaces Constants Frame V1Smp V1Cp3 Resumption.
Open Scope Z_scope.

Definition APP_C2P : Z := V1_APP_C2P.
Definition APP_P2C : Z := V1_APP_P2C.
Definition PING : Z := 0x01.
Definition PONG : Z := 0x02.
Definition TAG_SIZE : Z := 16.
Definition IV_SIZE : Z := 12.
Definition CP4_MAX_PLAINTEXT : Z := 128.
Definition FRAME_OVERHEAD : Z := 35.
Definition CHALLENGE_SIZE : Z := 16.
Definition UINT64_MAX : Z := Z.shiftl 1 64 - 1.

(** The keys of [IV_LABELS]. *)
Definition _direction (subtype : Z) : result unit :=
  raise_if (negb ((subtype =? APP_C2P) || (subtype =? APP_P2C))) (ValueError "invalid CP4 direction").

Definition _sequence (seq : Z) : result unit :=
  raise_if (negb ((0 <=? seq) && (seq <=? UINT64_MAX))) (ValueError "CP4 sequence outside uint64").

Definition validate_sequence (received expected : Z) : result unit :=
  _sequence received;;
  _sequence expected;;
  raise_if ((expected =? UINT64_MAX) || negb (received =? expected))
    (ValueError "CP4 replay, out-of-order sequence or sequence exhaustion").

Definition _profile_label (profile : Z) (suffix : bytes) : result bytes :=
  if profile =? 0x10 then mret (lit "PQ-BLE-HANDSHAKE-v1.0/" ++ suffix)
  else d ← domain profile; mret (d ++ lit "/" ++ suffix).

Definition _encode (profile subtype : Z) (payload : bytes) : result bytes :=
  raw ← encode_v1_frame subtype payload;
  _profile_label profile [];;
  b ← mk_bytes [profile];
  mret (bto 4 raw ++ b ++ bfrom 5 raw).

Definition _parse (profile : Z) (raw : bytes) : result V1Frame :=
  _profile_label profile [];;
  (if blen raw <? 8 then Err (ValueError "wrong application profile/version")
   else v ← idx raw 4;
        raise_if (negb (v =? profile)) (ValueError "wrong application profile/version"));;
  parse_v1_frame (bto 4 raw ++ [x10] ++ bfrom 5 raw).

Definition derive_iv_base (key session_id : bytes) (subtype profile : Z) : result bytes :=
  _direction subtype;;
  raise_if (negb (blen key =? 32) || negb (blen session_id =? 16)) (ValueError "invalid CP4 key/session size");;
  label ← _profile_label profile (if subtype =? APP_C2P then lit "IV-C2P" else lit "IV-P2C");
  mret (bto IV_SIZE (hmac_sha256 key (label ++ session_id ++ [x01]))).

Definition nonce_for_sequence (iv_base : bytes) (seq : Z) : result bytes :=
  _sequence seq;;
  raise_if (negb (blen iv_base =? IV_SIZE)) (ValueError "CP4 IV must be 12 bytes");;
  s ← to_bytes 8 seq;
  let encoded := zeros 4 ++ s in
  mret (zip_with byte_xor iv_base encoded).

Definition _prefix (subtype seq msg_type plaintext_len : Z) : result bytes :=
  _direction subtype;;
  _sequence seq;;
  raise_if (negb ((0 <=? msg_type) && (msg_type <=? 255))
            || negb ((0 <=? plaintext_len) && (plaintext_len <=? CP4_MAX_PLAINTEXT)))
    (ValueError "invalid CP4 message type/length");;
  s ← to_bytes 8 seq;
  m ← mk_bytes [msg_type];
  n ← to_bytes 2 plaintext_len;
  mret (s ++ m ++ n).

Definition encode_application_frame (subtype seq msg_type : Z) (ciphertext tag : bytes) (profile : Z)
  : result bytes :=
  raise_if (negb (blen tag =? TAG_SIZE)) (ValueError "CP4 tag must be 16 bytes");;
  prefix ← _prefix subtype seq msg_type (blen ciphertext);
  _encode profile subtype (prefix ++ ciphertext ++ tag).

Record ApplicationFrame := mkApplicationFrame {
  a_subtype : Z;
  a_seq : Z;
  a_msg_type : Z;
  a_ciphertext : bytes;
  a_tag : bytes;
}.

(** [payload[11:-16]] and [payload[-16:]] of a payload of 27 or more bytes. *)
Definition parse_application_frame (raw : bytes) (expected_subtype profile : Z) : result ApplicationFrame :=
  _direction expected_subtype;;
  frame ← _parse profile raw;
  raise_if (negb (subtype frame =? expected_subtype)) (ValueError "wrong CP4 direction");;
  let payload := payload frame in
  let size := from_be (bslice 9 11 payload) in
  raise_if ((CP4_MAX_PLAINTEXT <? size) || negb (blen payload =? 27 + size))
    (ValueError "inconsistent CP4 plaintext length/tag");;
  m ← idx payload 8;
  mret (mkApplicationFrame (subtype frame) (from_be (bto 8 payload)) m
          (bslice 11 (blen payload - TAG_SIZE) payload) (bfrom (blen payload - TAG_SIZE) payload)).

Definition build_aad (session_id exact_header : bytes) (seq msg_type plaintext_len profile : Z) : result bytes :=
  raise_if (negb (blen session_id =? 16) || negb (blen exact_header =? 8))
    (ValueError "invalid CP4 AAD session/header size");;
  h5 ← idx exact_header 5;
  prefix ← _prefix h5 seq msg_type plaintext_len;
  p ← mk_bytes [profile];
  s ← mk_bytes [h5];
  n ← to_bytes 2 (27 + plaintext_len);
  let expected := lit "PQV1" ++ p ++ s ++ n in
  raise_if (negb (bool_decide (exact_header = expected))) (ValueError "inconsistent CP4 AAD header");;
  label ← _profile_label profile (lit "CP4-AAD");
  mret (label ++ session_id ++ exact_header ++ prefix).

Definition encrypt_application `{Aead} (key iv_base session_id : bytes) (subtype seq msg_type : Z)
    (plaintext : bytes) (profile : Z) : result bytes :=
  raise_if (negb (blen key =? 32)) (ValueError "CP4 requires AES-256");;
  skeleton ← encode_application_frame subtype seq msg_type (zeros (blen plaintext)) (zeros TAG_SIZE) profile;
  aad ← build_aad session_id (bto 8 skeleton) seq msg_type (blen plaintext) profile;
  nonce ← nonce_for_sequence iv_base seq;
  let sealed := aes_gcm_encrypt key nonce plaintext aad in
  mret (bto 19 skeleton ++ sealed).

Definition decrypt_application `{Aead} (key iv_base session_id raw : bytes) (expected_subtype expected_seq profile : Z)
  : result bytes :=
  raise_if (negb (blen key =? 32)) (ValueError "CP4 requires AES-256");;
  frame ← parse_application_frame raw expected_subtype profile;
  validate_sequence (a_seq frame) expected_seq;;
  aad ← build_aad session_id (bto 8 raw) (a_seq frame) (a_msg_type frame) (blen (a_ciphertext frame)) profile;
  nonce ← nonce_for_sequence iv_base (a_seq frame);
  match aes_gcm_decrypt key nonce (a_ciphertext frame ++ a_tag frame) aad with
  | None => Err InvalidTag
  | Some plaintext =>
      let expected_type := if expected_subtype =? APP_C2P then PING else PONG in
      raise_if (negb (a_msg_type frame =? expected_type) || negb (blen plaintext =? CHALLENGE_SIZE))
        (ValueError "invalid CP4 PING/PONG semantics");;
      mret plaintext
  end.

(** * The owner of the keys *)

Class AppSession (S : Type) := {
  as_secure (s : S) : bool;
  as_profile (s : S) : Z;
  as_app_c2p (s : S) : bytes;
  as_app_p2c (s : S) : bytes;
  as_session_id (s : S) : bytes;
  as_clear (s : S) : S;
}.

(** Clearing the owner ends the session. *)
Class AppSessionLaws (S : Type) `{AppSession S} := {
  as_clear_insecure s : as_secure (as_clear s) = false;
  as_clear_c2p s : as_app_c2p (as_clear s) = wipe (as_app_c2p s);
  as_clear_p2c s : as_app_p2c (as_clear s) = wipe (as_app_p2c s);
}.

(** The CP3 handshake has no [profile] attribute: the default 0x10. *)
#[export] Instance CentralHandshake_session : AppSession CentralHandshake := {|
  as_secure h := bool_decide (state h = APP_SECURE);
  as_profile _ := 0x10;
  as_app_c2p := app_c2p;
  as_app_p2c := app_p2c;
  as_session_id := session_id;
  as_clear := clear;
|}.

#[export] Instance CentralHandshake_session_laws : AppSessionLaws CentralHandshake.
Proof. split; intros []; reflexivity. Qed.

#[export] Instance CentralResume_session : AppSession CentralResume := {|
  as_secure c := bool_decide (c_state c = RAPP_SECURE);
  as_profile := c_profile;
  as_app_c2p := c_app_c2p;
  as_app_p2c := c_app_p2c;
  as_session_id := c_session_id;
  as_clear := CentralResume_clear;
|}.

#[export] Instance CentralResume_session_laws : AppSessionLaws CentralResume.
Proof. split; intros s; cbn; [done|unfold c_app_c2p|unfold c_app_p2c]; cbn; by destruct (c_keys s). Qed.

(** * The Central application object *)

Record CentralApplication (S : Type) := mkCentralApplication {
  handshake : S;
  app_profile : Z;
  iv_c2p : bytes;
  iv_p2c : bytes;
  tx_c2p : Z;
  rx_p2c : Z;
}.
Arguments mkCentralApplication {S}.
Arguments handshake {S}.
Arguments app_profile {S}.
Arguments iv_c2p {S}.
Arguments iv_p2c {S}.
Arguments tx_c2p {S}.
Arguments rx_p2c {S}.

Section Application.
Context {S : Type} `{AppSession S}.

Definition CentralApplication_clear (a : CentralApplication S) : CentralApplication S :=
  mkCentralApplication (as_clear (handshake a)) (app_profile a) (wipe (iv_c2p a)) (wipe (iv_p2c a))
    (tx_c2p a) (rx_p2c a).

Definition require_secure : method (CentralApplication S) unit :=
  self ← get_self;
  raise_when (negb (as_secure (handshake self))) (ValueError "CP4 requires APP_SECURE").

(** The constructor clears the owner when it fails; it returns the object
    together with what became of the owner. *)
Definition CentralApplication_init (iv_c2p_arg iv_p2c_arg : option bytes) (h : S)
  : result unit * CentralApplication S :=
  cleanup_on_error CentralApplication_clear (
    require_secure;;
    self ← get_self;
    v ← run (match iv_c2p_arg with
             | None => derive_iv_base (as_app_c2p (handshake self)) (as_session_id (handshake self)) APP_C2P (app_profile self)
             | Some v => mret v end);
    update (fun a => mkCentralApplication (handshake a) (app_profile a) v (iv_p2c a) (tx_c2p a) (rx_p2c a));;
    v ← run (match iv_p2c_arg with
             | None => derive_iv_base (as_app_p2c (handshake self)) (as_session_id (handshake self)) APP_P2C (app_profile self)
             | Some v => mret v end);
    update (fun a => mkCentralApplication (handshake a) (app_profile a) (iv_c2p a) v (tx_c2p a) (rx_p2c a));;
    self ← get_self;
    raise_when (negb (blen (iv_c2p self) =? IV_SIZE) || negb (blen (iv_p2c self) =? IV_SIZE))
      (ValueError "invalid supplied application IV bases"))
  (mkCentralApplication h (as_profile h) [] [] 0 0).

Definition encrypt_ping `{Aead} (challenge : bytes) (mtu : Z) : method (CentralApplication S) bytes :=
  cleanup_on_error CentralApplication_clear (
    require_secure;;
    self ← get_self;
    run (validate_sequence (tx_c2p self) (tx_c2p self));;
    raise_when (negb (blen challenge =? CHALLENGE_SIZE) || (mtu <? FRAME_OVERHEAD + blen challenge + 3))
      (ValueError "CP4 challenge/ATT MTU invalid");;
    frame ← run (encrypt_application (as_app_c2p (handshake self)) (iv_c2p self) (as_session_id (handshake self))
                   APP_C2P (tx_c2p self) PING challenge (app_profile self));
    update (fun a => mkCentralApplication (handshake a) (app_profile a) (iv_c2p a) (iv_p2c a) (tx_c2p a + 1) (rx_p2c a));;
    mret frame).

Definition accept_pong `{Aead} (raw challenge : bytes) (mtu : Z) : method (CentralApplication S) unit :=
  cleanup_on_error CentralApplication_clear (
    require_secure;;
    self ← get_self;
    raise_when (mtu <? blen raw + 3) (ValueError "CP4 frame exceeds ATT MTU");;
    plaintext ← run (decrypt_application (as_app_p2c (handshake self)) (iv_p2c self)
                       (as_session_id (handshake self)) raw APP_P2C (rx_p2c self) (app_profile self));
    raise_when (negb (compare_digest plaintext challenge)) (ValueError "CP4 PONG challenge mismatch");;
    update (fun a => mkCentralApplication (handshake a) (app_profile a) (iv_c2p a) (iv_p2c a) (tx_c2p a) (rx_p2c a + 1))).
End Application.

(** * Frames under a profile byte *)

Definition label_profile (p : Z) : Prop := p = 0x10 \/ valid_profile p.

Lemma label_profile_byte p : label_profile p -> 0 <= p < 256.
Proof. intros [->|?%valid_profile_byte]; lia. Qed.

Definition ref_label (p : Z) (suffix : bytes) : bytes :=
  (if p =? 0x10 then lit "PQ-BLE-HANDSHAKE-v1.0" else dom p) ++ lit "/" ++ suffix.
Arguments ref_label : simpl never.

Lemma profile_label_Ok p s r : _profile_label p s = Ok r <-> label_profile p /\ r = ref_label p s.
Proof.
  unfold _profile_label, label_profile, ref_label. destruct (Z.eqb_spec p 16) as [->|Hp].
  - split; [intros [= <-]; split; [by left|done]|by intros [_ ->]].
  - split.
    + intros (d & [Hv ->]%domain_Ok & Hr)%bind_Ok. injection Hr as <-. tauto.
    + intros [[|Hv] ->]; [done|]. rewrite domain_eq by done. done.
Qed.

Definition app_wire (p s : Z) (pl : bytes) : bytes := frame_wire V1_FRAME_MAGIC p s pl.

Lemma encode_app_Ok p s pl raw :
  _encode p s pl = Ok raw <-> label_profile p /\ v1_payload s pl /\ raw = app_wire p s pl.
Proof.
  unfold _encode. split.
  - intros (w & [Hv ->]%encode_v1_Ok & H)%bind_Ok. apply bind_Ok in H as (l & [Hp _]%profile_label_Ok & H).
    rewrite mk_bytes_1 in H by (by apply is_byte_range, label_profile_byte). apply Ok_inj in H as <-.
    split_and!; [done|done|]. by apply frame_wire_reversion.
  - intros (Hp & Hv & ->). rewrite (proj2 (encode_v1_Ok s pl _)) by done. cbn [mbind result_bind].
    rewrite (proj2 (profile_label_Ok p [] _)) by done. cbn [mbind result_bind].
    rewrite mk_bytes_1 by (by apply is_byte_range, label_profile_byte). cbn [mbind result_bind].
    unfold v1_wire. by rewrite frame_wire_reversion.
Qed.

Lemma parse_app_Ok p raw f :
  _parse p raw = Ok f <->
  label_profile p /\ v1_payload (subtype f) (payload f) /\ raw = app_wire p (subtype f) (payload f).
Proof.
  unfold _parse. split.
  - intros (l & [Hp _]%profile_label_Ok & H)%bind_Ok.
    destruct (blen raw <? 8) eqn:Hl; [done|].
    apply bind_Ok in H as ([] & (v & Hi & Hv%raise_if_Ok)%bind_Ok & [Hf He]%parse_v1_Ok).
    apply negb_false_iff, Z.eqb_eq in Hv. subst v. split_and!; [done|done|].
    by apply (frame_wire_reversion_inv _ p V1_FRAME_VERSION).
  - intros (Hp & Hv & ->). rewrite (proj2 (profile_label_Ok p [] _)) by done. cbn [mbind result_bind].
    pose proof (v1_payload_small _ _ Hv). pose proof (label_profile_byte _ Hp).
    pose proof (blen_nonneg (payload f)). unfold app_wire.
    rewrite blen_frame_wire, frame_wire_version by done.
    replace (8 + blen (payload f) <? 8) with false by lia. cbn [mbind result_bind].
    rewrite Z.eqb_refl. cbn [negb raise_if mbind result_bind].
    change [x10] with [byte_of_Z V1_FRAME_VERSION].
    rewrite frame_wire_reversion by done. by apply parse_v1_Ok.
Qed.

(** * Application frames *)

Definition app_direction (s : Z) : Prop := s = APP_C2P \/ s = APP_P2C.
Definition app_prefix (seq mt n : Z) : bytes := be_bytes 8 seq ++ [byte_of_Z mt] ++ be_bytes 2 n.
Definition app_payload (seq mt : Z) (ct tag : bytes) : bytes := app_prefix seq mt (blen ct) ++ ct ++ tag.
Definition app_frame (p s seq mt : Z) (ct tag : bytes) : bytes := app_wire p s (app_payload seq mt ct tag).
Arguments app_prefix : simpl never.

Definition app_fields (s seq mt n : Z) : Prop :=
  app_direction s /\ 0 <= seq < 2 ^ 64 /\ 0 <= mt < 256 /\ 0 <= n <= 128.

Lemma direction_Ok s u : _direction s = Ok u <-> app_direction s.
Proof. unfold _direction, app_direction. rewrite raise_if_Ok. lia. Qed.

Lemma sequence_Ok s u : _sequence s = Ok u <-> 0 <= s < 2 ^ 64.
Proof. unfold _sequence. rewrite raise_if_Ok. change UINT64_MAX with (2 ^ 64 - 1). lia. Qed.

Lemma prefix_Ok s seq mt n w :
  _prefix s seq mt n = Ok w <-> app_fields s seq mt n /\ w = app_prefix seq mt n.
Proof.
  unfold _prefix, app_fields. change CP4_MAX_PLAINTEXT with 128. split.
  - intros ([] & Hd%direction_Ok & H)%bind_Ok. apply bind_Ok in H as ([] & Hs%sequence_Ok & H).
    apply bind_Ok in H as ([] & Hc%raise_if_Ok & H).
    assert (0 <= mt < 256 /\ 0 <= n <= 128) as [Hm Hn] by lia. split; [done|].
    rewrite (to_bytes_Ok 8 seq) in H by exact Hs. cbn [mbind result_bind] in H.
    rewrite mk_bytes_1 in H by (by apply is_byte_range). cbn [mbind result_bind] in H.
    rewrite to_bytes_Ok in H by (change (256 ^ Z.of_nat 2) with 65536; lia).
    by apply Ok_inj in H as <-.
  - intros [(Hd & Hs & Hm & Hn) ->]. rewrite (proj2 (direction_Ok s tt)) by done. cbn [mbind result_bind].
    rewrite (proj2 (sequence_Ok seq tt)) by done. cbn [mbind result_bind]. pass; [lia|].
    rewrite (to_bytes_Ok 8 seq) by exact Hs. cbn [mbind result_bind].
    rewrite mk_bytes_1 by (by apply is_byte_range). cbn [mbind result_bind].
    by rewrite to_bytes_Ok by (change (256 ^ Z.of_nat 2) with 65536; lia).
Qed.

Lemma blen_app_prefix seq mt n : blen (app_prefix seq mt n) = 11.
Proof. unfold app_prefix. bytes_len. Qed.

Lemma app_prefix_parts seq mt n r :
  0 <= seq < 2 ^ 64 -> 0 <= mt < 256 -> 0 <= n <= 128 ->
  let pl := app_prefix seq mt n ++ r in
  from_be (bto 8 pl) = seq /\ idx pl 8 = Ok mt /\ from_be (bslice 9 11 pl) = n.
Proof.
  intros Hs Hm Hn pl. unfold pl, app_prefix. rewrite <- !app_assoc. split_and!.
  - rewrite bto_app by bytes_len. rewrite from_be_bytes. apply Z.mod_small. exact Hs.
  - rewrite (idx_lookup _ 8 (byte_of_Z mt)); [by rewrite Z_of_byte_of_Z, Z.mod_small|].
    change (Z.to_nat 8) with 8%nat. rewrite lookup_app_r by (by rewrite length_be_bytes).
    by rewrite length_be_bytes.
  - rewrite (app_assoc (be_bytes 8 seq)). rewrite bslice_app by bytes_len. rewrite from_be_bytes.
    apply Z.mod_small. change (256 ^ Z.of_nat 2) with 65536. lia.
Qed.

Lemma app_payload_valid s seq mt ct tag :
  app_fields s seq mt (blen ct) -> blen tag = 16 -> v1_payload s (app_payload seq mt ct tag).
Proof.
  intros (Hd & Hs & Hm & Hn) Ht. unfold v1_payload, _validate_payload, app_payload.
  destruct (app_prefix_parts seq mt (blen ct) (ct ++ tag) Hs Hm Hn) as (_ & _ & ->).
  replace ((s =? V1_APP_C2P) || (s =? V1_APP_P2C)) with true
    by (unfold app_direction, APP_C2P, APP_P2C in Hd; lia).
  apply raise_if_false. rewrite !blen_app, blen_app_prefix. lia.
Qed.

Lemma encode_application_Ok s seq mt ct tag p raw :
  encode_application_frame s seq mt ct tag p = Ok raw <->
  label_profile p /\ app_fields s seq mt (blen ct) /\ blen tag = 16 /\ raw = app_frame p s seq mt ct tag.
Proof.
  unfold encode_application_frame, TAG_SIZE. split.
  - intros ([] & Ht%raise_if_Ok & H)%bind_Ok. apply negb_false_iff, Z.eqb_eq in Ht.
    apply bind_Ok in H as (w & [Hf ->]%prefix_Ok & (Hp & _ & ->)%encode_app_Ok). done.
  - intros (Hp & Hf & Ht & ->). pass; [lia|]. rewrite (proj2 (prefix_Ok s seq mt (blen ct) _)) by done.
    cbn [mbind result_bind]. apply encode_app_Ok. split_and!; [done|by apply app_payload_valid|done].
Qed.

Lemma bslice_prefix_end n (l1 l2 l3 : bytes) i :
  blen l1 = i -> blen l2 = n - i -> bslice i n (l1 ++ l2 ++ l3) = l2 /\ bfrom n (l1 ++ l2 ++ l3) = l3.
Proof.
  intros H1 H2. split; [by apply bslice_app|]. rewrite app_assoc. apply bfrom_app. rewrite blen_app. lia.
Qed.

Lemma parse_application_Ok raw s p f :
  parse_application_frame raw s p = Ok f <->
  label_profile p /\ a_subtype f = s /\ app_fields s (a_seq f) (a_msg_type f) (blen (a_ciphertext f)) /\
  blen (a_tag f) = 16 /\ raw = app_frame p s (a_seq f) (a_msg_type f) (a_ciphertext f) (a_tag f).
Proof.
  unfold parse_application_frame. change CP4_MAX_PLAINTEXT with 128. unfold TAG_SIZE. split.
  - intros ([] & Hd%direction_Ok & H)%bind_Ok. apply bind_Ok in H as (fr & (Hp & Hv & ->)%parse_app_Ok & H).
    apply bind_Ok in H as ([] & Hs%raise_if_Ok & H). apply negb_false_iff, Z.eqb_eq in Hs.
    apply bind_Ok in H as ([] & Hc%raise_if_Ok & H). apply bind_Ok in H as (m & Hm & H). apply Ok_inj in H as <-.
    destruct fr as [s' pl]. cbn [subtype payload a_subtype a_seq a_msg_type a_ciphertext a_tag] in *. subst s'.
    pose proof (from_be_range (bslice 9 11 pl)). set (n := from_be (bslice 9 11 pl)) in *.
    assert (blen pl = 27 + n /\ 0 <= n <= 128) as [Hl Hn] by lia.
    pose proof (from_be_range (bto 8 pl)) as Hseq. rewrite blen_bto in Hseq by lia.
    replace (Z.min 8 (blen pl)) with 8 in Hseq by lia.
    assert (blen (bslice 11 (blen pl - 16) pl) = n) as Hct by (rewrite blen_bslice by lia; lia).
    destruct (idx_in_range pl 8) as (m' & Hm' & Hmr); [lia|]. rewrite Hm in Hm'. injection Hm' as <-.
    split_and!; [done|done| | |].
    + rewrite Hct. split_and!; try done; try lia; apply Hseq.
    + rewrite blen_bfrom by lia. lia.
    + unfold app_frame, app_payload, app_prefix. f_equal. rewrite Hct.
      apply idx_Ok in Hm as (x & Hx & ->). rewrite byte_of_Z_of_byte.
      replace 8%nat with (length (bto 8 pl)) by (assert (blen (bto 8 pl) = 8) by (rewrite blen_bto by lia; lia); unfold blen in *; lia).
      rewrite be_bytes_from_be. unfold n.
      replace 2%nat with (length (bslice 9 11 pl)) by (assert (blen (bslice 9 11 pl) = 2) by (rewrite blen_bslice by lia; lia); unfold blen in *; lia).
      rewrite be_bytes_from_be, <- !app_assoc. rewrite (bslice_bfrom 11), (bslice_bfrom 9 11) by lia.
      change (bfrom 9 pl) with (drop 9 pl). cbn [app]. change (Z.to_nat 8) with 8%nat in Hx.
      rewrite <- (drop_S pl x 8 Hx). symmetry. apply (bto_bfrom 8).
  - intros (Hp & Hs & Hf & Ht & ->). pose proof Hf as (Hd & Hseq & Hm & Hn).
    rewrite (proj2 (direction_Ok s tt)) by done. cbn [mbind result_bind].
    set (pl := app_payload (a_seq f) (a_msg_type f) (a_ciphertext f) (a_tag f)).
    rewrite (proj2 (parse_app_Ok p _ (mkV1Frame s pl))) by (split_and!; [done|by apply app_payload_valid|done]).
    cbn [mbind result_bind subtype payload]. pass; [lia|].
    destruct (app_prefix_parts (a_seq f) (a_msg_type f) (blen (a_ciphertext f)) (a_ciphertext f ++ a_tag f) Hseq Hm Hn)
      as (H1 & H2 & H3). fold (app_payload (a_seq f) (a_msg_type f) (a_ciphertext f) (a_tag f)) in H1, H2, H3.
    fold pl in H1, H2, H3. rewrite H3.
    assert (blen pl = 27 + blen (a_ciphertext f)) as Hl
      by (unfold pl, app_payload; rewrite !blen_app, blen_app_prefix; lia).
    pass; [lia|]. rewrite H2. cbn [mbind result_bind]. rewrite H1, Hl.
    destruct (bslice_prefix_end (27 + blen (a_ciphertext f) - 16)
      (app_prefix (a_seq f) (a_msg_type f) (blen (a_ciphertext f))) (a_ciphertext f) (a_tag f) 11)
      as [Hb1 Hb2]; [apply blen_app_prefix|lia|].
    unfold pl, app_payload. rewrite Hb1, Hb2. subst s. by destruct f.
Qed.

(** * Nonces and sealed frames *)

Lemma byte_xor_cancel x y : byte_xor x (byte_xor x y) = y.
Proof.
  unfold byte_xor. rewrite Z_of_byte_of_Z.
  rewrite <- (byte_of_Z_of_byte y) at 2. unfold byte_of_Z. do 3 f_equal.
  pose proof (Z_of_byte_range y) as Hy. set (a := Z_of_byte x). set (b := Z_of_byte y) in *.
  rewrite (Z.mod_small b) by lia. change 256 with (2 ^ 8) in *.
  apply Z.bits_inj'. intros n Hn. destruct (Z.lt_ge_cases n 8).
  - rewrite Z.mod_pow2_bits_low, Z.lxor_spec, Z.mod_pow2_bits_low, Z.lxor_spec by lia.
    by destruct (Z.testbit a n), (Z.testbit b n).
  - rewrite Z.mod_pow2_bits_high by lia. rewrite <- (Z.mod_small b (2 ^ 8)) by lia.
    by rewrite Z.mod_pow2_bits_high by lia.
Qed.

Definition ref_nonce (iv : bytes) (seq : Z) : bytes := zip_with byte_xor iv (zeros 4 ++ be_bytes 8 seq).
Arguments ref_nonce : simpl never.

Lemma nonce_Ok iv seq r :
  nonce_for_sequence iv seq = Ok r <-> 0 <= seq < 2 ^ 64 /\ blen iv = 12 /\ r = ref_nonce iv seq.
Proof.
  unfold nonce_for_sequence, IV_SIZE. split.
  - intros ([] & Hs%sequence_Ok & H)%bind_Ok. apply bind_Ok in H as ([] & Hi%raise_if_Ok & H).
    rewrite (to_bytes_Ok 8 seq) in H by exact Hs. apply Ok_inj in H as <-. split_and!; try lia. done.
  - intros (Hs & Hi & ->). rewrite (proj2 (sequence_Ok seq tt)) by done. cbn [mbind result_bind].
    pass; [lia|]. by rewrite (to_bytes_Ok 8 seq) by exact Hs.
Qed.

Lemma zip_xor_inj (iv l1 l2 : bytes) :
  length l1 = length iv -> length l2 = length iv ->
  zip_with byte_xor iv l1 = zip_with byte_xor iv l2 -> l1 = l2.
Proof.
  revert l1 l2. induction iv as [|x iv IH]; intros [|a l1] [|b l2]; try done.
  cbn. intros [= H1] [= H2] [= Hx Ht]. f_equal; [|by apply IH].
  rewrite <- (byte_xor_cancel x a), <- (byte_xor_cancel x b). by f_equal.
Qed.

(** Nonces never repeat: under one IV base, two sequence numbers of 64 bits
    have the same nonce only when they are equal, and every sequence number has
    one; any other input is refused. *)
Theorem cp4_nonce_injective iv :
  (forall s1 s2 n, nonce_for_sequence iv s1 = Ok n -> nonce_for_sequence iv s2 = Ok n -> s1 = s2) /\
  (forall s, (exists n, nonce_for_sequence iv s = Ok n) <-> blen iv = 12 /\ 0 <= s < 2 ^ 64).
Proof.
  split.
  - intros s1 s2 n (H1 & Hi & ->)%nonce_Ok (H2 & _ & He)%nonce_Ok. unfold ref_nonce in He.
    apply zip_xor_inj in He; [|unfold blen in Hi; rewrite length_app, length_be_bytes; change (length (zeros 4)) with 4%nat; lia..].
    apply app_inv_head in He. apply (f_equal from_be) in He. rewrite !from_be_bytes in He.
    rewrite !Z.mod_small in He by assumption. done.
  - intros s. split; [by intros [n (? & ? & _)%nonce_Ok]|]. intros [? ?]. eexists. by apply nonce_Ok.
Qed.

Definition app_header (p s n : Z) : bytes := V1_FRAME_MAGIC ++ [byte_of_Z p; byte_of_Z s] ++ be_bytes 2 (27 + n).
Definition ref_aad (p s seq mt n : Z) (sid : bytes) : bytes :=
  ref_label p (lit "CP4-AAD") ++ sid ++ app_header p s n ++ app_prefix seq mt n.
Arguments ref_aad : simpl never.

Lemma app_frame_split p s seq mt ct tag :
  blen tag = 16 ->
  app_frame p s seq mt ct tag = app_header p s (blen ct) ++ app_prefix seq mt (blen ct) ++ ct ++ tag.
Proof.
  intros Ht. unfold app_frame, app_wire, frame_wire, app_header, app_payload.
  replace (blen (app_prefix seq mt (blen ct) ++ ct ++ tag)) with (27 + blen ct)
    by (rewrite !blen_app, blen_app_prefix; lia).
  by rewrite <- !app_assoc.
Qed.

Lemma blen_app_header p s n : blen (app_header p s n) = 8.
Proof. unfold app_header. bytes_len. Qed.

Lemma cp4_aad_Ok p s seq mt n sid :
  label_profile p -> app_fields s seq mt n -> blen sid = 16 ->
  build_aad sid (app_header p s n) seq mt n p = Ok (ref_aad p s seq mt n sid).
Proof.
  intros Hp Hf Hsid. pose proof (label_profile_byte _ Hp). pose proof Hf as (Hd & _ & _ & Hn).
  assert (0 <= s < 256) as Hs by (destruct Hd as [->| ->]; unfold APP_C2P, APP_P2C, V1_APP_C2P, V1_APP_P2C; lia).
  unfold build_aad. rewrite blen_app_header. pass; [lia|].
  assert (idx (app_header p s n) 5 = Ok s) as ->.
  { rewrite (idx_lookup _ 5 (byte_of_Z s)); [by rewrite Z_of_byte_of_Z, Z.mod_small|]. reflexivity. }
  cbn [mbind result_bind]. rewrite (proj2 (prefix_Ok s seq mt n _)) by done. cbn [mbind result_bind].
  rewrite !mk_bytes_1 by (by apply is_byte_range). cbn [mbind result_bind].
  rewrite to_bytes_Ok by (change (256 ^ Z.of_nat 2) with 65536; lia). cbn [mbind result_bind].
  rewrite bool_decide_eq_true_2 by done. cbn [negb raise_if mbind result_bind].
  rewrite (proj2 (profile_label_Ok p (lit "CP4-AAD") _)) by done. done.
Qed.

Section Sealed.
Context `{AeadLaws}.
Variables (key iv sid : bytes) (p s : Z).
Hypotheses (Hkey : blen key = 32) (Hiv : blen iv = 12) (Hsid : blen sid = 16) (Hp : label_profile p).

Definition sealed_frame (seq mt : Z) (pt : bytes) : bytes :=
  let c := aes_gcm_encrypt key (ref_nonce iv seq) pt (ref_aad p s seq mt (blen pt) sid) in
  app_header p s (blen pt) ++ app_prefix seq mt (blen pt) ++ c.

Lemma encrypt_application_Ok seq mt pt :
  app_fields s seq mt (blen pt) ->
  encrypt_application key iv sid s seq mt pt p = Ok (sealed_frame seq mt pt).
Proof using Hkey Hiv Hsid Hp.
  intros Hf. pose proof Hf as (_ & Hs & _ & Hn).
  unfold encrypt_application. pass; [lia|]. change TAG_SIZE with 16.
  assert (blen (zeros (blen pt)) = blen pt) as Hz by (apply blen_zeros; lia).
  rewrite (proj2 (encode_application_Ok s seq mt (zeros (blen pt)) (zeros 16) p _))
    by (rewrite Hz; split_and!; done).
  cbn [mbind result_bind]. rewrite app_frame_split by done. rewrite Hz.
  rewrite (bto_app 8) by apply blen_app_header. rewrite cp4_aad_Ok by done. cbn [mbind result_bind].
  rewrite (proj2 (nonce_Ok iv seq _)) by done. cbn [mbind result_bind].
  rewrite (app_assoc (app_header p s (blen pt))), bto_app by (rewrite blen_app, blen_app_header, blen_app_prefix; lia).
  unfold sealed_frame. by rewrite <- app_assoc.
Qed.

Lemma sealed_frame_app seq mt pt :
  exists ct tag, sealed_frame seq mt pt = app_frame p s seq mt ct tag /\ blen ct = blen pt /\ blen tag = 16 /\
    ct ++ tag = aes_gcm_encrypt key (ref_nonce iv seq) pt (ref_aad p s seq mt (blen pt) sid).
Proof using H0.
  set (c := aes_gcm_encrypt key (ref_nonce iv seq) pt (ref_aad p s seq mt (blen pt) sid)).
  assert (blen c = blen pt + 16) as Hc by apply aes_gcm_size. pose proof (blen_nonneg pt).
  assert (blen (bto (blen pt) c) = blen pt) as Hb by (rewrite blen_bto by lia; lia).
  assert (blen (bfrom (blen pt) c) = 16) as Ht by (rewrite blen_bfrom by lia; lia).
  exists (bto (blen pt) c), (bfrom (blen pt) c). split_and!; [|done|done|apply bto_bfrom].
  rewrite app_frame_split, Hb, bto_bfrom by done. done.
Qed.

Lemma decrypt_application_inv raw expected pt :
  decrypt_application key iv sid raw s expected p = Ok pt ->
  exists mt ct tag, raw = app_frame p s expected mt ct tag /\ 0 <= expected < UINT64_MAX /\
    mt = (if s =? APP_C2P then PING else PONG) /\ blen pt = 16 /\
    aes_gcm_decrypt key (ref_nonce iv expected) (ct ++ tag) (ref_aad p s expected mt (blen ct) sid) = Some pt.
Proof using Hsid.
  unfold decrypt_application. intros ([] & _ & H1)%bind_Ok.
  apply bind_Ok in H1 as (f & (Hpf & Hs & Hf & Ht & ->)%parse_application_Ok & H1).
  apply bind_Ok in H1 as ([] & Hv & H1). unfold validate_sequence in Hv.
  apply bind_Ok in Hv as ([] & Hs1%sequence_Ok & Hv). apply bind_Ok in Hv as ([] & Hs2%sequence_Ok & Hv%raise_if_Ok).
  assert (a_seq f = expected /\ expected < UINT64_MAX) as [Hseq Hlt]
    by (change UINT64_MAX with (2 ^ 64 - 1) in *; lia). rewrite Hseq in *.
  rewrite app_frame_split, bto_app, cp4_aad_Ok in H1 by (done || apply blen_app_header).
  cbn [mbind result_bind] in H1. apply bind_Ok in H1 as (n & (_ & _ & ->)%nonce_Ok & H1).
  destruct (aes_gcm_decrypt _ _ _ _) as [pt'|] eqn:Hd; [|done].
  apply bind_Ok in H1 as ([] & Hc%raise_if_Ok & H1). apply Ok_inj in H1 as ->.
  exists (a_msg_type f), (a_ciphertext f), (a_tag f).
  split_and!; [done|lia|done| | |done]; unfold CHALLENGE_SIZE in Hc; destruct (s =? APP_C2P); lia.
Qed.

Lemma decrypt_sealed seq pt :
  app_direction s -> 0 <= seq < UINT64_MAX -> blen pt = 16 ->
  decrypt_application key iv sid (sealed_frame seq (if s =? APP_C2P then PING else PONG) pt) s seq p = Ok pt.
Proof using H0 Hkey Hiv Hsid Hp.
  intros Hd Hs Hl. change UINT64_MAX with (2 ^ 64 - 1) in Hs.
  set (mt := if s =? APP_C2P then PING else PONG).
  assert (app_fields s seq mt 16) as Hf
    by (split_and!; try done; try lia; unfold mt, PING, PONG; by destruct (s =? APP_C2P)).
  destruct (sealed_frame_app seq mt pt) as (ct & tag & -> & Hct & Ht & Hc).
  unfold decrypt_application. pass; [lia|]. rewrite Hl in *.
  rewrite (proj2 (parse_application_Ok _ s p (mkApplicationFrame s seq mt ct tag)))
    by (cbn; rewrite Hct; split_and!; done).
  cbn [mbind result_bind a_seq a_msg_type a_ciphertext a_tag]. unfold validate_sequence.
  rewrite !(proj2 (sequence_Ok seq tt)) by lia. cbn [mbind result_bind].
  rewrite (raise_if_false (_ || _)) by (change UINT64_MAX with (2 ^ 64 - 1); lia). cbn [mbind result_bind].
  rewrite app_frame_split, bto_app, Hct, cp4_aad_Ok by (done || apply blen_app_header).
  cbn [mbind result_bind]. rewrite (proj2 (nonce_Ok iv seq _)) by (done || (split_and!; [lia|lia|done|done])).
  cbn [mbind result_bind]. rewrite Hc, aes_gcm_roundtrip. fold mt. pass; [|done].
  unfold CHALLENGE_SIZE. lia.
Qed.
End Sealed.

(** A sealed application frame opens on the other side: with the same key,
    IV base, session id and profile, the receiver at the same sequence number
    gets the 16-byte challenge back; at any other sequence number it refuses the
    frame before it decrypts. *)
Theorem cp4_seal_open `{AeadLaws} key iv sid p s seq pt :
  blen key = 32 -> blen iv = 12 -> blen sid = 16 -> label_profile p -> app_direction s ->
  0 <= seq < UINT64_MAX -> blen pt = 16 ->
  exists raw,
    encrypt_application key iv sid s seq (if s =? APP_C2P then PING else PONG) pt p = Ok raw /\
    blen raw = 51 /\
    decrypt_application key iv sid raw s seq p = Ok pt /\
    (forall other, 0 <= other < 2 ^ 64 -> other <> seq ->
       decrypt_application key iv sid raw s other p =
       Err (ValueError "CP4 replay, out-of-order sequence or sequence exhaustion")).
Proof.
  intros Hk Hi Hsid Hp Hd Hs Hl. change UINT64_MAX with (2 ^ 64 - 1) in Hs.
  set (mt := if s =? APP_C2P then PING else PONG).
  assert (app_fields s seq mt 16) as Hf
    by (split_and!; try done; try lia; unfold mt, PING, PONG; by destruct (s =? APP_C2P)).
  exists (sealed_frame key iv sid p s seq mt pt). split; [by apply encrypt_application_Ok; rewrite ?Hl|].
  split; [|split].
  - unfold sealed_frame. rewrite !blen_app, blen_app_header, blen_app_prefix, aes_gcm_size. lia.
  - by apply decrypt_sealed.
  - intros other Ho Hne. destruct (sealed_frame_app key iv sid p s seq mt pt) as (ct & tag & -> & Hct & Ht & _).
    unfold decrypt_application. pass; [lia|].
    rewrite (proj2 (parse_application_Ok _ s p (mkApplicationFrame s seq mt ct tag)))
      by (cbn; rewrite Hct, Hl; split_and!; done).
    cbn [mbind result_bind a_seq]. unfold validate_sequence.
    rewrite (proj2 (sequence_Ok seq tt)), (proj2 (sequence_Ok other tt)) by lia. cbn [mbind result_bind].
    by rewrite raise_if_true by lia.
Qed.

(** * Every sequence of calls on the application object *)

Inductive app_event :=
  | EvPing (challenge : bytes) (mtu : Z)
  | EvPong (raw challenge : bytes) (mtu : Z).

Section Run.
Context {S : Type} `{AppSessionLaws S, Aead}.
Abbreviation App := (CentralApplication S).

(** The final object, the PING frames returned for sending and the PONG frames
    accepted, each in order. *)
Fixpoint app_run (es : list app_event) (a : App) : App * list bytes * list bytes :=
  match es with
  | [] => (a, [], [])
  | EvPing challenge mtu :: r =>
      let '(out, a') := encrypt_ping challenge mtu a in
      let '(af, pings, pongs) := app_run r a' in
      match out with Ok raw => (af, raw :: pings, pongs) | Err _ => (af, pings, pongs) end
  | EvPong raw challenge mtu :: r =>
      let '(out, a') := accept_pong raw challenge mtu a in
      let '(af, pings, pongs) := app_run r a' in
      match out with Ok _ => (af, pings, raw :: pongs) | Err _ => (af, pings, pongs) end
  end.

Definition secure (a : App) : bool := as_secure (handshake a).

Lemma encrypt_ping_ok challenge mtu a raw a' :
  encrypt_ping challenge mtu a = (Ok raw, a') ->
  secure a = true /\ 0 <= tx_c2p a < UINT64_MAX /\ blen challenge = 16 /\ 54 <= mtu /\
  encrypt_application (as_app_c2p (handshake a)) (iv_c2p a) (as_session_id (handshake a)) APP_C2P (tx_c2p a)
    PING challenge (app_profile a) = Ok raw /\
  a' = mkCentralApplication (handshake a) (app_profile a) (iv_c2p a) (iv_p2c a) (tx_c2p a + 1) (rx_p2c a).
Proof using.
  unfold encrypt_ping, require_secure, secure. meth. destruct (as_secure (handshake a)); [|done].
  cbn [negb raise_if]. destruct (validate_sequence _ _) as [[]|] eqn:Hv; [|done].
  unfold validate_sequence in Hv. apply bind_Ok in Hv as ([] & Hs%sequence_Ok & Hv).
  apply bind_Ok in Hv as ([] & _ & Hv%raise_if_Ok).
  destruct (raise_if _ _) as [[]|] eqn:Hc; [apply raise_if_Ok in Hc|done].
  destruct (encrypt_application _ _ _ _ _ _ _ _) as [w|] eqn:He; [|done].
  intros [= <- <-]. unfold CHALLENGE_SIZE, FRAME_OVERHEAD in Hc. change UINT64_MAX with (2 ^ 64 - 1) in *.
  split_and!; try done; lia.
Qed.

Lemma accept_pong_ok raw challenge mtu a u a' :
  accept_pong raw challenge mtu a = (Ok u, a') ->
  secure a = true /\ blen raw + 3 <= mtu /\
  decrypt_application (as_app_p2c (handshake a)) (iv_p2c a) (as_session_id (handshake a)) raw APP_P2C (rx_p2c a)
    (app_profile a) = Ok challenge /\
  a' = mkCentralApplication (handshake a) (app_profile a) (iv_c2p a) (iv_p2c a) (tx_c2p a) (rx_p2c a + 1).
Proof using.
  unfold accept_pong, require_secure, secure. meth. destruct (as_secure (handshake a)); [|done].
  cbn [negb raise_if]. destruct (mtu <? blen raw + 3) eqn:Hm; [done|]. cbn [raise_if].
  destruct (decrypt_application _ _ _ _ _ _ _) as [pt|] eqn:Hd; [|done].
  unfold compare_digest. destruct (bool_decide_reflect (pt = challenge)) as [->|]; [|done].
  cbn [negb raise_if]. intros [= <- <-]. split_and!; try done. lia.
Qed.

(** A call that raises clears the object and the owner of the keys. *)
Definition cleared (a : App) : Prop := secure a = false.

Lemma encrypt_ping_err challenge mtu a x a' : encrypt_ping challenge mtu a = (Err x, a') -> cleared a'.
Proof using H0.
  intros [b ->]%cleanup_on_error_Err. apply as_clear_insecure.
Qed.

Lemma accept_pong_err raw challenge mtu a x a' : accept_pong raw challenge mtu a = (Err x, a') -> cleared a'.
Proof using H0.
  intros [b ->]%cleanup_on_error_Err. apply as_clear_insecure.
Qed.

Lemma app_run_cleared es a : cleared a -> (app_run es a).1.2 = [] /\ (app_run es a).2 = [].
Proof using H0.
  revert a. induction es as [|e es IH]; intros a Ha; [done|]. unfold cleared in Ha. destruct e; cbn [app_run].
  - destruct (encrypt_ping challenge mtu a) as [[w|x] a'] eqn:He.
    + apply encrypt_ping_ok in He as (Hs & _). by rewrite Ha in Hs.
    + apply encrypt_ping_err in He. specialize (IH a' He). by destruct (app_run es a') as [[??]?].
  - destruct (accept_pong raw challenge mtu a) as [[w|x] a'] eqn:He.
    + apply accept_pong_ok in He as (Hs & _). by rewrite Ha in Hs.
    + apply accept_pong_err in He. specialize (IH a' He). by destruct (app_run es a') as [[??]?].
Qed.
End Run.

(** A frame that carries this sequence number in this direction. *)
Definition carries (p s : Z) (seq : Z) (raw : bytes) : Prop :=
  exists mt ct tag, 0 <= seq < UINT64_MAX /\ blen tag = 16 /\ raw = app_frame p s seq mt ct tag.

Lemma carries_inj p s s1 s2 raw : carries p s s1 raw -> carries p s s2 raw -> s1 = s2.
Proof.
  intros (mt & ct & tag & Hs1 & Ht & ->) (mt' & ct' & tag' & Hs2 & Ht' & He).
  change UINT64_MAX with (2 ^ 64 - 1) in *. rewrite !app_frame_split in He by done.
  apply app_inj_1 in He as [_ He];
    [|pose proof (blen_app_header p s (blen ct)); pose proof (blen_app_header p s (blen ct')); unfold blen in *; lia].
  unfold app_prefix in He. rewrite <- !app_assoc in He. apply app_inj_1 in He as [He _]; [|by rewrite !length_be_bytes].
  apply (f_equal from_be) in He. rewrite !from_be_bytes in He.
  rewrite !Z.mod_small in He by (change (256 ^ Z.of_nat 8) with (2 ^ 64); lia). done.
Qed.

Lemma encrypt_application_inv `{AeadLaws} key iv sid s seq mt pt p raw :
  encrypt_application key iv sid s seq mt pt p = Ok raw -> seq < UINT64_MAX -> carries p s seq raw.
Proof.
  intros He Hlt. pose proof He as He'. unfold encrypt_application in He'.
  apply bind_Ok in He' as ([] & Hk%raise_if_Ok & He').
  apply bind_Ok in He' as (sk & (Hp & Hf & _ & ->)%encode_application_Ok & He').
  apply bind_Ok in He' as (aad & Ha & He'). unfold build_aad in Ha.
  apply bind_Ok in Ha as ([] & Hsid%raise_if_Ok & _).
  apply bind_Ok in He' as (n & (_ & Hi & _)%nonce_Ok & _).
  rewrite blen_zeros in Hf by apply blen_nonneg. pose proof Hf as (_ & Hs & _).
  rewrite encrypt_application_Ok in He by (done || lia). injection He as <-.
  destruct (sealed_frame_app key iv sid p s seq mt pt) as (ct & tag & -> & _ & Ht & _).
  exists mt, ct, tag. split_and!; (done || lia).
Qed.

Lemma decrypt_application_carries `{Aead} key iv sid raw s seq p pt :
  decrypt_application key iv sid raw s seq p = Ok pt -> carries p s seq raw.
Proof.
  unfold decrypt_application. intros ([] & _ & H1)%bind_Ok.
  apply bind_Ok in H1 as (f & (Hpf & Hs & Hf & Ht & ->)%parse_application_Ok & H1).
  apply bind_Ok in H1 as ([] & Hv & _). unfold validate_sequence in Hv.
  apply bind_Ok in Hv as ([] & Hs1%sequence_Ok & Hv). apply bind_Ok in Hv as ([] & _ & Hv%raise_if_Ok).
  exists (a_msg_type f), (a_ciphertext f), (a_tag f). change UINT64_MAX with (2 ^ 64 - 1) in *.
  assert (a_seq f = seq) as <- by lia. split_and!; (done || lia).
Qed.

(** The calls of [encrypt_application] and [decrypt_application] behind the frames
    of a run: the keys, the IV bases and the session id are those of the object, and
    the sequence numbers count up. *)
Lemma app_run_calls {S} `{AppSessionLaws S, Aead} es (a : CentralApplication S) :
  let h := handshake a in
  let r := app_run es a in
  (forall i raw, r.1.2 !! i = Some raw -> tx_c2p a + Z.of_nat i < UINT64_MAX /\
     exists challenge, blen challenge = CHALLENGE_SIZE /\
     encrypt_application (as_app_c2p h) (iv_c2p a) (as_session_id h) APP_C2P (tx_c2p a + Z.of_nat i) PING challenge
       (app_profile a) = Ok raw) /\
  (forall i raw, r.2 !! i = Some raw -> exists challenge,
     decrypt_application (as_app_p2c h) (iv_p2c a) (as_session_id h) raw APP_P2C (rx_p2c a + Z.of_nat i)
       (app_profile a) = Ok challenge).
Proof.
  revert a. induction es as [|e es IH]; intros a; cbn zeta.
  { split; by intros [|i] raw Hi. }
  destruct e as [challenge mtu|raw0 challenge mtu]; cbn [app_run].
  - destruct (encrypt_ping challenge mtu a) as [[w|x] a'] eqn:He.
    + apply encrypt_ping_ok in He as (_ & Htx & Hc & _ & He & ->). specialize (IH (mkCentralApplication (handshake a)
        (app_profile a) (iv_c2p a) (iv_p2c a) (tx_c2p a + 1) (rx_p2c a))).
      destruct (app_run es _) as [[af pings] pongs].
      cbn [fst snd app_profile tx_c2p rx_p2c handshake iv_c2p iv_p2c] in *.
      destruct IH as [IH1 IH2]. split; [|done]. intros [|i] raw Hi; cbn in Hi.
      * injection Hi as <-. rewrite Z.add_0_r. split; [lia|]. by exists challenge.
      * replace (tx_c2p a + Z.of_nat (Datatypes.S i)) with (tx_c2p a + 1 + Z.of_nat i) by lia. by apply IH1.
    + apply encrypt_ping_err in He. destruct (app_run_cleared es a' He) as [Hn1 Hn2].
      destruct (app_run es a') as [[af pings] pongs]. cbn [fst snd] in *. subst.
      split; by intros [|i] raw Hi.
  - destruct (accept_pong raw0 challenge mtu a) as [[w|x] a'] eqn:He.
    + apply accept_pong_ok in He as (_ & _ & He & ->). specialize (IH (mkCentralApplication (handshake a)
        (app_profile a) (iv_c2p a) (iv_p2c a) (tx_c2p a) (rx_p2c a + 1))).
      destruct (app_run es _) as [[af pings] pongs].
      cbn [fst snd app_profile tx_c2p rx_p2c handshake iv_c2p iv_p2c] in *.
      destruct IH as [IH1 IH2]. split; [done|]. intros [|i] raw Hi; cbn in Hi.
      * injection Hi as <-. rewrite Z.add_0_r. by exists challenge.
      * replace (rx_p2c a + Z.of_nat (Datatypes.S i)) with (rx_p2c a + 1 + Z.of_nat i) by lia. by apply IH2.
    + apply accept_pong_err in He. destruct (app_run_cleared es a' He) as [Hn1 Hn2].
      destruct (app_run es a') as [[af pings] pongs]. cbn [fst snd] in *. subst.
      split; by intros [|i] raw Hi.
Qed.

(** The exception by which a call ends, and a run up to one. *)
Definition raised {S} `{AppSession S, Aead} (e : app_event) (a : CentralApplication S) : Prop :=
  match e with
  | EvPing challenge mtu => exists x, (encrypt_ping challenge mtu a).1 = Err x
  | EvPong raw challenge mtu => exists x, (accept_pong raw challenge mtu a).1 = Err x
  end.

Lemma app_run_raised {S} `{AppSessionLaws S, Aead} es1 e es2 (a : CentralApplication S) :
  raised e (app_run es1 a).1.1 ->
  (app_run (es1 ++ e :: es2) a).1.2 = (app_run es1 a).1.2 /\ (app_run (es1 ++ e :: es2) a).2 = (app_run es1 a).2.
Proof.
  revert a. induction es1 as [|e1 es1 IH]; intros a; cbn [app app_run].
  - destruct e as [challenge mtu|raw challenge mtu]; cbn [raised app_run fst snd].
    + destruct (encrypt_ping challenge mtu a) as [r a'] eqn:He. cbn [fst]. intros [x ->].
      apply encrypt_ping_err in He. destruct (app_run_cleared es2 a' He) as [Hn1 Hn2].
      by destruct (app_run es2 a') as [[??]?].
    + destruct (accept_pong raw challenge mtu a) as [r a'] eqn:He. cbn [fst]. intros [x ->].
      apply accept_pong_err in He. destruct (app_run_cleared es2 a' He) as [Hn1 Hn2].
      by destruct (app_run es2 a') as [[??]?].
  - destruct e1 as [challenge mtu|raw challenge mtu].
    + destruct (encrypt_ping challenge mtu a) as [r a']. specialize (IH a').
      destruct (app_run es1 a') as [[af pings] pongs], (app_run (es1 ++ e :: es2) a') as [[af' pings'] pongs'].
      destruct r; cbn [fst snd] in *; intros Hr; destruct (IH Hr) as [-> ->]; done.
    + destruct (accept_pong raw challenge mtu a) as [r a']. specialize (IH a').
      destruct (app_run es1 a') as [[af pings] pongs], (app_run (es1 ++ e :: es2) a') as [[af' pings'] pongs'].
      destruct r; cbn [fst snd] in *; intros Hr; destruct (IH Hr) as [-> ->]; done.
Qed.

Lemma carries_NoDup p s b (l : list bytes) :
  (forall i raw, l !! i = Some raw -> carries p s (b + Z.of_nat i) raw) -> NoDup l.
Proof.
  intros Hl. apply NoDup_alt. intros i j raw Hi Hj.
  pose proof (carries_inj _ _ _ _ _ (Hl i raw Hi) (Hl j raw Hj)). lia.
Qed.

(** ** Keys and nonces *)

(** [raw] is a PING with this sequence number, sealed under [key] and [nonce]. *)
Definition sealed_ping `{Aead} (p : Z) (key sid : bytes) (seq : Z) (nonce raw : bytes) : Prop :=
  exists challenge, blen challenge = CHALLENGE_SIZE /\
    raw = app_header p APP_C2P CHALLENGE_SIZE ++ app_prefix seq PING CHALLENGE_SIZE ++
            aes_gcm_encrypt key nonce challenge (ref_aad p APP_C2P seq PING CHALLENGE_SIZE sid).

(** [raw] is a PONG with this sequence number, opened under [key] and [nonce]. *)
Definition opened_pong `{Aead} (p : Z) (key sid : bytes) (seq : Z) (nonce raw : bytes) : Prop :=
  exists ct tag challenge, blen challenge = CHALLENGE_SIZE /\
    raw = app_frame p APP_P2C seq PONG ct tag /\
    aes_gcm_decrypt key nonce (ct ++ tag) (ref_aad p APP_P2C seq PONG (blen ct) sid) = Some challenge.

(** The nonces of [n] messages under one IV base, in order. *)
Definition nonces (iv : bytes) (n : nat) : list bytes := map (fun i => ref_nonce iv (Z.of_nat i)) (seq 0 n).

Lemma ref_nonce_inj iv s1 s2 :
  blen iv = 12 -> 0 <= s1 < 2 ^ 64 -> 0 <= s2 < 2 ^ 64 -> ref_nonce iv s1 = ref_nonce iv s2 -> s1 = s2.
Proof.
  intros Hi H1 H2 He. apply (proj1 (cp4_nonce_injective iv) s1 s2 (ref_nonce iv s1)); apply nonce_Ok; split_and!; (done || lia).
Qed.

Lemma nonces_NoDup iv n : blen iv = 12 -> Z.of_nat n <= 2 ^ 64 -> NoDup (nonces iv n).
Proof.
  intros Hi Hn. apply NoDup_alt. intros i j x. unfold nonces. rewrite !list_lookup_fmap.
  destruct (seq 0 n !! i) as [i'|] eqn:Hii; [|done]. destruct (seq 0 n !! j) as [j'|] eqn:Hjj; [|done].
  apply lookup_seq in Hii as [-> ?]. apply lookup_seq in Hjj as [-> ?]. cbn. intros [= <-] [= He].
  apply ref_nonce_inj in He; [lia|done|lia..].
Qed.

Lemma ping_sealed `{AeadLaws} key iv sid s challenge p raw :
  encrypt_application key iv sid APP_C2P s PING challenge p = Ok raw -> blen challenge = CHALLENGE_SIZE ->
  blen iv = 12 /\ sealed_ping p key sid s (ref_nonce iv s) raw.
Proof.
  intros He Hc. pose proof He as He'. unfold encrypt_application in He'.
  apply bind_Ok in He' as ([] & Hk%raise_if_Ok & He').
  apply bind_Ok in He' as (sk & (Hp & Hf & _ & ->)%encode_application_Ok & He').
  apply bind_Ok in He' as (aad & Ha & He'). unfold build_aad in Ha.
  apply bind_Ok in Ha as ([] & Hsid%raise_if_Ok & _).
  apply bind_Ok in He' as (n & (_ & Hi & _)%nonce_Ok & _).
  rewrite blen_zeros in Hf by apply blen_nonneg. split; [done|].
  rewrite encrypt_application_Ok in He by (done || lia). injection He as <-.
  exists challenge. split; [done|]. unfold sealed_frame. by rewrite Hc.
Qed.

Lemma pong_opened `{AeadLaws} key iv sid raw s p challenge :
  decrypt_application key iv sid raw APP_P2C s p = Ok challenge ->
  blen iv = 12 /\ opened_pong p key sid s (ref_nonce iv s) raw.
Proof.
  intros Hd. pose proof Hd as Hn. unfold decrypt_application in Hn.
  apply bind_Ok in Hn as ([] & _ & Hn). apply bind_Ok in Hn as (f & _ & Hn).
  apply bind_Ok in Hn as ([] & _ & Hn). apply bind_Ok in Hn as (aad & Ha & Hn).
  apply bind_Ok in Hn as (n & (_ & Hi & _)%nonce_Ok & _). unfold build_aad in Ha.
  apply bind_Ok in Ha as ([] & Hsid%raise_if_Ok & _). split; [done|].
  apply decrypt_application_inv in Hd as (mt & ct & tag & -> & _ & -> & Hc & Hd); [|lia].
  by exists ct, tag, challenge.
Qed.

(** The frames of one direction, each with its nonce. *)
Lemma frames_nonces iv (l : list bytes) (P : Z -> bytes -> bytes -> Prop) :
  (forall i raw, l !! i = Some raw -> Z.of_nat i < UINT64_MAX /\ blen iv = 12 /\ P (Z.of_nat i) (ref_nonce iv (Z.of_nat i)) raw) ->
  NoDup (nonces iv (length l)) /\
  (forall i raw, l !! i = Some raw -> exists n, nonces iv (length l) !! i = Some n /\ P (Z.of_nat i) n raw).
Proof.
  intros Hl. split.
  - destruct (l !! pred (length l)) as [w|] eqn:Hw.
    2: { apply lookup_ge_None in Hw. destruct l; [constructor|cbn in Hw; lia]. }
    apply Hl in Hw as (Hb & Hi & _). apply nonces_NoDup; [done|].
    change UINT64_MAX with (2 ^ 64 - 1) in Hb. lia.
  - intros i raw Hi. pose proof (lookup_lt_Some _ _ _ Hi). exists (ref_nonce iv (Z.of_nat i)). split; [|by eapply Hl].
    unfold nonces. rewrite list_lookup_fmap, lookup_seq_lt by done. done.
Qed.

(** C27. No nonce reuse and no replay on the application object, against any
    owner of the keys that honours the session interface and any sequence of
    sends and received frames. The i-th PING sent carries sequence number i and is
    sealed under the key of its direction and the i-th of a list of nonces that
    are all different, so no (key, nonce) pair is used twice; the i-th PONG accepted
    carries sequence number i and was opened under the i-th nonce of the other
    direction, so no frame is accepted twice or out of order. From the first call
    that raises on, wherever it comes, nothing more is sent or accepted. *)
Theorem cp4_trace {S} `{AppSessionLaws S, AeadLaws} es (a af : CentralApplication S) pings pongs :
  tx_c2p a = 0 -> rx_p2c a = 0 -> app_run es a = (af, pings, pongs) ->
  (forall i raw, pings !! i = Some raw -> carries (app_profile a) APP_C2P (Z.of_nat i) raw) /\
  (forall i raw, pongs !! i = Some raw -> carries (app_profile a) APP_P2C (Z.of_nat i) raw) /\
  NoDup pings /\ NoDup pongs /\
  (let sent := nonces (iv_c2p a) (length pings) in
   let received := nonces (iv_p2c a) (length pongs) in
   NoDup sent /\ NoDup received /\
   (forall i raw, pings !! i = Some raw -> exists n, sent !! i = Some n /\
      sealed_ping (app_profile a) (as_app_c2p (handshake a)) (as_session_id (handshake a)) (Z.of_nat i) n raw) /\
   (forall i raw, pongs !! i = Some raw -> exists n, received !! i = Some n /\
      opened_pong (app_profile a) (as_app_p2c (handshake a)) (as_session_id (handshake a)) (Z.of_nat i) n raw)) /\
  (forall es1 e es2, es = es1 ++ e :: es2 -> raised e (app_run es1 a).1.1 ->
     pings = (app_run es1 a).1.2 /\ pongs = (app_run es1 a).2).
Proof.
  intros Ht Hx Hr. pose proof (app_run_calls es a) as [Hp Hq]. rewrite Hr, Ht, Hx in *. cbn [fst snd] in *.
  assert (forall i raw, pings !! i = Some raw -> carries (app_profile a) APP_C2P (0 + Z.of_nat i) raw) as Hc1.
  { intros i raw Hi. destruct (Hp i raw Hi) as (Hlt & ch & Hc & He). by eapply encrypt_application_inv. }
  assert (forall i raw, pongs !! i = Some raw -> carries (app_profile a) APP_P2C (0 + Z.of_nat i) raw) as Hc2.
  { intros i raw Hi. destruct (Hq i raw Hi) as (ch & Hd). by eapply decrypt_application_carries. }
  split; [exact Hc1|]. split; [exact Hc2|]. split; [by eapply carries_NoDup|]. split; [by eapply carries_NoDup|]. split.
  - destruct (frames_nonces (iv_c2p a) pings (sealed_ping (app_profile a) (as_app_c2p (handshake a))
      (as_session_id (handshake a)))) as [Hn1 Hs].
    { intros i raw Hi. destruct (Hp i raw Hi) as (Hlt & ch & Hc & He). split; [done|]. by eapply ping_sealed. }
    destruct (frames_nonces (iv_p2c a) pongs (opened_pong (app_profile a) (as_app_p2c (handshake a))
      (as_session_id (handshake a)))) as [Hn2 Ho].
    { intros i raw Hi. destruct (Hc2 i raw Hi) as (? & ? & ? & Hlt & _). apply Hq in Hi as (ch & Hd).
      split; [lia|]. by eapply pong_opened. }
    by split_and!.
  - intros es1 e es2 -> Hra. destruct (app_run_raised es1 e es2 a Hra) as [H1' H2']. by rewrite Hr in H1', H2'.
Qed.

(** * Witnesses *)

Lemma cp4_seal_open_witness :
  exists raw,
    @encrypt_application Toy.aead (zeros 32) (zeros 12) (zeros 16) APP_C2P 7 PING (be_bytes 16 99) 0x10 = Ok raw /\
    blen raw = 51 /\
    @decrypt_application Toy.aead (zeros 32) (zeros 12) (zeros 16) raw APP_C2P 7 0x10 = Ok (be_bytes 16 99).
Proof.
  destruct (@cp4_seal_open Toy.aead Toy.aead_laws (zeros 32) (zeros 12) (zeros 16) 0x10 APP_C2P 7 (be_bytes 16 99)
    eq_refl eq_refl eq_refl ltac:(left; reflexivity) ltac:(left; reflexivity)
    ltac:(split; vm_compute; congruence) eq_refl) as (raw & H1 & H2 & H3 & _).
  exists raw. exact (conj H1 (conj H2 H3)).
Defined.

Definition demo_application : CentralApplication CentralHandshake :=
  mkCentralApplication (mkCentralHandshake APP_SECURE [] [] [] [] (zeros 32) (zeros 32) (zeros 16)) 0x10
    (zeros 12) (zeros 12) 0 0.

Definition demo_app_events : list app_event :=
  [EvPing (be_bytes 16 1) 512; EvPing (be_bytes 16 1) 512; EvPong (zeros 51) (be_bytes 16 1) 512;
   EvPing (be_bytes 16 2) 512].

(** Two PINGs leave; the forged PONG closes the session, so the third does not. *)
Lemma cp4_trace_witness :
  exists af pings pongs, @app_run CentralHandshake _ Toy.aead demo_app_events demo_application = (af, pings, pongs) /\
    length pings = 2%nat /\ NoDup pings /\ NoDup (nonces (iv_c2p demo_application) 2).
Proof.
  assert (length (@app_run CentralHandshake _ Toy.aead demo_app_events demo_application).1.2 = 2%nat) as Hl
    by (vm_compute; reflexivity).
  destruct (@app_run CentralHandshake _ Toy.aead demo_app_events demo_application) as [[af pings] pongs] eqn:Hr.
  destruct (@cp4_trace CentralHandshake _ _ Toy.aead Toy.aead_laws demo_app_events demo_application af pings pongs
    eq_refl eq_refl Hr) as (_ & _ & Hn & _ & (Hs & _) & _).
  exists af, pings, pongs. cbn in Hl. rewrite Hl in Hs. exact (conj eq_refl (conj Hl (conj Hn Hs))).
Defined.
