(* ===== verification/Cp3Central.v ===== *)
(** src/src/central/v1_cp3.py and v1_cp4.py: the handshake that CP3 runs over the
    attested link, and the two application rounds that CP4 adds to it.

    The session object is shared: by the coroutine, by the client, whose
    disconnect callback clears it, by the notification callback, which clears it
    too, and by the application object of CP4. It is a field of the runner's
    variables, and the client holds a reference to it. The task that watches the
    link is part of the environment: all it does is cancel the exchange, which
    every await allows, and [GuardFailed] says whether it did. *)

From stdpp Require Import sets.
From S2P Require Import Prelude Py Digest Interfaces World BleClient Runs Policy Constants Fragmentation Frame Sas V1Smp V1Cp3 V1Cp4 V1Central.
Open Scope Z_scope.

(** References to the two objects of this run. An object of an earlier run that
    the client still holds is another reference, and clearing it changes nothing
    here. *)
Definition SESSION : ref := 1.
Definition APPLICATION : ref := 2.

(** [asyncio.Future] of a reply. *)
Inductive future := Pending | Resolved (b : bytes) | Rejected (x : exn).

(** What [CentralApplication] has besides the session. *)
Record app_fields := mkAppFields {
  fa_profile : Z;
  fa_iv_c2p : bytes;
  fa_iv_p2c : bytes;
  fa_tx : Z;
  fa_rx : Z;
}.

Record cp3_locals := mkCp3Locals {
  c3_v1 : v1_run;
  (* fields of the result *)
  start_sent : bool;
  transcript_match : bool;
  finished_c_sent : bool;
  finished_p_verified : bool;
  app_secure : bool;
  authenticated_rounds : Z;
  (* _exchange *)
  session_link : option link;
  secret : bytes;
  session : CentralHandshake;
  application_active : bool;
  success : bool;
  (* _cp4_exchange *)
  has_application : bool;          (* application_notification is not None *)
  app : option app_fields;
  app_link : option link;
  reply : option future;
  challenge : bytes;
}.

Definition set_c3_v1 (v : v1_run) (l : cp3_locals) : cp3_locals :=
  mkCp3Locals v (start_sent l) (transcript_match l) (finished_c_sent l) (finished_p_verified l)
    (app_secure l) (authenticated_rounds l) (session_link l) (secret l) (session l)
    (application_active l) (success l) (has_application l) (app l) (app_link l) (reply l) (challenge l).

Definition set_result (ss tm fc fp sec : bool) (n : Z) (l : cp3_locals) : cp3_locals :=
  mkCp3Locals (c3_v1 l) ss tm fc fp sec n (session_link l) (secret l) (session l)
    (application_active l) (success l) (has_application l) (app l) (app_link l) (reply l) (challenge l).

Definition set_exchange (lk : option link) (s : bytes) (h : CentralHandshake) (active ok : bool)
    (l : cp3_locals) : cp3_locals :=
  mkCp3Locals (c3_v1 l) (start_sent l) (transcript_match l) (finished_c_sent l)
    (finished_p_verified l) (app_secure l) (authenticated_rounds l) lk s h active ok
    (has_application l) (app l) (app_link l) (reply l) (challenge l).

Definition set_secret (s : bytes) (l : cp3_locals) : cp3_locals :=
  set_exchange (session_link l) s (session l) (application_active l) (success l) l.
Definition set_session (h : CentralHandshake) (l : cp3_locals) : cp3_locals :=
  set_exchange (session_link l) (secret l) h (application_active l) (success l) l.
Definition set_active (l : cp3_locals) : cp3_locals :=
  set_exchange (session_link l) (secret l) (session l) true (success l) l.
Definition set_success (l : cp3_locals) : cp3_locals :=
  set_exchange (session_link l) (secret l) (session l) (application_active l) true l.

Definition set_application (has : bool) (a : option app_fields) (lk : option link)
    (r : option future) (c : bytes) (l : cp3_locals) : cp3_locals :=
  mkCp3Locals (c3_v1 l) (start_sent l) (transcript_match l) (finished_c_sent l)
    (finished_p_verified l) (app_secure l) (authenticated_rounds l) (session_link l) (secret l)
    (session l) (application_active l) (success l) has a lk r c.

Definition set_app (a : option app_fields) (l : cp3_locals) : cp3_locals :=
  set_application (has_application l) a (app_link l) (reply l) (challenge l) l.
Definition set_reply (r : option future) (l : cp3_locals) : cp3_locals :=
  set_application (has_application l) (app l) (app_link l) r (challenge l) l.
Definition set_challenge (c : bytes) (l : cp3_locals) : cp3_locals :=
  set_application (has_application l) (app l) (app_link l) (reply l) c l.

(** The application object, with the session it shares. *)
Definition app_object (f : app_fields) (h : CentralHandshake) : CentralApplication CentralHandshake :=
  mkCentralApplication h (fa_profile f) (fa_iv_c2p f) (fa_iv_p2c f) (fa_tx f) (fa_rx f).

Definition app_store (a : CentralApplication CentralHandshake) (l : cp3_locals) : cp3_locals :=
  set_app (Some (mkAppFields (app_profile a) (iv_c2p a) (iv_p2c a) (tx_c2p a) (rx_p2c a)))
    (set_session (handshake a) l).

(** [app.clear()], when there is one. *)
Definition app_clear (l : cp3_locals) : cp3_locals :=
  match app l with
  | Some f => app_store (CentralApplication_clear (app_object f (session l))) l
  | None => l
  end.

Definition session_clear (l : cp3_locals) : cp3_locals := set_session (V1Cp3.clear (session l)) l.

(** ** Callbacks *)

(** [require_live] of CP4, given [client.is_connected]. *)
Definition live (x : BLECentralClient) (connected : bool) (l : cp3_locals) : bool :=
  match app l with
  | None => false
  | Some _ =>
      bool_decide (state (session l) = APP_SECURE)
      && bool_decide (_v1_cp3_session x = Some SESSION)
      && connected
      && bool_decide (_client x = app_link l)
      && bool_decide (_v1_cp3_link x = app_link l)
      && bool_decide (_v1_notify_link x = app_link l)
  end.

Definition reply_pending (l : cp3_locals) : bool :=
  match reply l with Some Pending => true | _ => false end.

Definition on_application (x : BLECentralClient) (connected : bool) (data : bytes) (l : cp3_locals)
  : cp3_locals :=
  let refuse exc :=
    let l' := app_clear l in
    if reply_pending l then set_reply (Some (Rejected exc)) l' else l' in
  if negb (live x connected l)
  then refuse (V1Error "CP4 connection/session/subscription invalidated")
  else if negb (reply_pending l) then refuse (V1Error "unsolicited or duplicate CP4 notification")
  else set_reply (Some (Resolved data)) l.

Definition queue_notification (data : bytes) (l : cp3_locals) : cp3_locals :=
  set_c3_v1 (set_v1_notifications (v1_notifications (c3_v1 l) ++ [data]) (c3_v1 l)) l.

Definition deliver_notification (x : BLECentralClient) (connected : bool) (data : bytes)
    (l : cp3_locals) : cp3_locals :=
  if application_active l && has_application l then on_application x connected data l
  else
    queue_notification data
      (if bool_decide (state (session l) = APP_SECURE)
          || negb (bool_decide (_client x = session_link l)) || negb connected
       then session_clear l else l).

#[export] Instance cp3_program : Program cp3_locals := {
  clear_object o l :=
    if o =? SESSION then session_clear l else if o =? APPLICATION then app_clear l else l;
  on_data := deliver_notification;
}.

#[export] Instance cp3_v1_locals : V1Locals cp3_locals := {
  v1 := c3_v1;
  set_v1 f l := set_c3_v1 (f (c3_v1 l)) l;
  new_result r l := set_result false false false false false 0
                      (set_c3_v1 (set_v1_result (fun _ => r) (c3_v1 l)) l);
}.

Lemma app_clear_v1 l : c3_v1 (app_clear l) = c3_v1 l.
Proof. unfold app_clear. by destruct (app l). Qed.

#[export] Instance cp3_v1_laws : V1Laws cp3_locals.
Proof.
  split; [done|done|..].
  - intros x b data l d. cbn. unfold deliver_notification.
    destruct (_ && _).
    + unfold on_application. repeat case_match; cbn; rewrite ?app_clear_v1; set_solver.
    + by destruct (_ || _).
  - intros o l. cbn. repeat case_match; cbn; by rewrite ?app_clear_v1.
Qed.

Section Exchange.
Context {W : Type} `{Env W, Kem, Aead}.

Abbreviation coroutine := (method (io W (host cp3_locals))).

Definition get_local : coroutine cp3_locals := h ← get_own; mret (local h).
Definition update_local (f : cp3_locals -> cp3_locals) : coroutine unit := update_own (on_local f).

Definition on_session {A} (m : method CentralHandshake A) : coroutine A :=
  call (fun h => session (local h)) (fun s h => on_local (set_session s) h) m.

Definition require_same_link : coroutine unit :=
  l ← get_local;
  raise_when (bool_decide (session_link l = None))
    (V1Error "CP3 connection lost or replaced; refusing to continue");;
  connected ← is_connected;
  current ← raw_client;
  raise_when (negb connected || negb (bool_decide (current = session_link l))
              || bool_decide (state (session l) = CLOSED))
    (V1Error "CP3 connection lost or replaced; refusing to continue").

Definition receive (expected_subtype : Z) : coroutine bytes :=
  require_same_link;;
  raw ← try_except (fun x => bool_decide (x = AsyncTimeoutError))
    (fun exc => raise (V1ErrorFrom "CP3 timed out waiting" exc)) next_notification;
  require_same_link;;
  frame ← run (parse_v1_frame raw);
  (if subtype frame =? V1_ERROR then run (idx (payload frame) 0);; raise (V1Error "DK CP3 ERROR")
   else mret tt);;
  raise_when (negb (subtype frame =? expected_subtype)) (V1Error "CP3 expected another subtype");;
  mret raw.

Definition attest : coroutine (bytes * V1SecurityInfo) :=
  require_same_link;;
  require_empty "unsolicited CP3 notification before SEC_QUERY";;
  query ← run encode_sec_query;
  send_control query;;
  raw ← receive V1_SEC_INFO;
  info ← run (parse_sec_info raw);
  raise_when (negb (is_authenticated_level4 info)) (V1Error "CP3 requires strict Level 4");;
  mret (raw, info).

(** From the attested link to the delivered ciphertext. *)
Definition send_ciphertext : coroutine (bytes * bytes * bytes) :=
  pk ← read_fragmented_public_key;
  require_same_link;;
  raise_when (negb (blen pk =? PK_SIZE)) (V1Error "ML-KEM public key must be 1184 bytes");;
  update_v1 (set_v1_result (set_public_key_len (blen pk)));;
  coins ← query_env Coins;
  encapsulated ← run (encapsulate pk coins);
  let '(ct, raw_secret) := encapsulated in
  update_local (set_secret raw_secret);;
  raise_when (negb (blen ct =? CT_SIZE) || negb (blen raw_secret =? SS_SIZE))
    (V1Error "invalid ML-KEM-768 ciphertext/shared-secret size");;
  require_same_link;;
  fragments ← write_fragmented_ciphertext ct;
  update_v1 (set_v1_result (set_fragments fragments));;
  require_same_link;;
  mret (pk, ct, raw_secret).

(** [await asyncio.sleep(0)], then nothing may be waiting. *)
Definition settle (message : string) : coroutine unit :=
  perform Wait;;
  require_same_link;;
  require_empty message.

Definition send_start (pk ct raw_secret : bytes) : coroutine V1SecurityInfo :=
  attestation ← attest;
  let '(sec, info) := attestation in
  urandom ← query_env (Urandom 16);
  start ← run (encode_v1_frame V1_START_CP3 urandom);
  on_session (begin raw_secret sec pk ct start);;
  settle "unsolicited CP3 notification before START_CP3";;
  send_control start;;
  require_same_link;;
  update_local (fun l => set_result true (transcript_match l) (finished_c_sent l)
                           (finished_p_verified l) (app_secure l) (authenticated_rounds l) l);;
  mret info.

Definition exchange_finished : coroutine unit :=
  ready ← receive V1_READY_CP3;
  finished_c ← on_session (accept_ready ready);
  update_local (fun l => set_result (start_sent l) true (finished_c_sent l)
                           (finished_p_verified l) (app_secure l) (authenticated_rounds l) l);;
  settle "unsolicited CP3 notification before FINISHED_C";;
  send_control finished_c;;
  require_same_link;;
  update_local (fun l => set_result (start_sent l) (transcript_match l) true
                           (finished_p_verified l) (app_secure l) (authenticated_rounds l) l);;
  finished_p ← receive V1_FINISHED_P;
  on_session (accept_finished_p finished_p);;
  update_local (fun l => set_secret (wipe (secret l)) l).

(** No further notification within the quiet window. *)
Definition stay_quiet : coroutine unit :=
  extra ← try_except (fun x => bool_decide (x = AsyncTimeoutError)) (fun _ => mret None)
    (b ← next_notification; mret (Some b));
  raise_when (negb (bool_decide (extra = None))) (V1Error "unexpected extra notification after FINISHED_P");;
  require_same_link.

(** The body of the [try] block. *)
Definition cp3_body (application_exchange : option (coroutine unit)) (started : Z)
  : coroutine V1SecurityInfo :=
  require_same_link;;
  start_notify;;
  attest;;
  sent ← send_ciphertext;
  let '(pk, ct, raw_secret) := sent in
  info ← send_start pk ct raw_secret;
  exchange_finished;;
  stay_quiet;;
  update_local (fun l => set_result (start_sent l) (transcript_match l) (finished_c_sent l) true true
                           (authenticated_rounds l) l);;
  now ← query_env Now;
  update_v1 (set_v1_result (set_post_l4_ms (now - started)));;
  match application_exchange with
  | Some exchange => update_local set_active;; exchange;; require_same_link
  | None => mret tt
  end;;
  update_local set_success;;
  mret info.

(** The [finally] block; the guard is awaited. *)
Definition leave_cp3 : coroutine unit :=
  update_local (fun l => set_secret (wipe (secret l)) l);;
  l ← get_local;
  (if success l then mret tt else update_local session_clear);;
  perform Wait;;
  mret tt.

Definition _exchange (application_exchange : option (coroutine unit)) : coroutine V1SecurityInfo :=
  started ← query_env Now;
  snapshot ← raw_client;
  update_local (fun l =>
    set_application (match application_exchange with Some _ => true | None => false end)
      (app l) (app_link l) (reply l) (challenge l)
      (set_exchange snapshot [] CentralHandshake_init false false l));;
  h ← get_own;
  raise_when (negb (bool_decide (_v1_cp3_session (client h) = None)))
    (V1Error "CP3 transaction already exists; reconnect first");;
  update_own (on_client (set_shared_session (Some SESSION) snapshot));;
  try_finally leave_cp3
    (try_except (fun x => bool_decide (x = CancelledError))
       (fun x =>
          guard ← query_env GuardFailed;
          if (guard : bool)
          then raise (V1ErrorFrom "CP3 connection lost or replaced"
                        (V1Error "CP3 connection lost or replaced; refusing to continue"))
          else raise x)
       (cp3_body application_exchange started)).

(** [asyncio.wait_for(_exchange(...), CP3_TIMEOUT)]: the timer cancels. *)
Definition _cp3_exchange (application_exchange : option (coroutine unit)) : coroutine V1SecurityInfo :=
  try_except (fun x => bool_decide (x = CancelledError) || bool_decide (x = AsyncTimeoutError))
    (fun x =>
       fired ← (if bool_decide (x = AsyncTimeoutError) then mret true else query_env TimerFired);
       if (fired : bool) then raise (V1ErrorFrom "CP3 absolute handshake timeout" AsyncTimeoutError)
       else raise x)
    (_exchange application_exchange).

(** [session.clear()] of an object the client holds. *)
Definition clear_shared (slot : BLECentralClient -> option ref) : coroutine unit :=
  h ← get_own;
  match slot (client h) with
  | Some o => update_own (on_local (clear_object o))
  | None => mret tt
  end.

Definition run_v1_cp3 (negative_test : option string) (unpair_first : bool) : coroutine V1CP1Result :=
  raise_when (negb (bool_decide (negative_test = None)))
    (ValueError "CP1 negative modes cannot be combined with CP3");;
  try_except (fun _ => true) (fun x => clear_shared _v1_cp3_session;; raise x)
    (_run_v1 negative_test unpair_first true (_cp3_exchange None)).

(** ** CP4 *)

Definition require_live : coroutine unit :=
  h ← get_own;
  connected ← is_connected;
  raise_when (negb (live (client h) connected (local h)))
    (V1Error "CP4 connection/session/subscription invalidated").

(** A method of [app]. *)
Definition on_app {A} (m : method (CentralApplication CentralHandshake) A) : coroutine A :=
  l ← get_local;
  match app l with
  | None => raise AttributeError
  | Some f =>
      let (r, a) := m (app_object f (session l)) in
      update_local (app_store a);; run r
  end.

(** [await asyncio.wait_for(reply, notification_timeout)]. *)
Definition await_reply : coroutine bytes :=
  l ← get_local;
  (if reply_pending l then perform Wait;; mret tt else mret tt);;
  l ← get_local;
  match reply l with
  | Some (Resolved b) => mret b
  | Some (Rejected x) => raise x
  | Some Pending => raise AsyncTimeoutError
  | None => raise (TypeError "An asyncio.Future is required")
  end.

(** One round of the loop. *)
Definition round (_ : nat) : coroutine unit :=
  update_local (set_challenge []);;
  try_finally (update_local (fun l => set_challenge (wipe (challenge l)) l))
    (require_live;;
     urandom ← query_env (Urandom 16);
     update_local (set_challenge urandom);;
     mtu_size;;
     mtu ← mtu_size;
     frame ← on_app (encrypt_ping urandom mtu);
     update_local (set_reply (Some Pending));;
     send_control frame;;
     require_live;;
     raw ← await_reply;
     require_live;;
     mtu ← mtu_size;
     on_app (accept_pong raw urandom mtu);;
     update_local (set_reply None);;
     update_local (fun l => set_result (start_sent l) (transcript_match l) (finished_c_sent l)
                              (finished_p_verified l) (app_secure l) (authenticated_rounds l + 1) l)).

Definition rounds : coroutine unit :=
  snapshot ← raw_client;
  update_local (fun l => set_application (has_application l) (app l) snapshot (reply l) (challenge l) l);;
  l ← get_local;
  let '(created, a) := CentralApplication_init None None (session l) in
  (match created with
   | Err x => update_local (set_session (handshake a));; raise x
   | Ok _ => update_local (app_store a)
   end);;
  update_own (on_client (set_shared_application (Some APPLICATION)));;
  try_finally (update_local (set_reply None))
    (try_except (fun _ => true) (fun x => update_local app_clear;; raise x)
       (for_each round [0%nat; 1%nat];;
        perform Wait;;
        require_live)).

Definition _cp4_exchange : coroutine V1SecurityInfo :=
  update_local (fun l => set_application (has_application l) None None None [] l);;
  try_except (fun _ => true) (fun x => update_local app_clear;; raise x)
    (_cp3_exchange (Some rounds)).

Definition run_v1_cp4 (negative_test : option string) (unpair_first : bool) : coroutine V1CP1Result :=
  raise_when (negb (bool_decide (negative_test = None)))
    (ValueError "CP1 negative modes cannot be combined with CP4");;
  try_except (fun _ => true)
    (fun x => clear_shared _v1_cp4_session;; clear_shared _v1_cp3_session;; raise x)
    (_run_v1 negative_test unpair_first true _cp4_exchange).
End Exchange.

(** * What the callbacks can do to the session *)

(** Nothing, or close it. *)
Definition evolves (l l' : cp3_locals) : Prop :=
  session l' = session l /\ app l' = app l \/ closed (session l').

Lemma evolves_refl l : evolves l l.
Proof. by left. Qed.

Lemma session_clear_evolves l : evolves l (session_clear l).
Proof. right. apply closed_clear. Qed.

Lemma app_clear_evolves l : evolves l (app_clear l).
Proof.
  unfold app_clear. destruct (app l) as [f|] eqn:Ha; [|apply evolves_refl].
  right. apply closed_clear.
Qed.

Lemma clear_object_evolves o l : evolves l (clear_object o l).
Proof.
  cbn. repeat case_match; [apply session_clear_evolves|apply app_clear_evolves|apply evolves_refl].
Qed.

Lemma deliver_evolves x b data l : evolves l (deliver_notification x b data l).
Proof.
  unfold deliver_notification. destruct (_ && _).
  - unfold on_application. destruct (negb (live x b l)); [|destruct (negb (reply_pending l)); [|by left]].
    all: destruct (reply_pending l); apply app_clear_evolves.
  - destruct (_ || _); [apply session_clear_evolves|by left].
Qed.

Lemma closed_again l l' : evolves l l' -> closed (session l) -> closed (session l').
Proof. intros [[-> _]|H] Hc; done. Qed.

(** The parts of the variables only the coroutine writes. *)
Lemma clear_object_secret o l : secret (clear_object o l) = secret l /\ success (clear_object o l) = success l.
Proof. cbn. unfold app_clear. repeat case_match; done. Qed.

Lemma deliver_secret x b data l :
  secret (deliver_notification x b data l) = secret l /\
  success (deliver_notification x b data l) = success l.
Proof.
  unfold deliver_notification, on_application, app_clear. repeat case_match; done.
Qed.

(** A reply that arrived was heard. *)
Definition reply_heard (l : cp3_locals) (t : list observed) : Prop :=
  forall b, reply l = Some (Resolved b) -> b ∈ heard t.

(** The session and the application fields satisfy [C], or the session is
    closed; the secret buffer is [s], and [success] is [ok]. *)
Definition holds (C : CentralHandshake -> option app_fields -> Prop) (ok : bool) (s : bytes)
    (l : cp3_locals) (t : list observed) : Prop :=
  (C (session l) (app l) \/ closed (session l)) /\ (secret l = s /\ success l = ok) /\
  queued l t /\ reply_heard l t.

Lemma holds_evolves C ok s l l' t t' :
  evolves l l' -> secret l' = secret l /\ success l' = success l -> queued l' t' -> reply_heard l' t' ->
  holds C ok s l t -> holds C ok s l' t'.
Proof.
  intros He Hs Hq Hr (Hc & [<- <-] & _ & _). split_and!; [|by destruct Hs..|done|done].
  destruct Hc as [Hc|Hc]; [|right; by eapply closed_again].
  destruct He as [[-> ->]|He]; [by left|by right].
Qed.

#[export] Instance holds_kept C ok s : V1Kept (holds C ok s).
Proof.
  split; [split|..].
  - intros x b d l t Hh. pose proof Hh as (_ & _ & Hq & Hr).
    eapply holds_evolves; [apply deliver_evolves|apply deliver_secret|by apply kept_notified| |exact Hh].
    intros r Hre. rewrite heard_app. apply elem_of_app. cbn [on_data cp3_program] in Hre.
    unfold deliver_notification in Hre. destruct (_ && _).
    + unfold on_application in Hre. destruct (negb (live x b l)); [|destruct (negb (reply_pending l))].
      * destruct (reply_pending l) eqn:Hp; [done|]. left. apply Hr.
        unfold app_clear in Hre. by destruct (app l).
      * destruct (reply_pending l) eqn:Hp; [done|]. left. apply Hr.
        unfold app_clear in Hre. by destruct (app l).
      * injection Hre as ->. by right; left.
    + left. apply Hr. by destruct (_ || _).
  - intros c l t (Hc & [Hs Ho] & Hq & Hr). split_and!; [done|done|done|by apply kept_disconnected|].
    intros r Hre. rewrite heard_app. apply elem_of_app. left. auto.
  - intros a r l t (Hc & [Hs Ho] & Hq & Hr). split_and!; [done|done|done|by apply kept_did|].
    intros b Hre. rewrite heard_app. apply elem_of_app. left. auto.
  - intros o l t Hh. pose proof Hh as (_ & _ & Hq & Hr).
    eapply holds_evolves; [apply clear_object_evolves|apply clear_object_secret|by apply kept_clear| |exact Hh].
    intros r Hre. apply Hr. revert Hre. cbn. unfold app_clear. repeat case_match; done.
  - intros f l t Hf (Hc & [Hs Ho] & Hq & Hr). split_and!; [done|done|done|by apply v1_kept_set|done].
  - intros r l t (Hc & [Hs Ho] & Hq & Hr). split_and!; [done|done|done|by apply v1_kept_new|done].
Qed.

(** * What may be sent, and on what evidence *)

Section Evidence.
Context `{Kem, Aead}.
Variables (ss pk ct sid : bytes).

(** START: the attestation in force, and the whole ciphertext delivered. *)
Definition E_start (t : list observed) : Prop :=
  attested_once t /\ sec_info_level4 ∈ heard t /\ delivered_to pk ct ss t.

(** FINISHED_C: START went out, and READY confirms the transcript. *)
Definition E_ready (t : list observed) : Prop :=
  E_start t /\ wrote CHAR_CONTROL_UUID (start_cp3 sid) t /\ ready_cp3 pk ct sid ∈ heard t.

(** Application traffic: FINISHED_C went out, and FINISHED_P verifies. *)
Definition E_secure (t : list observed) : Prop :=
  E_ready t /\ wrote CHAR_CONTROL_UUID (finished_c_frame ss pk ct sid) t /\
  finished_p_frame ss pk ct sid ∈ heard t.

#[export] Instance E_start_lasting : Lasting E_start.
Proof. apply _. Qed.
#[export] Instance E_ready_lasting : Lasting E_ready.
Proof. apply _. Qed.
#[export] Instance E_secure_lasting : Lasting E_secure.
Proof. apply _. Qed.

(** A PING of this session, with sequence number [seq]. *)
Definition ping_frame (seq : Z) (challenge d : bytes) : Prop :=
  exists iv, derive_iv_base (ref_app_c2p ss pk ct sid) sid APP_C2P 0x10 = Ok iv /\
    encrypt_application (ref_app_c2p ss pk ct sid) iv sid APP_C2P seq PING challenge 0x10 = Ok d.

(** Its PONG: the challenge comes back under the other key. *)
Definition pong_frame (seq : Z) (challenge raw : bytes) : Prop :=
  exists iv, derive_iv_base (ref_app_p2c ss pk ct sid) sid APP_P2C 0x10 = Ok iv /\
    decrypt_application (ref_app_p2c ss pk ct sid) iv sid raw APP_P2C seq 0x10 = Ok challenge.

(** [n] rounds: each PING was written and its PONG heard. *)
Definition rounds_done (n : Z) (t : list observed) : Prop :=
  forall seq, 0 <= seq < n -> exists challenge d raw, ping_frame seq challenge d /\
    wrote CHAR_CONTROL_UUID d t /\ pong_frame seq challenge raw /\ raw ∈ heard t.

#[export] Instance rounds_done_lasting n : Lasting (rounds_done n).
Proof.
  intros t u Hr seq Hs. destruct (Hr seq Hs) as (c & d & raw & Hp & Hw & Hq & Hh).
  exists c, d, raw. split_and!; [done|by apply wrote_lasting|done|by apply (lasting_heard _)].
Qed.
End Evidence.

Section Runs.
Context {W : Type} `{Env W, Kem, Aead}.

(** [apps]: whether the runner has an application exchange. *)
Definition cp3_exchange (apps : bool) (t : list observed) (a : action) : Prop :=
  match a with
  | WriteGatt _ u d =>
      attested_once t /\
      (u = CHAR_CIPHERTEXT_UUID /\ fresh_ciphertext t d
       \/ u = CHAR_CONTROL_UUID /\ exists ss pk ct sid,
            E_start ss pk ct t /\ d = start_cp3 sid
            \/ E_ready ss pk ct sid t /\ d = finished_c_frame ss pk ct sid
            \/ apps = true /\ E_secure ss pk ct sid t /\
               exists seq challenge, 0 <= seq < 2 /\ ping_frame ss pk ct sid seq challenge d)
  | _ => False
  end.

Variables (mode : option string) (unpair_first : bool) (apps : bool).
Abbreviation policy := (v1_policy mode unpair_first (cp3_exchange apps)).
Abbreviation at_cp3 := (at_ (W := W) policy).
Abbreviation coroutine := (method (io W (host cp3_locals))).
Implicit Types J : cp3_locals -> list observed -> Prop.

Lemma step_local {B} J Jx Q (k : cp3_locals -> coroutine B) :
  (forall x, triple (at_cp3 (fun l t => x = l /\ J l t)) (k x) Q (fun _ => at_cp3 Jx)) ->
  triple (at_cp3 J) (x ← get_local; k x) Q (fun _ => at_cp3 Jx).
Proof. intros Hk s [Hj Ho]. by apply (Hk (local (self s)) s). Qed.

Lemma at_require_same_link J :
  triple (at_cp3 J) require_same_link (fun _ => at_cp3 J) (fun _ => at_cp3 J).
Proof.
  apply step_local. intros x. eapply at_weaken with (J' := J); [by intros l t [_ Hj]|].
  apply step_raise_when; [done|]. intros _. apply step_connected. intros b.
  apply step_raw_client. intros c. by apply triple_raise_when.
Qed.

Lemma at_receive J st :
  V1Kept J -> implies J queued ->
  triple (at_cp3 J) (receive st)
    (fun raw => at_cp3 (along J (fun t => raw ∈ heard t))) (fun _ => at_cp3 J).
Proof.
  intros HJ Hq. unfold receive. apply step_same; [apply at_require_same_link|done|]. intros u.
  eapply step_at with (J' := J) (R := fun raw => along J (fun t => raw ∈ heard t)); [|done|].
  { eapply triple_except with (E' := fun _ => at_cp3 J);
      [by apply at_next_notification|intros x _; by apply at_raise|done]. }
  intros raw. apply step_same; [apply at_require_same_link|implied|]. intros w.
  apply step_result; [implied|]. intros frame Hf.
  apply step_same; [|implied|].
  { destruct (subtype frame =? V1_ERROR); [|by apply triple_ret].
    apply step_result; [done|]. intros b _. by apply at_raise. }
  intros v. apply step_raise_when; [implied|]. intros _. by apply triple_ret.
Qed.

Lemma at_attest J :
  V1Kept J -> implies J queued ->
  triple (at_cp3 J) attest
    (fun r => at_cp3 (along J (fun t => attested r.2 t /\ r.1 ∈ heard t))) (fun _ => at_cp3 J).
Proof.
  intros HJ Hq. unfold attest. apply step_same; [apply at_require_same_link|done|]. intros u.
  apply step_same; [apply at_require_empty|done|]. intros v.
  apply step_result; [done|]. intros q ->%encode_sec_query_Ok.
  eapply step_at; [apply (at_send_control _ J); [apply _|]|done|].
  { intros c l t Hj. left. by left. }
  intros w. eapply at_weaken with (J' := J); [by intros l t [Hj _]|].
  eapply step_at; [by apply at_receive|done|]. intros raw.
  apply step_result; [implied|]. intros info Hi. apply step_raise_when; [implied|].
  intros Hl%negb_false_iff. apply triple_ret. intros s. apply at_implies.
  intros l t [Hj Hr]. split; [done|]. split; [by exists raw|done].
Qed.

Lemma at_settle J m :
  Kept J -> triple (at_cp3 J) (settle m) (fun _ => at_cp3 J) (fun _ => at_cp3 J).
Proof.
  intros HJ. unfold settle. apply step_same; [by apply (at_do policy J Wait)|done|]. intros v.
  apply step_same; [apply at_require_same_link|done|]. intros u. apply at_require_empty.
Qed.
Definition is_session (h : CentralHandshake) : CentralHandshake -> option app_fields -> Prop :=
  fun x _ => x = h.

Lemma holds_queued C ok s F : implies (along (holds C ok s) F) queued.
Proof. by intros l t [(_ & _ & Hq & _) _]. Qed.

(** A method of the session: what it returned from which state, or closed. *)
Lemma at_on_session {A} (m : method CentralHandshake A) h (h' : A -> CentralHandshake) (phi : A -> Prop) s F :
  (forall x a y, m x = (Ok a, y) -> x = h \/ closed x -> phi a /\ y = h' a) ->
  (forall x e y, m x = (Err e, y) -> closed y) ->
  triple (at_cp3 (along (holds (is_session h) false s) F)) (on_session m)
    (fun a => at_cp3 (fun l t => phi a /\ along (holds (is_session (h' a)) false s) F l t))
    (fun _ => at_cp3 (along (holds (is_session h) false s) F)).
Proof.
  intros Hok Herr. apply at_call with
    (Q := fun a l t => phi a /\ along (holds (is_session (h' a)) false s) F l t)
    (E := along (holds (is_session h) false s) F).
  intros hh t [(Hc & [Hs Ho] & Hq & Hr) Hf]. destruct (m (session (local hh))) as [[a|e] y] eqn:Hm.
  - apply Hok in Hm as [Hp ->]; [|exact Hc]. split; [done|]. split; [|done]. split_and!; [by left|done..].
  - apply Herr in Hm. split; [|done]. split_and!; [by right|done..].
Qed.

Lemma begin_err ss sec pk ct start x e y : begin ss sec pk ct start x = (Err e, y) -> closed y.
Proof. apply cleanup_closed. Qed.
Lemma accept_ready_err raw x e y : accept_ready raw x = (Err e, y) -> closed y.
Proof. apply cleanup_closed. Qed.
Lemma accept_finished_err raw x e y : accept_finished_p raw x = (Err e, y) -> closed y.
Proof. apply cleanup_closed. Qed.

(** Where an exception leaves the body: nothing succeeded yet. *)
Definition body_exit (l : cp3_locals) (t : list observed) : Prop :=
  exists s, holds (fun _ _ => True) false s l t.

Lemma exit_implies C s F : implies (along (holds C false s) F) body_exit.
Proof. intros l t [(_ & Hs & Hq & Hr) _]. exists s. split_and!; [by left|apply Hs|apply Hs|done|done]. Qed.

Lemma closed_not x h : closed x -> state h <> CLOSED -> x <> h.
Proof. intros Hc%closed_state Hs ->. congruence. Qed.

(** ** The body, in the order of the protocol *)

Lemma at_send_ciphertext :
  triple (at_cp3 (along (holds (is_session CentralHandshake_init) false []) (fun t => gate mode t /\ attested_once t)))
    send_ciphertext
    (fun r => at_cp3 (along (holds (is_session CentralHandshake_init) false r.2)
                (fun t => gate mode t /\ attested_once t /\ delivered_to r.1.1 r.1.2 r.2 t)))
    (fun _ => at_cp3 body_exit).
Proof.
  unfold send_ciphertext. set (Jx := body_exit).
  set (J := along _ _). assert (V1Kept J) as HJ by apply _.
  pose proof (fun s F => exit_implies (is_session CentralHandshake_init) s F) as HJx.
  assert (implies J Jx) as HJJx by apply HJx.
  eapply step_at; [apply (at_read_public_key _ J); [apply _|done]|done|]. intros pk.
  set (J1 := along J (read_key pk)). assert (V1Kept J1) as HJ1 by apply _.
  assert (implies J1 Jx) as HJ1x by by apply implies_along.
  apply step_same; [apply at_require_same_link|implied|]. intros u.
  apply step_raise_when; [implied|]. intros Hpk%negb_false_iff%Z.eqb_eq.
  apply step_update with (J' := J1); [intros h t Hj; by apply v1_kept_set|].
  apply (step_ask _ _ _ _ Coins). intros coins. apply step_result; [implied|]. intros [ct ss] Hct.
  set (J2 := along (holds (is_session CentralHandshake_init) false ss)
               (fun t => (gate mode t /\ attested_once t) /\ read_key pk t)).
  assert (V1Kept J2) as HJ2 by apply _. assert (implies J2 Jx) as HJ2x by apply HJx.
  apply step_update with (J' := J2).
  { intros h t [[(Hc & [Hs Ho] & Hq & Hr) Hg] Hk]. split; [|by split]. by split_and!. }
  apply step_raise_when; [implied|]. intros _.
  apply step_same; [apply at_require_same_link|implied|]. intros x.
  eapply step_at; [apply (at_write_ciphertext _ J2 ct); [apply _|]|implied|].
  { intros f Hf c l t (_ & (Hg & Ha) & Hr). right. split; [done|]. split; [done|]. left.
    split; [done|]. by exists pk, coins, ct, ss. }
  intros n. set (J3 := along (holds (is_session CentralHandshake_init) false ss)
    (fun t => gate mode t /\ attested_once t /\ delivered_to pk ct ss t)).
  eapply at_weaken with (J' := J3).
  { intros l t [(Hb & (Hg & Ha) & Hr) (mtu & frames & Hf & Hw)]. split; [done|]. split_and!; [done|done|].
    by exists coins, mtu, frames. }
  assert (V1Kept J3) as HJ3 by apply _. assert (implies J3 Jx) as HJ3x by apply HJx.
  apply step_update with (J' := J3); [intros h t Hj; by apply v1_kept_set|].
  apply step_same; [apply at_require_same_link|implied|]. intros w. by apply triple_ret.
Qed.
Lemma at_begin ss pk ct sid s F sec :
  triple (at_cp3 (along (holds (is_session CentralHandshake_init) false s) F))
    (on_session (begin ss sec pk ct (start_cp3 sid)))
    (fun _ => at_cp3 (fun l t => (cp3_inputs ss pk ct sid /\ sec = sec_info_level4) /\
       along (holds (is_session (cp3_wait_ready ss pk ct sid)) false s) F l t))
    (fun _ => at_cp3 (along (holds (is_session CentralHandshake_init) false s) F)).
Proof.
  apply (at_on_session _ CentralHandshake_init (fun _ => cp3_wait_ready ss pk ct sid)
           (fun _ => cp3_inputs ss pk ct sid /\ sec = sec_info_level4)); [|apply begin_err].
  intros x a y Hb Hx. pose proof Hb as (Hs & sid' & Hin & -> & Hst)%begin_Ok_inv.
  apply v1_wire_inj in Hst as [_ <-]; [|done..].
  destruct Hx as [->|Hc%closed_state]; [|congruence].
  rewrite begin_init in Hb by done. by injection Hb as _ <-.
Qed.

Lemma accept_ready_state raw x w y : accept_ready raw x = (Ok w, y) -> state y = WAIT_FINISHED_P.
Proof.
  unfold accept_ready. meth. destruct (parse_v1_frame raw); [|done]. repeat case_match; try done.
  all: intros; by simplify_eq.
Qed.

Lemma accept_finished_state raw x u y : accept_finished_p raw x = (Ok u, y) -> state y = APP_SECURE.
Proof.
  unfold accept_finished_p. meth. destruct (parse_v1_frame raw); [|done]. repeat case_match; try done.
  all: intros; by simplify_eq.
Qed.

Lemma at_accept_ready ss pk ct sid s F raw :
  triple (at_cp3 (along (holds (is_session (cp3_wait_ready ss pk ct sid)) false s) F))
    (on_session (accept_ready raw))
    (fun w => at_cp3 (fun l t => (raw = ready_cp3 pk ct sid /\ w = finished_c_frame ss pk ct sid) /\
       along (holds (is_session (cp3_wait_finished ss pk ct sid)) false s) F l t))
    (fun _ => at_cp3 (along (holds (is_session (cp3_wait_ready ss pk ct sid)) false s) F)).
Proof.
  apply (at_on_session _ _ (fun _ => cp3_wait_finished ss pk ct sid)
           (fun w => raw = ready_cp3 pk ct sid /\ w = finished_c_frame ss pk ct sid)); [|apply accept_ready_err].
  intros x w y Hb Hx. pose proof (accept_ready_Ok_inv _ _ _ _ Hb) as Hs.
  pose proof (accept_ready_state _ _ _ _ Hb) as Hy.
  destruct Hx as [->|Hc%closed_state]; [|congruence].
  rewrite accept_ready_eq in Hb. destruct (bool_decide_reflect (raw = ready_cp3 pk ct sid)) as [->|].
  - by injection Hb as <- <-.
  - injection Hb as _ <-. done.
Qed.

Lemma at_accept_finished ss pk ct sid s F raw :
  triple (at_cp3 (along (holds (is_session (cp3_wait_finished ss pk ct sid)) false s) F))
    (on_session (accept_finished_p raw))
    (fun _ => at_cp3 (fun l t => raw = finished_p_frame ss pk ct sid /\
       along (holds (is_session (cp3_secure ss pk ct sid)) false s) F l t))
    (fun _ => at_cp3 (along (holds (is_session (cp3_wait_finished ss pk ct sid)) false s) F)).
Proof.
  apply (at_on_session _ _ (fun _ => cp3_secure ss pk ct sid)
           (fun _ => raw = finished_p_frame ss pk ct sid)); [|apply accept_finished_err].
  intros x w y Hb Hx. pose proof (accept_finished_p_Ok_inv _ _ _ _ Hb) as Hs.
  pose proof (accept_finished_state _ _ _ _ Hb) as Hy.
  destruct Hx as [->|Hc%closed_state]; [|congruence].
  rewrite accept_finished_p_eq in Hb. destruct (bool_decide_reflect (raw = finished_p_frame ss pk ct sid)) as [->|].
  - by injection Hb as <- <-.
  - injection Hb as _ <-. done.
Qed.

Lemma at_send_start pk ct ss :
  triple (at_cp3 (along (holds (is_session CentralHandshake_init) false ss)
                   (fun t => gate mode t /\ attested_once t /\ delivered_to pk ct ss t)))
    (send_start pk ct ss)
    (fun info => at_cp3 (fun l t => exists sid,
       along (holds (is_session (cp3_wait_ready ss pk ct sid)) false ss)
         (fun t => gate mode t /\ attested info t /\ E_start ss pk ct t /\
                   wrote CHAR_CONTROL_UUID (start_cp3 sid) t) l t))
    (fun _ => at_cp3 body_exit).
Proof.
  unfold send_start. set (J := along _ _). assert (V1Kept J) as HJ by apply _.
  assert (implies J body_exit) as HJx by apply exit_implies.
  assert (implies J queued) as HJq by apply holds_queued.
  eapply step_at; [by apply at_attest|done|]. intros [sec info]. cbn [fst snd].
  set (F := fun t => (gate mode t /\ attested_once t /\ delivered_to pk ct ss t) /\
                     attested info t /\ sec ∈ heard t).
  eapply at_weaken with (J' := along (holds (is_session CentralHandshake_init) false ss) F).
  { intros l t [[Hh Hf] Ha]. by split. }
  apply (step_ask _ _ _ _ (Urandom 16)). intros sid.
  apply step_result; [apply exit_implies|]. intros start [Hsid ->]%encode_v1_Ok.
  eapply step_at; [apply at_begin|apply exit_implies|]. intros u. apply at_pure. intros [Hin ->].
  set (J1 := along _ F). assert (V1Kept J1) as HJ1 by apply _.
  assert (implies J1 body_exit) as HJ1x by apply exit_implies.
  apply step_same; [apply at_settle, _|done|]. intros v.
  eapply step_at; [apply (at_send_control _ J1); [apply _|]|done|].
  { intros c l t [_ [(Hg & Ha & Hd) [Hi Hsec]]]. right. split; [done|]. split; [done|]. right.
    split; [done|]. exists ss, pk, ct, sid. left. split; [|done]. by split_and!. }
  intros w. set (J2 := along (holds (is_session (cp3_wait_ready ss pk ct sid)) false ss)
    (fun t => gate mode t /\ attested info t /\ E_start ss pk ct t /\ wrote CHAR_CONTROL_UUID (start_cp3 sid) t)).
  eapply at_weaken with (J' := J2).
  { intros l t [[Hh [(Hg & Ha & Hd) [Hi Hsec]]] Hw]. split; [done|]. by split_and!. }
  assert (implies J2 body_exit) as HJ2x by apply exit_implies.
  apply step_same; [apply at_require_same_link|done|]. intros x.
  apply step_update with (J' := J2); [by intros h t Hj|].
  apply triple_ret. intros s. apply at_implies. intros l t Hj. by exists sid.
Qed.

Lemma at_finished_exchange ss pk ct sid info :
  triple (at_cp3 (along (holds (is_session (cp3_wait_ready ss pk ct sid)) false ss)
         (fun t => gate mode t /\ attested info t /\ E_start ss pk ct t /\
                   wrote CHAR_CONTROL_UUID (start_cp3 sid) t)))
    exchange_finished
    (fun _ => at_cp3 (along (holds (is_session (cp3_secure ss pk ct sid)) false (wipe ss))
         (fun t => gate mode t /\ attested info t /\ E_secure ss pk ct sid t)))
    (fun _ => at_cp3 body_exit).
Proof.
  unfold exchange_finished. set (J := along _ _). assert (V1Kept J) as HJ by apply _.
  assert (implies J body_exit) as HJx by apply exit_implies.
  assert (implies J queued) as HJq by apply holds_queued.
  eapply step_at; [by apply at_receive|done|]. intros ready.
  set (F := fun t => (gate mode t /\ attested info t /\ E_start ss pk ct t /\
                   wrote CHAR_CONTROL_UUID (start_cp3 sid) t) /\ ready ∈ heard t).
  eapply at_weaken with (J' := along (holds (is_session (cp3_wait_ready ss pk ct sid)) false ss) F).
  { intros l t [[Hh Hf] Hr]. by split. }
  eapply step_at; [apply at_accept_ready|apply exit_implies|]. intros w. apply at_pure. intros [-> ->].
  set (F1 := fun t => gate mode t /\ attested info t /\ E_ready ss pk ct sid t).
  set (J1 := along (holds (is_session (cp3_wait_finished ss pk ct sid)) false ss) F1).
  eapply at_weaken with (J' := J1).
  { intros l t [Hh [(Hg & Ha & Hs & Hw) Hr]]. split; [done|]. by split_and!. }
  assert (V1Kept J1) as HJ1 by apply _.
  assert (implies J1 body_exit) as HJ1x by apply exit_implies.
  apply step_update with (J' := J1); [by intros h t Hj|].
  apply step_same; [apply at_settle, _|done|]. intros v.
  eapply step_at; [apply (at_send_control _ J1); [apply _|]|done|].
  { intros c l t [_ (Hg & Ha & He)]. right. split; [done|]. split; [by destruct He as [[? _] _]|]. right.
    split; [done|]. exists ss, pk, ct, sid. right. by left. }
  intros x. set (F2 := fun t => F1 t /\ wrote CHAR_CONTROL_UUID (finished_c_frame ss pk ct sid) t).
  set (J2 := along (holds (is_session (cp3_wait_finished ss pk ct sid)) false ss) F2).
  eapply at_weaken with (J' := J2); [by intros l t [[Hh Hf] Hw]; split|].
  assert (V1Kept J2) as HJ2 by apply _.
  assert (implies J2 body_exit) as HJ2x by apply exit_implies.
  assert (implies J2 queued) as HJ2q by apply holds_queued.
  apply step_same; [apply at_require_same_link|done|]. intros y.
  apply step_update with (J' := J2); [by intros h t Hj|].
  eapply step_at; [by apply at_receive|done|]. intros finished_p.
  eapply at_weaken with (J' := along (holds (is_session (cp3_wait_finished ss pk ct sid)) false ss)
    (fun t => F2 t /\ finished_p ∈ heard t)); [by intros l t [[Hh Hf] Hw]; split|].
  eapply step_at; [apply at_accept_finished|apply exit_implies|]. intros z. apply at_pure. intros ->.
  apply at_update. intros h t [(Hc & [Hs Ho] & Hq & Hr) [[(Hg & Ha & He) Hw] Hp]].
  split; [|by split_and!]. split_and!; [done|cbn; by rewrite Hs|done..].
Qed.
(** ** The application rounds *)

Lemma app_init_ok h u a :
  CentralApplication_init None None h = (Ok u, a) ->
  as_secure h = true /\ exists ivc ivp,
    derive_iv_base (app_c2p h) (session_id h) APP_C2P 0x10 = Ok ivc /\
    derive_iv_base (app_p2c h) (session_id h) APP_P2C 0x10 = Ok ivp /\
    a = mkCentralApplication h 0x10 ivc ivp 0 0.
Proof.
  unfold CentralApplication_init, V1Cp4.require_secure. meth. cbn. repeat case_match; try done.
  match goal with Hs : raise_if (negb (bool_decide _)) _ = Ok _ |- _ =>
    apply raise_if_Ok, negb_false_iff in Hs end.
  intros; simplify_eq. split; [done|]. by do 2 eexists.
Qed.

Lemma app_init_err h x a : CentralApplication_init None None h = (Err x, a) -> closed (handshake a).
Proof. intros [b ->]%cleanup_on_error_Err. apply closed_clear. Qed.

Lemma closed_insecure h : closed h -> as_secure h = false.
Proof. intros Hc%closed_state. cbn. by rewrite Hc. Qed.

(** A method of the application object that needs an open session. *)
Lemma at_on_app {A} (m : method (CentralApplication CentralHandshake) A) h f (f' : A -> app_fields)
    (phi : A -> Prop) s F :
  (forall a y, m (app_object f h) = (Ok a, y) -> phi a /\ y = app_object (f' a) h) ->
  (forall z a y, m z = (Ok a, y) -> as_secure (handshake z) = true) ->
  (forall z e y, m z = (Err e, y) -> closed (handshake y)) ->
  triple (at_cp3 (along (holds (fun x a => x = h /\ a = Some f) false s) F)) (on_app m)
    (fun a => at_cp3 (fun l t => phi a /\
       along (holds (fun x b => x = h /\ b = Some (f' a)) false s) F l t))
    (fun _ => at_cp3 body_exit).
Proof.
  intros Hok Hsec Herr st [[(Hc & [Hs Ho] & Hq & Hr) Hf] Hob].
  unfold on_app, get_local, get_own, update_local, update_own. meth. cbn.
  set (l := local (self st)) in *.
  destruct (app l) as [g|] eqn:Ha.
  - destruct (m (app_object g (session l))) as [[a|e] y] eqn:Hm; cbn; cycle 1.
    { split; [|done]. exists s. split_and!; [right; by apply Herr in Hm|done..]. }
    destruct Hc as [[He [= ->]]|Hc].
    + rewrite He in Hm. apply Hok in Hm as [Hp ->]. split; [|done]. split; [done|]. split; [|done].
      split_and!; [left; by destruct (f' a)|done..].
    + apply Hsec in Hm. cbn in Hm. apply closed_insecure in Hc. cbn in Hc. congruence.
  - split; [|done]. exists s. split_and!; [by left|done..].
Qed.

Section Rounds.
Variables (ss pk ct sid ivc ivp : bytes) (info : V1SecurityInfo).
Hypothesis Hc2p : derive_iv_base (ref_app_c2p ss pk ct sid) sid APP_C2P 0x10 = Ok ivc.
Hypothesis Hp2c : derive_iv_base (ref_app_p2c ss pk ct sid) sid APP_P2C 0x10 = Ok ivp.
Hypothesis Happs : apps = true.

Definition app_at (tx rx : Z) : CentralHandshake -> option app_fields -> Prop :=
  fun x a => x = cp3_secure ss pk ct sid /\ a = Some (mkAppFields 0x10 ivc ivp tx rx).

(** After [n] rounds. *)
Definition round_facts (n : Z) (t : list observed) : Prop :=
  (gate mode t /\ attested info t /\ E_secure ss pk ct sid t) /\ rounds_done ss pk ct sid n t.

Definition round_state (n : Z) : cp3_locals -> list observed -> Prop :=
  along (holds (app_at n n) false (wipe ss)) (round_facts n).

Lemma at_require_live J :
  triple (at_cp3 J) require_live (fun _ => at_cp3 J) (fun _ => at_cp3 J).
Proof.
  apply step_get. intros h. eapply at_weaken with (J' := J); [by intros l t [_ Hj]|].
  apply step_connected. intros b. by apply triple_raise_when.
Qed.

Lemma at_await_reply J :
  Kept J -> implies J reply_heard ->
  triple (at_cp3 J) await_reply (fun b => at_cp3 (along J (fun t => b ∈ heard t))) (fun _ => at_cp3 J).
Proof.
  intros HJ Hr. unfold await_reply. apply step_local. intros x0.
  eapply at_weaken with (J' := J); [by intros l t [_ Hj]|].
  apply step_same; [|done|].
  { destruct (reply_pending x0); [|by apply triple_ret].
    apply step_same; [by apply (at_do policy J Wait)|done|]. intros v. by apply triple_ret. }
  intros u. apply step_local. intros x.
  destruct (reply x) as [[|b|e]|] eqn:Hx; try (apply at_raise; by intros l t [_ Hj]).
  apply triple_ret. intros s. apply at_implies. intros l t [-> Hj]. split; [done|]. by apply (Hr l t Hj).
Qed.

Lemma at_round n k :
  0 <= n < 2 ->
  triple (at_cp3 (round_state n)) (round k) (fun _ => at_cp3 (round_state (n + 1)))
    (fun _ => at_cp3 body_exit).
Proof.
  intros Hn. unfold round.
  assert (forall m, V1Kept (round_state m)) as HK by (intros m; apply _).
  assert (forall m, implies (round_state m) body_exit) as HX by (intros m; apply exit_implies).
  apply step_update with (J' := round_state n); [by intros h t Hj|].
  eapply triple_finally with (Q' := fun _ => at_cp3 (round_state (n + 1))) (E' := fun _ => at_cp3 body_exit);
    [|intros a; by apply at_update|intros x; by apply at_update].
  apply step_same; [apply at_require_live|done|]. intros u.
  apply (step_ask _ _ _ _ (Urandom 16)). intros ch.
  apply step_update with (J' := round_state n); [by intros h t Hj|].
  apply step_mtu. intros m0. apply step_mtu. intros m1.
  eapply step_at; [apply (at_on_app _ (cp3_secure ss pk ct sid) (mkAppFields 0x10 ivc ivp n n)
    (fun _ => mkAppFields 0x10 ivc ivp (n + 1) n) (fun d => ping_frame ss pk ct sid n ch d))|done|].
  { intros d y (_ & _ & _ & _ & He & ->)%encrypt_ping_ok. split; [|done]. by exists ivc. }
  { by intros z d y (Hs & _)%encrypt_ping_ok. }
  { intros z e y [b ->]%cleanup_on_error_Err. apply closed_clear. }
  intros d. apply at_pure. intros Hping.
  set (J1 := along (holds (app_at (n + 1) n) false (wipe ss)) (round_facts n)).
  assert (V1Kept J1) as HJ1 by apply _. assert (implies J1 body_exit) as HJ1x by apply exit_implies.
  apply step_update with (J' := J1).
  { intros h t [(Hc & Hs & Hq & Hr) Hf]. split; [|done]. split_and!; [done|apply Hs..|done|]. by intros b [=]. }
  eapply step_at; [apply (at_send_control _ J1); [apply _|]|done|].
  { intros c l t [_ [(Hg & Ha & He) _]]. right. split; [done|].
    split; [by destruct He as [[[? _] _] _]|]. right. split; [done|].
    exists ss, pk, ct, sid. right. right. split; [done|]. split; [done|]. by exists n, ch. }
  intros v. set (J2 := along J1 (wrote CHAR_CONTROL_UUID d)).
  assert (V1Kept J2) as HJ2 by apply _.
  assert (implies J2 body_exit) as HJ2x by (apply implies_along; done).
  apply step_same; [apply at_require_live|done|]. intros w.
  eapply step_at; [apply at_await_reply; [apply _|]|done|].
  { by intros l t [[(_ & _ & _ & Hr) _] _]. }
  intros raw. set (J3 := along J2 (fun t => raw ∈ heard t)).
  assert (implies J3 body_exit) as HJ3x by (apply implies_along; done).
  apply step_same; [apply at_require_live|done|]. intros x. apply step_mtu. intros m2.
  eapply at_weaken with (J' := along (holds (app_at (n + 1) n) false (wipe ss))
    (fun t => round_facts n t /\ wrote CHAR_CONTROL_UUID d t /\ raw ∈ heard t)).
  { by intros l t [[[Hh Hf] Hw] Hr]. }
  eapply step_at; [apply (at_on_app _ (cp3_secure ss pk ct sid) (mkAppFields 0x10 ivc ivp (n + 1) n)
    (fun _ => mkAppFields 0x10 ivc ivp (n + 1) (n + 1)) (fun _ => pong_frame ss pk ct sid n ch raw))|done|].
  { intros d' y (_ & _ & He & ->)%accept_pong_ok. split; [|done]. by exists ivp. }
  { by intros z d' y (Hs & _)%accept_pong_ok. }
  { intros z e y [b ->]%cleanup_on_error_Err. apply closed_clear. }
  intros y. apply at_pure. intros Hpong.
  eapply at_weaken with (J' := round_state (n + 1)).
  { intros l t [Hh [[Hf Hd] [Hw Hr]]]. split; [done|]. split; [done|]. intros seq Hseq.
    destruct (decide (seq = n)) as [->|Hne]; [by exists ch, d, raw|]. apply Hd. lia. }
  apply step_update with (J' := round_state (n + 1)).
  { intros h t [(Hc & Hs & Hq & Hr) Hf]. split; [|done]. split_and!; [done|apply Hs..|done|]. by intros b [=]. }
  by apply at_update.
Qed.
End Rounds.

Lemma at_rounds ss pk ct sid info :
  apps = true ->
  triple (at_cp3 (along (holds (is_session (cp3_secure ss pk ct sid)) false (wipe ss))
           (fun t => gate mode t /\ attested info t /\ E_secure ss pk ct sid t)))
    rounds
    (fun _ => at_cp3 (along (holds (is_session (cp3_secure ss pk ct sid)) false (wipe ss))
           (fun t => (gate mode t /\ attested info t /\ E_secure ss pk ct sid t) /\
                     rounds_done ss pk ct sid 2 t)))
    (fun _ => at_cp3 body_exit).
Proof.
  intros Ha. unfold rounds. set (J := along _ _). assert (implies J body_exit) as HJx by apply exit_implies.
  apply step_raw_client. intros snapshot.
  apply step_update with (J' := J).
  { intros h t [(Hc & Hs & Hq & Hr) Hf]. split; [|done]. split_and!; [done|apply Hs..|done|done]. }
  apply step_local. intros x.
  destruct (CentralApplication_init None None (session x)) as [[u|e] a] eqn:Hi; cycle 1.
  { eapply triple_bind with (R := fun _ _ => False); [|by intros ? ? []].
    eapply step_update with (J' := body_exit); [|by apply at_raise].
    intros h t [-> [(Hc & Hs & Hq & Hr) Hf]]. exists (wipe ss).
    split_and!; [right; by eapply app_init_err|apply Hs..|done|done]. }
  apply app_init_ok in Hi as (Hsec & ivc & ivp & Hc & Hp & ->).
  eapply triple_weaken with (P' := fun s => (session x = cp3_secure ss pk ct sid) /\ at_cp3 (fun l t => x = l /\ J l t) s).
  { intros s [[-> Hj] Ho]. split; [|by split]. destruct Hj as [([Hx|Hx%closed_insecure] & _) _]; congruence. }
  apply triple_pure. intros Hx. rewrite Hx in Hc, Hp |- *.
  apply step_update with (J' := round_state ss pk ct sid ivc ivp info 0).
  { intros h t [-> [(_ & Hs & Hq & Hr) Hf]]. split; [|split; [done|]]; [|intros seq Hseq; lia].
    split_and!; [by left|apply Hs..|done|done]. }
  apply step_update with (J' := round_state ss pk ct sid ivc ivp info 0); [by intros h t Hj|].
  eapply triple_finally with (Q' := fun _ => at_cp3 (round_state ss pk ct sid ivc ivp info 2))
    (E' := fun _ => at_cp3 body_exit).
  - eapply triple_except with (E' := fun _ => at_cp3 body_exit).
    + cbn [for_each].
      assert (V1Kept (round_state ss pk ct sid ivc ivp info 2)) as HK by apply _.
      assert (implies (round_state ss pk ct sid ivc ivp info 2) body_exit) as HX by apply exit_implies.
      eapply step_at with (R := fun _ => round_state ss pk ct sid ivc ivp info 2) (J' := body_exit); [|done|].
      * eapply step_at; [apply (at_round _ _ _ _ _ _ info Hc Hp Ha 0); lia|done|]. intros v.
        eapply step_at; [apply (at_round _ _ _ _ _ _ info Hc Hp Ha 1); lia|done|]. intros w. by apply triple_ret.
      * intros v. apply step_same; [apply (at_do policy _ Wait); [apply _|done]|done|]. intros w.
        eapply triple_conseq; [intros s Hs; exact Hs|apply at_require_live|done|].
        intros y s. by apply at_implies.
    + intros y _. eapply step_update with (J' := body_exit); [|by apply at_raise].
      intros h t (s & Hh). change (body_exit (app_clear (local h)) t). exists s.
      pose proof Hh as (_ & _ & Hq & Hr).
      eapply (holds_evolves _ _ _ (local h)); [apply app_clear_evolves| | | |exact Hh];
        unfold app_clear; destruct (app (local h)); first [exact Hq|exact Hr|done].
    + done.
  - intros v. apply at_update. intros h t [(Hc' & Hs & Hq & Hr) Hf]. split; [|done].
    split_and!; [|apply Hs..|done|by intros b [=]]. destruct Hc' as [[He _]|Hc']; [by left|by right].
  - intros y. apply at_update. intros h t (s & Hc' & Hs & Hq & Hr). exists s.
    split_and!; [done|apply Hs..|done|by intros b [=]].
Qed.
(** ** Whole exchanges *)

(** What the application exchange adds. *)
Definition app_rounds (with_app : bool) (ss pk ct sid : bytes) (t : list observed) : Prop :=
  with_app = true -> rounds_done ss pk ct sid 2 t.

#[export] Instance app_rounds_lasting b ss pk ct sid : Lasting (app_rounds b ss pk ct sid).
Proof. intros t u Hr Hb. apply rounds_done_lasting. auto. Qed.

(** A run that returns: the gate, the attestation in force, and the whole
    protocol of one session. *)
Definition cp3_done (info : V1SecurityInfo) (t : list observed) : Prop :=
  gate mode t /\ attested info t /\
  exists ss pk ct sid, E_secure ss pk ct sid t /\ app_rounds apps ss pk ct sid t.

#[export] Instance cp3_done_lasting info : Lasting (cp3_done info).
Proof.
  intros t u (Hg & Ha & ss & pk & ct & sid & He & Hr).
  split_and!; [by apply gate_lasting|by apply attested_lasting|].
  exists ss, pk, ct, sid. split; [by apply E_secure_lasting|by apply app_rounds_lasting].
Qed.

(** Keys are held only for a session whose FINISHED_P was verified here; the
    secret buffer is zero. *)
Definition keys_justified (l : cp3_locals) (t : list observed) : Prop :=
  (session l = CentralHandshake_init \/ closed (session l) \/
   exists ss pk ct sid, session l = cp3_secure ss pk ct sid /\ E_secure ss pk ct sid t) /\
  secret l = wipe (secret l).

#[export] Instance keys_justified_kept : V1Kept keys_justified.
Proof.
  assert (forall l l' t u, evolves l l' -> secret l' = secret l -> keys_justified l t ->
    keys_justified l' (t ++ u)) as Hev.
  { intros l l' t u He Hs [Hk Hz]. split; [|by rewrite Hs].
    destruct He as [[-> _]|Hc]; [|by right; left].
    destruct Hk as [Hi|[Hc|(ss & pk & ct & sid & Hse & Hev)]]; [by left|by right; left|right; right].
    exists ss, pk, ct, sid. split; [done|by apply E_secure_lasting]. }
  split; [split|..].
  - intros x b d l t. apply Hev; [apply deliver_evolves|apply deliver_secret].
  - intros c l t. apply Hev; [apply evolves_refl|done].
  - intros a r l t. apply Hev; [apply evolves_refl|done].
  - intros o l t Hk. rewrite <- (app_nil_r t). revert Hk.
    apply Hev; [apply clear_object_evolves|apply clear_object_secret].
  - intros f l t _ Hk. exact Hk.
  - intros r l t Hk. exact Hk.
Qed.

Lemma at_stay_quiet J :
  V1Kept J -> implies J queued ->
  triple (at_cp3 J) stay_quiet (fun _ => at_cp3 J) (fun _ => at_cp3 J).
Proof.
  intros HJ Hq. unfold stay_quiet. apply step_same; [|done|].
  { eapply triple_except with (E' := fun _ => at_cp3 J).
    - eapply step_at; [by apply at_next_notification|done|].
      intros b. apply triple_ret. intros s. apply at_implies. implied.
    - intros y _. by apply triple_ret.
    - done. }
  intros extra. apply step_raise_when; [done|]. intros _. apply at_require_same_link.
Qed.

Lemma at_cp3_body ae started :
  (match ae with Some m => apps = true /\ m = rounds | None => apps = false end) ->
  triple (at_cp3 (along (holds (is_session CentralHandshake_init) false []) (gate mode)))
    (cp3_body ae started)
    (fun info => at_cp3 (fun l t => exists ss pk ct sid,
       along (holds (is_session (cp3_secure ss pk ct sid)) true (wipe ss))
         (fun t => (gate mode t /\ attested info t /\ E_secure ss pk ct sid t) /\
                   app_rounds apps ss pk ct sid t) l t))
    (fun _ => at_cp3 body_exit).
Proof.
  intros Hae. unfold cp3_body. set (J := along _ _). assert (V1Kept J) as HJ by apply _.
  assert (implies J body_exit) as HJx by apply exit_implies.
  assert (implies J queued) as HJq by apply holds_queued.
  apply step_same; [apply at_require_same_link|done|]. intros u.
  eapply step_at; [apply (at_start_notify _ J); [apply _|done]|done|]. intros v.
  eapply at_weaken with (J' := J); [by intros l t [Hj _]|].
  eapply step_at; [by apply at_attest|done|]. intros [raw info0].
  eapply at_weaken with (J' := along (holds (is_session CentralHandshake_init) false [])
    (fun t => gate mode t /\ attested_once t)).
  { intros l t [[Hh Hg] [Ha _]]. split; [done|]. split; [done|by exists info0]. }
  eapply step_at; [apply at_send_ciphertext|done|]. intros [[pk ct] ss]. cbn [fst snd].
  eapply step_at; [apply at_send_start|done|]. intros info.
  apply at_ex. intros sid. eapply step_at; [apply at_finished_exchange|done|]. intros w.
  set (F := fun t => gate mode t /\ attested info t /\ E_secure ss pk ct sid t).
  set (J1 := along (holds (is_session (cp3_secure ss pk ct sid)) false (wipe ss)) F).
  assert (V1Kept J1) as HJ1 by apply _.
  assert (implies J1 body_exit) as HJ1x by apply exit_implies.
  assert (implies J1 queued) as HJ1q by apply holds_queued.
  apply step_same; [by apply at_stay_quiet|done|]. intros x.
  apply step_update with (J' := J1); [by intros h t Hj|].
  apply (step_ask _ _ _ _ Now). intros now.
  apply step_update with (J' := J1); [intros h t Hj; by apply v1_kept_set|].
  eapply step_at with (R := fun _ => along (holds (is_session (cp3_secure ss pk ct sid)) false (wipe ss))
    (fun t => F t /\ app_rounds apps ss pk ct sid t)) (J' := body_exit); [|done|].
  { destruct ae as [m|].
    - destruct Hae as [Hap ->]. apply step_update with (J' := J1); [by intros h t Hj|].
      eapply step_at; [by apply at_rounds|done|]. intros y.
      eapply triple_conseq; [intros s Hs; exact Hs|apply at_require_same_link| |].
      + intros z s. apply at_implies. intros l t [Hh [Hf Hr]]. split; [done|]. split; [exact Hf|by intros _].
      + intros z s. apply at_implies, exit_implies.
    - apply triple_ret. intros s. apply at_implies. intros l t [Hh Hf]. split; [done|]. split; [done|].
      unfold app_rounds. congruence. }
  intros y. eapply step_update; [|apply triple_ret; intros s Hs; exact Hs].
  intros h t [(Hc & [Hs Ho] & Hq & Hr) Hf]. exists ss, pk, ct, sid. split; [|done]. by split_and!.
Qed.

(** The end of the exchange, however the body ended. *)
Lemma at_leave_cp3 (G : cp3_locals -> list observed -> Prop) (J : cp3_locals -> list observed -> Prop) :
  V1Kept J ->
  (forall l t, G l t -> let l' := set_secret (wipe (secret l)) l in
     J (if success l' then l' else session_clear l') t) ->
  triple (at_cp3 G) leave_cp3 (fun _ => at_cp3 J) (fun _ => at_cp3 J).
Proof.
  intros HJ Hg. unfold leave_cp3.
  eapply triple_bind with (R := fun _ s => at_cp3 (fun l t => J (if success l then l else session_clear l) t) s).
  { apply at_update. intros h t Hh. exact (Hg _ _ Hh). }
  intros u. apply step_local. intros x.
  eapply step_at with (R := fun _ => J) (J' := J); [|done|].
  - destruct (success x) eqn:Hs.
    + apply triple_ret. intros s [[-> Hj] Ho]. rewrite Hs in Hj. by split.
    + apply at_update. intros h t [-> Hj]. by rewrite Hs in Hj.
  - intros v. apply step_same; [apply (at_do policy J Wait); [apply _|done]|done|]. intros w. by apply triple_ret.
Qed.

(** Before the exchange: nothing was derived. *)
Definition untouched (l : cp3_locals) (t : list observed) : Prop :=
  session l = CentralHandshake_init /\ secret l = [].

Definition done_state (info : V1SecurityInfo) (l : cp3_locals) (t : list observed) : Prop :=
  keys_justified l t /\ cp3_done info t.

#[export] Instance done_state_kept info : V1Kept (done_state info).
Proof. apply (along_v1_kept keys_justified (cp3_done info)); apply _. Qed.

Definition ready_state (l : cp3_locals) (t : list observed) : Prop :=
  keys_justified l t /\ queued l t /\ reply_heard l t.

Lemma at_exchange ae :
  (match ae with Some m => apps = true /\ m = rounds | None => apps = false end) ->
  triple (at_cp3 (along ready_state (gate mode))) (_exchange ae)
    (fun info => at_cp3 (done_state info)) (fun _ => at_cp3 keys_justified).
Proof.
  intros Hae. unfold _exchange. apply (step_ask _ _ _ _ Now). intros started.
  apply step_raw_client. intros snapshot.
  set (J := along (holds (is_session CentralHandshake_init) false []) (gate mode)).
  assert (implies J keys_justified) as HJk.
  { intros l t [([Hs|Hc] & [Hz _] & _) _]; (split; [|by rewrite Hz]); [by left|by right; left]. }
  apply step_update with (J' := J).
  { intros h t [(_ & Hq & Hr) Hg]. split; [|done]. by split_and!; [left|..]. }
  apply step_get. intros h. eapply at_weaken with (J' := J); [by intros l t [_ Hj]|].
  apply step_raise_when; [done|]. intros _.
  apply step_update with (J' := J); [by intros h' t Hj|].
  eapply triple_finally with (E' := fun _ => at_cp3 body_exit).
  - eapply triple_except; [by apply at_cp3_body| |done].
    intros x _. apply (step_ask _ _ _ _ GuardFailed). intros [|]; by apply at_raise.
  - intros info. eapply triple_conseq; [intros s Hs; exact Hs|apply (at_leave_cp3 _ (done_state info)); [apply _|]|done|].
    + intros l t (ss & pk & ct & sid & (Hc & [Hs Ho] & Hq & Hr) & (Hg & Ha & He) & Happ).
      cbn zeta. change (success (set_secret _ l)) with (success l). rewrite Ho. split; [|split_and!; [done|done|by exists ss, pk, ct, sid]].
      split; [|cbn; by rewrite wipe_wipe].
      destruct Hc as [Hc|Hc]; [right; right; by exists ss, pk, ct, sid|by right; left].
    + intros x s. apply at_implies. by intros l t [Hk _].
  - intros x. apply at_leave_cp3; [apply _|]. intros l t (s & _ & [Hs Ho] & Hq & Hr).
    cbn zeta. change (success (set_secret _ l)) with (success l). rewrite Ho. split; [right; left; apply closed_clear|cbn; by rewrite wipe_wipe].
Qed.

Lemma at_cp3_exchange ae :
  (match ae with Some m => apps = true /\ m = rounds | None => apps = false end) ->
  triple (at_cp3 (along ready_state (gate mode))) (_cp3_exchange ae)
    (fun info => at_cp3 (done_state info)) (fun _ => at_cp3 keys_justified).
Proof.
  intros Hae. unfold _cp3_exchange. eapply triple_except; [by apply at_exchange| |done].
  intros x _. apply step_same; [|done|].
  { destruct (bool_decide _); [by apply triple_ret|]. apply (at_query policy _ TimerFired). }
  intros [|]; by apply at_raise.
Qed.

Lemma keys_justified_app_clear l t : keys_justified l t -> keys_justified (app_clear l) t.
Proof. intros Hk. exact (kept_clear APPLICATION l t Hk). Qed.

Lemma at_cp4_exchange :
  apps = true ->
  triple (at_cp3 (along ready_state (gate mode))) _cp4_exchange
    (fun info => at_cp3 (done_state info)) (fun _ => at_cp3 keys_justified).
Proof.
  intros Ha. unfold _cp4_exchange. apply step_update with (J' := along ready_state (gate mode)).
  { intros h t [(Hk & Hq & Hr) Hg]. split; [|done]. split_and!; [done|done|]. by intros b [=]. }
  eapply triple_except; [apply at_cp3_exchange; by split| |done].
  intros x _. apply step_update with (J' := keys_justified); [|by apply at_raise].
  intros h t Hk. by apply keys_justified_app_clear.
Qed.

Lemma at_clear_shared slot :
  triple (at_cp3 keys_justified) (clear_shared slot) (fun _ => at_cp3 keys_justified) (fun _ => at_cp3 keys_justified).
Proof.
  unfold clear_shared. apply step_get. intros h.
  eapply at_weaken with (J' := keys_justified); [by intros l t [_ Hj]|].
  destruct (slot (client h)) as [o|]; [|by apply triple_ret].
  apply at_update. intros h' t Hk. by apply (kept_clear o).
Qed.

Lemma heard_holds l t :
  queued l t /\ reply_heard l t <-> holds (fun _ _ => True) (success l) (secret l) l t.
Proof. split; [intros [Hq Hr]; by split_and!; [left|..]|by intros (_ & _ & Hq & Hr)]. Qed.

#[export] Instance ready_state_kept : V1Kept ready_state.
Proof.
  split; [split|..].
  - intros x b d l t [Hk Hh%heard_holds]. split; [by apply kept_notified|].
    apply (kept_notified x b d) in Hh. by destruct Hh as (_ & _ & Hq & Hr).
  - intros c l t [Hk Hh%heard_holds]. split; [by apply kept_disconnected|].
    apply (kept_disconnected c) in Hh. by destruct Hh as (_ & _ & Hq & Hr).
  - intros a r l t [Hk Hh%heard_holds]. split; [by apply kept_did|].
    apply (kept_did a r) in Hh. by destruct Hh as (_ & _ & Hq & Hr).
  - intros o l t [Hk Hh%heard_holds]. split; [by apply kept_clear|].
    apply (kept_clear o) in Hh. by destruct Hh as (_ & _ & Hq & Hr).
  - intros f l t Hf [Hk Hh%heard_holds]. split; [by apply v1_kept_set|].
    apply (v1_kept_set f) in Hh; [|done]. by destruct Hh as (_ & _ & Hq & Hr).
  - intros r l t [Hk Hh%heard_holds]. split; [by apply v1_kept_new|].
    apply (v1_kept_new r) in Hh. by destruct Hh as (_ & _ & Hq & Hr).
Qed.

(** A runner's variables before its run. *)
Definition fresh_run (l : cp3_locals) (t : list observed) : Prop :=
  t = [] /\ untouched l t /\ reply l = None.

Lemma fresh_justified : implies fresh_run keys_justified.
Proof. intros l t (_ & [Hs Hz] & _). split; [by left|by rewrite Hz]. Qed.

Lemma at_run_cp3 exchange :
  triple (at_cp3 (along ready_state (gate mode))) exchange
    (fun info => at_cp3 (done_state info)) (fun _ => at_cp3 keys_justified) ->
  triple (at_cp3 fresh_run) (_run_v1 mode unpair_first true exchange)
    (fun res => at_cp3 (done_state (security_info res))) (fun _ => at_cp3 keys_justified).
Proof.
  intros Hx. apply (at_run_v1_retain mode unpair_first (cp3_exchange apps) exchange ready_state
    keys_justified done_state).
  - by intros l t [Hk _].
  - exact Hx.
  - split; [apply fresh_justified|]. intros l t Hf. pose proof (fresh_justified _ _ Hf) as Hk.
    destruct Hf as (-> & Hu & Hr). split; [exact Hk|]. split; [by intros b Hb%elem_of_nil|].
    intros b Hb. change (reply l = Some (Resolved b)) in Hb. congruence.
Qed.
End Runs.

Section Theorems.
Context {W : Type} `{Env W, Kem, Aead}.

(** What [fresh_run] says of the variables. *)
Definition fresh_variables (h : host cp3_locals) : Prop := untouched (local h) [] /\ reply (local h) = None.

#[export] Instance cp3_contract negative_test unpair_first :
  Contract fresh_variables (run_v1_cp3 negative_test unpair_first)
    (fun l t => obeys (v1_policy negative_test unpair_first (cp3_exchange false)) t /\ keys_justified l t)
    (fun res => cp3_done negative_test false (security_info res)).
Proof.
  intros s Ht Hv. assert (fresh_run (local (self s)) (trace s)) as Hf by by rewrite Ht. clear Ht Hv.
  set (policy := v1_policy negative_test unpair_first (cp3_exchange false)).
  assert (at_ policy fresh_run s) as Hs by (split; [done|destruct Hf as [-> _]; apply obeys_nil]).
  assert (triple (at_ policy fresh_run) (run_v1_cp3 negative_test unpair_first)
    (fun res => at_ policy (done_state negative_test false (security_info res)))
    (fun _ => at_ policy keys_justified)) as Hrun.
  { unfold run_v1_cp3. apply step_raise_when; [apply fresh_justified|]. intros _.
    eapply triple_except; [apply at_run_cp3, at_cp3_exchange; done| |done].
    intros x _. apply step_same; [apply at_clear_shared|done|]. intros u. by apply at_raise. }
  specialize (Hrun s Hs). destruct (run_v1_cp3 _ _ s) as [[res|x] s'].
  - destruct Hrun as [[Hk Hd] Ho]. split_and!; [done..|]. by intros ? [= <-].
  - destruct Hrun as [Hk Ho]. by split_and!.
Qed.

(** C11. CP3 over the attested link, for every peripheral and every Windows:
    behind the gate of [_run_v1], frames of a fresh encapsulation leave only
    after a strict attestation, START_CP3 only when the whole ciphertext was
    delivered and the attestation in force was received, FINISHED_C only when
    READY confirmed the transcript of this very session, and nothing else is
    written. However a run ends, the secret buffer is zeros, and the session
    holds keys only when it is the session of an exchange whose FINISHED_P was
    received and verified. A run that returns went through that exchange. *)
Theorem v1_cp3_secured negative_test unpair_first (s : io W (host cp3_locals)) :
  fresh_run (local (self s)) (trace s) ->
  let '(r, s') := run_v1_cp3 negative_test unpair_first s in
  obeys (v1_policy negative_test unpair_first (cp3_exchange false)) (trace s') /\
  keys_justified (local (self s')) (trace s') /\
  forall res, r = Ok res -> cp3_done negative_test false (security_info res) (trace s').
Proof.
  intros Hf. pose proof (contract (Contract := cp3_contract negative_test unpair_first) s (proj1 Hf) (proj2 Hf)) as Hc. cbn beta in Hc.
  destruct (run_v1_cp3 negative_test unpair_first s) as [r s']. by destruct Hc as [[Ho Hc] Hd].
Qed.

#[export] Instance cp4_contract negative_test unpair_first :
  Contract fresh_variables (run_v1_cp4 negative_test unpair_first)
    (fun l t => obeys (v1_policy negative_test unpair_first (cp3_exchange true)) t /\ keys_justified l t)
    (fun res => cp3_done negative_test true (security_info res)).
Proof.
  intros s Ht Hv. assert (fresh_run (local (self s)) (trace s)) as Hf by by rewrite Ht. clear Ht Hv.
  set (policy := v1_policy negative_test unpair_first (cp3_exchange true)).
  assert (at_ policy fresh_run s) as Hs by (split; [done|destruct Hf as [-> _]; apply obeys_nil]).
  assert (triple (at_ policy fresh_run) (run_v1_cp4 negative_test unpair_first)
    (fun res => at_ policy (done_state negative_test true (security_info res)))
    (fun _ => at_ policy keys_justified)) as Hrun.
  { unfold run_v1_cp4. apply step_raise_when; [apply fresh_justified|]. intros _.
    eapply triple_except; [apply at_run_cp3, at_cp4_exchange; done| |done].
    intros x _. apply step_same; [apply at_clear_shared|done|]. intros u.
    apply step_same; [apply at_clear_shared|done|]. intros v. by apply at_raise. }
  specialize (Hrun s Hs). destruct (run_v1_cp4 _ _ s) as [[res|x] s'].
  - destruct Hrun as [[Hk Hd] Ho]. split_and!; [done..|]. by intros ? [= <-].
  - destruct Hrun as [Hk Ho]. by split_and!.
Qed.

(** C12. CP4 on top of CP3: the same holds of every run, and what is written
    besides is PING frames of the session that FINISHED_P confirmed, under its
    key towards the peripheral, with sequence numbers 0 and 1. A run that
    returns made both rounds: each PING was written, and a frame was received
    that opens, under the other key and with the same sequence number, to the
    challenge of that PING. *)
Theorem v1_cp4_rounds negative_test unpair_first (s : io W (host cp3_locals)) :
  fresh_run (local (self s)) (trace s) ->
  let '(r, s') := run_v1_cp4 negative_test unpair_first s in
  obeys (v1_policy negative_test unpair_first (cp3_exchange true)) (trace s') /\
  keys_justified (local (self s')) (trace s') /\
  forall res, r = Ok res -> cp3_done negative_test true (security_info res) (trace s').
Proof.
  intros Hf. pose proof (contract (Contract := cp4_contract negative_test unpair_first) s (proj1 Hf) (proj2 Hf)) as Hc. cbn beta in Hc.
  destruct (run_v1_cp4 negative_test unpair_first s) as [r s']. by destruct Hc as [[Ho Hc] Hd].
Qed.
End Theorems.

(** * A bonded peripheral of CP3 and CP4

    It attests on every SEC_QUERY, confirms the transcript of the ciphertext it
    reassembles, and answers FINISHED_C and every PING. *)
Module Responder.
Record schedule := mkSchedule {
  session_id : bytes;
  ready : bytes;
  finished_c : bytes;
  finished_p : bytes;
  c2p : bytes * bytes;     (* the application key and the base of its nonces *)
  p2c : bytes * bytes;
}.

Record peer := mkPeer { fragments : list bytes; agreed : option schedule; pings : Z }.

Section Peer.
Context `{Kem, Aead}.

(** The key pair. *)
Definition public_key : bytes := (oqs_generate_keypair [x17]).1.

(** The reference key schedule, every value computed once. *)
Definition agree (frags : list bytes) (sid : bytes) : result schedule :=
  ct ← reassemble_data frags;
  ss ← oqs_decap_secret (oqs_generate_keypair [x17]).2 ct;
  let th0 := sha256 (CP3_TRANSCRIPT_LABEL ++ sec_info_level4 ++ public_key ++ ct ++ start_cp3 sid) in
  let prk := hmac_sha256 th0 ss in
  let fc := hmac_sha256 prk (FINISHED_C_LABEL ++ th0 ++ [x01]) in
  let fp := hmac_sha256 prk (FINISHED_P_LABEL ++ th0 ++ [x01]) in
  let finished_c := v1_wire V1_FINISHED_C (hmac_sha256 fc (VERIFY_C_LABEL ++ th0)) in
  let th1 := sha256 (th0 ++ finished_c) in
  let finished_p := v1_wire V1_FINISHED_P (hmac_sha256 fp (VERIFY_P_LABEL ++ th1)) in
  let th2 := sha256 (th1 ++ finished_p) in
  let kc := hmac_sha256 prk (APP_C2P_LABEL ++ th2 ++ [x01]) in
  let kp := hmac_sha256 prk (APP_P2C_LABEL ++ th2 ++ [x01]) in
  ivc ← derive_iv_base kc sid APP_C2P 0x10;
  ivp ← derive_iv_base kp sid APP_P2C 0x10;
  mret (mkSchedule sid (v1_wire V1_READY_CP3 th0) finished_c finished_p (kc, ivc) (kp, ivp)).

Definition answer_ping (k : schedule) (seq : Z) (d : bytes) : result bytes :=
  challenge ← decrypt_application (c2p k).1 (c2p k).2 (session_id k) d APP_C2P seq 0x10;
  encrypt_application (p2c k).1 (p2c k).2 (session_id k) APP_P2C seq PONG challenge 0x10.

Definition answer (w : peer) (d : bytes) : result (bytes * peer) :=
  if bool_decide (d = sec_query) then Ok (sec_info_level4, w)
  else
    match agreed w with
    | None =>
        f ← parse_v1_frame d;
        k ← agree (fragments w) (payload f);
        mret (ready k, mkPeer (fragments w) (Some k) 0)
    | Some k =>
        if bool_decide (d = finished_c k) then mret (finished_p k, w)
        else pong ← answer_ping k (pings w) d;
             mret (pong, mkPeer (fragments w) (Some k) (pings w + 1))
    end.

#[export] Instance environment : Env peer := {
  ask q w := match q as q return World.answer q * peer with
             | IsConnected _ => (true, w)
             | MtuSize _ => (247, w)
             | Urandom n => (zeros n, w)
             | Coins => ([x2a], w)
             | TimerFired | GuardFailed => (false, w)
             | Now => (0, w)
             end;
  await a w :=
    match a as a return list event * result (value a) * peer with
    | ReadGatt _ _ => ([], Ok public_key, w)
    | WriteGatt _ u d =>
        if bool_decide (u = CHAR_CIPHERTEXT_UUID)
        then ([], Ok tt, mkPeer (fragments w ++ [d]) (agreed w) (pings w))
        else match answer w d with
             | Ok (b, w') => ([Notified b true], Ok tt, w')
             | Err _ => ([], Ok tt, w)
             end
    | Confirm _ => ([], Ok true, w)
    | InspectPairing => ([], Ok (Pairing.mkPairingState true false "ENCRYPTION"), w)
    | PairNumericComparison | PairJustWorks => ([], Err (OtherException None), w)
    | FindByName _ | FindByAddress _ => ([], Ok None, w)
    | StartNotify _ _ | Connect _ | Disconnect _ | StopNotify _ _ | Wait | Unpair => ([], Ok tt, w)
    end;
}.
End Peer.

Definition initial : io peer (host cp3_locals) :=
  mkIo (mkPeer [] None 0)
    (mkHost (mkClient DEVICE_NAME (Some (mkLink 0 false)) None None None None None false) 3
       (mkCp3Locals (mkV1Run [] (V1CP1Result_init "") false false) false false false false false 0
          None [] CentralHandshake_init false false false None None None [])) [].

Definition cp3_outcome := @run_v1_cp3 peer (@environment Toy.kem Toy.aead) Toy.kem None false initial.
Definition cp4_outcome := @run_v1_cp4 peer (@environment Toy.kem Toy.aead) Toy.kem Toy.aead None false initial.
End Responder.

Lemma v1_cp3_secured_witness :
  exists res, Responder.cp3_outcome.1 = Ok res /\ app_secure (local (self Responder.cp3_outcome.2)) = true /\
    @cp3_done Toy.kem Toy.aead None false (security_info res) (trace Responder.cp3_outcome.2).
Proof.
  assert (match Responder.cp3_outcome.1 with
          | Ok res => app_secure (local (self Responder.cp3_outcome.2)) = true
          | Err _ => False
          end) as Hok by (vm_compute; reflexivity).
  pose proof (@v1_cp3_secured Responder.peer (@Responder.environment Toy.kem Toy.aead) Toy.kem Toy.aead
                None false Responder.initial (conj eq_refl (conj (conj eq_refl eq_refl) eq_refl))) as Hs.
  assert (Responder.cp3_outcome = @run_v1_cp3 Responder.peer (@Responder.environment Toy.kem Toy.aead) Toy.kem
                None false Responder.initial) as He by reflexivity.
  rewrite <- He in Hs. clear He.
  generalize dependent Responder.cp3_outcome. intros [[res|x] s'] Hok Hs; [|destruct Hok].
  exists res. destruct Hs as (_ & _ & Hres). exact (conj eq_refl (conj Hok (Hres res eq_refl))).
Defined.

Lemma v1_cp4_rounds_witness :
  exists res, Responder.cp4_outcome.1 = Ok res /\
    authenticated_rounds (local (self Responder.cp4_outcome.2)) = 2 /\
    @cp3_done Toy.kem Toy.aead None true (security_info res) (trace Responder.cp4_outcome.2).
Proof.
  assert (match Responder.cp4_outcome.1 with
          | Ok res => authenticated_rounds (local (self Responder.cp4_outcome.2)) = 2
          | Err _ => False
          end) as Hok by (vm_compute; reflexivity).
  pose proof (@v1_cp4_rounds Responder.peer (@Responder.environment Toy.kem Toy.aead) Toy.kem Toy.aead
                None false Responder.initial (conj eq_refl (conj (conj eq_refl eq_refl) eq_refl))) as Hs.
  assert (Responder.cp4_outcome = @run_v1_cp4 Responder.peer (@Responder.environment Toy.kem Toy.aead) Toy.kem Toy.aead
                None false Responder.initial) as He by reflexivity.
  rewrite <- He in Hs. clear He.
  generalize dependent Responder.cp4_outcome. intros [[res|x] s'] Hok Hs; [|destruct Hok].
  exists res. destruct Hs as (_ & _ & Hres). exact (conj eq_refl (conj Hok (Hres res eq_refl))).
Defined.
