(* ===== verification/ResumeFull.v ===== *)
(** src/src/common/resume_full.py: the full handshakes of v0.8 (hybrid) and v1.1
    (Level 4 link and ML-KEM), which reuse the v0.7 and v1.0 frames under their own
    version byte and end by issuing a resumption ticket. *)

From S2P Require Import Prelude Py Digest Interfaces Constants Frame.
From S2P Require Phase7 V1Smp.
From S2P Require Import Sas V1Cp3 Resumption.
From S2P Require Import V1Cp4.
Open Scope Z_scope.

(** [raw[:4] + bytes((version,)) + raw[5:]] *)
Definition encode_full `{P256} (profile subtype : Z) (payload : bytes) : result bytes :=
  domain profile;;
  raw ← (if profile =? V08 then Phase7.encode_phase7_frame subtype payload
         else V1Smp.encode_v1_frame subtype payload);
  b ← mk_bytes [profile];
  mret (bto 4 raw ++ b ++ bfrom 5 raw).

(** The frame as its subtype and payload. *)
Definition parse_full `{P256} (profile : Z) (raw : bytes) : result (Z * bytes) :=
  domain profile;;
  (if blen raw <? 8 then Err (ValueError "wrong full-handshake profile/version")
   else v ← idx raw 4;
        raise_if (negb (v =? profile)) (ValueError "wrong full-handshake profile/version"));;
  let baseline := if profile =? V08 then 7 else 16 in
  b ← mk_bytes [baseline];
  let adapted := bto 4 raw ++ b ++ bfrom 5 raw in
  if profile =? V08 then
    f ← Phase7.parse_phase7_frame adapted; mret (Phase7.subtype f, Phase7.payload f)
  else
    f ← V1Smp.parse_v1_frame adapted; mret (V1Smp.subtype f, V1Smp.payload f).

Definition security_info `{P256} (raw : bytes) : result V1Smp.V1SecurityInfo :=
  frame ← parse_full V11 raw;
  raise_if (negb (frame.1 =? V1Smp.V1_SEC_INFO)) (ValueError "expected v1.1 SEC_INFO");;
  match frame.2 with
  | [level; flags; key_size; profile] =>
      raise_if (negb (bool_decide ((Z_of_byte level, Z_of_byte flags, Z_of_byte key_size, Z_of_byte profile)
                                   = (4, 7, 16, V11))))
        (ValueError "v1.1 requires authenticated SC L4, 16-byte key and open gate");;
      mret (V1Smp.mkV1SecurityInfo (Z_of_byte level) true true true (Z_of_byte key_size) (Z_of_byte profile))
  | _ => Err (ValueError "unpack")
  end.

Inductive full_state := FNEW | WAIT_AUTH | FWAIT_FINISHED_P | FAPP_SECURE | FCLOSED.

#[global] Instance full_state_eq_dec : EqDecision full_state.
Proof. solve_decision. Defined.

Record FullHandshake := mkFullHandshake {
  f_profile : Z;
  f_state : full_state;
  f_session_id : bytes;
  f_prk : bytes;
  f_th : bytes;
  f_confirm_c : bytes;
  f_confirm_p : bytes;
  f_application : bytes;
  f_sas_key : bytes;
  f_app_c2p : bytes;
  f_app_p2c : bytes;
  f_ticket : option Ticket;
}.

Definition FullHandshake_init (profile : Z) : result FullHandshake :=
  domain profile;;
  mret (mkFullHandshake profile FNEW [] [] [] [] [] [] [] [] [] None).

Definition f_set_state (v : full_state) (h : FullHandshake) : FullHandshake :=
  mkFullHandshake (f_profile h) v (f_session_id h) (f_prk h) (f_th h) (f_confirm_c h) (f_confirm_p h)
    (f_application h) (f_sas_key h) (f_app_c2p h) (f_app_p2c h) (f_ticket h).
Definition f_set_session_id (v : bytes) (h : FullHandshake) : FullHandshake :=
  mkFullHandshake (f_profile h) (f_state h) v (f_prk h) (f_th h) (f_confirm_c h) (f_confirm_p h)
    (f_application h) (f_sas_key h) (f_app_c2p h) (f_app_p2c h) (f_ticket h).
Definition f_set_th (v : bytes) (h : FullHandshake) : FullHandshake :=
  mkFullHandshake (f_profile h) (f_state h) (f_session_id h) (f_prk h) v (f_confirm_c h) (f_confirm_p h)
    (f_application h) (f_sas_key h) (f_app_c2p h) (f_app_p2c h) (f_ticket h).
Definition f_set_prk (v : bytes) (h : FullHandshake) : FullHandshake :=
  mkFullHandshake (f_profile h) (f_state h) (f_session_id h) v (f_th h) (f_confirm_c h) (f_confirm_p h)
    (f_application h) (f_sas_key h) (f_app_c2p h) (f_app_p2c h) (f_ticket h).
Definition f_set_confirm (c p : bytes) (h : FullHandshake) : FullHandshake :=
  mkFullHandshake (f_profile h) (f_state h) (f_session_id h) (f_prk h) (f_th h) c p
    (f_application h) (f_sas_key h) (f_app_c2p h) (f_app_p2c h) (f_ticket h).
Definition f_set_application (a s : bytes) (h : FullHandshake) : FullHandshake :=
  mkFullHandshake (f_profile h) (f_state h) (f_session_id h) (f_prk h) (f_th h) (f_confirm_c h) (f_confirm_p h)
    a s (f_app_c2p h) (f_app_p2c h) (f_ticket h).
Definition f_set_app (c p : bytes) (h : FullHandshake) : FullHandshake :=
  mkFullHandshake (f_profile h) (f_state h) (f_session_id h) (f_prk h) (f_th h) (f_confirm_c h) (f_confirm_p h)
    (f_application h) (f_sas_key h) c p (f_ticket h).
Definition f_set_ticket (t : Ticket) (h : FullHandshake) : FullHandshake :=
  mkFullHandshake (f_profile h) (f_state h) (f_session_id h) (f_prk h) (f_th h) (f_confirm_c h) (f_confirm_p h)
    (f_application h) (f_sas_key h) (f_app_c2p h) (f_app_p2c h) (Some t).

Definition f_clear_handshake (h : FullHandshake) : FullHandshake :=
  mkFullHandshake (f_profile h) (f_state h) (f_session_id h) (wipe (f_prk h)) (wipe (f_th h))
    (wipe (f_confirm_c h)) (wipe (f_confirm_p h)) (wipe (f_application h)) (wipe (f_sas_key h))
    (f_app_c2p h) (f_app_p2c h) (f_ticket h).

Definition f_clear (h : FullHandshake) : FullHandshake :=
  match f_clear_handshake h with
  | mkFullHandshake p _ _ prk th cc cp a s c2p p2c t =>
      mkFullHandshake p FCLOSED [] prk th cc cp a s (wipe c2p) (wipe p2c) t
  end.

(** An optional argument that the profile needs. *)
Definition given (v : option bytes) : result bytes :=
  match v with Some v => mret v | None => Err (TypeError "cannot convert 'NoneType' object to bytes") end.

(** The transcript and the input keying material of either profile. *)
Definition full_canonical `{P256} (profile : Z) (ss pk ct sid : bytes) (ecdh central_public peripheral_public sec : option bytes)
  : result (bytes * bytes) :=
  d ← domain profile;
  if profile =? V08 then
    cp ← given central_public;
    pp ← given peripheral_public;
    baseline ← Phase7.build_phase7_transcript sid pk ct cp pp;
    l ← lp d;
    let canonical := l ++ bfrom (2 + blen Phase7.PHASE7_DOMAIN) baseline in
    e ← given ecdh;
    ikm ← Phase7.build_hybrid_ikm ss e;
    mret (canonical, ikm)
  else
    sec ← given sec;
    security_info sec;;
    start ← encode_full profile V1Smp.V1_START_CP3 sid;
    mret (d ++ lit "/CP3-TRANSCRIPT" ++ sec ++ pk ++ ct ++ start, ss).

Definition full_begin `{P256, Kdf} (ss pk ct sid : bytes)
    (ecdh central_public peripheral_public sec : option bytes) : method FullHandshake unit :=
  cleanup_on_error f_clear (
    self ← get_self;
    raise_when (negb (bool_decide (f_state self = FNEW))) (ValueError "full handshake already started");;
    v ← run (sized sid 16);
    update (f_set_session_id v);;
    run (sized ss 32);;
    run (sized pk 1184);;
    run (sized ct 1088);;
    let profile := f_profile self in
    d ← run (domain profile);
    ci ← run (full_canonical profile ss pk ct sid ecdh central_public peripheral_public sec);
    let th := sha256 ci.1 in
    update (f_set_th th);;
    let prk := hmac_sha256 th ci.2 in
    update (f_set_prk prk);;
    (if profile =? V08 then
       let block := hkdf_expand 128 (d ++ lit "/hybrid-key-schedule") prk in
       update (f_set_application (bto 32 block) (bslice 32 64 block));;
       update (f_set_confirm (bslice 64 96 block) (bfrom 96 block))
     else
       c ← run (expand prk (d ++ lit "/FINISHED-C") th);
       p ← run (expand prk (d ++ lit "/FINISHED-P") th);
       update (f_set_confirm c p));;
    update (f_set_state WAIT_AUTH)).

Definition full_sas : method FullHandshake string :=
  self ← get_self;
  raise_when (negb (f_profile self =? V08) || negb (bool_decide (f_state self = WAIT_AUTH)))
    (ValueError "SAS unavailable");;
  d ← run (domain (f_profile self));
  let mac := hmac_sha256 (f_sas_key self) (d ++ lit "/SAS" ++ f_th self) in
  mret (zfill 6 (py_str (from_be mac mod 1000000))).

Definition full_finish_c `{P256} (authenticated : bool) : method FullHandshake bytes :=
  cleanup_on_error f_clear (
    self ← get_self;
    raise_when (negb (bool_decide (f_state self = WAIT_AUTH)) || negb authenticated)
      (ValueError "full handshake authentication required");;
    let hybrid_profile := f_profile self =? V08 in
    d ← run (domain (f_profile self));
    tag ← run (verify_data (f_confirm_c self)
                 (d ++ if hybrid_profile then lit "/FINISHED/C" else lit "/VERIFY-C") (f_th self));
    wire ← run (encode_full (f_profile self)
                  (if hybrid_profile then Phase7.PHASE7_FINISHED_C else V1Smp.V1_FINISHED_C) tag);
    (if negb hybrid_profile then update (f_set_th (sha256 (f_th self ++ wire))) else mret tt);;
    update (f_set_state FWAIT_FINISHED_P);;
    mret wire).

Definition full_finish_p `{P256} (raw : bytes) (peer : string) (now : Z) : method FullHandshake unit :=
  cleanup_on_error f_clear (
    self ← get_self;
    raise_when (negb (bool_decide (f_state self = FWAIT_FINISHED_P))) (ValueError "unexpected FINISHED_P");;
    frame ← run (parse_full (f_profile self) raw);
    let is_hybrid := f_profile self =? V08 in
    raise_when (negb (frame.1 =? if is_hybrid then Phase7.PHASE7_FINISHED_P else V1Smp.V1_FINISHED_P))
      (ValueError "wrong FINISHED direction");;
    d ← run (domain (f_profile self));
    expected ← run (verify_data (f_confirm_p self)
                      (d ++ if is_hybrid then lit "/FINISHED/P" else lit "/VERIFY-P") (f_th self));
    raise_when (negb (compare_digest expected frame.2)) (ValueError "FINISHED_P authentication failed");;
    (if is_hybrid then
       let traffic := lit "PQ-BLE-TRAFFIC-v0.8/" in
       update (f_set_app (hmac_sha256 (f_application self) (traffic ++ lit "CENTRAL-TO-PERIPHERAL"))
                 (hmac_sha256 (f_application self) (traffic ++ lit "PERIPHERAL-TO-CENTRAL")))
     else
       let th2 := sha256 (f_th self ++ raw) in
       update (f_set_th th2);;
       c ← run (expand (f_prk self) (d ++ lit "/APP-C2P") th2);
       update (fun h => f_set_app c (f_app_p2c h) h);;
       p ← run (expand (f_prk self) (d ++ lit "/APP-P2C") th2);
       update (fun h => f_set_app (f_app_c2p h) p h));;
    self ← get_self;
    t ← run (Ticket_issue (f_profile self) peer (f_prk self) (f_th self) true now);
    update (f_set_ticket t);;
    update f_clear_handshake;;
    update (f_set_state FAPP_SECURE)).

#[export] Instance FullHandshake_session : AppSession FullHandshake := {|
  as_secure h := bool_decide (f_state h = FAPP_SECURE);
  as_profile := f_profile;
  as_app_c2p := f_app_c2p;
  as_app_p2c := f_app_p2c;
  as_session_id := f_session_id;
  as_clear := f_clear;
|}.

#[export] Instance FullHandshake_session_laws : AppSessionLaws FullHandshake.
Proof. split; intros []; reflexivity. Qed.

(** * Frames *)

Section Frames.
Context `{P256}.

Definition full_magic (profile : Z) : bytes :=
  if profile =? V08 then Phase7.PHASE7_FRAME_MAGIC else V1Smp.V1_FRAME_MAGIC.
Definition full_payload (profile s : Z) (p : bytes) : Prop :=
  if profile =? V08 then Phase7.pqs7_payload s p else V1Smp.v1_payload s p.
Definition full_wire (profile s : Z) (p : bytes) : bytes := frame_wire (full_magic profile) profile s p.

Lemma blen_full_magic profile : blen (full_magic profile) = 4.
Proof using. unfold full_magic. by destruct (profile =? V08). Qed.

Lemma encode_full_Ok profile s p w :
  encode_full profile s p = Ok w <-> valid_profile profile /\ full_payload profile s p /\ w = full_wire profile s p.
Proof using.
  unfold encode_full, full_payload, full_wire, full_magic. split.
  - intros (d & [Hp _]%domain_Ok & Hr)%bind_Ok. apply bind_Ok in Hr as (raw & He & Hr).
    rewrite mk_bytes_1 in Hr by (by apply is_byte_range, valid_profile_byte). apply Ok_inj in Hr as <-.
    destruct (profile =? V08).
    + apply Phase7.encode_phase7_Ok in He as [Hv ->]. split_and!; [done|done|]. by apply frame_wire_reversion.
    + apply V1Smp.encode_v1_Ok in He as [Hv ->]. split_and!; [done|done|]. by apply frame_wire_reversion.
  - intros (Hp & Hv & ->). rewrite domain_eq by done. cbn [mbind result_bind].
    rewrite mk_bytes_1 by (by apply is_byte_range, valid_profile_byte).
    destruct (profile =? V08).
    + rewrite (proj2 (Phase7.encode_phase7_Ok s p _)) by done. cbn [mbind result_bind].
      by rewrite frame_wire_reversion.
    + rewrite (proj2 (V1Smp.encode_v1_Ok s p _)) by done. cbn [mbind result_bind].
      unfold V1Smp.v1_wire. by rewrite frame_wire_reversion.
Qed.

Lemma full_payload_small profile s p : full_payload profile s p -> 0 <= s < 256 /\ blen p < 65536.
Proof using.
  unfold full_payload. destruct (profile =? V08).
  - apply Phase7.pqs7_payload_small.
  - apply V1Smp.v1_payload_small.
Qed.

Lemma parse_full_Ok profile raw s p :
  parse_full profile raw = Ok (s, p) <->
  valid_profile profile /\ full_payload profile s p /\ raw = full_wire profile s p.
Proof using.
  unfold parse_full. split.
  - intros (d & [Hp _]%domain_Ok & Hr)%bind_Ok. apply bind_Ok in Hr as ([] & Hc & Hr).
    destruct (blen raw <? 8); [done|]. apply bind_Ok in Hc as (v & Hi & Hv%raise_if_Ok).
    apply negb_false_iff, Z.eqb_eq in Hv. subst v. apply bind_Ok in Hr as (b & Hb & Hr).
    unfold full_payload, full_wire, full_magic. destruct (profile =? V08).
    + apply bind_Ok in Hr as (f & [Hv He]%Phase7.parse_phase7_Ok & Hr). injection Hr as <- <-.
      injection Hb as <-. split_and!; [done|done|].
      by apply (frame_wire_reversion_inv _ profile Phase7.PHASE7_FRAME_VERSION).
    + apply bind_Ok in Hr as (f & [Hv He]%V1Smp.parse_v1_Ok & Hr). injection Hr as <- <-.
      injection Hb as <-. split_and!; [done|done|].
      by apply (frame_wire_reversion_inv _ profile V1Smp.V1_FRAME_VERSION).
  - intros (Hp & Hv & ->). pose proof (full_payload_small _ _ _ Hv). pose proof (valid_profile_byte _ Hp).
    pose proof (blen_full_magic profile). pose proof (blen_nonneg p).
    rewrite domain_eq by done. cbn [mbind result_bind]. unfold full_wire.
    rewrite blen_frame_wire, frame_wire_version by done.
    replace (8 + blen p <? 8) with false by lia. cbn [mbind result_bind]. rewrite Z.eqb_refl.
    cbn [negb raise_if mbind result_bind]. unfold full_magic, full_payload in *. destruct (profile =? V08).
    + change (mk_bytes [7]) with (Ok [byte_of_Z Phase7.PHASE7_FRAME_VERSION]). cbn [mbind result_bind].
      rewrite frame_wire_reversion by done.
      by rewrite (proj2 (Phase7.parse_phase7_Ok _ (Phase7.mkPhase7Frame s p))).
    + change (mk_bytes [16]) with (Ok [byte_of_Z V1Smp.V1_FRAME_VERSION]). cbn [mbind result_bind].
      rewrite frame_wire_reversion by done.
      by rewrite (proj2 (V1Smp.parse_v1_Ok _ (V1Smp.mkV1Frame s p))).
Qed.

(** The one v1.1 SEC_INFO. *)
Definition sec_info_v11 : bytes := frame_wire V1Smp.V1_FRAME_MAGIC V11 V1Smp.V1_SEC_INFO [x04; x07; x10; x11].

Lemma security_info_Ok raw info :
  security_info raw = Ok info <->
  raw = sec_info_v11 /\ info = V1Smp.mkV1SecurityInfo 4 true true true 16 V11.
Proof using.
  unfold security_info. split.
  - intros ([s p] & (_ & _ & ->)%parse_full_Ok & Hr)%bind_Ok.
    apply bind_Ok in Hr as ([] & Hs%raise_if_Ok & Hr). cbn [fst snd] in *.
    apply negb_false_iff, Z.eqb_eq in Hs. subst s.
    destruct p as [|a [|b [|c [|d [|]]]]]; try done.
    apply bind_Ok in Hr as ([] & Hc%raise_if_Ok & Hr). apply negb_false_iff, bool_decide_eq_true in Hc.
    injection Hc as Ha Hb Hk Hp. apply Ok_inj in Hr as <-. rewrite Ha, Hk, Hp.
    apply (Z_of_byte_inj a x04) in Ha. apply (Z_of_byte_inj b x07) in Hb.
    apply (Z_of_byte_inj c x10) in Hk. apply (Z_of_byte_inj d x11) in Hp. by subst.
  - intros [-> ->].
    rewrite (proj2 (parse_full_Ok V11 sec_info_v11 V1Smp.V1_SEC_INFO [x04; x07; x10; x11]))
      by (split_and!; [by right|done|done]). done.
Qed.
End Frames.

(** * The reference handshake *)

Section Reference.
Context `{KdfLaws, P256}.
Variables (profile : Z) (canonical ikm sid : bytes).
Let v08 := profile =? V08.

Definition r_th : bytes := sha256 canonical.
Definition r_prk : bytes := hmac_sha256 r_th ikm.
Definition r_block : bytes := rfc5869_expand 128 (dom profile ++ lit "/hybrid-key-schedule") r_prk.
Definition r_application : bytes := if v08 then bto 32 r_block else [].
Definition r_sas_key : bytes := if v08 then bslice 32 64 r_block else [].
Definition r_confirm_c : bytes :=
  if v08 then bslice 64 96 r_block else hmac_sha256 r_prk ((dom profile ++ lit "/FINISHED-C") ++ r_th ++ [x01]).
Definition r_confirm_p : bytes :=
  if v08 then bfrom 96 r_block else hmac_sha256 r_prk ((dom profile ++ lit "/FINISHED-P") ++ r_th ++ [x01]).
Definition r_finished_c : bytes :=
  full_wire profile (if v08 then Phase7.PHASE7_FINISHED_C else V1Smp.V1_FINISHED_C)
    (hmac_sha256 r_confirm_c ((dom profile ++ if v08 then lit "/FINISHED/C" else lit "/VERIFY-C") ++ r_th)).
Definition r_th1 : bytes := if v08 then r_th else sha256 (r_th ++ r_finished_c).
Definition r_finished_p : bytes :=
  full_wire profile (if v08 then Phase7.PHASE7_FINISHED_P else V1Smp.V1_FINISHED_P)
    (hmac_sha256 r_confirm_p ((dom profile ++ if v08 then lit "/FINISHED/P" else lit "/VERIFY-P") ++ r_th1)).
Definition r_th2 : bytes := if v08 then r_th1 else sha256 (r_th1 ++ r_finished_p).
Definition r_app_c2p : bytes :=
  if v08 then hmac_sha256 r_application (lit "PQ-BLE-TRAFFIC-v0.8/" ++ lit "CENTRAL-TO-PERIPHERAL")
  else hmac_sha256 r_prk ((dom profile ++ lit "/APP-C2P") ++ r_th2 ++ [x01]).
Definition r_app_p2c : bytes :=
  if v08 then hmac_sha256 r_application (lit "PQ-BLE-TRAFFIC-v0.8/" ++ lit "PERIPHERAL-TO-CENTRAL")
  else hmac_sha256 r_prk ((dom profile ++ lit "/APP-P2C") ++ r_th2 ++ [x01]).
(** The ticket both sides issue. *)
Definition r_root : bytes := hmac_sha256 r_prk ((dom profile ++ lit "/RESUME-ROOT") ++ r_th2 ++ [x01]).
Definition r_ticket (peer : string) (now : Z) : Ticket :=
  mkTicket profile peer (bto 16 (hmac_sha256 r_root (dom profile ++ lit "/RESUME-ID" ++ r_th2))) r_root now 0 [] true.

Definition f_wait_auth : FullHandshake :=
  mkFullHandshake profile WAIT_AUTH sid r_prk r_th r_confirm_c r_confirm_p r_application r_sas_key [] [] None.
Definition f_wait_finished : FullHandshake :=
  mkFullHandshake profile FWAIT_FINISHED_P sid r_prk r_th1 r_confirm_c r_confirm_p r_application r_sas_key [] [] None.
Definition f_secure (peer : string) (now : Z) : FullHandshake :=
  mkFullHandshake profile FAPP_SECURE sid (zeros 32) (zeros 32) (zeros 32) (zeros 32)
    (wipe r_application) (wipe r_sas_key) r_app_c2p r_app_p2c (Some (r_ticket peer now)).

Lemma blen_r_block : blen r_block = 128.
Proof using. by apply blen_rfc5869_expand. Qed.
Lemma blen_r_th : blen r_th = 32.
Proof using. apply blen_sha256. Qed.
Lemma blen_r_prk : blen r_prk = 32.
Proof using. apply blen_hmac_sha256. Qed.
Lemma blen_r_confirm_c : blen r_confirm_c = 32.
Proof using.
  unfold r_confirm_c. destruct v08; [|apply blen_hmac_sha256].
  rewrite blen_bslice, blen_r_block by lia. done.
Qed.
Lemma blen_r_confirm_p : blen r_confirm_p = 32.
Proof using.
  unfold r_confirm_p. destruct v08; [|apply blen_hmac_sha256].
  rewrite blen_bfrom, blen_r_block by lia. done.
Qed.
Lemma blen_r_th1 : blen r_th1 = 32.
Proof using. unfold r_th1. destruct v08; apply blen_sha256. Qed.
Lemma blen_r_th2 : blen r_th2 = 32.
Proof using. unfold r_th2. destruct v08; [apply blen_r_th1|apply blen_sha256]. Qed.
Lemma blen_r_root : blen r_root = 32.
Proof using. apply blen_hmac_sha256. Qed.

Lemma finished_full_payload c v :
  blen v = 32 ->
  full_payload profile (if v08 then (if c : bool then Phase7.PHASE7_FINISHED_C else Phase7.PHASE7_FINISHED_P)
                        else if c then V1Smp.V1_FINISHED_C else V1Smp.V1_FINISHED_P) v.
Proof using.
  intros Hv. unfold full_payload. fold v08. destruct v08.
  - apply Phase7.finished_payload; [destruct c; tauto|done].
  - apply hash_payload; [destruct c; tauto|done].
Qed.

Hypothesis Hp : valid_profile profile.

#[local] Opaque r_th r_prk r_confirm_c r_confirm_p r_application r_sas_key.

Lemma Ticket_issue_ok peer now :
  Ticket_issue profile peer r_prk r_th2 true now = Ok (r_ticket peer now).
Proof using Hp.
  unfold Ticket_issue, derive_root, resume_id. cbn [negb raise_if mbind result_bind].
  rewrite (sized_eq r_prk) by apply blen_r_prk. cbn [mbind result_bind]. rewrite domain_eq by done.
  cbn [mbind result_bind]. rewrite (sized_eq r_th2) by apply blen_r_th2. cbn [mbind result_bind].
  rewrite (expand_Ok _ _ _ blen_r_prk blen_r_th2). cbn [mbind result_bind].
  by rewrite sized_eq by apply blen_r_root.
Qed.

Lemma finish_c_ok :
  full_finish_c true f_wait_auth = (Ok r_finished_c, f_wait_finished).
Proof using Hp.
  unfold full_finish_c, f_wait_auth, f_wait_finished. meth.
  cbn [f_state f_profile f_confirm_c f_th]. rewrite bool_decide_eq_true_2 by done. cbn [negb orb raise_if].
  rewrite domain_eq by done. fold v08.
  rewrite (verify_data_Ok _ _ _ blen_r_confirm_c blen_r_th).
  rewrite (proj2 (encode_full_Ok profile _ _ r_finished_c)).
  - unfold r_th1. destruct v08; reflexivity.
  - split_and!; [done| |done]. apply (finished_full_payload true), blen_hmac_sha256.
Qed.

Lemma finish_p_ok peer now :
  full_finish_p r_finished_p peer now f_wait_finished = (Ok tt, f_secure peer now).
Proof using Hp.
  unfold full_finish_p, f_wait_finished, f_secure. meth.
  cbn [f_state f_profile f_confirm_p f_th]. rewrite bool_decide_eq_true_2 by done. cbn [negb raise_if].
  set (tag := hmac_sha256 r_confirm_p ((dom profile ++ if v08 then lit "/FINISHED/P" else lit "/VERIFY-P") ++ r_th1)).
  assert (blen tag = 32) as Htag by apply blen_hmac_sha256.
  rewrite (proj2 (parse_full_Ok profile r_finished_p
    (if v08 then Phase7.PHASE7_FINISHED_P else V1Smp.V1_FINISHED_P) tag))
    by (split_and!; [done|by apply (finished_full_payload false)|done]).
  cbn [fst snd]. fold v08. rewrite Z.eqb_refl. cbn [negb raise_if]. rewrite domain_eq by done.
  rewrite (verify_data_Ok _ _ _ blen_r_confirm_p blen_r_th1). fold tag.
  unfold compare_digest. rewrite bool_decide_eq_true_2 by done. cbn [negb raise_if].
  pose proof (Ticket_issue_ok peer now) as Ht. unfold r_app_c2p, r_app_p2c.
  unfold r_th2 in Ht |- *. destruct v08 eqn:Hv.
  - unfold f_set_app. cbn [f_state f_profile f_session_id f_prk f_th f_confirm_c f_confirm_p f_application f_sas_key f_app_c2p f_app_p2c f_ticket].
    rewrite Ht. unfold f_set_ticket. cbn [f_state f_profile f_session_id f_prk f_th f_confirm_c f_confirm_p f_application f_sas_key f_app_c2p f_app_p2c f_ticket].
    unfold f_clear_handshake. cbn [f_state f_profile f_session_id f_prk f_th f_confirm_c f_confirm_p f_application f_sas_key f_app_c2p f_app_p2c f_ticket].
    rewrite (wipe_32 _ blen_r_prk), (wipe_32 _ blen_r_th1), (wipe_32 _ blen_r_confirm_c), (wipe_32 _ blen_r_confirm_p).
    reflexivity.
  - rewrite !(expand_Ok r_prk _ (sha256 (r_th1 ++ r_finished_p))) by (apply blen_r_prk || apply blen_sha256).
    unfold f_set_th, f_set_app. cbn [f_state f_profile f_session_id f_prk f_th f_confirm_c f_confirm_p f_application f_sas_key f_app_c2p f_app_p2c f_ticket].
    rewrite Ht. unfold f_set_ticket. cbn [f_state f_profile f_session_id f_prk f_th f_confirm_c f_confirm_p f_application f_sas_key f_app_c2p f_app_p2c f_ticket].
    unfold f_clear_handshake. cbn [f_state f_profile f_session_id f_prk f_th f_confirm_c f_confirm_p f_application f_sas_key f_app_c2p f_app_p2c f_ticket].
    rewrite (wipe_32 _ blen_r_prk), (wipe_32 _ (blen_sha256 (r_th1 ++ r_finished_p))), (wipe_32 _ blen_r_confirm_c), (wipe_32 _ blen_r_confirm_p).
    reflexivity.
Qed.

Lemma finish_p_inv raw peer now u h :
  full_finish_p raw peer now f_wait_finished = (Ok u, h) -> raw = r_finished_p.
Proof using Hp.
  unfold full_finish_p, f_wait_finished. meth.
  cbn [f_state f_profile f_confirm_p f_th]. rewrite bool_decide_eq_true_2 by done. cbn [negb raise_if].
  destruct (parse_full profile raw) as [[s pl]|x] eqn:Hr; [|done]. cbn [fst snd]. fold v08.
  apply parse_full_Ok in Hr as (_ & _ & ->).
  destruct (Z.eqb_spec s (if v08 then Phase7.PHASE7_FINISHED_P else V1Smp.V1_FINISHED_P)) as [->|]; [|done].
  cbn [negb raise_if]. rewrite domain_eq by done.
  rewrite (verify_data_Ok _ _ _ blen_r_confirm_p blen_r_th1).
  unfold compare_digest. match goal with |- context [bool_decide ?P] => destruct (bool_decide_reflect P) as [<-|] end;
    [|done]. done.
Qed.
End Reference.

(** * Every sequence of calls *)

Definition f_new (profile : Z) : FullHandshake := mkFullHandshake profile FNEW [] [] [] [] [] [] [] [] [] None.

Definition f_closed (h : FullHandshake) : Prop := h = f_clear h.

Lemma f_clear_eq h :
  f_clear h = mkFullHandshake (f_profile h) FCLOSED [] (wipe (f_prk h)) (wipe (f_th h)) (wipe (f_confirm_c h))
    (wipe (f_confirm_p h)) (wipe (f_application h)) (wipe (f_sas_key h)) (wipe (f_app_c2p h)) (wipe (f_app_p2c h))
    (f_ticket h).
Proof. by destruct h. Qed.

Lemma f_closed_clear h : f_closed (f_clear h).
Proof.
  unfold f_closed. rewrite !f_clear_eq. cbn [f_state f_profile f_session_id f_prk f_th f_confirm_c f_confirm_p
    f_application f_sas_key f_app_c2p f_app_p2c f_ticket]. by rewrite !wipe_wipe.
Qed.

Lemma f_closed_state h : f_closed h -> f_state h = FCLOSED.
Proof. intros Hc. rewrite Hc. by destruct h. Qed.

Section Full.
Context `{KdfLaws, P256}.

Inductive full_event :=
  | FBegin (ss pk ct sid : bytes) (ecdh cp pp sec : option bytes)
  | FFinishC (authenticated : bool)
  | FFinishP (raw : bytes) (peer : string) (now : Z)
  | FClear.

Definition full_apply (e : full_event) : method FullHandshake (list bytes) :=
  match e with
  | FBegin ss pk ct sid ecdh cp pp sec => full_begin ss pk ct sid ecdh cp pp sec;; mret []
  | FFinishC a => w ← full_finish_c a; mret [w]
  | FFinishP raw peer now => full_finish_p raw peer now;; mret []
  | FClear => update f_clear;; mret []
  end.

(** The final object, the accepted events and the frames sent. *)
Fixpoint full_run (es : list full_event) (h : FullHandshake) : FullHandshake * list full_event * list bytes :=
  match es with
  | [] => (h, [], [])
  | e :: r =>
      let '(out, h') := full_apply e h in
      let '(hf, accepted, sent) := full_run r h' in
      match out with
      | Ok ws => (hf, e :: accepted, ws ++ sent)
      | Err _ => (hf, accepted, sent)
      end
  end.

(** The sizes [begin] checks before it builds the transcript. *)
Definition full_inputs (profile : Z) (ss pk ct sid : bytes) (ecdh cp pp sec : option bytes)
    (canonical ikm : bytes) : Prop :=
  valid_profile profile /\ blen sid = 16 /\ blen ss = 32 /\ blen pk = 1184 /\ blen ct = 1088 /\
  full_canonical profile ss pk ct sid ecdh cp pp sec = Ok (canonical, ikm).

Lemma full_begin_ok profile ss pk ct sid ecdh cp pp sec canonical ikm :
  full_inputs profile ss pk ct sid ecdh cp pp sec canonical ikm ->
  full_begin ss pk ct sid ecdh cp pp sec (f_new profile) = (Ok tt, f_wait_auth profile canonical ikm sid).
Proof using H0.
  intros (Hp & Hsid & Hss & Hpk & Hct & Hc). unfold full_begin, f_new. meth. cbn [f_state].
  rewrite bool_decide_eq_true_2 by done. cbn [negb raise_if].
  rewrite (sized_eq sid), (sized_eq ss), (sized_eq pk), (sized_eq ct) by done.
  unfold f_set_session_id. cbn [f_state f_profile f_session_id f_prk f_th f_confirm_c f_confirm_p f_application f_sas_key f_app_c2p f_app_p2c f_ticket].
  rewrite domain_eq by done. rewrite Hc. cbn [fst snd].
  unfold f_wait_auth, r_application, r_sas_key, r_confirm_c, r_confirm_p.
  destruct (profile =? V08).
  - unfold r_block. by rewrite hkdf_expand_rfc5869.
  - fold (r_th canonical). fold (r_prk canonical ikm).
    rewrite (expand_Ok _ (dom profile ++ lit "/FINISHED-C") _ (blen_r_prk canonical ikm) (blen_r_th canonical)).
    by rewrite (expand_Ok _ (dom profile ++ lit "/FINISHED-P") _ (blen_r_prk canonical ikm) (blen_r_th canonical)).
Qed.

Lemma full_begin_inv ss pk ct sid ecdh cp pp sec h u h' :
  full_begin ss pk ct sid ecdh cp pp sec h = (Ok u, h') ->
  f_state h = FNEW /\ exists canonical ikm, full_inputs (f_profile h) ss pk ct sid ecdh cp pp sec canonical ikm.
Proof using.
  unfold full_begin. meth. destruct (bool_decide_reflect (f_state h = FNEW)) as [Hs|]; [|done].
  cbn [negb raise_if].
  destruct (sized sid 16) as [v1|] eqn:H1'; [|done]. destruct (sized ss 32) as [v2|] eqn:H2; [|done].
  destruct (sized pk 1184) as [v3|] eqn:H3; [|done]. destruct (sized ct 1088) as [v4|] eqn:H4; [|done].
  apply sized_Ok in H1' as [? ->], H2 as [? ->], H3 as [? ->], H4 as [? ->].
  destruct (domain (f_profile h)) as [d|] eqn:Hd; [|done]. apply domain_Ok in Hd as [Hp ->].
  destruct (full_canonical (f_profile h) ss pk ct sid ecdh cp pp sec) as [[canonical ikm]|] eqn:Hc; [|done].
  intros _. split; [done|]. exists canonical, ikm. by split_and!.
Qed.

Lemma finish_c_state a h w h' :
  full_finish_c a h = (Ok w, h') -> f_state h = WAIT_AUTH /\ a = true.
Proof using.
  unfold full_finish_c. meth. destruct (bool_decide_reflect (f_state h = WAIT_AUTH)); [|done].
  by destruct a.
Qed.

Lemma finish_p_state raw peer now h w h' :
  full_finish_p raw peer now h = (Ok w, h') -> f_state h = FWAIT_FINISHED_P.
Proof using.
  unfold full_finish_p. meth. by destruct (bool_decide_reflect (f_state h = FWAIT_FINISHED_P)).
Qed.

(** The object after the accepted events [l] that sent [sent]. *)
Inductive f_history (profile : Z) : FullHandshake -> list full_event -> list bytes -> Prop :=
  | fh_new : f_history profile (f_new profile) [] []
  | fh_auth ss pk ct sid ecdh cp pp sec canonical ikm :
      full_inputs profile ss pk ct sid ecdh cp pp sec canonical ikm ->
      f_history profile (f_wait_auth profile canonical ikm sid) [FBegin ss pk ct sid ecdh cp pp sec] []
  | fh_finished ss pk ct sid ecdh cp pp sec canonical ikm :
      full_inputs profile ss pk ct sid ecdh cp pp sec canonical ikm ->
      f_history profile (f_wait_finished profile canonical ikm sid)
        [FBegin ss pk ct sid ecdh cp pp sec; FFinishC true] [r_finished_c profile canonical ikm]
  | fh_secure ss pk ct sid ecdh cp pp sec canonical ikm peer now :
      full_inputs profile ss pk ct sid ecdh cp pp sec canonical ikm ->
      f_history profile (f_secure profile canonical ikm sid peer now)
        [FBegin ss pk ct sid ecdh cp pp sec; FFinishC true;
         FFinishP (r_finished_p profile canonical ikm) peer now] [r_finished_c profile canonical ikm]
  | fh_closed h l sent : f_closed h -> f_history profile h l sent.

Lemma full_apply_err e h x h' : full_apply e h = (Err x, h') -> f_closed h'.
Proof using.
  destruct e; cbn [full_apply]; [| | |done].
  - intros H2%(bind_mret_err _ (fun _ => [])). apply cleanup_on_error_Err in H2 as [t ->]. apply f_closed_clear.
  - intros H2%bind_mret_err. apply cleanup_on_error_Err in H2 as [t ->]. apply f_closed_clear.
  - intros H2%(bind_mret_err _ (fun _ => [])). apply cleanup_on_error_Err in H2 as [t ->]. apply f_closed_clear.
Qed.

Lemma full_apply_ok profile e h l sent ws h' :
  f_history profile h l sent -> full_apply e h = (Ok ws, h') -> f_history profile h' (l ++ [e]) (sent ++ ws).
Proof using H0.
  intros Hh. destruct e as [ss pk ct sid ecdh cp pp sec|a|raw peer now|]; cbn [full_apply].
  - intros (u & Hb & ->)%(bind_mret_inv _ (fun _ => [])).
    pose proof Hb as (Hs & canonical & ikm & Hin)%full_begin_inv.
    inversion Hh as [| | | |? ? ? Hc]; subst; try done; [|by rewrite (f_closed_state _ Hc) in Hs].
    rewrite (full_begin_ok _ _ _ _ _ _ _ _ _ canonical ikm) in Hb by exact Hin.
    injection Hb as <- <-. by constructor.
  - intros (w & Hb & ->)%bind_mret_inv. pose proof Hb as [Hs ->]%finish_c_state.
    inversion Hh as [|ss pk ct sid ecdh cp pp sec canonical ikm Hin| | |? ? ? Hc]; subst; try done;
      [|by rewrite (f_closed_state _ Hc) in Hs].
    rewrite finish_c_ok in Hb by apply Hin. injection Hb as <- <-. by constructor.
  - intros (w & Hb & ->)%(bind_mret_inv _ (fun _ => [])). pose proof Hb as Hs%finish_p_state.
    inversion Hh as [| |ss pk ct sid ecdh cp pp sec canonical ikm Hin| |? ? ? Hc]; subst; try done;
      [|by rewrite (f_closed_state _ Hc) in Hs].
    pose proof Hb as ->%finish_p_inv; [|apply Hin].
    rewrite finish_p_ok in Hb by apply Hin. injection Hb as <- <-. by constructor.
  - intros (u & [= _ <-] & ->)%(bind_mret_inv _ (fun _ => [])). apply fh_closed, f_closed_clear.
Qed.

Lemma full_run_history profile es h l sent hf accepted out :
  f_history profile h l sent -> full_run es h = (hf, accepted, out) ->
  f_history profile hf (l ++ accepted) (sent ++ out).
Proof using H0.
  revert h l sent accepted out. induction es as [|e es IH]; intros h l sent accepted out Hh; cbn [full_run].
  { intros [= <- <- <-]. by rewrite !app_nil_r. }
  destruct (full_apply e h) as [[ws|x] h'] eqn:He; destruct (full_run es h') as [[hr acc] o] eqn:Hr;
    intros [= <- <- <-].
  - rewrite cons_middle, !app_assoc. eapply IH; [|done]. by eapply full_apply_ok.
  - eapply IH; [|done]. apply fh_closed. by eapply full_apply_err.
Qed.
End Full.

(** C26. The full handshakes of v0.8 and v1.1 by trace: whatever calls and frames
    reach a fresh object, in any order, it is APP_SECURE only after exactly
    [begin] on well-sized inputs (under v1.1 with the one strict Level 4
    attestation, through [full_canonical]), FINISHED_C released under an
    authenticated user decision, and the FINISHED_P computed from the same
    secrets. It then holds the derived application keys and a ticket bound to the
    final transcript, and every handshake secret is zero; otherwise it has no
    application key and no ticket, or it is wiped and closed. *)
Theorem full_handshake_trace `{KdfLaws, P256} profile es h accepted sent :
  full_run es (f_new profile) = (h, accepted, sent) ->
  (f_state h = FAPP_SECURE -> exists ss pk ct sid ecdh cp pp sec canonical ikm peer now,
     full_inputs profile ss pk ct sid ecdh cp pp sec canonical ikm /\
     accepted = [FBegin ss pk ct sid ecdh cp pp sec; FFinishC true;
                 FFinishP (r_finished_p profile canonical ikm) peer now] /\
     sent = [r_finished_c profile canonical ikm] /\
     h = f_secure profile canonical ikm sid peer now) /\
  (f_state h <> FAPP_SECURE -> (f_app_c2p h = [] /\ f_app_p2c h = [] /\ f_ticket h = None) \/ h = f_clear h).
Proof.
  intros Hr. eapply (full_run_history profile _ _ [] []) in Hr; [|constructor]. cbn [app] in Hr. split.
  - intros Hs. inversion Hr as [| | |ss pk ct sid ecdh cp pp sec canonical ikm peer now Hin|? ? ? Hc%f_closed_state];
      subst; try done.
    + by exists ss, pk, ct, sid, ecdh, cp, pp, sec, canonical, ikm, peer, now.
    + by rewrite Hc in Hs.
  - intros Hs. inversion Hr; subst; try (by left). by right.
Qed.

(** The transcript the two profiles hash. Under v0.8, replacing the domain of
    the v0.7 transcript leaves the eight length-prefixed fields under the v0.8
    domain, which [concat_lp_inj] decodes uniquely; under v1.1 it needs the one
    strict Level 4 SEC_INFO of the v1.1 firmware and ends with this session's
    START frame. *)
Theorem full_canonical_exact `{P256} ss pk ct sid ecdh cp pp sec canonical ikm :
  (full_canonical V08 ss pk ct sid ecdh cp pp sec = Ok (canonical, ikm) <->
   exists e c p, ecdh = Some e /\ cp = Some c /\ pp = Some p /\
     Phase7.phase7_inputs sid pk ct c p /\ Phase7.build_hybrid_ikm ss e = Ok ikm /\
     canonical = concat (map lp_wire [dom V08; CENTRAL_ROLE; PERIPHERAL_ROLE; sid; pk; ct; c; p])) /\
  (full_canonical V11 ss pk ct sid ecdh cp pp sec = Ok (canonical, ikm) <->
   sec = Some sec_info_v11 /\ blen sid = 16 /\ ikm = ss /\
     canonical = dom V11 ++ lit "/CP3-TRANSCRIPT" ++ sec_info_v11 ++ pk ++ ct ++
                 full_wire V11 V1Smp.V1_START_CP3 sid).
Proof.
  unfold full_canonical. rewrite !domain_eq by (by left) || by right. split; cbn [mbind result_bind].
  - change (V08 =? V08) with true. cbn iota.
    assert (forall c p, bfrom (2 + blen Phase7.PHASE7_DOMAIN)
      (concat (map lp_wire (Phase7.phase7_fields sid pk ct c p))) =
      concat (map lp_wire [CENTRAL_ROLE; PERIPHERAL_ROLE; sid; pk; ct; c; p])) as Hb.
    { intros c p. unfold Phase7.phase7_fields. cbn [map concat]. by apply bfrom_app. }
    split.
    + intros Hc. destruct cp as [c|]; [|done]. destruct pp as [p|]; [|done].
      apply bind_Ok in Hc as (c' & Hc' & Hc). apply Ok_inj in Hc' as <-.
      apply bind_Ok in Hc as (p' & Hp' & Hc). apply Ok_inj in Hp' as <-.
      apply bind_Ok in Hc as (b & [Hi ->]%Phase7.build_phase7_transcript_Ok & Hc).
      rewrite Hb in Hc. apply bind_Ok in Hc as (l & Hl & Hc). injection Hl as <-.
      destruct ecdh as [e|]; [|by apply bind_Ok in Hc as (? & ? & _)].
      apply bind_Ok in Hc as (e' & He' & Hc). apply Ok_inj in He' as <-.
      apply bind_Ok in Hc as (k & Hk & Hc). apply Ok_inj in Hc as [= <- <-].
      exists e, c, p. by split_and!.
    + intros (e & c & p & -> & -> & -> & Hi & Hk & ->). cbn [given mbind result_bind mret result_ret].
      rewrite (proj2 (Phase7.build_phase7_transcript_Ok sid pk ct c p _)) by done.
      cbn [mbind result_bind]. rewrite Hb, lp_Ok by done. cbn [mbind result_bind]. by rewrite Hk.
  - change (V11 =? V08) with false. cbn iota. split.
    + intros Hc. destruct sec as [s|]; [|done].
      apply bind_Ok in Hc as (s' & Hs' & Hc). apply Ok_inj in Hs' as <-.
      apply bind_Ok in Hc as (i & [-> _]%security_info_Ok & Hc).
      apply bind_Ok in Hc as (w & (_ & Hp & ->)%encode_full_Ok & Hc). apply Ok_inj in Hc as [= <- <-].
      split_and!; [done| |done|done]. by apply start_cp3_payload.
    + intros (-> & Hsid & -> & ->). cbn [given mbind result_bind mret result_ret].
      rewrite (proj2 (security_info_Ok sec_info_v11 _)) by done. cbn [mbind result_bind].
      rewrite (proj2 (encode_full_Ok V11 V1Smp.V1_START_CP3 sid _))
        by (split_and!; [by right|by apply start_cp3_payload|done]). done.
Qed.

(** * Witness *)

Definition demo_v11_canonical : bytes :=
  dom V11 ++ lit "/CP3-TRANSCRIPT" ++ sec_info_v11 ++ zeros 1184 ++ zeros 1088 ++
  full_wire V11 V1Smp.V1_START_CP3 (zeros 16).

Definition demo_v11_events : list full_event :=
  [FBegin (zeros 32) (zeros 1184) (zeros 1088) (zeros 16) None None None (Some sec_info_v11);
   FFinishC true; FFinishP (r_finished_p V11 demo_v11_canonical (zeros 32)) "peer" 7].

Lemma full_handshake_trace_witness :
  exists h accepted sent,
    @full_run Toy.kdf Toy.p256 demo_v11_events (f_new V11) = (h, accepted, sent) /\
    f_state h = FAPP_SECURE /\ length accepted = 3%nat.
Proof.
  assert (f_state (@full_run Toy.kdf Toy.p256 demo_v11_events (f_new V11)).1.1 = FAPP_SECURE) as Hs
    by (vm_compute; reflexivity).
  destruct (@full_run Toy.kdf Toy.p256 demo_v11_events (f_new V11)) as [[h accepted] sent] eqn:Hr.
  destruct (proj1 (@full_handshake_trace Toy.kdf Toy.kdf_laws Toy.p256 V11 demo_v11_events h accepted sent Hr) Hs)
    as (ss & pk & ct & sid & ecdh & cp & pp & sec & canonical & ikm & peer & now & _ & Ha & _).
  exists h, accepted, sent. split; [reflexivity|]. split; [exact Hs|]. rewrite Ha. reflexivity.
Defined.
