(* ===== verification/ResumeHybrid.v ===== *)
(** src/src/common/resume_hybrid.py: the v0.8 application, two [SecureChannel]s
    over the directional keys of a full or resumed session, with PING and PONG
    rounds 0 to 9. *)

From S2P Require Import Prelude Py Digest Interfaces Constants Sas Resumption V1Cp4 Session.
Open Scope Z_scope.

Record HybridApplication (S : Type) := mkHybridApplication {
  session : S;
  c2p : option SecureChannel;
  p2c : option SecureChannel;
}.
Arguments mkHybridApplication {S}.
Arguments session {S}.
Arguments c2p {S}.
Arguments p2c {S}.

(** [f"PING {round_index}".encode("ascii")] *)
Definition ping_text (round_index : Z) : bytes := lit ("PING " +:+ py_str round_index).
Definition pong_text (round_index : Z) : bytes := lit ("PONG " +:+ py_str round_index).

Section Hybrid.
Context {S : Type} `{AppSession S, Aead}.

Definition HybridApplication_init (s : S) : result (HybridApplication S) :=
  raise_if (negb (as_profile s =? V08) || negb (as_secure s))
    (ValueError "v0.8 authenticated application session required");;
  c ← SecureChannel_init (as_app_c2p s) (Some (as_session_id s)) (Some CENTRAL_ROLE);
  p ← SecureChannel_init (as_app_p2c s) (Some (as_session_id s)) (Some CENTRAL_ROLE);
  mret (mkHybridApplication s (Some c) (Some p)).

(** Both channels, when the session is open. *)
Definition _ready : method (HybridApplication S) (SecureChannel * SecureChannel) :=
  self ← get_self;
  match c2p self, p2c self with
  | Some c, Some p =>
      raise_when (negb (as_secure (session self))) (ValueError "v0.8 application session closed");;
      mret (c, p)
  | _, _ => raise (ValueError "v0.8 application session closed")
  end.

Definition hybrid_encrypt_ping (round_index mtu : Z) (iv : bytes) : method (HybridApplication S) bytes :=
  ch ← _ready;
  raise_when (negb ((0 <=? round_index) && (round_index <=? 9)) || (mtu <? 46))
    (ValueError "invalid v0.7 test round/MTU");;
  on_field (fun _ => ch.1) (fun c a => mkHybridApplication (session a) (Some c) (p2c a))
    (encrypt (ping_text round_index) MSG_TYPE_DATA iv).

Definition hybrid_accept_pong (raw : bytes) (round_index mtu : Z) : method (HybridApplication S) unit :=
  ch ← _ready;
  raise_when (negb (blen raw =? 43) || (mtu - 3 <? blen raw) || negb (from_be (bto 8 raw) =? round_index))
    (ValueError "invalid v0.7 PONG size/sequence");;
  text ← on_field (fun _ => ch.2) (fun p a => mkHybridApplication (session a) (c2p a) (Some p))
           (decrypt raw MSG_TYPE_DATA);
  raise_when (negb (bool_decide (text = pong_text round_index))) (ValueError "invalid v0.7 PONG plaintext").

Definition hybrid_clear (a : HybridApplication S) : HybridApplication S :=
  mkHybridApplication (as_clear (session a)) None None.
End Hybrid.

(** * What the calls return *)

Section HybridCalls.
Context {S : Type} `{AppSession S, Aead}.
Implicit Types a : HybridApplication S.

Lemma hybrid_ping_ok i mtu iv a w a' :
  hybrid_encrypt_ping i mtu iv a = (Ok w, a') ->
  as_secure (session a) = true /\ exists c p, c2p a = Some c /\ p2c a = Some p /\
    sealed (_aesgcm c) (_session_id c) (_role c) (_send_seq c) (ping_text i) w /\
    a' = mkHybridApplication (session a) (Some (after_send c)) (Some p).
Proof.
  unfold hybrid_encrypt_ping, _ready. meth. destruct a as [s [c|] [p|]]; cbn [session c2p p2c]; try discriminate.
  destruct (as_secure s); cbn [negb raise_if]; [|discriminate].
  destruct (raise_if _ _); [|discriminate]. cbn [fst snd session c2p p2c].
  destruct (encrypt _ _ _ _) as [[d|e] c'] eqn:He; [|discriminate]. apply encrypt_sealed in He as [He ->].
  intros [= <- <-]. split; [done|]. by exists c, p.
Qed.

Lemma hybrid_pong_ok raw i mtu a u a' :
  hybrid_accept_pong raw i mtu a = (Ok u, a') ->
  as_secure (session a) = true /\ exists c p, c2p a = Some c /\ p2c a = Some p /\
    opened (_aesgcm p) (_session_id p) (_peer_role p) i (pong_text i) raw /\
    a' = mkHybridApplication (session a) (Some c) (Some (after_recv i p)).
Proof.
  unfold hybrid_accept_pong, _ready. meth. destruct a as [s [c|] [p|]]; cbn [session c2p p2c]; try discriminate.
  destruct (as_secure s); cbn [negb raise_if]; [|discriminate].
  destruct (raise_if _ _) as [[]|] eqn:Hg; [|discriminate].
  apply raise_if_Ok, orb_false_iff in Hg as [_ <-%negb_false_iff%Z.eqb_eq]. cbn [fst snd session c2p p2c].
  destruct (decrypt _ _ _) as [[d|e] p'] eqn:He; [|discriminate]. apply decrypt_opened in He as (He & -> & _).
  destruct (bool_decide_reflect (d = pong_text (from_be (bto 8 raw)))) as [->|]; cbn [negb raise_if]; [|discriminate].
  intros [= _ <-]. split; [done|]. by exists c, p.
Qed.
End HybridCalls.

(** * Round trips *)

(** The Peripheral's ends of the two channels before round [i]. *)
Definition peripheral_end (key sid : bytes) (i : Z) : SecureChannel :=
  mkSecureChannel key sid PERIPHERAL_ROLE CENTRAL_ROLE i (i - 1) i i.
Definition central_end (key sid : bytes) (i : Z) : SecureChannel :=
  mkSecureChannel key sid CENTRAL_ROLE PERIPHERAL_ROLE i (i - 1) i i.

Lemma round_text i : 0 <= i <= 9 -> blen (ping_text i) = 6 /\ blen (pong_text i) = 6.
Proof.
  intros Hi.
  assert (i = 0 \/ i = 1 \/ i = 2 \/ i = 3 \/ i = 4 \/ i = 5 \/ i = 6 \/ i = 7 \/ i = 8 \/ i = 9) as Hc by lia.
  destruct Hc as [->|[->|[->|[->|[->|[->|[->|[->|[->| ->]]]]]]]]]; split; vm_compute; reflexivity.
Qed.

(** One v0.8 round. On an open session with both ends at round [i], the PING
    the Central sends is 43 bytes and decrypts at the Peripheral to "PING i"; the
    PONG the Peripheral seals for that round is accepted by the Central, both
    ends advance to round [i + 1], and the same PONG is refused from then on. A
    closed session, a round outside 0..9 or an MTU under 46 sends nothing. *)
Theorem hybrid_round {S} `{AppSessionLaws S, AeadLaws} (s : S) kc kp sid i iv iv' mtu :
  as_secure s = true -> 0 <= i <= 9 -> 46 <= mtu -> blen iv = 12 -> blen iv' = 12 ->
  let a := mkHybridApplication s (Some (central_end kc sid i)) (Some (central_end kp sid i)) in
  exists ping pong a1 a2 e,
    hybrid_encrypt_ping i mtu iv a = (Ok ping, a1) /\ blen ping = 43 /\
    (decrypt ping MSG_TYPE_DATA (peripheral_end kc sid i)).1 = Ok (ping_text i) /\
    (encrypt (pong_text i) MSG_TYPE_DATA iv' (peripheral_end kp sid i)).1 = Ok pong /\
    hybrid_accept_pong pong i mtu a1 = (Ok tt, a2) /\
    option_map _send_seq (c2p a2) = Some (i + 1) /\ option_map _last_recv_seq (p2c a2) = Some i /\
    hybrid_accept_pong pong i mtu a2 = (Err e, a2) /\
    (hybrid_encrypt_ping i mtu iv (hybrid_clear a)).1 = Err (ValueError "v0.8 application session closed").
Proof.
  intros Hs Hi Hm Hiv Hiv' a. destruct (round_text i Hi) as [Hping Hpong].
  assert (0 <= i < 2 ^ 64) as Hi64 by lia.
  set (cping := aes_gcm_encrypt kc iv (ping_text i) (channel_aad sid CENTRAL_ROLE i MSG_TYPE_DATA)).
  set (cpong := aes_gcm_encrypt kp iv' (pong_text i) (channel_aad sid PERIPHERAL_ROLE i MSG_TYPE_DATA)).
  assert (blen cping = 22 /\ blen cpong = 22) as [Hcp Hcq]
    by (unfold cping, cpong; rewrite !aes_gcm_size; lia).
  exists (channel_wire i MSG_TYPE_DATA iv cping), (channel_wire i MSG_TYPE_DATA iv' cpong).
  assert (forall iv c, blen iv = 12 -> blen c = 22 -> blen (channel_wire i MSG_TYPE_DATA iv c) = 43) as Hwl
    by (intros v c Hv Hc; unfold channel_wire; bytes_len).
  assert (forall v c, from_be (bto 8 (channel_wire i MSG_TYPE_DATA v c)) = i) as Hws.
  { intros v c. unfold channel_wire. rewrite bto_app by bytes_len. rewrite from_be_bytes. apply Z.mod_small. lia. }
  do 3 eexists. split.
  { unfold hybrid_encrypt_ping, _ready. meth. cbn [a c2p p2c session]. rewrite Hs. cbn [negb raise_if fst].
    rewrite raise_if_false by lia. rewrite encrypt_eq by done. reflexivity. }
  split; [by apply Hwl|]. split.
  { rewrite decrypt_wire; [|done|done|done|lia]. rewrite bool_decide_eq_true_2 by done. cbn [negb peripheral_end _last_recv_seq].
    rewrite (proj2 (Z.leb_gt _ _)) by lia. cbn [_aesgcm _session_id _peer_role].
    unfold cping. by rewrite aes_gcm_roundtrip. }
  split; [by rewrite encrypt_eq|]. split.
  { unfold hybrid_accept_pong, _ready. meth. cbn [a c2p p2c session]. rewrite Hs. cbn [negb raise_if snd].
    rewrite Hwl, Hws by done. rewrite raise_if_false by lia.
    rewrite decrypt_wire; [|done|done|done|lia]. rewrite bool_decide_eq_true_2 by done.
    cbn [negb central_end _last_recv_seq]. rewrite (proj2 (Z.leb_gt _ _)) by lia.
    cbn [_aesgcm _session_id _peer_role]. unfold cpong. rewrite aes_gcm_roundtrip.
    rewrite bool_decide_eq_true_2 by done. reflexivity. }
  split; [done|]. split; [done|]. split; [|done].
  unfold hybrid_accept_pong, _ready. meth. cbn [c2p p2c session]. rewrite Hs. cbn [negb raise_if snd].
  rewrite Hwl, Hws by done. rewrite raise_if_false by lia.
  rewrite decrypt_wire; [|done|done|done|lia]. rewrite bool_decide_eq_true_2 by done.
  cbn [negb after_recv _last_recv_seq]. rewrite (proj2 (Z.leb_le _ _)) by lia. reflexivity.
Qed.

(** * Witness *)

Definition demo_session : CentralResume :=
  mkCentralResume demo_ticket V08 RAPP_SECURE (zeros 16) (zeros 32) None.

Lemma hybrid_round_witness :
  exists ping a1,
    @hybrid_encrypt_ping CentralResume _ Toy.aead 3 46 (zeros 12)
      (mkHybridApplication demo_session (Some (central_end (zeros 32) (zeros 16) 3))
         (Some (central_end (zeros 32) (zeros 16) 3))) = (Ok ping, a1) /\
    blen ping = 43.
Proof.
  destruct (@hybrid_round CentralResume CentralResume_session CentralResume_session_laws Toy.aead Toy.aead_laws demo_session (zeros 32) (zeros 32) (zeros 16)
    3 (zeros 12) (zeros 12) 46 ltac:(vm_compute; reflexivity) ltac:(lia) ltac:(lia) eq_refl eq_refl)
    as (ping & pong & a1 & a2 & e & H1 & H2 & _).
  exists ping, a1. exact (conj H1 H2).
Defined.
