(* ===== verification/ResumeStore.v ===== *)
(** src/src/common/resume_store.py: the file store of resumption tickets.

    The directory is a map from file names to files; a file has the size the file
    system reports and the value [json.loads] finds in it. Writing replaces a file
    atomically and succeeds. A peer identity is an ASCII string. *)

From S2P Require Import Prelude Py Digest Constants Frame Dict Resumption.
Open Scope Z_scope.

(** A JSON value, as far as the store looks at its type; a finite float is a
    number of nanoseconds, and an integer is one that fits a float. *)
Inductive json :=
  | JInt (z : Z)
  | JFloat (ns : Z)
  | JNonFinite
  | JStr (s : string)
  | JOther.

Inductive json_text := NotJson | NotObject | JObject (fields : dict json).

Record ticket_file := mkTicketFile { st_size : Z; text : json_text }.

Record TicketStore := mkTicketStore {
  directory : dict ticket_file;
  last_reason : Reason;
}.

Definition SCHEMA : Z := 1.

Definition set_reason (r : Reason) (s : TicketStore) : TicketStore := mkTicketStore (directory s) r.
Definition set_directory (d : dict ticket_file) (s : TicketStore) : TicketStore := mkTicketStore d (last_reason s).

(** The file name in the directory. *)
Definition path (profile : Z) (peer : string) : result string :=
  domain profile;;
  raise_if (String.eqb peer "" || (1024 <? Z.of_nat (String.length peer))) (ValueError "invalid peer identity");;
  p ← mk_bytes [profile];
  mret (hex (sha256 (p ++ lit peer)) +:+ ".json").

Definition ts_delete (profile : Z) (peer : string) : method TicketStore unit :=
  name ← run (path profile peer);
  update (fun s => set_directory (dict_del name (directory s)) s).

(** [raw["key"]] *)
Definition field (key : string) (d : dict json) : result json :=
  match dict_get key d with Some v => mret v | None => Err KeyError end.

Definition fromhex_field (v : json) : result bytes :=
  match v with JStr s => fromhex s | _ => Err (TypeError "fromhex() argument must be str") end.

(** From the file to the ticket object, before its [check]. *)
Definition parse_ticket (files : dict ticket_file) (profile : Z) (peer : string) : result Ticket :=
  name ← path profile peer;
  file ← (match dict_get name files with Some f => mret f | None => Err FileNotFoundError end);
  raise_if (8192 <? st_size file) (ValueError "oversized ticket");;
  raw ← (match text file with
         | NotJson => Err (ValueError "not JSON")
         | NotObject => Err (ValueError "invalid ticket schema/identity")
         | JObject d => mret d
         end);
  raise_if (negb (match dict_get "schema" raw with Some (JInt z) => z =? SCHEMA | _ => false end)
            || negb (match dict_get "profile" raw with Some (JInt z) => z =? profile | _ => false end)
            || negb (match dict_get "peer" raw with Some (JStr p) => String.eqb p peer | _ => false end))
    (ValueError "invalid ticket schema/identity");;
  created ← field "created_at" raw;
  count ← field "successful_resume_count" raw;
  created ← (match created with
             | JInt z => mret (z * SECOND)
             | JFloat ns => mret ns
             | _ => Err (ValueError "invalid ticket age/count") end);
  count ← (match count with
           | JInt z => if (0 <=? z) && (z <=? 100) then mret z else Err (ValueError "invalid ticket age/count")
           | _ => Err (ValueError "invalid ticket age/count") end);
  rid ← field "resume_id" raw;
  rid ← fromhex_field rid;
  rid ← sized rid 16;
  root ← field "k_resume" raw;
  root ← fromhex_field root;
  root ← sized root 32;
  mret (mkTicket profile peer rid root created count [] true).

(** The body of the [try] in [load]: its outcome and the ticket object, if one was
    created. *)
Definition read_ticket (files : dict ticket_file) (profile : Z) (peer : string) (now : Z)
  : result unit * option Ticket :=
  match parse_ticket files profile peer with
  | Err e => (Err e, None)
  | Ok ticket => let (r, t) := Ticket_check profile peer now ticket in (r, Some t)
  end.

(** The three [except] clauses; any other exception leaves [load]. The ticket
    object that a handler clears is local and dies with the call. *)
Definition ts_load (profile : Z) (peer : string) (now : Z) : method TicketStore (option Ticket) :=
  self ← get_self;
  match read_ticket (directory self) profile peer now with
  | (Ok _, t) => mret t
  | (Err FileNotFoundError, _) => update (set_reason NO_TICKET);; mret None
  | (Err (ResumeError reason), _) => update (set_reason reason);; ts_delete profile peer;; mret None
  | (Err (ValueError _ | TypeError _ | KeyError | OSError | OverflowError), _) =>
      update (set_reason MALFORMED);; mret None
  | (Err e, _) => raise e
  end.

(** [size] is what the file system reports for the file [save] writes. The ticket
    is an object of the caller: [check] may clear it. *)
Definition ts_save (size now : Z) : method (TicketStore * Ticket) unit :=
  self ← get_self;
  let t := self.2 in
  if negb (t_valid t) then
    on_field fst (fun s p => (s, p.2)) (ts_delete (t_profile t) (t_peer t))
  else
    on_field snd (fun t p => (p.1, t)) (Ticket_check (t_profile t) (t_peer t) now);;
    name ← run (path (t_profile t) (t_peer t));
    rid ← run (sized (t_rid t) 16);
    root ← run (sized (t_root t) 32);
    let payload :=
      [("schema", JInt SCHEMA); ("profile", JInt (t_profile t)); ("peer", JStr (t_peer t));
       ("resume_id", JStr (hex rid)); ("k_resume", JStr (hex root));
       ("created_at", JFloat (t_created_at t)); ("successful_resume_count", JInt (t_successful_resumes t))]%string in
    update (fun p => (set_directory (dict_set name (mkTicketFile size (JObject payload)) (directory p.1)) p.1, p.2)).

(** * What [load] returns *)

Definition valid_identity (profile : Z) (peer : string) : Prop :=
  valid_profile profile /\ (0 < String.length peer <= 1024)%nat.

Definition file_name (profile : Z) (peer : string) : string :=
  hex (sha256 ([byte_of_Z profile] ++ lit peer)) +:+ ".json".
Arguments file_name : simpl never.

Lemma path_Ok profile peer name :
  path profile peer = Ok name <-> valid_identity profile peer /\ name = file_name profile peer.
Proof.
  unfold path, valid_identity. split.
  - intros (d & [Hp _]%domain_Ok & H)%bind_Ok. apply bind_Ok in H as ([] & Hc%raise_if_Ok & H).
    rewrite mk_bytes_1 in H by (by apply is_byte_range, valid_profile_byte). apply Ok_inj in H as <-.
    split_and!; [done| |lia|done]. destruct peer; [done|cbn; lia].
  - intros [[Hp Hl] ->]. rewrite domain_eq by done. cbn [mbind result_bind]. pass.
    + destruct peer; cbn in *; lia.
    + by rewrite mk_bytes_1 by (by apply is_byte_range, valid_profile_byte).
Qed.

(** A ticket file that stands for a ticket of this identity. *)
Definition stands_for (f : ticket_file) (profile : Z) (peer : string) (t : Ticket) : Prop :=
  st_size f <= 8192 /\ exists raw rid_hex root_hex,
    text f = JObject raw /\
    dict_get "schema" raw = Some (JInt 1) /\ dict_get "profile" raw = Some (JInt profile) /\
    dict_get "peer" raw = Some (JStr peer) /\
    dict_get "resume_id" raw = Some (JStr rid_hex) /\ fromhex rid_hex = Ok (t_rid t) /\ blen (t_rid t) = 16 /\
    dict_get "k_resume" raw = Some (JStr root_hex) /\ fromhex root_hex = Ok (t_root t) /\ blen (t_root t) = 32 /\
    (dict_get "created_at" raw = Some (JFloat (t_created_at t)) \/
     exists z, dict_get "created_at" raw = Some (JInt z) /\ t_created_at t = z * SECOND) /\
    dict_get "successful_resume_count" raw = Some (JInt (t_successful_resumes t)) /\
    0 <= t_successful_resumes t <= 100 /\
    t_profile t = profile /\ t_peer t = peer /\ t_replay t = [] /\ t_valid t = true.

Lemma parse_ticket_Ok files profile peer t :
  parse_ticket files profile peer = Ok t <->
  valid_identity profile peer /\
  exists f, dict_get (file_name profile peer) files = Some f /\ stands_for f profile peer t.
Proof.
  unfold parse_ticket. split.
  - intros (name & [Hid ->]%path_Ok & H)%bind_Ok. split; [done|].
    apply bind_Ok in H as (f & Hf & H). destruct (dict_get (file_name profile peer) files) as [f'|]; [|done].
    apply Ok_inj in Hf as ->. exists f. split; [done|].
    apply bind_Ok in H as ([] & Hsize%raise_if_Ok & H). apply bind_Ok in H as (raw & Hraw & H).
    destruct (text f) as [| |raw'] eqn:Htext; [done|done|]. apply Ok_inj in Hraw as ->.
    apply bind_Ok in H as ([] & Hc%raise_if_Ok & H). rewrite !orb_false_iff in Hc.
    destruct Hc as [[Hs Hp] Hpe].
    destruct (dict_get "schema" raw) as [[z| | | |]|] eqn:Es; try done.
    destruct (dict_get "profile" raw) as [[z'| | | |]|] eqn:Ep; try done.
    destruct (dict_get "peer" raw) as [[| | |q|]|] eqn:Eq; try done.
    apply negb_false_iff, Z.eqb_eq in Hs, Hp. apply negb_false_iff, String.eqb_eq in Hpe.
    unfold field in H. apply bind_Ok in H as (created & Hcr & H).
    destruct (dict_get "created_at" raw) as [created'|] eqn:Ec; [|done]. apply Ok_inj in Hcr as ->.
    apply bind_Ok in H as (count & Hco & H).
    destruct (dict_get "successful_resume_count" raw) as [count'|] eqn:En; [|done]. apply Ok_inj in Hco as ->.
    apply bind_Ok in H as (c & Hcv & H). apply bind_Ok in H as (n & Hnv & H).
    apply bind_Ok in H as (rh & Hrh & H). destruct (dict_get "resume_id" raw) as [rh'|] eqn:Er; [|done].
    apply Ok_inj in Hrh as ->. apply bind_Ok in H as (rid & Hrid & H).
    destruct rh as [| | |rid_hex|]; try done.
    apply bind_Ok in H as (rid2 & [Hlr ->]%sized_Ok & H).
    apply bind_Ok in H as (kh & Hkh & H). destruct (dict_get "k_resume" raw) as [kh'|] eqn:Ek; [|done].
    apply Ok_inj in Hkh as ->. apply bind_Ok in H as (root & Hroot & H).
    destruct kh as [| | |root_hex|]; try done.
    apply bind_Ok in H as (root2 & [Hlk ->]%sized_Ok & H). apply Ok_inj in H as <-.
    assert (count = JInt n /\ 0 <= n <= 100) as [-> Hn].
    { destruct count as [z0| | | |]; try done. destruct ((0 <=? z0) && (z0 <=? 100)) eqn:Hb; [|done].
      apply Ok_inj in Hnv as ->. split; [done|lia]. }
    split; [lia|]. exists raw, rid_hex, root_hex. rewrite Es, Ep, Eq, Er, Ek, Ec, En. subst.
    cbn [t_profile t_peer t_rid t_root t_created_at t_successful_resumes t_replay t_valid].
    split_and!; try done; try lia.
    destruct created as [z0|ns| | |]; try done; apply Ok_inj in Hcv as <-; [right; by exists z0|by left].
  - intros (Hid & f & Hf & Hsz & raw & rh & kh & Ht & Hs & Hp & Hpe & Hr & Hrv & Hlr & Hk & Hkv & Hlk & Hc & Hn & Hnr
      & Hpr & Hper & Hrep & Hva).
    rewrite (proj2 (path_Ok profile peer _)) by done. cbn [mbind result_bind]. rewrite Hf.
    cbn [mbind result_bind mret result_ret]. pass; [lia|]. rewrite Ht. cbn [mbind result_bind mret result_ret].
    rewrite Hs, Hp, Hpe, !Z.eqb_refl, String.eqb_refl. cbn [negb orb raise_if mbind result_bind].
    unfold field. rewrite Hn, Hr, Hk.
    assert (exists j, dict_get "created_at" raw = Some j /\
      (match j with JInt z => mret (z * SECOND) | JFloat ns => mret ns
       | _ => Err (ValueError "invalid ticket age/count") end : result Z) = Ok (t_created_at t)) as (j & -> & Hj).
    { destruct Hc as [->|(z & -> & ->)]; eexists; done. }
    cbn [mbind result_bind mret result_ret]. rewrite Hj. cbn [mbind result_bind].
    replace ((0 <=? t_successful_resumes t) && (t_successful_resumes t <=? 100)) with true by lia.
    cbn [mbind result_bind fromhex_field mret result_ret]. rewrite Hrv. cbn [mbind result_bind].
    rewrite sized_eq by done. cbn [mbind result_bind]. rewrite Hkv. cbn [mbind result_bind].
    rewrite sized_eq by done. cbn [mbind result_bind]. destruct t; cbn in *. by subst.
Qed.

Definition live_ticket (t : Ticket) (now : Z) : Prop :=
  t_created_at t <= now < t_created_at t + TTL /\ t_successful_resumes t < MAX_RESUMES.

(** The exceptions [load] turns into "no ticket" without leaving. *)
Definition caught (x : exn) : Prop := is_value_error x = true \/ x = KeyError \/ exists m, x = TypeError m.

Lemma fromhex_raises s : raises caught (fromhex s).
Proof.
  revert s. fix IH 1. intros [|c s]; [apply raises_Ok|]. cbn [fromhex]. destruct (is_space c); [apply IH|].
  destruct s as [|c' s]; [apply raises_Err; by left|].
  destruct (hex_value c), (hex_value c'); try (apply raises_Err; by left).
  apply raises_bind; [apply IH|]. intros l. apply raises_Ok.
Qed.

Lemma sized_raises v n : raises caught (sized v n).
Proof. apply raises_bind; [apply raises_if; by left|]. intros []. apply raises_Ok. Qed.

Lemma field_raises k d : raises caught (field k d).
Proof. unfold field. destruct (dict_get k d); [apply raises_Ok|apply raises_Err; by right; left]. Qed.

Lemma hex_field_raises v : raises caught (fromhex_field v).
Proof. destruct v; try (apply raises_Err; right; right; eauto). apply fromhex_raises. Qed.

Lemma parse_ticket_err files profile peer x :
  valid_identity profile peer -> parse_ticket files profile peer = Err x ->
  match dict_get (file_name profile peer) files with
  | None => x = FileNotFoundError
  | Some _ => caught x
  end.
Proof.
  intros Hid. unfold parse_ticket. rewrite (proj2 (path_Ok profile peer _)) by done. cbn [mbind result_bind].
  destruct (dict_get (file_name profile peer) files) as [f|]; [|by intros [= <-]].
  cbn [mbind result_bind mret result_ret]. revert x.
  apply raises_bind; [apply raises_if; by left|intros []].
  apply raises_bind; [destruct (text f); [apply raises_Err; by left|apply raises_Err; by left|apply raises_Ok]|intros raw].
  apply raises_bind; [apply raises_if; by left|intros []].
  apply raises_bind; [apply field_raises|intros created]. apply raises_bind; [apply field_raises|intros count].
  apply raises_bind; [destruct created; try apply raises_Ok; apply raises_Err; by left|intros c].
  apply raises_bind.
  { destruct count as [z| | | |]; try (apply raises_Err; by left).
    destruct ((0 <=? z) && (z <=? 100)); [apply raises_Ok|apply raises_Err; by left]. }
  intros n. apply raises_bind; [apply field_raises|intros rh]. apply raises_bind; [apply hex_field_raises|intros rid].
  apply raises_bind; [apply sized_raises|intros rid']. apply raises_bind; [apply field_raises|intros kh].
  apply raises_bind; [apply hex_field_raises|intros root]. apply raises_bind; [apply sized_raises|intros root'].
  apply raises_Ok.
Qed.

Lemma Ticket_check_live profile peer now t :
  t_profile t = profile -> t_peer t = peer -> t_valid t = true ->
  (live_ticket t now -> Ticket_check profile peer now t = (Ok tt, t)) /\
  (~ live_ticket t now -> exists r, Ticket_check profile peer now t = (Err (ResumeError r), Ticket_clear t) /\
     (r = EXPIRED \/ r = MAX_USES)).
Proof.
  intros Hp He Hv. split.
  - intros [Hl Hm]. by apply Ticket_check_pass.
  - intros Hn. unfold Ticket_check. meth. rewrite Hv. cbn [negb raise_if].
    destruct ((now <? t_created_at t) || _) eqn:Ht; [eauto|].
    destruct (t_successful_resumes t >=? MAX_RESUMES) eqn:Hm; [eauto|].
    destruct Hn. split; lia.
Qed.

(** * What can be loaded afterwards *)

(** Files that are the same, or gone, parse as before. *)
Lemma parse_ticket_mono files files' profile peer t :
  (forall name f, dict_get name files' = Some f -> dict_get name files = Some f) ->
  parse_ticket files' profile peer = Ok t -> parse_ticket files profile peer = Ok t.
Proof.
  intros Hf (Hid & f & Hg & Hst)%parse_ticket_Ok. apply parse_ticket_Ok. split; [done|].
  exists f. split; [by apply Hf|done].
Qed.

(** From [files] to [files'] nothing was added but the ticket [new]. *)
Definition directory_step (files files' : dict ticket_file) (new : Ticket -> Prop) : Prop :=
  NoDup (keys files) -> NoDup (keys files') /\
  forall profile peer t, parse_ticket files' profile peer = Ok t ->
    parse_ticket files profile peer = Ok t \/ new t.

Lemma directory_step_refl files new : directory_step files files new.
Proof. intros Hn. split; [done|]. by left. Qed.

Lemma delete_step profile peer s r s' new :
  ts_delete profile peer s = (r, s') -> directory_step (directory s) (directory s') new.
Proof.
  unfold ts_delete. meth. destruct (path profile peer) as [name|x]; intros [= <- <-]; [|apply directory_step_refl].
  intros Hn. split; [by apply NoDup_dict_del|]. intros pr pe t Hp. left. eapply parse_ticket_mono; [|done].
  intros k f. cbn. rewrite dict_get_del by done. by destruct (decide (k = name)).
Qed.

Lemma read_ticket_Ok files profile peer now u t :
  read_ticket files profile peer now = (Ok u, Some t) -> parse_ticket files profile peer = Ok t.
Proof.
  unfold read_ticket. destruct (parse_ticket files profile peer) as [t0|x]; [|done].
  destruct (Ticket_check profile peer now t0) as [r t1] eqn:Hc. intros [= -> ->].
  by apply Ticket_check_cases in Hc as [(_ & -> & _)|((x & ?) & _)].
Qed.

Lemma load_step profile peer now s r s' new :
  ts_load profile peer now s = (r, s') ->
  directory_step (directory s) (directory s') new /\
  forall t, r = Ok (Some t) -> parse_ticket (directory s) profile peer = Ok t.
Proof.
  unfold ts_load. meth. destruct (read_ticket (directory s) profile peer now) as [[u|x] o] eqn:Hr.
  - intros [= <- <-]. split; [apply directory_step_refl|]. intros t [= ->]. by eapply read_ticket_Ok.
  - destruct x; try (intros [= <- <-]; split; [apply directory_step_refl|done]).
    destruct (ts_delete profile peer (set_reason reason s)) as [[v|x] s1] eqn:Hd; intros [= <- <-].
    all: split; [exact (delete_step _ _ (set_reason reason s) _ _ new Hd)|done].
Qed.

(** The same ticket, as far as its file says. *)
Definition same_secret (t t' : Ticket) : Prop :=
  t_profile t = t_profile t' /\ t_peer t = t_peer t' /\ t_rid t = t_rid t' /\ t_root t = t_root t'.

Lemma save_step size now s t r s' t' :
  ts_save size now (s, t) = (r, (s', t')) ->
  directory_step (directory s) (directory s') (fun n => t_valid t = true /\ same_secret n t) /\
  (forall u, r = Ok u -> t' = t) /\ (t' = t \/ t' = Ticket_clear t).
Proof.
  unfold ts_save. meth. cbn [fst snd]. destruct (t_valid t) eqn:Hv; cbn [negb fst snd]; cycle 1.
  { destruct (ts_delete (t_profile t) (t_peer t) s) as [q s1] eqn:Hd. intros [= <- <- <-].
    split; [by eapply delete_step|]. split; [done|by left]. }
  destruct (Ticket_check (t_profile t) (t_peer t) now t) as [[u|x] t1] eqn:Hc.
  2: { intros [= <- <- <-]. split; [apply directory_step_refl|]. split; [done|].
       apply Ticket_check_cases in Hc as [(? & _)|(_ & [->| ->])]; [done|by left|by right]. }
  apply Ticket_check_cases in Hc as [(_ & -> & _)|((x & ?) & _)]; [|done].
  destruct (path (t_profile t) (t_peer t)) as [name|x]; [|by intros [= <- <- <-]; split_and!; [apply directory_step_refl|..|left]].
  destruct (sized (t_rid t) 16) as [rid|x] eqn:Hrid;
    [|by intros [= <- <- <-]; split_and!; [apply directory_step_refl|..|left]].
  destruct (sized (t_root t) 32) as [root|x] eqn:Hroot;
    [|by intros [= <- <- <-]; split_and!; [apply directory_step_refl|..|left]].
  apply sized_Ok in Hrid as [_ ->], Hroot as [_ ->].
  intros [= <- <- <-]. split; [|by split; [|left]]. intros Hn.
  split; [by apply NoDup_dict_set|]. intros pr pe n (Hid & f & Hf & Hst)%parse_ticket_Ok.
  cbn [directory set_directory] in Hf. rewrite dict_get_set in Hf. destruct (decide (file_name pr pe = name)) as [He|].
  - right. injection Hf as <-. split; [done|].
    destruct Hst as (_ & raw & rh & kh & [= <-] & _ & Hp & Hpe & Hr & Hrv & _ & Hk & Hkv & _ & _ & _ & _ & Hpr & Hper & _).
    injection Hp as Hp. injection Hpe as Hpe. injection Hr as <-. injection Hk as <-.
    rewrite fromhex_hex in Hrv, Hkv. injection Hrv as Hrv. injection Hkv as Hkv.
    split_and!; congruence.
  - left. apply parse_ticket_Ok. split; [done|]. by exists f.
Qed.

(** [load] on every branch, for a valid identity: it never raises; it returns
    a ticket exactly when the identity's file stands for one that is live and has
    uses left, and then leaves the store alone; an absent file is NO_TICKET; an
    expired or used-up ticket deletes its own file, records the reason and
    touches no other file. *)
Theorem load_exact profile peer now s :
  valid_identity profile peer ->
  (exists t s', ts_load profile peer now s = (Ok t, s')) /\
  (forall t s', ts_load profile peer now s = (Ok (Some t), s') <->
     s' = s /\ exists f, dict_get (file_name profile peer) (directory s) = Some f /\
       stands_for f profile peer t /\ live_ticket t now) /\
  (dict_get (file_name profile peer) (directory s) = None ->
     ts_load profile peer now s = (Ok None, set_reason NO_TICKET s)) /\
  (forall f t, dict_get (file_name profile peer) (directory s) = Some f -> stands_for f profile peer t ->
     ~ live_ticket t now -> exists r, (r = EXPIRED \/ r = MAX_USES) /\
     ts_load profile peer now s =
       (Ok None, mkTicketStore (dict_del (file_name profile peer) (directory s)) r)).
Proof.
  intros Hid. unfold ts_load. meth. unfold read_ticket.
  assert (path profile peer = Ok (file_name profile peer)) as Hpath by (by apply path_Ok).
  assert (forall st, ts_delete profile peer st =
    (Ok tt, set_directory (dict_del (file_name profile peer) (directory st)) st)) as Hdel
    by (intros st; unfold ts_delete; meth; by rewrite Hpath).
  destruct (parse_ticket (directory s) profile peer) as [t0|x] eqn:Hparse.
  - pose proof Hparse as (_ & f0 & Hf0 & Hst0)%parse_ticket_Ok. pose proof Hst0 as Hst0'.
    destruct Hst0' as (_ & ? & ? & ? & _ & _ & _ & _ & _ & _ & _ & _ & _ & _ & _ & _ & _ & Hpr & Hpe & _ & Hv).
    destruct (Ticket_check_live profile peer now t0 Hpr Hpe Hv) as [Hlive Hdead].
    assert (forall f t, dict_get (file_name profile peer) (directory s) = Some f ->
      stands_for f profile peer t -> t = t0) as Huniq.
    { intros f t Hf Ht. assert (parse_ticket (directory s) profile peer = Ok t) as Hp
        by (apply parse_ticket_Ok; eauto). congruence. }
    destruct (decide (live_ticket t0 now)) as [Hl|Hl].
    + rewrite Hlive by done. split_and!; [by eexists _, _| | |].
      * intros t s'. split; [intros [= <- <-]; eauto 6|].
        intros (-> & f & Hf & Ht & _). by rewrite (Huniq f t).
      * by rewrite Hf0.
      * intros f t Hf Ht. by rewrite (Huniq f t).
    + destruct (Hdead Hl) as (r & -> & Hr). rewrite Hdel. split_and!; [by eexists _, _| | |].
      * intros t s'. split; [done|]. intros (_ & f & Hf & Ht & Hlt). by rewrite (Huniq f t) in Hlt.
      * by rewrite Hf0.
      * intros f t Hf Ht _. exists r. by split.
  - pose proof (parse_ticket_err _ _ _ _ Hid Hparse) as Hx.
    assert (forall f t, dict_get (file_name profile peer) (directory s) = Some f ->
      stands_for f profile peer t -> False) as Hno.
    { intros f t Hf Ht. assert (parse_ticket (directory s) profile peer = Ok t) as Hp
        by (apply parse_ticket_Ok; eauto). congruence. }
    destruct (dict_get (file_name profile peer) (directory s)) as [f|].
    + assert (exists s1, (match x with
        | FileNotFoundError => update (set_reason NO_TICKET);; mret None
        | ResumeError reason => update (set_reason reason);; ts_delete profile peer;; mret None
        | ValueError _ | TypeError _ | KeyError | OSError | OverflowError => update (set_reason MALFORMED);; mret None
        | e => raise e end : method TicketStore (option Ticket)) s = (Ok None, s1)) as [s1 Hs1].
      { destruct Hx as [Hx|[->|[m ->]]]; meth; [destruct x; try done|..]; rewrite ?Hdel; eauto. }
      revert Hs1. meth. intros Hs1. rewrite Hs1. split_and!; [by eexists _, _| |done|].
      * intros t s'. split; [done|]. by intros (_ & f' & [= <-] & Ht & _); destruct (Hno f t).
      * intros f' t [= <-] Ht. by destruct (Hno f t).
    + subst x. split_and!; [by eexists _, _| |done|done].
      intros t s'. split; [done|]. by intros (_ & f' & ? & _).
Qed.

(** C40. Round trip through the disk, for a ticket that is valid, of a valid profile and
    peer, with a 16-byte identifier and a 32-byte root, in a file of at most 8192
    bytes. Saving a live ticket writes the one file of its identity, leaves the
    ticket and every other file alone, and loading that identity while the ticket is
    live returns the same ticket with an empty replay list. Saving a ticket that is
    no longer live clears it, writes nothing and raises; saving it again then
    deletes its file. *)
Theorem save_load_roundtrip size now now' s t :
  valid_identity (t_profile t) (t_peer t) -> blen (t_rid t) = 16 -> blen (t_root t) = 32 ->
  0 <= t_successful_resumes t -> size <= 8192 -> t_valid t = true ->
  (live_ticket t now -> exists s',
     ts_save size now (s, t) = (Ok tt, (s', t)) /\
     (forall name, name <> file_name (t_profile t) (t_peer t) ->
        dict_get name (directory s') = dict_get name (directory s)) /\
     (live_ticket t now' -> ts_load (t_profile t) (t_peer t) now' s' =
        (Ok (Some (mkTicket (t_profile t) (t_peer t) (t_rid t) (t_root t) (t_created_at t)
                     (t_successful_resumes t) [] true)), s'))) /\
  (~ live_ticket t now -> exists r,
     ts_save size now (s, t) = (Err (ResumeError r), (s, Ticket_clear t)) /\
     ts_save size now' (s, Ticket_clear t) =
       (Ok tt, (set_directory (dict_del (file_name (t_profile t) (t_peer t)) (directory s)) s, Ticket_clear t))).
Proof.
  intros Hid Hrid Hroot Huse Hsize Hv.
  destruct (Ticket_check_live (t_profile t) (t_peer t) now t eq_refl eq_refl Hv) as [Hlive Hdead].
  assert (path (t_profile t) (t_peer t) = Ok (file_name (t_profile t) (t_peer t))) as Hpath by (by apply path_Ok).
  split.
  - intros Hl. unfold ts_save. meth. cbn [snd fst]. rewrite Hv. cbn [negb].
    change (s, t).2 with t. rewrite (Hlive Hl), Hpath.
    rewrite !sized_eq by done. eexists. split; [done|]. split.
    + intros name Hn. cbn. rewrite dict_get_set. by rewrite decide_False.
    + intros Hl'. unfold ts_load. meth. unfold read_ticket.
      set (d := dict_set _ _ _). set (t' := mkTicket _ _ _ _ _ _ _ _).
      assert (parse_ticket d (t_profile t) (t_peer t) = Ok t') as Hp.
      { apply parse_ticket_Ok. split; [done|]. eexists. split.
        { unfold d. by rewrite dict_get_set, decide_True. }
        split; [done|]. eexists _, _, _. split; [done|]. destruct Hl' as [_ Hm]. unfold MAX_RESUMES in Hm.
        cbn. rewrite !fromhex_hex. split_and!; try done; try lia. by left. }
      unfold set_directory. cbn [directory fst snd]. rewrite Hp. rewrite Ticket_check_pass; try done; apply Hl'.
  - intros Hn. destruct (Hdead Hn) as (r & Hc & _). exists r. unfold ts_save, ts_delete. meth. cbn [snd fst].
    rewrite Hv. cbn [negb]. change (s, t).2 with t. rewrite Hc. split; [done|]. cbn [Ticket_clear t_valid t_profile t_peer negb].
    by rewrite Hpath.
Qed.

(** * Witnesses *)

Definition demo_store0 : TicketStore := mkTicketStore [] NO_TICKET.

Lemma load_exact_witness :
  valid_identity V08 "peer" /\ ts_load V08 "peer" 5 demo_store0 = (Ok None, demo_store0).
Proof.
  assert (valid_identity V08 "peer") as Hid by (split; [left; reflexivity|cbn; lia]).
  split; [exact Hid|].
  destruct (load_exact V08 "peer" 5 demo_store0 Hid) as (_ & _ & Hn & _). exact (Hn eq_refl).
Defined.

Lemma save_load_roundtrip_witness :
  exists s', ts_save 300 5 (demo_store0, demo_ticket) = (Ok tt, (s', demo_ticket)) /\
    ts_load V08 "peer" 9 s' = (Ok (Some demo_ticket), s').
Proof.
  destruct (save_load_roundtrip 300 5 9 demo_store0 demo_ticket
    ltac:(split; [left; reflexivity|cbn; lia]) eq_refl eq_refl ltac:(cbn; lia) ltac:(lia) eq_refl) as [Hs _].
  destruct (Hs ltac:(split; vm_compute; repeat split; congruence)) as (s' & H1 & _ & H2).
  exists s'. split; [exact H1|]. exact (H2 ltac:(split; vm_compute; repeat split; congruence)).
Defined.
