(* ===== verification/ResumeCentral.v ===== *)
(** src/src/central/resumption.py: the runner of v0.8 and v1.1. It resumes with a
    stored ticket or runs the full handshake, then makes the authenticated
    application rounds, and falls back to a full handshake on the original peer
    when a resumption fails. Under v1.1 all of it is the exchange of [_run_v1].

    Three objects are shared. The session belongs to the coroutine, to the client
    (whose disconnect callback clears it) and to the application object, which
    the client holds as well. The ticket belongs to the coroutine and to the
    session that resumes with it, or that issued it. The session is the field
    [rl_session]; the application object is its own fields and that session;
    [x_ticket] is the coroutine's reference to the ticket, and every change of
    the ticket is made in both places. *)

From S2P Require Import Prelude Py Digest Interfaces World Constants Pairing Fragmentation Sas BleClient Resumption V1Cp4 Session ResumeFull ResumeStore ResumeHybrid V1Central.
From S2P Require V1Smp Phase7 V1Cp3.
Open Scope Z_scope.

Definition NEGATIVE_MODES : list string :=
  ["init-mac"; "accept-mac"; "replay-init"; "replay-finish"; "expired"; "max-uses"; "pre-l4"].

(** The profile of the result is that of the call. *)
Record Result := mkResult {
  r_path : string;
  r_scenario : string;
  fallback_reason : option string;
  rounds : Z;
  r_app_secure : bool;
  ticket_saved : bool;
  successful_resumes : Z;
  _finish_c_for_test : option bytes;
}.

Definition Result_init : Result := mkResult "full" "application" None 0 false false 0 None.

Definition set_path (p : string) (n : Z) (r : Result) : Result :=
  mkResult p (r_scenario r) (fallback_reason r) (rounds r) (r_app_secure r) (ticket_saved r) n
    (_finish_c_for_test r).
Definition set_scenario (s : string) (r : Result) : Result :=
  mkResult (r_path r) s (fallback_reason r) (rounds r) (r_app_secure r) (ticket_saved r)
    (successful_resumes r) (_finish_c_for_test r).
Definition set_fallback (reason : option string) (r : Result) : Result :=
  mkResult (r_path r) (r_scenario r) reason (rounds r) (r_app_secure r) (ticket_saved r)
    (successful_resumes r) (_finish_c_for_test r).
Definition add_round (r : Result) : Result :=
  mkResult (r_path r) (r_scenario r) (fallback_reason r) (rounds r + 1) (r_app_secure r) (ticket_saved r)
    (successful_resumes r) (_finish_c_for_test r).
Definition set_secured (saved : bool) (r : Result) : Result :=
  mkResult (r_path r) (r_scenario r) (fallback_reason r) (rounds r) true saved
    (successful_resumes r) (_finish_c_for_test r).
Definition keep_finish_c (f : bytes) (r : Result) : Result :=
  mkResult (r_path r) (r_scenario r) (fallback_reason r) (rounds r) (r_app_secure r) (ticket_saved r)
    (successful_resumes r) (Some f).

(** [exc.reason.name] *)
Definition reason_name (r : Reason) : string :=
  match r with
  | NO_TICKET => "NO_TICKET" | EXPIRED => "EXPIRED" | MAX_USES => "MAX_USES"
  | PROFILE_MISMATCH => "PROFILE_MISMATCH" | BAD_AUTH => "BAD_AUTH" | REPLAY => "REPLAY"
  | L4_REQUIRED => "L4_REQUIRED" | MALFORMED => "MALFORMED" | INTERNAL_ERROR => "INTERNAL_ERROR"
  | REPLAY_CACHE_FULL => "REPLAY_CACHE_FULL"
  end.

(** [raw[:-1] + bytes((raw[-1] ^ 1,))] *)
Definition tamper (raw : bytes) : result bytes :=
  match raw !! (length raw - 1)%nat with
  | None => Err IndexError
  | Some b => mret (bto (blen raw - 1) raw ++ [byte_xor b x01])
  end.

(** [s.upper()] of an ASCII string. *)
Definition upper_char (c : Ascii.ascii) : Ascii.ascii :=
  let n := Ascii.nat_of_ascii c in
  if (97 <=? n)%nat && (n <=? 122)%nat then Ascii.ascii_of_nat (n - 32) else c.

Fixpoint upper (s : string) : string :=
  match s with
  | EmptyString => EmptyString
  | String c r => String (upper_char c) (upper r)
  end.

(** * The session and the application object *)

Inductive any_session := SResume (c : CentralResume) | SFull (h : FullHandshake).

#[export] Instance any_app_session : AppSession any_session := {
  as_secure s := match s with SResume c => as_secure c | SFull h => as_secure h end;
  as_profile s := match s with SResume c => as_profile c | SFull h => as_profile h end;
  as_app_c2p s := match s with SResume c => as_app_c2p c | SFull h => as_app_c2p h end;
  as_app_p2c s := match s with SResume c => as_app_p2c c | SFull h => as_app_p2c h end;
  as_session_id s := match s with SResume c => as_session_id c | SFull h => as_session_id h end;
  as_clear s := match s with SResume c => SResume (as_clear c) | SFull h => SFull (as_clear h) end;
}.

#[export] Instance any_app_session_laws : AppSessionLaws any_session.
Proof.
  split; intros [c|h]; cbn [as_secure as_app_c2p as_app_p2c as_clear any_app_session].
  - apply as_clear_insecure.
  - apply as_clear_insecure.
  - apply as_clear_c2p.
  - apply as_clear_c2p.
  - apply as_clear_p2c.
  - apply as_clear_p2c.
Qed.

(** [session.state == "CLOSED"] *)
Definition is_closed (s : any_session) : bool :=
  match s with
  | SResume c => bool_decide (c_state c = RCLOSED)
  | SFull h => bool_decide (f_state h = FCLOSED)
  end.

(** The session's reference to the ticket, when it has one. *)
Definition session_ticket (s : any_session) : option Ticket :=
  match s with SResume c => Some (c_ticket c) | SFull h => f_ticket h end.

Definition set_session_ticket (t : Ticket) (s : any_session) : any_session :=
  match s with
  | SResume c => SResume (c_set_ticket t c)
  | SFull h => match f_ticket h with Some _ => SFull (f_set_ticket t h) | None => SFull h end
  end.

(** What the application object has besides the session. *)
Inductive app_fields :=
  | HybridFields (c2p p2c : option SecureChannel)
  | CentralFields (profile : Z) (iv_c2p iv_p2c : bytes) (tx rx : Z).

(** * The variables *)

(** Written by the coroutine alone; the store and the result outlive an exchange. *)
Record resume_vars := mkResumeVars {
  x_ticket : option Ticket;
  x_secret : bytes;
  x_ecdh : bytes;
  x_store : TicketStore;
  x_result : Result;
}.

Definition set_ticket (t : option Ticket) (x : resume_vars) : resume_vars :=
  mkResumeVars t (x_secret x) (x_ecdh x) (x_store x) (x_result x).
Definition set_secrets (s e : bytes) (x : resume_vars) : resume_vars :=
  mkResumeVars (x_ticket x) s e (x_store x) (x_result x).
Definition set_store (s : TicketStore) (x : resume_vars) : resume_vars :=
  mkResumeVars (x_ticket x) (x_secret x) (x_ecdh x) s (x_result x).
Definition on_result (f : Result -> Result) (x : resume_vars) : resume_vars :=
  mkResumeVars (x_ticket x) (x_secret x) (x_ecdh x) (x_store x) (f (x_result x)).

Record resume_locals := mkResumeLocals {
  rl_v1 : v1_run;
  own_handler : bool;             (* the last subscription was made with [on_notify] *)
  rl_queue : list bytes;
  rl_link : option link;
  rl_session : option any_session;
  rl_app : option app_fields;
  rl_vars : resume_vars;
}.

Definition set_rl_v1 (v : v1_run) (l : resume_locals) : resume_locals :=
  mkResumeLocals v (own_handler l) (rl_queue l) (rl_link l) (rl_session l) (rl_app l) (rl_vars l).
Definition set_handler (own : bool) (l : resume_locals) : resume_locals :=
  mkResumeLocals (rl_v1 l) own (rl_queue l) (rl_link l) (rl_session l) (rl_app l) (rl_vars l).
Definition set_rl_queue (q : list bytes) (l : resume_locals) : resume_locals :=
  mkResumeLocals (rl_v1 l) (own_handler l) q (rl_link l) (rl_session l) (rl_app l) (rl_vars l).
Definition set_rl_session (s : option any_session) (l : resume_locals) : resume_locals :=
  mkResumeLocals (rl_v1 l) (own_handler l) (rl_queue l) (rl_link l) s (rl_app l) (rl_vars l).
Definition set_rl_app (a : option app_fields) (l : resume_locals) : resume_locals :=
  mkResumeLocals (rl_v1 l) (own_handler l) (rl_queue l) (rl_link l) (rl_session l) a (rl_vars l).
Definition set_rl_vars (f : resume_vars -> resume_vars) (l : resume_locals) : resume_locals :=
  mkResumeLocals (rl_v1 l) (own_handler l) (rl_queue l) (rl_link l) (rl_session l) (rl_app l) (f (rl_vars l)).

(** The application objects, with the session they share. *)
Definition store_hybrid (a : HybridApplication any_session) (l : resume_locals) : resume_locals :=
  set_rl_app (Some (HybridFields (c2p a) (p2c a))) (set_rl_session (Some (ResumeHybrid.session a)) l).

Definition store_central (a : CentralApplication any_session) (l : resume_locals) : resume_locals :=
  set_rl_app (Some (CentralFields (app_profile a) (iv_c2p a) (iv_p2c a) (tx_c2p a) (rx_p2c a)))
    (set_rl_session (Some (handshake a)) l).

(** [app.clear()], when there is one. *)
Definition app_clear (l : resume_locals) : resume_locals :=
  match rl_app l, rl_session l with
  | Some (HybridFields c p), Some s => store_hybrid (hybrid_clear (mkHybridApplication s c p)) l
  | Some (CentralFields p ivc ivp tx rx), Some s =>
      store_central (CentralApplication_clear (mkCentralApplication s p ivc ivp tx rx)) l
  | _, _ => l
  end.

(** [session.clear()], when there is one. *)
Definition session_clear (l : resume_locals) : resume_locals :=
  set_rl_session (as_clear <$> rl_session l) l.

(** A change of the ticket object. *)
Definition set_ticket_object (t : Ticket) (l : resume_locals) : resume_locals :=
  set_rl_vars (set_ticket (Some t)) (set_rl_session (set_session_ticket t <$> rl_session l) l).

(** [ticket.clear()], when there is one. *)
Definition ticket_clear (l : resume_locals) : resume_locals :=
  match x_ticket (rl_vars l) with Some t => set_ticket_object (Ticket_clear t) l | None => l end.

(** References to the two objects of an exchange. *)
Definition SESSION : ref := 1.
Definition APPLICATION : ref := 2.

(** [on_notify] fills the queue of the exchange, the handler of [_run_v1] its own. *)
#[export] Instance resume_program : Program resume_locals := {
  clear_object o l :=
    if o =? SESSION then session_clear l else if o =? APPLICATION then app_clear l else l;
  on_data _ _ b l :=
    if own_handler l then set_rl_queue (rl_queue l ++ [b]) l
    else set_rl_v1 (set_v1_notifications (v1_notifications (rl_v1 l) ++ [b]) (rl_v1 l)) l;
}.

#[export] Instance resume_v1_locals : V1Locals resume_locals := {
  v1 := rl_v1;
  set_v1 f l := set_rl_v1 (f (rl_v1 l)) l;
  new_result r l := set_rl_v1 (set_v1_result (fun _ => r) (rl_v1 l)) l;
}.

Lemma app_clear_rest l :
  rl_v1 (app_clear l) = rl_v1 l /\ own_handler (app_clear l) = own_handler l /\
  rl_queue (app_clear l) = rl_queue l /\ rl_link (app_clear l) = rl_link l /\ rl_vars (app_clear l) = rl_vars l.
Proof. unfold app_clear. by destruct (rl_app l) as [[]|], (rl_session l). Qed.

#[export] Instance resume_v1_laws : V1Laws resume_locals.
Proof.
  split; [done|done|..].
  - intros x b data l d. cbn. destruct (own_handler l); [intros Hd; apply elem_of_app; by left|done].
  - intros o l. cbn. repeat case_match; [done|by rewrite (proj1 (app_clear_rest l))|done].
Qed.

Section Exchange.
Context {W : Type} `{Env W, Kem, Kdf, Aead, P256}.

(** What the file system reports for the file that holds this ticket. *)
Variable file_size : Ticket -> Z.

Abbreviation coroutine := (method (io W (host resume_locals))).

Definition get_local : coroutine resume_locals := h ← get_own; mret (local h).
Definition update_local (f : resume_locals -> resume_locals) : coroutine unit := update_own (on_local f).
Definition get_vars : coroutine resume_vars := l ← get_local; mret (rl_vars l).
Definition update_vars (f : resume_vars -> resume_vars) : coroutine unit := update_local (set_rl_vars f).

(** Methods of the session, whose type the code knows; the ticket it has is the
    coroutine's. *)
Definition on_resume {A} (m : method CentralResume A) : coroutine A :=
  l ← get_local;
  match rl_session l with
  | Some (SResume c) =>
      let (r, c') := m c in
      update_local (fun l => set_rl_vars (set_ticket (Some (c_ticket c'))) (set_rl_session (Some (SResume c')) l));;
      run r
  | _ => raise AttributeError
  end.

Definition on_full {A} (m : method FullHandshake A) : coroutine A :=
  l ← get_local;
  match rl_session l with
  | Some (SFull h) =>
      let (r, h') := m h in update_local (set_rl_session (Some (SFull h')));; run r
  | _ => raise AttributeError
  end.

Definition on_ticket {A} (m : method Ticket A) : coroutine A :=
  x ← get_vars;
  match x_ticket x with
  | Some t => let (r, t') := m t in update_local (set_ticket_object t');; run r
  | None => raise AttributeError
  end.

Definition on_store {A} (m : method TicketStore A) : coroutine A :=
  x ← get_vars;
  let (r, s) := m (x_store x) in update_vars (set_store s);; run r.

Definition load_ticket (profile : Z) (peer : string) : coroutine (option Ticket) :=
  now ← query_env Now;
  on_store (ts_load profile peer now).

(** [store.save(ticket)] *)
Definition save_ticket : coroutine unit :=
  now ← query_env Now;
  x ← get_vars;
  match x_ticket x with
  | Some t =>
      let '(r, (s, t')) := ts_save (file_size t) now (x_store x, t) in
      update_vars (set_store s);; update_local (set_ticket_object t');; run r
  | None => raise AttributeError
  end.

(** ** The pieces of [_exchange] *)

Section OneExchange.
Variables (profile : Z) (peer : string) (allow_resume force_full : bool).
Variables (negative : option string) (replay_finish : option bytes).

Definition is_negative (m : string) : bool := bool_decide (negative = Some m).

Definition begin_exchange : coroutine unit :=
  snapshot ← raw_client;
  update_local (fun l => set_rl_vars (set_ticket None)
    (mkResumeLocals (rl_v1 l) false [] snapshot None None (rl_vars l)));;
  update_own (on_client enable_security_test).

Definition require_link : coroutine unit :=
  connected ← is_connected;
  current ← raw_client;
  l ← get_local;
  raise_when (negb (connected : bool) || negb (bool_decide (current = rl_link l))
              || match rl_session l with Some s => is_closed s | None => false end)
    (V1Error "connection lost/replaced during new-profile exchange").

Definition receive : coroutine bytes :=
  perform Wait;;
  l ← get_local;
  raw ← (match rl_queue l with
         | [] => raise AsyncTimeoutError
         | b :: q => update_local (set_rl_queue q);; mret b
         end);
  require_link;;
  mret raw.

Definition attest : coroutine bytes :=
  query ← run (encode_full V11 V1Smp.V1_SEC_QUERY []);
  send_control query;;
  sec ← receive;
  run (ResumeFull.security_info sec);;
  mret sec.

(** [session = value; own(session)] *)
Definition own (value : any_session) : coroutine unit :=
  l ← get_local;
  update_local (set_rl_session (Some value));;
  update_own (on_client (set_shared_session (Some SESSION) (rl_link l))).

(** Up to the ticket, if there is one to resume with. *)
Definition obtain_ticket : coroutine unit :=
  update_local (set_handler true);;
  start_notify;;
  require_link;;
  (if profile =? V11 then attest;; mret tt else mret tt);;
  (if negb allow_resume then on_store (ts_delete profile peer) else mret tt);;
  ticket ← (if allow_resume then load_ticket profile peer else mret None);
  update_vars (set_ticket ticket);;
  if is_negative "expired" || is_negative "max-uses" then
    raise_when (bool_decide (ticket = None))
      (V1Error "negative lifecycle mode requires an existing Central ticket");;
    on_ticket (update (fun t =>
      if is_negative "expired"
      then mkTicket (t_profile t) (t_peer t) (t_rid t) (t_root t) (t_created_at t - TTL)
             (t_successful_resumes t) (t_replay t) (t_valid t)
      else mkTicket (t_profile t) (t_peer t) (t_rid t) (t_root t) (t_created_at t)
             MAX_RESUMES (t_replay t) (t_valid t)));;
    now ← query_env Now;
    try_except (fun x => match x with ResumeError _ => true | _ => false end)
      (fun exc =>
         match exc with
         | ResumeError reason => update_vars (on_result (set_fallback (Some (reason_name reason))))
         | _ => mret tt
         end;;
         on_store (ts_delete profile peer);;
         update_vars (set_ticket None))
      (on_ticket (Ticket_check profile peer now))
  else mret tt.

(** The IV bases given to [CentralApplication]: a resumed session has its own. *)
Definition supplied_ivs (s : any_session) : result (option (bytes * bytes)) :=
  match s with
  | SResume c => match c_keys c with
                 | Some k => Ok (Some (k_iv_c2p k, k_iv_p2c k))
                 | None => Err AttributeError
                 end
  | SFull _ => Ok None
  end.

(** [HybridApplication(session)] or [CentralApplication(session, ...)], whose
    constructor clears the session when it fails. *)
Definition new_application : coroutine unit :=
  l ← get_local;
  match rl_session l with
  | None => raise AttributeError
  | Some s =>
      if profile =? V08 then
        a ← run (HybridApplication_init s);
        update_local (store_hybrid a)
      else
        ivs ← run (supplied_ivs s);
        let '(created, a) := CentralApplication_init (fst <$> ivs) (snd <$> ivs) s in
        match created with
        | Ok _ => update_local (store_central a)
        | Err x => update_local (set_rl_session (Some (handshake a)));; raise x
        end
  end.

(** The new session object and its INIT, sent. *)
Definition send_init : coroutine bytes :=
  now ← query_env Now;
  session_id ← query_env (Urandom 16);
  nc ← query_env (Urandom 32);
  created ← on_ticket (CentralResume_init now session_id nc);
  own (SResume created);;
  init ← on_resume CentralResume_begin;
  init ← (if is_negative "init-mac" then run (tamper init) else mret init);
  send_control init;;
  mret init.

(** The rejection of INIT. *)
Definition resume_rejected : coroutine unit :=
  raise_when (is_negative "init-mac") (NegativePassed "bad INIT MAC explicitly rejected");;
  update_vars (on_result (set_fallback (Some "RESUME_REJECT"%string)));;
  update_local session_clear;;
  update_local (set_rl_session None);;
  update_own (on_client (fun x => set_shared_session None (_v1_cp3_link x) x)).

(** The modes that end with the answer to INIT. *)
Definition negative_accept (init raw : bytes) : coroutine unit :=
  raise_when (is_negative "init-mac") (V1Error "Peripheral accepted forged INIT");;
  (if is_negative "replay-init" then
     send_control init;;
     reply ← receive;
     run (parse reply profile (Some REJECT));;
     raise (NegativePassed "duplicate INIT explicitly rejected")
   else mret tt);;
  if is_negative "accept-mac" then
    tampered ← run (tamper raw);
    try_except (fun x => match x with ResumeError _ => true | _ => false end)
      (fun exc => if bool_decide (exc = ResumeError BAD_AUTH)
                  then raise (NegativePassed "Central rejected tampered ACCEPT; FINISH_C not sent")
                  else raise exc)
      (on_resume (CentralResume_accept tampered);; mret tt);;
    raise (V1Error "Central accepted forged ACCEPT")
  else mret tt.

Definition resume_accepted (raw : bytes) : coroutine unit :=
  finished ← on_resume (CentralResume_accept raw);
  send_control (default finished replay_finish);;
  reply ← receive;
  (match replay_finish with
   | Some _ =>
       run (parse reply profile (Some REJECT));;
       raise (NegativePassed "old FINISH_C explicitly rejected in a fresh resume transcript")
   | None => mret tt
   end);;
  on_resume (CentralResume_finish reply);;
  save_ticket;;
  x ← get_vars;
  match x_ticket x with
  | Some t => update_vars (on_result (set_path "resume" (t_successful_resumes t)))
  | None => raise AttributeError
  end;;
  new_application;;
  update_vars (on_result (keep_finish_c finished)).

Definition try_resume : coroutine unit :=
  init ← send_init;
  raw ← receive;
  frame ← run (parse raw profile None);
  if frame.1 =? REJECT then resume_rejected
  else negative_accept init raw;; resume_accepted raw.

(** ** The full handshake *)

(** The public key that was read, its encapsulation, and the START frame; under
    v0.8 with a P-256 key pair of this handshake. *)
Definition make_start : coroutine (bytes * bytes * bytes * option (ec_private * bytes) * bytes) :=
  pk ← read_fragmented_public_key;
  require_link;;
  run (sized pk 1184);;
  coins ← query_env Coins;
  encapsulated ← run (encapsulate pk coins);
  update_vars (fun x => set_secrets encapsulated.2 (x_ecdh x) x);;
  sid ← query_env (Urandom 16);
  if profile =? V08 then
    coins ← query_env Coins;
    let private := Phase7.generate_p256_private_key coins in
    public ← run (Phase7.serialize_p256_public_key private);
    start ← run (encode_full profile Phase7.PHASE7_START7_AUTH (sid ++ public));
    mret (pk, encapsulated.1, sid, Some (private, public), start)
  else
    start ← run (encode_full profile V1Smp.V1_START_CP3 sid);
    mret (pk, encapsulated.1, sid, None, start).

(** [session.begin(secret, pk, ct, sid, ...)] *)
Definition begin_full (pk ct sid : bytes) (ecdh central_public peripheral_public sec : option bytes)
  : coroutine unit :=
  x ← get_vars;
  on_full (full_begin (x_secret x) pk ct sid ecdh central_public peripheral_public sec).

(** START, and the answer to it. *)
Definition exchange_start (start : bytes) : coroutine (Z * bytes) :=
  send_control start;;
  raw ← receive;
  run (parse_full profile raw).

(** READY of v0.8: the key exchange, and the person's decision on the SAS. *)
Definition agree_v08 (pk ct sid : bytes) (private : ec_private) (public : bytes) (ready : Z * bytes)
  : coroutine bool :=
  raise_when (negb (ready.1 =? Phase7.PHASE7_READY7_AUTH)) (V1Error "expected v0.8 READY_AUTH");;
  ecdh ← run (Phase7.derive_p256_ecdh_shared_secret private ready.2);
  update_vars (fun x => set_secrets (x_secret x) ecdh x);;
  begin_full pk ct sid (Some ecdh) (Some public) (Some ready.2) None;;
  update_vars (fun x => set_secrets (wipe (x_secret x)) (wipe (x_ecdh x)) x);;
  sas ← on_full full_sas;
  perform (Confirm sas).

(** READY of v1.1: the transcript of this session. *)
Definition agree_v11 (ready : Z * bytes) : coroutine bool :=
  l ← get_local;
  match rl_session l with
  | Some (SFull h) =>
      raise_when (negb (ready.1 =? V1Smp.V1_READY_CP3) || negb (compare_digest ready.2 (f_th h)))
        (V1Error "v1.1 READY transcript mismatch");;
      mret true
  | _ => raise AttributeError
  end.

(** FINISHED_C, FINISHED_P, and the new ticket in place of the old one. *)
Definition finish_full (confirmed : bool) : coroutine unit :=
  finished_c ← on_full (full_finish_c confirmed);
  send_control finished_c;;
  reply ← receive;
  now ← query_env Now;
  on_full (full_finish_p reply peer now);;
  update_vars (fun x => set_ticket (Ticket_clear <$> x_ticket x) x);;
  l ← get_local;
  update_vars (set_ticket (rl_session l ≫= session_ticket));;
  save_ticket;;
  new_application.

(** The inner [try] block. *)
Definition full_body : coroutine unit :=
  made ← make_start;
  let '(pk, ct, sid, keys, start) := made in
  write_fragmented_ciphertext ct;;
  (if profile =? V11 then
     sec ← attest;
     begin_full pk ct sid None None None (Some sec)
   else mret tt);;
  ready ← exchange_start start;
  confirmed ← (match keys with
               | Some (private, public) => agree_v08 pk ct sid private public ready
               | None => agree_v11 ready
               end);
  finish_full confirmed.

Definition wipe_secrets : coroutine unit :=
  update_vars (fun x => set_secrets (wipe (x_secret x)) (wipe (x_ecdh x)) x).

Definition full_handshake : coroutine unit :=
  raise_when (is_negative "init-mac" || is_negative "accept-mac"
              || is_negative "replay-init" || is_negative "replay-finish")
    (V1Error "negative resume mode requires a valid ticket on both peers");;
  x ← get_vars;
  (if bool_decide (fallback_reason (x_result x) = None) && negb force_full then
     update_vars (on_result (set_fallback
       (if bool_decide (x_ticket x = None) then Some (reason_name (last_reason (x_store x))) else None)))
   else mret tt);;
  session ← run (FullHandshake_init profile);
  own (SFull session);;
  update_vars (set_secrets [] []);;
  try_finally wipe_secrets full_body.

(** ** The application rounds *)

Definition on_hybrid {A} (m : method (HybridApplication any_session) A) : coroutine A :=
  l ← get_local;
  match rl_app l, rl_session l with
  | Some (HybridFields c p), Some s =>
      let (r, a) := m (mkHybridApplication s c p) in update_local (store_hybrid a);; run r
  | _, _ => raise AttributeError
  end.

Definition on_central {A} (m : method (CentralApplication any_session) A) : coroutine A :=
  l ← get_local;
  match rl_app l, rl_session l with
  | Some (CentralFields p ivc ivp tx rx), Some s =>
      let (r, a) := m (mkCentralApplication s p ivc ivp tx rx) in update_local (store_central a);; run r
  | _, _ => raise AttributeError
  end.

Definition round (round_index : Z) : coroutine unit :=
  require_link;;
  (if profile =? V08 then
     mtu ← mtu_size;
     iv ← query_env (Urandom GCM_IV_SIZE);
     wire ← on_hybrid (hybrid_encrypt_ping round_index mtu iv);
     write_secure_data wire;;
     raw ← receive;
     mtu ← mtu_size;
     on_hybrid (hybrid_accept_pong raw round_index mtu)
   else
     challenge ← query_env (Urandom 16);
     mtu ← mtu_size;
     wire ← on_central (encrypt_ping challenge mtu);
     send_control wire;;
     raw ← receive;
     mtu ← mtu_size;
     on_central (accept_pong raw challenge mtu));;
  update_vars (on_result add_round).

Definition application_rounds : coroutine unit :=
  update_vars (fun x => on_result (set_secured (match x_ticket x with Some t => t_valid t | None => false end)) x);;
  update_own (on_client (set_shared_application (Some APPLICATION)));;
  for_each round (if profile =? V08 then [0; 1; 2] else [0; 1]);;
  l ← get_local;
  raise_when (negb (bool_decide (rl_queue l = [])))
    (V1Error "unsolicited notification after authenticated application traffic").

(** The body of the [try] block. *)
Definition exchange_body : coroutine Result :=
  obtain_ticket;;
  x ← get_vars;
  (if negb (bool_decide (x_ticket x = None)) && negb force_full then try_resume else mret tt);;
  l ← get_local;
  (if bool_decide (rl_app l = None) then full_handshake else mret tt);;
  application_rounds;;
  x ← get_vars;
  mret (x_result x).

Definition leave_exchange : coroutine unit :=
  update_local app_clear;;
  update_local session_clear;;
  update_local ticket_clear;;
  stop_notify.

Definition _exchange : coroutine Result :=
  begin_exchange;;
  try_finally leave_exchange exchange_body.
End OneExchange.

(** ** [run_session] *)

Section Session.
Variables (profile : Z).

(** The exception of the runner that [except V1Error] unwraps. *)
Definition unwrap (x : exn) : exn :=
  match x with
  | V1ErrorFrom _ (ResumeError r) => ResumeError r
  | V1ErrorFrom _ AsyncTimeoutError => AsyncTimeoutError
  | V1ErrorFrom _ (NegativePassed m) => NegativePassed m
  | _ => x
  end.

Definition after_l4 (peer : string) (force : bool) (mode : option string) (replay_finish : option bytes)
  : coroutine V1Smp.V1SecurityInfo :=
  r ← get_v1;
  update_vars (on_result (set_scenario (scenario (v1_result r))));;
  x ← get_vars;
  _exchange profile peer (bool_decide (r_scenario (x_result x) = "bonded"%string)) force mode replay_finish;;
  mret (V1Smp.mkV1SecurityInfo 4 true true true 16 V11).

Definition attempt (peer : string) (force : bool) (mode : option string) (replay_finish : option bytes)
  : coroutine Result :=
  if profile =? V08 then _exchange profile peer true force mode replay_finish
  else
    try_except is_v1_error (fun exc => raise (unwrap exc))
      (_run_v1 None false false (after_l4 peer force mode replay_finish));;
    x ← get_vars;
    mret (x_result x).

(** What [negative == "pre-l4"] does; it always raises. *)
Definition pre_l4 : coroutine Result :=
  paired ← (if negb (profile =? V11) then mret true
            else state ← perform InspectPairing; mret (is_paired state));
  raise_when paired (V1Error "pre-l4 requires v1.1 with both bonds deleted");;
  try_except is_exception
    (fun exc => match V1Smp.classify_security_denial exc with
                | Some _ => raise (NegativePassed "actual RESUME_INIT denied by pre-L4 GATT security gate")
                | None => raise exc
                end)
    (init ← run (encode profile INIT (zeros 96)); send_control init);;
  raise (V1Error "pre-L4 RESUME_INIT was accepted").

(** The head of the function: the peer, a new result, the mode. *)
Definition start_session (negative : option string) : coroutine string :=
  found ← address;
  peer ← (match found with Some a => mret (upper a) | None => raise AttributeError end);
  update_vars (on_result (fun _ => Result_init));;
  raise_when (match negative with Some m => negb (bool_decide (m ∈ NEGATIVE_MODES)) | None => false end)
    (ValueError "unknown resume negative mode");;
  mret peer.

Definition falls_back (x : exn) : bool :=
  match x with ResumeError _ | AsyncTimeoutError => true | _ => false end.

(** The attempt, and the fallback to a full handshake. *)
Definition attempt_or_fall_back (peer : string) (force_full : bool) (negative : option string)
    (replay_finish : option bytes) : coroutine Result :=
  try_except falls_back
    (fun exc =>
       raise_when (force_full || negb (bool_decide (negative = None))) exc;;
       update_vars (on_result (set_fallback
         (Some (match exc with ResumeError r => reason_name r | _ => "TIMEOUT"%string end))));;
       ok ← reconnect_v1_peer;
       raise_when (negb ok) (V1ErrorFrom "could not reconnect original peer for full fallback" exc);;
       attempt peer true None replay_finish)
    (attempt peer force_full negative replay_finish).

(** The call of itself by "replay-finish" has the old FINISH_C, so that it goes
    straight to its attempt. *)
Definition run_session (force_full : bool) (negative : option string) (replay_finish : option bytes)
  : coroutine Result :=
  peer ← start_session negative;
  if bool_decide (negative = Some "pre-l4"%string) then pre_l4
  else if bool_decide (negative = Some "replay-finish"%string) && bool_decide (replay_finish = None) then
    seeded ← attempt peer false None replay_finish;
    raise_when (negb (bool_decide (r_path seeded = "resume"%string)))
      (V1Error "replay-finish requires an eligible existing ticket");;
    old ← (match _finish_c_for_test seeded with Some f => mret f | None => raise AttributeError end);
    ok ← reconnect_v1_peer;
    raise_when (negb ok) (V1Error "could not reconnect original peer for replay test");;
    peer ← start_session negative;
    attempt_or_fall_back peer false negative (Some old)
  else attempt_or_fall_back peer force_full negative replay_finish.
End Session.
End Exchange.
