(* ===== verification/ResumeEvidence.v ===== *)
(** The evidence that a run of src/src/central/resumption.py has for what it sends:
    the transcripts of a resumption and of a full handshake, the tickets that may
    be used, the keys of the traffic; what the callbacks can do to the variables;
    and what the calls of the two kinds of session return. *)

From stdpp Require Import sets.
From S2P Require Import Prelude Py Digest Interfaces World Constants Frame Dict Pairing Fragmentation Sas BleClient Policy Resumption V1Cp4 Session ResumeFull ResumeStore ResumeHybrid V1Central ResumeCentral.
From S2P Require V1Smp Phase7 V1Cp3.
Open Scope Z_scope.

(** * Evidence *)

(** The traffic keys of a session, however it came about. *)
Record traffic_keys := mkTrafficKeys {
  kd_sid : bytes;
  kd_c2p : bytes;
  kd_p2c : bytes;
  kd_iv_c2p : bytes;
  kd_iv_p2c : bytes;
}.

(** What a full handshake agrees on; the public key is empty under v1.1. *)
Record full_terms := mkFullTerms {
  g_ss : bytes;
  g_pk : bytes;
  g_ct : bytes;
  g_sid : bytes;
  g_public : bytes;
  g_ready : bytes;
  g_canonical : bytes;
  g_ikm : bytes;
}.

Definition sec_query_v11 : bytes := full_wire V11 V1Smp.V1_SEC_QUERY [].

Section Evidence.
Context `{Kem, Kdf, Aead, P256}.
Variables (profile : Z) (d0 : dict ticket_file).

(** Under v1.1: the strict Level 4 attestation was asked for and received. *)
Definition level4_ok (t : list observed) : Prop :=
  profile = V11 -> wrote CHAR_CONTROL_UUID sec_query_v11 t /\ sec_info_v11 ∈ heard t.

(** ** The full handshake *)

Definition start_frame (g : full_terms) : bytes :=
  full_wire profile (if profile =? V08 then Phase7.PHASE7_START7_AUTH else V1Smp.V1_START_CP3)
    (g_sid g ++ g_public g).
Definition ready_frame (g : full_terms) : bytes :=
  full_wire profile (if profile =? V08 then Phase7.PHASE7_READY7_AUTH else V1Smp.V1_READY_CP3) (g_ready g).

(** The transcript of both sides: with the ECDH value of a key pair of this run
    and the received public key under v0.8, with the attestation under v1.1,
    where READY repeats its hash. *)
Definition agreed_terms (g : full_terms) : Prop :=
  if profile =? V08 then
    exists private, g_public g = ec_public_bytes private /\
      full_inputs profile (g_ss g) (g_pk g) (g_ct g) (g_sid g) (Some (ec_exchange private (g_ready g)))
        (Some (g_public g)) (Some (g_ready g)) None (g_canonical g) (g_ikm g)
  else
    g_public g = [] /\ g_ready g = r_th (g_canonical g) /\
    full_inputs profile (g_ss g) (g_pk g) (g_ct g) (g_sid g) None None None (Some sec_info_v11)
      (g_canonical g) (g_ikm g).

(** The six digits the person compares. *)
Definition sas_text (g : full_terms) : string :=
  zfill 6 (py_str (from_be (hmac_sha256 (r_sas_key profile (g_canonical g) (g_ikm g))
                              (dom profile ++ lit "/SAS" ++ r_th (g_canonical g))) mod 1000000)).

(** START: the whole ciphertext was delivered. *)
Definition E_start (g : full_terms) (t : list observed) : Prop :=
  level4_ok t /\ delivered_to (g_pk g) (g_ct g) (g_ss g) t.

(** READY was received, and the transcript is agreed. *)
Definition E_ready (g : full_terms) (t : list observed) : Prop :=
  E_start g t /\ agreed_terms g /\
  wrote CHAR_CONTROL_UUID (start_frame g) t /\ ready_frame g ∈ heard t.

(** FINISHED_C: under v0.8 the person confirmed the SAS. *)
Definition E_confirmed (g : full_terms) (t : list observed) : Prop :=
  E_ready g t /\ (profile = V08 -> Did (Confirm (sas_text g)) (Ok true) ∈ t).

Definition E_finished (g : full_terms) (t : list observed) : Prop :=
  E_confirmed g t /\ wrote CHAR_CONTROL_UUID (r_finished_c profile (g_canonical g) (g_ikm g)) t /\
  r_finished_p profile (g_canonical g) (g_ikm g) ∈ heard t.

(** ** Tickets *)

(** A ticket file of the directory before the run. *)
Definition on_disk (tk : Ticket) : Prop :=
  exists t0, parse_ticket d0 (t_profile tk) (t_peer tk) = Ok t0 /\
    t_rid tk = t_rid t0 /\ t_root tk = t_root t0.

(** A ticket of a full handshake of this run. *)
Definition issued (tk : Ticket) (t : list observed) : Prop :=
  exists g peer now, E_finished g t /\ t_profile tk = profile /\
    t_rid tk = t_rid (r_ticket profile (g_canonical g) (g_ikm g) peer now) /\
    t_root tk = t_root (r_ticket profile (g_canonical g) (g_ikm g) peer now).

Definition known (tk : Ticket) (t : list observed) : Prop := on_disk tk \/ issued tk t.

(** A live ticket object is one of these. *)
Definition ticket_ok (tk : Ticket) (t : list observed) : Prop :=
  t_profile tk = profile /\ (t_valid tk = true -> known tk t).

(** Every ticket the store can load is one of these. *)
Definition store_ok (s : TicketStore) (t : list observed) : Prop :=
  NoDup (keys (directory s)) /\
  forall pr pe tk, parse_ticket (directory s) pr pe = Ok tk -> t_profile tk = profile -> known tk t.

(** ** Resumption *)

(** INIT: a live ticket, and under v1.1 the attestation first. *)
Definition E_init (tk : Ticket) (sid nc : bytes) (t : list observed) : Prop :=
  known tk t /\ t_profile tk = profile /\ t_successful_resumes tk < MAX_RESUMES /\ level4_ok t /\
  resume_sizes profile (t_root tk) (t_rid tk) sid nc.

Definition init_of (tk : Ticket) (sid nc : bytes) : bytes := init_frame profile (t_root tk) (t_rid tk) sid nc.

(** FINISH_C: the ACCEPT of this ticket, session and nonce. *)
Definition E_accept (tk : Ticket) (sid nc np : bytes) (t : list observed) : Prop :=
  E_init tk sid nc t /\ blen np = 32 /\ wrote CHAR_CONTROL_UUID (init_of tk sid nc) t /\
  accept_frame profile (t_root tk) (t_rid tk) sid nc np ∈ heard t.

Definition E_resumed (tk : Ticket) (sid nc np : bytes) (t : list observed) : Prop :=
  E_accept tk sid nc np t /\
  wrote CHAR_CONTROL_UUID (finish_c_frame profile (t_root tk) (t_rid tk) sid nc np) t /\
  finish_p_frame profile (t_root tk) (t_rid tk) sid nc np ∈ heard t.

(** ** Traffic *)

(** The keys of a resumption, or of a full handshake, that was verified. *)
Definition resumed_keys (k : traffic_keys) (t : list observed) : Prop :=
  exists tk sid nc np, E_resumed tk sid nc np t /\
    let r := ref_keys profile (t_root tk) (t_rid tk) sid nc np in
    k = mkTrafficKeys sid (k_app_c2p r) (k_app_p2c r) (k_iv_c2p r) (k_iv_p2c r).

Definition full_keys (k : traffic_keys) (t : list observed) : Prop :=
  exists g, E_finished g t /\ kd_sid k = g_sid g /\
    kd_c2p k = r_app_c2p profile (g_canonical g) (g_ikm g) /\
    kd_p2c k = r_app_p2c profile (g_canonical g) (g_ikm g) /\
    (profile = V11 -> derive_iv_base (kd_c2p k) (kd_sid k) APP_C2P V11 = Ok (kd_iv_c2p k) /\
                      derive_iv_base (kd_p2c k) (kd_sid k) APP_P2C V11 = Ok (kd_iv_p2c k)).

Definition agreed_keys (k : traffic_keys) (t : list observed) : Prop := resumed_keys k t \/ full_keys k t.

(** PING number [i] as it is written, and its PONG as it is accepted. *)
Definition ping_wire (k : traffic_keys) (i : Z) (u : string) (challenge d : bytes) : Prop :=
  if profile =? V08
  then u = CHAR_DATA_UUID /\ challenge = ping_text i /\
       sealed (kd_c2p k) (kd_sid k) CENTRAL_ROLE i (ping_text i) d
  else u = CHAR_CONTROL_UUID /\
       encrypt_application (kd_c2p k) (kd_iv_c2p k) (kd_sid k) APP_C2P i PING challenge V11 = Ok d.

Definition pong_wire (k : traffic_keys) (i : Z) (challenge raw : bytes) : Prop :=
  if profile =? V08
  then opened (kd_p2c k) (kd_sid k) PERIPHERAL_ROLE i (pong_text i) raw
  else decrypt_application (kd_p2c k) (kd_iv_p2c k) (kd_sid k) raw APP_P2C i V11 = Ok challenge.

(** Rounds 0 to [n - 1]: each PING was written and its PONG heard. *)
Definition traffic (k : traffic_keys) (n : Z) (t : list observed) : Prop :=
  forall i, 0 <= i < n -> exists u challenge d raw,
    ping_wire k i u challenge d /\ wrote u d t /\ pong_wire k i challenge raw /\ raw ∈ heard t.

Definition round_count : Z := if profile =? V08 then 3 else 2.

(** ** Lasting facts *)

#[export] Instance level4_ok_lasting : Lasting level4_ok.
Proof. intros t u Hl Hp. destruct (Hl Hp). split; [by apply wrote_lasting|by apply (lasting_heard _)]. Qed.
#[export] Instance E_start_lasting g : Lasting (E_start g).
Proof. apply _. Qed.
#[export] Instance E_ready_lasting g : Lasting (E_ready g).
Proof. apply _. Qed.
#[export] Instance E_confirmed_lasting g : Lasting (E_confirmed g).
Proof. intros t u [Hr Hc]. split; [by apply E_ready_lasting|]. intros Hp. apply (lasting_did _). auto. Qed.
#[export] Instance E_finished_lasting g : Lasting (E_finished g).
Proof. apply _. Qed.
#[export] Instance known_lasting tk : Lasting (known tk).
Proof.
  intros t u [Hd|(g & peer & now & Hf & He)]; [by left|right].
  exists g, peer, now. split; [by apply E_finished_lasting|done].
Qed.
#[export] Instance ticket_ok_lasting tk : Lasting (ticket_ok tk).
Proof. intros t u [Hp Hk]. split; [done|]. intros Hv. apply known_lasting. auto. Qed.
#[export] Instance store_ok_lasting s : Lasting (store_ok s).
Proof. intros t u [Hn Hs]. split; [done|]. intros pr pe tk Hp Hpr. apply known_lasting. by eapply Hs. Qed.
#[export] Instance E_init_lasting tk sid nc : Lasting (E_init tk sid nc).
Proof. apply _. Qed.
#[export] Instance E_accept_lasting tk sid nc np : Lasting (E_accept tk sid nc np).
Proof. apply _. Qed.
#[export] Instance E_resumed_lasting tk sid nc np : Lasting (E_resumed tk sid nc np).
Proof. apply _. Qed.
#[export] Instance resumed_keys_lasting k : Lasting (resumed_keys k).
Proof.
  intros t u (tk & sid & nc & np & Hr & Hk). exists tk, sid, nc, np. split; [by apply E_resumed_lasting|done].
Qed.
#[export] Instance full_keys_lasting k : Lasting (full_keys k).
Proof. intros t u (g & Hf & Hk). exists g. split; [by apply E_finished_lasting|done]. Qed.
#[export] Instance agreed_keys_lasting k : Lasting (agreed_keys k).
Proof. intros t u [Hr|Hf]; [left; by apply resumed_keys_lasting|right; by apply full_keys_lasting]. Qed.
#[export] Instance traffic_lasting k n : Lasting (traffic k n).
Proof.
  intros t u Ht i Hi. destruct (Ht i Hi) as (w & c & d & raw & Hp & Hw & Hq & Hh).
  exists w, c, d, raw. split_and!; [done|by apply wrote_lasting|done|by apply (lasting_heard _)].
Qed.
End Evidence.

(** * What the callbacks can do *)

(** A session that was cleared. *)
Definition dead_session (s : any_session) : Prop :=
  match s with SResume c => c_closed c | SFull h => f_closed h end.

Definition dead (s : option any_session) : Prop := exists x, s = Some x /\ dead_session x.

Lemma dead_clear s : dead_session (as_clear s).
Proof. destruct s; [apply c_closed_clear|apply f_closed_clear]. Qed.

Lemma dead_insecure s : dead_session s -> as_secure s = false.
Proof.
  destruct s as [c|h]; cbn; [intros Hc%c_closed_state|intros Hc%f_closed_state]; by rewrite Hc.
Qed.

Lemma set_same_ticket tk s : session_ticket s = Some tk -> set_session_ticket tk s = s.
Proof.
  destruct s as [[]|[]]; cbn; [by intros [= ->]|]. by intros ->.
Qed.

Lemma dead_set_ticket tk s : dead_session s -> dead_session (set_session_ticket tk s).
Proof.
  destruct s as [[]|[]]; cbn.
  - unfold c_closed, CentralResume_clear, c_set_ticket. cbn. intros Hc. injection Hc as Hs Hi Hn Hk. by f_equal.
  - case_match; [|done]. unfold f_closed, f_set_ticket. rewrite !f_clear_eq. cbn. intros Hc. injection Hc as ??????????. unfold f_closed. rewrite f_clear_eq. cbn. by f_equal.
Qed.

Definition has_app (b : bool) (a : option app_fields) : Prop :=
  match a with Some _ => b = true | None => b = false end.

(** The session and the application object stay as they are, or the session
    dies; there is an application object exactly when there was one. *)
Definition evolves (l l' : resume_locals) : Prop :=
  (rl_session l' = rl_session l /\ rl_app l' = rl_app l \/ dead (rl_session l')) /\
  (forall b, has_app b (rl_app l) -> has_app b (rl_app l')) /\
  (rl_session l = None <-> rl_session l' = None) /\
  rl_vars l' = rl_vars l.

Lemma rl_evolves_refl l : evolves l l.
Proof. split_and!; [by left|done..]. Qed.

Lemma rl_session_clear_evolves l : evolves l (session_clear l).
Proof.
  unfold evolves, session_clear. cbn. destruct (rl_session l) as [s|].
  - split_and!; [right; exists (as_clear s); split; [done|apply dead_clear]|done..].
  - split_and!; [by left|done..].
Qed.

Lemma rl_app_clear_evolves l : evolves l (app_clear l).
Proof.
  unfold app_clear. destruct (rl_app l) as [[c p|pr ivc ivp tx rx]|] eqn:Ha; [| |apply rl_evolves_refl].
  all: destruct (rl_session l) as [s|] eqn:Hs; [|apply rl_evolves_refl].
  all: split_and!; [right; eexists; split; [done|apply dead_clear]| |by rewrite Hs|done].
  all: intros b; by rewrite Ha.
Qed.

Lemma rl_clear_object_evolves o l : evolves l (clear_object o l).
Proof. cbn. repeat case_match; [apply rl_session_clear_evolves|apply rl_app_clear_evolves|apply rl_evolves_refl]. Qed.

Lemma on_data_evolves x b d l : evolves l (on_data x b d l).
Proof. cbn. destruct (own_handler l); split_and!; by try left. Qed.

Lemma clear_object_queue o l : rl_queue (clear_object o l) = rl_queue l.
Proof. cbn. repeat case_match; [done|apply app_clear_rest|done]. Qed.

(** Every notification in the queue of the exchange was heard. *)
Definition queue_heard (l : resume_locals) (t : list observed) : Prop :=
  forall b, b ∈ rl_queue l -> b ∈ heard t.

Lemma on_data_queue x c d l t :
  queue_heard l t -> queue_heard (on_data x c d l) (t ++ [Heard (Notified d c)]).
Proof.
  intros Hq b. rewrite heard_app. cbn. destruct (own_handler l); cbn; [|intros Hb; apply elem_of_app; left; auto].
  intros [Hb|Hb]%elem_of_app; apply elem_of_app; [left; auto|by right].
Qed.

(** The session and the application object satisfy [C], or the session is dead;
    there is an application object or not, as [b] says; the rest satisfies [V]. *)
Definition holds (b : bool) (C : option any_session -> option app_fields -> Prop)
    (V : resume_vars -> list observed -> Prop) (l : resume_locals) (t : list observed) : Prop :=
  (C (rl_session l) (rl_app l) \/ dead (rl_session l)) /\ has_app b (rl_app l) /\
  V (rl_vars l) t /\ queue_heard l t.

(** Where an exception leaves an exchange. *)
Definition stopped (V : resume_vars -> list observed -> Prop) (l : resume_locals) (t : list observed) : Prop :=
  (rl_session l = None -> rl_app l = None) /\ V (rl_vars l) t /\ queue_heard l t.

Section Kept.
Variable V : resume_vars -> list observed -> Prop.
Context {HV : forall x, Lasting (V x)}.

(** A condition kept along [evolves], as the queue and the trace grow. *)
Lemma evolving_kept (J : resume_locals -> Prop) :
  (forall l l', evolves l l' -> J l -> J l') ->
  Kept (fun l t => J l /\ V (rl_vars l) t /\ queue_heard l t).
Proof.
  intros HJ. assert (forall l l' t u, evolves l l' -> V (rl_vars l) t -> V (rl_vars l') (t ++ u)) as Hev.
  { intros l l' t u (_ & _ & _ & ->) Hv. by apply HV. }
  split.
  - intros x b d l t (Hj & Hv & Hq). pose proof (on_data_evolves x b d l) as He.
    split_and!; [by eapply HJ|by eapply Hev|by apply on_data_queue].
  - intros c l t (Hj & Hv & Hq). split_and!; [done|by apply HV|]. intros b Hb. apply (lasting_heard _). auto.
  - intros a r l t (Hj & Hv & Hq). split_and!; [done|by apply HV|]. intros b Hb. apply (lasting_heard _). auto.
  - intros o l t (Hj & Hv & Hq). pose proof (rl_clear_object_evolves o l) as He.
    split_and!; [by eapply HJ| |intros b; rewrite clear_object_queue; apply Hq].
    rewrite <- (app_nil_r t). by eapply Hev.
Qed.

Lemma evolves_holds b C l l' :
  evolves l l' -> (C (rl_session l) (rl_app l) \/ dead (rl_session l)) /\ has_app b (rl_app l) ->
  (C (rl_session l') (rl_app l') \/ dead (rl_session l')) /\ has_app b (rl_app l').
Proof.
  intros ([[-> ->]|Hd] & Hb & _) [Hc Ha]; [done|]. split; [by right|auto].
Qed.

#[export] Instance holds_kept b C : Kept (holds b C V).
Proof.
  pose proof (evolving_kept _ (evolves_holds b C)) as [H1 H2 H3 H4]. unfold holds.
  split; [intros x c d l t (?&?&?&?); destruct (H1 x c d l t) as ([??]&?&?)
         |intros c l t (?&?&?&?); destruct (H2 c l t) as ([??]&?&?)
         |intros a r l t (?&?&?&?); destruct (H3 a r l t) as ([??]&?&?)
         |intros o l t (?&?&?&?); destruct (H4 o l t) as ([??]&?&?)]; by split_and!.
Qed.

#[export] Instance stopped_kept : Kept (stopped V).
Proof.
  apply evolving_kept. intros l l' (_ & Hb & Hs & _) Hj Hn. apply Hs in Hn. apply Hj in Hn.
  specialize (Hb false). rewrite Hn in Hb. by destruct (rl_app l'); [discriminate Hb|].
Qed.
End Kept.

Lemma holds_stopped b C (V V' : resume_vars -> list observed -> Prop) F :
  (forall s a, C s a -> s = None -> a = None) -> (forall x t, V x t -> V' x t) ->
  implies (along (holds b C V) F) (stopped V').
Proof.
  intros Hc Hv l t [(Hs & Hb & Hx & Hq) _]. split_and!; [|by apply Hv|done].
  intros Hn. destruct Hs as [Hs|(x & Hx' & _)]; [by apply (Hc _ _ Hs)|congruence].
Qed.

(** * Conditions on the variables *)

Section Conditions.
Context `{Kem, Kdf, Aead, P256}.
Variables (profile : Z) (d0 : dict ticket_file).

(** The FINISH_C kept for the replay test was sent. *)
Definition finish_known (r : Result) (t : list observed) : Prop :=
  forall f, _finish_c_for_test r = Some f -> wrote CHAR_CONTROL_UUID f t.

(** The result so far; [fell] says that the run fell back before. *)
Definition result_at (fell : bool) (p : string) (n : Z) (r : Result) : Prop :=
  r_path r = p /\ rounds r = n /\ (fell = true -> fallback_reason r <> None).

(** The ticket satisfies [T], the secret buffers [S]. *)
Definition vars_at (T : option Ticket -> list observed -> Prop) (S : bytes -> bytes -> Prop)
    (fell : bool) (p : string) (n : Z) (x : resume_vars) (t : list observed) : Prop :=
  (store_ok profile d0 (x_store x) t /\ finish_known (x_result x) t) /\
  T (x_ticket x) t /\ S (x_secret x) (x_ecdh x) /\ result_at fell p n (x_result x).

(** What every exit leaves. *)
Definition vars_end (S : bytes -> bytes -> Prop) (x : resume_vars) (t : list observed) : Prop :=
  (store_ok profile d0 (x_store x) t /\ finish_known (x_result x) t) /\
  S (x_secret x) (x_ecdh x) /\ 0 <= rounds (x_result x).

(** The reference, if any, is to a good ticket; or it is to this ticket. *)
Definition some_ticket (o : option Ticket) (t : list observed) : Prop :=
  forall tk, o = Some tk -> ticket_ok profile d0 tk t.
Definition this_ticket (tk : Ticket) (o : option Ticket) (t : list observed) : Prop := o = Some tk.

Definition any_ticket (o : option Ticket) (t : list observed) : Prop := True.

Definition zeroed (s e : bytes) : Prop := s = wipe s /\ e = wipe e.
Definition anything (s e : bytes) : Prop := True.

#[export] Instance finish_known_lasting r : Lasting (finish_known r).
Proof. intros t u Hf f He. apply wrote_lasting. auto. Qed.
#[export] Instance some_ticket_lasting o : Lasting (some_ticket o).
Proof. intros t u Ho tk He. apply ticket_ok_lasting. auto. Qed.
#[export] Instance this_ticket_lasting tk o : Lasting (this_ticket tk o).
Proof. by intros t u Ho. Qed.
#[export] Instance any_ticket_lasting o : Lasting (any_ticket o).
Proof. by intros t u Ho. Qed.
#[export] Instance vars_at_lasting T S fell p n x : (forall o, Lasting (T o)) -> Lasting (vars_at T S fell p n x).
Proof. intros HT. apply _. Qed.
#[export] Instance vars_end_lasting S x : Lasting (vars_end S x).
Proof. apply _. Qed.

(** The session and the application object at the steps of an exchange. *)
Definition no_session (s : option any_session) (a : option app_fields) : Prop := s = None.
Definition is_session (x : any_session) (s : option any_session) (a : option app_fields) : Prop := s = Some x.

(** A session open with these keys. *)
Definition open_with (k : traffic_keys) (s : any_session) : Prop :=
  as_secure s = true /\ as_profile s = profile /\ blen (kd_sid k) = 16 /\ as_session_id s = kd_sid k /\
  as_app_c2p s = kd_c2p k /\ as_app_p2c s = kd_p2c k.

(** The application object after [tx] PINGs and [rx] PONGs. *)
Definition app_counts (k : traffic_keys) (tx rx : Z) (a : app_fields) : Prop :=
  if profile =? V08 then
    exists c p, a = HybridFields (Some c) (Some p) /\
      (_aesgcm c = kd_c2p k /\ Session._session_id c = kd_sid k /\ _role c = CENTRAL_ROLE /\ _send_seq c = tx) /\
      (_aesgcm p = kd_p2c k /\ Session._session_id p = kd_sid k /\ _peer_role p = PERIPHERAL_ROLE)
  else a = CentralFields V11 (kd_iv_c2p k) (kd_iv_p2c k) tx rx.

Definition app_at (k : traffic_keys) (tx rx : Z) (s : option any_session) (a : option app_fields) : Prop :=
  exists x f, s = Some x /\ open_with k x /\ a = Some f /\ app_counts k tx rx f.

(** ** The store *)

Lemma known_same tk tk' t : same_secret tk tk' -> known profile d0 tk' t -> known profile d0 tk t.
Proof.
  intros (Hp & He & Hr & Hk) [(t0 & H0' & H1' & H2')|(g & peer & now & Hg & Hpr & H1' & H2')].
  - left. exists t0. by rewrite Hp, He, Hr, Hk.
  - right. exists g, peer, now. by rewrite Hp, Hr, Hk.
Qed.

Lemma store_ok_step s s' new t :
  directory_step (directory s) (directory s') new ->
  (forall tk, new tk -> t_profile tk = profile -> known profile d0 tk t) ->
  store_ok profile d0 s t -> store_ok profile d0 s' t.
Proof.
  intros Hd Hnew [Hn Hs]. destruct (Hd Hn) as [Hn' Hp]. split; [done|].
  intros pr pe tk [Hf|Hf]%Hp Hpr; [by eapply Hs|by apply Hnew].
Qed.

Lemma store_ok_delete pr pe s r s' t :
  ts_delete pr pe s = (r, s') -> store_ok profile d0 s t -> store_ok profile d0 s' t.
Proof. intros Hd. apply (store_ok_step _ _ (fun _ => False)); [by eapply delete_step|done]. Qed.

Lemma ticket_profile files pr pe tk : parse_ticket files pr pe = Ok tk -> t_profile tk = pr.
Proof.
  intros (_ & f & _ & Hst)%parse_ticket_Ok.
  destruct Hst as (_ & raw & rh & kh & ? & _ & _ & _ & _ & _ & _ & _ & _ & _ & _ & _ & _ & Hp & _). exact Hp.
Qed.

Lemma store_ok_load pe now s r s' t :
  ts_load profile pe now s = (r, s') -> store_ok profile d0 s t ->
  store_ok profile d0 s' t /\ forall o, r = Ok o -> some_ticket o t.
Proof.
  intros Hl Hs. apply (load_step _ _ _ _ _ _ (fun _ => False)) in Hl as [Hd Hp].
  split; [by eapply store_ok_step|]. intros o -> tk ->. specialize (Hp tk eq_refl).
  pose proof (ticket_profile _ _ _ _ Hp) as Hpr. split; [done|]. intros _. by eapply (proj2 Hs).
Qed.

Lemma store_ok_save size now s tk r s' tk' t :
  ts_save size now (s, tk) = (r, (s', tk')) -> ticket_ok profile d0 tk t ->
  store_ok profile d0 s t -> store_ok profile d0 s' t.
Proof.
  intros (Hd & _)%save_step [Hp Hk]. eapply store_ok_step; [exact Hd|].
  intros n [Hv Hn] _. eapply known_same; [exact Hn|auto].
Qed.

Lemma vars_at_end T S S' fell p n x t :
  0 <= n -> (forall s e, S s e -> S' s e) -> vars_at T S fell p n x t -> vars_end S' x t.
Proof.
  intros Hn HS (Hs & _ & Hz & _ & Hr & _). split; [exact Hs|]. split; [by apply HS|by rewrite Hr].
Qed.

(** ** After an exchange *)

Definition wiped_session (s : option any_session) : Prop :=
  match s with None => True | Some x => dead_session x end.
Definition wiped_app (a : option app_fields) : Prop :=
  match a with
  | None => True
  | Some (HybridFields c p) => c = None /\ p = None
  | Some (CentralFields _ c p _ _) => c = wipe c /\ p = wipe p
  end.
Definition wiped_ticket (o : option Ticket) : Prop :=
  match o with None => True | Some tk => tk = Ticket_clear tk end.

(** Every object of the exchange is cleared, the secret buffers are zero, and
    the result satisfies [Phi]. *)
Definition wiped (Phi : Result -> list observed -> Prop) (l : resume_locals) (t : list observed) : Prop :=
  (wiped_session (rl_session l) /\ wiped_app (rl_app l) /\ wiped_ticket (x_ticket (rl_vars l))) /\
  vars_end zeroed (rl_vars l) t /\ Phi (x_result (rl_vars l)) t.

Definition no_report (r : Result) (t : list observed) : Prop := True.
#[export] Instance no_report_lasting r : Lasting (no_report r).
Proof. by intros t u Ht. Qed.

Lemma wiped_session_clear s : wiped_session (as_clear <$> s).
Proof. destruct s as [s|]; [apply dead_clear|done]. Qed.

Lemma wiped_set_ticket tk s : wiped_session s -> wiped_session (set_session_ticket tk <$> s).
Proof. destruct s as [s|]; [apply dead_set_ticket|done]. Qed.

Lemma wiped_app_clear l :
  (rl_session l = None -> rl_app l = None) -> wiped_app (rl_app (app_clear l)).
Proof.
  intros Hn. unfold app_clear. destruct (rl_app l) as [[c p|pr ivc ivp tx rx]|] eqn:Ha; [| |by rewrite Ha].
  all: destruct (rl_session l) as [s|]; [|by specialize (Hn eq_refl)].
  - done.
  - cbn. by rewrite !wipe_wipe.
Qed.

(** Clearing it again changes nothing that matters. *)
Lemma clear_wiped o l :
  wiped_session (rl_session l) /\ wiped_app (rl_app l) ->
  wiped_session (rl_session (clear_object o l)) /\ wiped_app (rl_app (clear_object o l)).
Proof.
  intros [Hs Ha]. cbn. destruct (o =? SESSION); [|destruct (o =? APPLICATION)].
  - split; [apply wiped_session_clear|done].
  - unfold app_clear. destruct (rl_app l) as [[c p|pr ivc ivp tx rx]|] eqn:Hl; [| |by rewrite Hl].
    all: destruct (rl_session l) as [s|] eqn:Hr; [|by rewrite Hr, Hl].
    all: split; [apply dead_clear|]; cbn; by rewrite ?wipe_wipe.
  - by split.
Qed.

#[export] Instance wiped_kept Phi : (forall r, Lasting (Phi r)) -> V1Kept (wiped Phi).
Proof.
  intros HP. assert (forall l t u, wiped Phi l t -> wiped Phi l (t ++ u)) as Ht.
  { intros l t u (Ho & Hv & Hp). split; [done|]. split; [by apply vars_end_lasting|by apply HP]. }
  split; [split|..].
  - intros x b d l t Hw. apply Ht. cbn. by destruct (own_handler l).
  - intros c l t. apply Ht.
  - intros a r l t. apply Ht.
  - intros o l t ((Hs & Ha & Hk) & Hv & Hp). destruct (rl_clear_object_evolves o l) as (_ & _ & _ & He).
    unfold wiped. rewrite He. split; [|done]. destruct (clear_wiped o l); by split_and!.
  - by intros f l t _ Hw.
  - by intros r l t Hw.
Qed.

Lemma wiped_implies (Phi Psi : Result -> list observed -> Prop) :
  (forall r t, Phi r t -> Psi r t) -> implies (wiped Phi) (wiped Psi).
Proof. intros HP l t (Ho & Hv & Hp). split; [done|]. split; [done|auto]. Qed.
End Conditions.

(** * What the calls of the sessions return

    A closed session returns nothing. *)

Lemma resume_init_Ok now sid nc tk c tk' :
  CentralResume_init now sid nc tk = (Ok c, tk') ->
  tk' = tk /\ t_valid tk = true /\ t_successful_resumes tk < MAX_RESUMES /\ c = c_new tk sid nc.
Proof.
  unfold CentralResume_init. meth. destruct (Ticket_check _ _ now tk) as [[u|x] t1] eqn:Hc; [|done].
  apply Ticket_check_cases in Hc as [(_ & -> & Hv & _ & Hm & _)|((x & ?) & _)]; [|done].
  by intros [= <- <-].
Qed.

Lemma resume_begin_Ok tk sid nc x w y :
  x = c_new tk sid nc \/ c_closed x -> CentralResume_begin x = (Ok w, y) ->
  resume_sizes (t_profile tk) (t_root tk) (t_rid tk) sid nc /\
  w = init_frame (t_profile tk) (t_root tk) (t_rid tk) sid nc /\ y = c_wait tk sid nc.
Proof.
  intros [->|Hc%c_closed_state] Hb; [|by rewrite begin_refused in Hb by by rewrite Hc].
  assert (resume_sizes (t_profile tk) (t_root tk) (t_rid tk) sid nc) as Hz.
  { revert Hb. unfold CentralResume_begin, c_new. meth. cbn [c_state c_profile c_ticket c_session_id c_nc].
    rewrite bool_decide_eq_true_2 by done. cbn [negb]. destruct (auth _ _ _ _ _ _ _) as [m|] eqn:Ha; [|done].
    intros _. pose proof (auth_inv _ _ _ _ _ _ _ _ Ha) as [Hroot Hp]. unfold auth in Ha.
    apply bind_Ok in Ha as (r & _ & Ha). apply bind_Ok in Ha as (d & _ & Ha).
    apply bind_Ok in Ha as (v & Hv & _). unfold context in Hv. apply bind_Ok in Hv as (b & _ & Hv).
    apply bind_Ok in Hv as (? & [? _]%sized_Ok & Hv). apply bind_Ok in Hv as (? & [? _]%sized_Ok & Hv).
    apply bind_Ok in Hv as (? & [? _]%sized_Ok & _). by split_and!. }
  rewrite begin_eq in Hb by done. by injection Hb as <- <-.
Qed.

Lemma resume_accept_Ok tk sid nc raw x w y :
  resume_sizes (t_profile tk) (t_root tk) (t_rid tk) sid nc ->
  x = c_wait tk sid nc \/ c_closed x -> CentralResume_accept raw x = (Ok w, y) ->
  exists np, blen np = 32 /\ raw = accept_frame (t_profile tk) (t_root tk) (t_rid tk) sid nc np /\
    w = finish_c_frame (t_profile tk) (t_root tk) (t_rid tk) sid nc np /\ y = c_wait_finish tk sid nc np.
Proof.
  intros Hz Hx Ha. pose proof (accept_state _ _ _ _ Ha) as Hs.
  destruct Hx as [->|Hc%c_closed_state]; [|congruence].
  pose proof (accept_inv tk sid nc Hz _ _ _ Ha) as (np & Hnp & ->). exists np.
  rewrite accept_ok in Ha by done. by injection Ha as <- <-.
Qed.

Lemma resume_finish_Ok tk sid nc np raw x u y :
  resume_sizes (t_profile tk) (t_root tk) (t_rid tk) sid nc ->
  x = c_wait_finish tk sid nc np \/ c_closed x -> CentralResume_finish raw x = (Ok u, y) ->
  raw = finish_p_frame (t_profile tk) (t_root tk) (t_rid tk) sid nc np /\ y = c_secure tk sid nc np.
Proof.
  intros Hz Hx Ha. pose proof (finish_state _ _ _ _ Ha) as Hs.
  destruct Hx as [->|Hc%c_closed_state]; [|congruence].
  pose proof (finish_inv tk sid nc Hz _ _ _ _ Ha) as ->.
  rewrite finish_ok in Ha by done. by injection Ha as _ <-.
Qed.

(** Both kinds of application object. *)

Lemma channel_init_Ok key sid c :
  SecureChannel_init key (Some sid) (Some CENTRAL_ROLE) = Ok c -> blen sid = 16 ->
  _aesgcm c = key /\ Session._session_id c = sid /\ _role c = CENTRAL_ROLE /\
  _peer_role c = PERIPHERAL_ROLE /\ _send_seq c = 0.
Proof.
  unfold SecureChannel_init. intros (u & _ & Hc)%bind_Ok Hs. apply Ok_inj in Hc as <-.
  split_and!; try done. cbn. by destruct sid.
Qed.

Lemma hybrid_init_Ok (x : any_session) a :
  HybridApplication_init x = Ok a -> as_secure x = true /\ exists c p, a = mkHybridApplication x (Some c) (Some p) /\
    SecureChannel_init (as_app_c2p x) (Some (as_session_id x)) (Some CENTRAL_ROLE) = Ok c /\
    SecureChannel_init (as_app_p2c x) (Some (as_session_id x)) (Some CENTRAL_ROLE) = Ok p.
Proof.
  unfold HybridApplication_init. intros (u & Hg%raise_if_Ok & H)%bind_Ok.
  apply orb_false_iff in Hg as [_ Hg%negb_false_iff]. split; [done|].
  apply bind_Ok in H as (c & Hc & H). apply bind_Ok in H as (p & Hp & H). apply Ok_inj in H as <-.
  by exists c, p.
Qed.

Lemma central_init_Ok {S} `{AppSession S} ivc ivp (x : S) u a :
  CentralApplication_init ivc ivp x = (Ok u, a) ->
  as_secure x = true /\ exists c p, a = mkCentralApplication x (as_profile x) c p 0 0 /\
    match ivc with Some v => c = v | None => derive_iv_base (as_app_c2p x) (as_session_id x) APP_C2P (as_profile x) = Ok c end /\
    match ivp with Some v => p = v | None => derive_iv_base (as_app_p2c x) (as_session_id x) APP_P2C (as_profile x) = Ok p end.
Proof.
  unfold CentralApplication_init, V1Cp4.require_secure. meth.
  cbn [handshake app_profile iv_c2p iv_p2c tx_c2p rx_p2c].
  destruct (as_secure x); [|done]. cbn [negb raise_if].
  set (rc := match ivc with None => _ | Some v => _ end). destruct rc as [c|] eqn:Hc; [|done].
  cbn [handshake app_profile iv_c2p iv_p2c tx_c2p rx_p2c].
  set (rp := match ivp with None => _ | Some v => _ end). destruct rp as [p|] eqn:Hp; [|done].
  cbn [handshake app_profile iv_c2p iv_p2c tx_c2p rx_p2c].
  destruct (raise_if _ _); [|done]. intros [= _ <-]. split; [done|]. exists c, p. split; [done|].
  subst rc rp. split; [destruct ivc|destruct ivp]; congruence.
Qed.

Section FullCalls.
Context `{KdfLaws, P256}.

Lemma begin_full_Ok profile ss pk ct sid ecdh cp pp sec x u y :
  x = f_new profile \/ f_closed x -> full_begin ss pk ct sid ecdh cp pp sec x = (Ok u, y) ->
  exists canonical ikm, full_inputs profile ss pk ct sid ecdh cp pp sec canonical ikm /\
    y = f_wait_auth profile canonical ikm sid.
Proof.
  intros Hx Hb. pose proof Hb as (Hs & canonical & ikm & Hin)%full_begin_inv.
  destruct Hx as [->|Hc%f_closed_state]; [|congruence]. exists canonical, ikm. split; [exact Hin|].
  rewrite (full_begin_ok _ _ _ _ _ _ _ _ _ canonical ikm) in Hb by exact Hin. by injection Hb as _ <-.
Qed.

Lemma finish_c_Ok profile canonical ikm sid a x w y :
  valid_profile profile -> x = f_wait_auth profile canonical ikm sid \/ f_closed x ->
  full_finish_c a x = (Ok w, y) ->
  a = true /\ w = r_finished_c profile canonical ikm /\ y = f_wait_finished profile canonical ikm sid.
Proof.
  intros Hp Hx Hb. pose proof Hb as [Hs ->]%finish_c_state.
  destruct Hx as [->|Hc%f_closed_state]; [|congruence].
  rewrite finish_c_ok in Hb by done. by injection Hb as <- <-.
Qed.

Lemma finish_p_Ok profile canonical ikm sid peer now raw x u y :
  valid_profile profile -> x = f_wait_finished profile canonical ikm sid \/ f_closed x ->
  full_finish_p raw peer now x = (Ok u, y) ->
  raw = r_finished_p profile canonical ikm /\ y = f_secure profile canonical ikm sid peer now.
Proof.
  intros Hp Hx Hb. pose proof Hb as Hs%finish_p_state.
  destruct Hx as [->|Hc%f_closed_state]; [|congruence].
  pose proof (finish_p_inv _ _ _ _ Hp _ _ _ _ _ Hb) as ->.
  rewrite finish_p_ok in Hb by done. by injection Hb as _ <-.
Qed.

Lemma full_sas_Ok profile canonical ikm sid x s y :
  valid_profile profile -> x = f_wait_auth profile canonical ikm sid \/ f_closed x ->
  full_sas x = (Ok s, y) ->
  s = zfill 6 (py_str (from_be (hmac_sha256 (r_sas_key profile canonical ikm)
                                  (dom profile ++ lit "/SAS" ++ r_th canonical)) mod 1000000)) /\
  y = f_wait_auth profile canonical ikm sid.
Proof.
  intros Hp Hx. unfold full_sas. meth.
  destruct (_ || _) eqn:Hs; [done|]. apply orb_false_iff in Hs as [_ Hs].
  apply negb_false_iff, bool_decide_eq_true in Hs.
  destruct Hx as [->|Hc%f_closed_state]; [|congruence]. cbn [f_profile f_wait_auth raise_if].
  rewrite domain_eq by done. by intros [= <- <-].
Qed.
End FullCalls.
