(* ===== verification/ResumeSafety.v ===== *)
(** What a run of src/src/central/resumption.py sends, and on what evidence:
    every peripheral, every timing, every failure of the backend. The exchange is
    proved once for both profiles, over the interface [AppSession] where the two
    kinds of session meet; the runs put it under v0.8 directly and under v1.1
    behind the gate of [_run_v1]. *)

From stdpp Require Import sets.
From S2P Require Import Prelude Py Digest Interfaces World Constants Frame Dict Pairing Fragmentation Sas BleClient Runs Policy Resumption V1Cp4 Session ResumeFull ResumeStore ResumeHybrid V1Central ResumeCentral ResumeEvidence.
From S2P Require V1Smp Phase7 V1Cp3.
Open Scope Z_scope.

Section Exchange.
Context {W : Type} `{Env W, Kem, KdfLaws, Aead, P256}.
Variables (file_size : Ticket -> Z) (profile : Z) (d0 : dict ticket_file).
Hypothesis Hprofile : valid_profile profile.

(** [tampered]: the mode that corrupts INIT; [replayed]: what may go out in place
    of FINISH_C. *)
Variables (tampered : Prop) (replayed : bytes -> list observed -> Prop).

(** Frames on the control characteristic, and the evidence for each. *)
Definition control_ok (t : list observed) (d : bytes) : Prop :=
  profile = V11 /\ d = sec_query_v11
  \/ (exists tk sid nc, E_init profile d0 tk sid nc t /\
        (d = init_of profile tk sid nc \/ tampered /\ tamper (init_of profile tk sid nc) = Ok d))
  \/ (exists tk sid nc np, E_accept profile d0 tk sid nc np t /\
        (d = finish_c_frame profile (t_root tk) (t_rid tk) sid nc np \/ replayed d t))
  \/ (exists g, E_start profile g t /\ d = start_frame profile g)
  \/ (exists g, E_confirmed profile g t /\ d = r_finished_c profile (g_canonical g) (g_ikm g)).

(** What an exchange may write, and ask the person. *)
Definition exchange_policy (t : list observed) (a : action) : Prop :=
  match a with
  | WriteGatt _ u d =>
      u = CHAR_CIPHERTEXT_UUID /\ fresh_ciphertext t d
      \/ u = CHAR_CONTROL_UUID /\ control_ok t d
      \/ exists k i challenge, agreed_keys profile d0 k t /\ 0 <= i < round_count profile /\
           ping_wire profile k i u challenge d
  | Confirm text => profile = V08 /\ exists g, E_ready profile g t /\ text = sas_text profile g
  | _ => False
  end.

(** What every client may do at any time. *)
Definition free_request (a : action) : Prop :=
  match a with
  | Wait | StopNotify _ _ | Disconnect _ | FindByAddress _ | Connect _ => True
  | StartNotify _ u => u = CHAR_DATA_UUID
  | ReadGatt _ u => u = CHAR_PUBKEY_UUID
  | _ => False
  end.

(** ** One exchange, under any policy that allows the above where [G] holds *)

Variables (allowed : list observed -> action -> Prop) (G : list observed -> Prop).
Context {HG : Lasting G}.
Hypothesis Hfree : forall t a, free_request a -> allowed t a.
Hypothesis Hexch : forall t a, G t -> exchange_policy t a -> allowed t a.

Abbreviation at_r := (at_ (W := W) allowed).
Abbreviation coroutine := (method (io W (host resume_locals))).
Implicit Types J : resume_locals -> list observed -> Prop.

Variables (fell : bool) (path0 : string) (n0 : Z).
Hypothesis Hn0 : 0 <= n0.

Abbreviation vars T S := (vars_at profile d0 T S fell path0 n0).
Abbreviation end_with S := (stopped (vars_end profile d0 S)).
Abbreviation some_ticket := (some_ticket profile d0).

Lemma step_own_local {B} J Jx Q (k : resume_locals -> coroutine B) :
  (forall x, triple (at_r (fun l t => x = l /\ J l t)) (k x) Q (fun _ => at_r Jx)) ->
  triple (at_r J) (x ← get_local; k x) Q (fun _ => at_r Jx).
Proof. intros Hk s [Hj Ho]. by apply (Hk (local (self s)) s). Qed.

Lemma step_vars {B} J Jx Q (k : resume_vars -> coroutine B) :
  (forall x, triple (at_r (fun l t => x = rl_vars l /\ J l t)) (k x) Q (fun _ => at_r Jx)) ->
  triple (at_r J) (x ← get_vars; k x) Q (fun _ => at_r Jx).
Proof. intros Hk s [Hj Ho]. by apply (Hk (rl_vars (local (self s))) s). Qed.

Lemma at_require_link J :
  triple (at_r J) require_link (fun _ => at_r J) (fun _ => at_r J).
Proof.
  apply step_connected. intros b. apply step_raw_client. intros c. apply step_own_local. intros x.
  eapply at_weaken with (J' := J); [by intros l t [_ Hj]|]. by apply triple_raise_when.
Qed.

(** ** The link *)

Lemma along_kept_holds b C V F :
  (forall x, Lasting (V x)) -> Lasting F -> Kept (along (holds b C V) F).
Proof. intros HV HF. apply _. Qed.

(** It lets no closed session pass. *)
Lemma at_require_link_live J :
  triple (at_r J) require_link (fun _ => at_r (fun l t => ~ dead (rl_session l) /\ J l t)) (fun _ => at_r J).
Proof.
  apply step_connected. intros b. apply step_raw_client. intros c. apply step_own_local. intros x.
  apply triple_raise_when; [intros _ s; apply at_implies; by intros l t [_ Hj]|].
  intros [_ Hc]%orb_false_iff s [[-> Hj] Ho]. split; [|done]. split; [|done].
  intros (y & Hy & Hd). rewrite Hy in Hc. destruct y as [d|h]; cbn in Hc, Hd.
  - apply c_closed_state in Hd. by rewrite Hd in Hc.
  - apply f_closed_state in Hd. by rewrite Hd in Hc.
Qed.

Lemma at_receive_live b C V F :
  (forall x, Lasting (V x)) -> Lasting F ->
  triple (at_r (along (holds b C V) F)) receive
    (fun raw => at_r (fun l t => ~ dead (rl_session l) /\
       along (holds b C V) (fun t => F t /\ raw ∈ heard t) l t))
    (fun _ => at_r (along (holds b C V) F)).
Proof.
  intros HV HF. unfold receive. set (J := along _ F). assert (Kept J) as HJ by apply _.
  apply step_same; [apply (at_do allowed J Wait); [done|intros; by apply Hfree]|done|]. intros v.
  apply step_own_local. intros x.
  eapply step_at with (R := fun raw => along (holds b C V) (fun t => F t /\ raw ∈ heard t)) (J' := J); [|done|].
  - destruct (rl_queue x) as [|d q] eqn:Hq; [apply at_raise; by intros l t [_ Hj]|].
    eapply step_update with (J' := along (holds b C V) (fun t => F t /\ d ∈ heard t)); [|by apply triple_ret].
    intros h t [-> [(Hc & Ha & Hv & Hh) Hf]]. split.
    + split_and!; [done..|]. intros d' Hd. apply Hh. rewrite Hq. by right.
    + split; [done|]. apply Hh. rewrite Hq. by left.
  - intros raw. eapply step_at with (R := fun _ l t => ~ dead (rl_session l) /\
      along (holds b C V) (fun t => F t /\ raw ∈ heard t) l t); [apply at_require_link_live| |intros u; by apply triple_ret].
    intros l t [Hh [Hf _]]. by split.
Qed.

Lemma at_receive_reply b C V F :
  (forall x, Lasting (V x)) -> Lasting F ->
  triple (at_r (along (holds b C V) F)) receive
    (fun raw => at_r (along (holds b C V) (fun t => F t /\ raw ∈ heard t)))
    (fun _ => at_r (along (holds b C V) F)).
Proof.
  intros HV HF. eapply triple_conseq; [intros s Hs; exact Hs|by apply at_receive_live| |done].
  intros raw s. apply at_implies. by intros l t [_ Hj].
Qed.

Lemma at_send b C V F d :
  (forall x, Lasting (V x)) -> Lasting F -> (forall t, F t -> G t /\ control_ok t d) ->
  triple (at_r (along (holds b C V) F)) (send_control d)
    (fun _ => at_r (along (holds b C V) (fun t => F t /\ wrote CHAR_CONTROL_UUID d t)))
    (fun _ => at_r (along (holds b C V) F)).
Proof.
  intros HV HF Hok. set (J := along _ F).
  eapply triple_conseq; [intros s Hs; exact Hs|apply (at_send_control _ J); [apply _|]| |done].
  - intros c l t [_ Hf]. destruct (Hok t Hf) as [Hg Hc]. apply Hexch; [done|]. right. by left.
  - intros u s. apply at_implies. by intros l t [[Hh Hf] Hw].
Qed.

(** The attestation. *)
Lemma at_attest_v11 b C V F :
  (forall x, Lasting (V x)) -> Lasting F -> profile = V11 -> (forall t, F t -> G t) ->
  triple (at_r (along (holds b C V) F)) attest
    (fun sec => at_r (fun l t => sec = sec_info_v11 /\
       along (holds b C V) (fun t => F t /\ level4_ok profile t) l t))
    (fun _ => at_r (along (holds b C V) F)).
Proof.
  intros HV HF Hp HFG. unfold attest. set (J := along (holds b C V) F).
  apply step_result; [done|]. intros q (_ & _ & ->)%encode_full_Ok. fold sec_query_v11.
  eapply step_at; [apply at_send; [done..|]|done|].
  { intros t Hf. split; [by apply HFG|]. by left. }
  intros u. eapply step_at; [apply at_receive_reply; apply _| |].
  { intros l t [Hh [Hf _]]. by split. }
  intros sec. apply step_result.
  { intros l t [Hh [[Hf _] _]]. by split. }
  intros info [-> _]%security_info_Ok. apply triple_ret. intros s.
  apply (at_implies allowed). intros l t [Hh [[Hf Hw] Hr]]. by split_and!.
Qed.

(** ** The exits *)

Definition linked (C : option any_session -> option app_fields -> Prop) : Prop :=
  forall s a, C s a -> s <> None.

Lemma holds_end b C T S S' F :
  linked C \/ b = false -> (forall s e, S s e -> S' s e) ->
  implies (along (holds b C (vars T S)) F) (end_with S').
Proof.
  intros Hc HS l t [(Hs & Hb & Hx & Hq) _]. split_and!; [|by eapply vars_at_end|done].
  intros Hn. destruct Hc as [Hc| ->].
  - destruct Hs as [Hs%Hc|(x & Hx' & _)]; congruence.
  - by destruct (rl_app l).
Qed.

Lemma rounds_pos p r : result_at fell p n0 r -> 0 <= rounds r.
Proof using Hn0. by intros (_ & -> & _). Qed.

(** An exit from its parts. *)
Lemma end_intro (S : bytes -> bytes -> Prop) l t :
  (rl_session l = None -> rl_app l = None) ->
  store_ok profile d0 (x_store (rl_vars l)) t /\ finish_known (x_result (rl_vars l)) t ->
  S (x_secret (rl_vars l)) (x_ecdh (rl_vars l)) -> 0 <= rounds (x_result (rl_vars l)) ->
  queue_heard l t -> end_with S l t.
Proof. intros Hn Hs Hz Hr Hq. by split; [|split]. Qed.

Lemma end_with_mono S S' : (forall s e, S s e -> S' s e) -> implies (end_with S) (end_with S').
Proof. intros HS l t (Hn & (Hv & Hz & Hr) & Hq). apply end_intro; auto. Qed.

Lemma is_session_linked x : linked (is_session x).
Proof. by intros s a ->. Qed.
Lemma app_at_linked k tx rx : linked (app_at profile k tx rx).
Proof. by intros s a (x & f & -> & _). Qed.

(** ** Methods of the objects *)

(** A change of variables that no exit is concerned with. *)
Lemma at_set_vars {B} b C V V' F f Jx Q (k : coroutine B) :
  (forall x t, F t -> V x t -> V' (f x) t) ->
  triple (at_r (along (holds b C V') F)) k Q (fun _ => at_r Jx) ->
  triple (at_r (along (holds b C V) F)) (update_vars f;; k) Q (fun _ => at_r Jx).
Proof.
  intros Hf Hk. eapply step_update; [|exact Hk].
  intros h t [(Hc & Ha & Hv & Hq) HF]. split; [|done]. split_and!; [done|done|by apply Hf|done].
Qed.

Lemma at_on_resume {A} (m : method CentralResume A) c (Phi : A -> CentralResume -> Prop) tk S F :
  (forall x a y, x = c \/ c_closed x -> m x = (Ok a, y) -> Phi a y) ->
  triple (at_r (along (holds false (is_session (SResume c)) (vars (this_ticket tk) S)) F)) (on_resume m)
    (fun a => at_r (fun l t => exists y, Phi a y /\
       along (holds false (is_session (SResume y)) (vars (this_ticket (c_ticket y)) S)) F l t))
    (fun _ => at_r (end_with S)).
Proof.
  intros Hok st [[(Hc & Ha & (Hs & Ht & Hz & Hr) & Hq) Hf] Hob].
  unfold on_resume, get_local, get_own, update_local, update_own. meth. cbn.
  set (l := local (self st)) in *. assert (rl_app l = None) as Hn by by destruct (rl_app l).
  destruct (rl_session l) as [[x|h]|] eqn:Hl.
  2, 3: split; [|done]; apply end_intro; [done|exact Hs|done|by eapply rounds_pos|done].
  assert (x = c \/ c_closed x) as Hx.
  { destruct Hc as [[= ->]|(s & [= <-] & Hd)]; [by left|by right]. }
  destruct (m x) as [[a|e] y] eqn:Hm; cbn; (split; [|done]).
  - exists y. split; [by eapply Hok|]. split; [|done]. split; [by left|]. split; [done|]. by split.
  - apply end_intro; [done|exact Hs|done| |done]. by eapply rounds_pos.
Qed.

Lemma at_on_full {A} (m : method FullHandshake A) h (Phi : A -> FullHandshake -> Prop) T S F :
  (forall x a y, x = h \/ f_closed x -> m x = (Ok a, y) -> Phi a y) ->
  triple (at_r (along (holds false (is_session (SFull h)) (vars T S)) F)) (on_full m)
    (fun a => at_r (fun l t => exists y, Phi a y /\ rl_session l = Some (SFull y) /\
       along (holds false (is_session (SFull y)) (vars T S)) F l t))
    (fun _ => at_r (end_with S)).
Proof.
  intros Hok st [[(Hc & Ha & (Hs & Ht & Hz & Hr) & Hq) Hf] Hob].
  unfold on_full, get_local, get_own, update_local, update_own. meth. cbn.
  set (l := local (self st)) in *. assert (rl_app l = None) as Hn by by destruct (rl_app l).
  destruct (rl_session l) as [[c|x]|] eqn:Hl.
  1, 3: split; [|done]; apply end_intro; [done|exact Hs|done|by eapply rounds_pos|done].
  assert (x = h \/ f_closed x) as Hx.
  { destruct Hc as [[= ->]|(s & [= <-] & Hd)]; [by left|by right]. }
  destruct (m x) as [[a|e] y] eqn:Hm; cbn; (split; [|done]).
  - exists y. split; [by eapply Hok|]. split; [done|]. split; [|done]. split; [by left|]. split; [done|]. by split.
  - apply end_intro; [done|exact Hs|done| |done]. by eapply rounds_pos.
Qed.

(** Any method of any session, when only the exit matters. *)
Lemma at_on_resume_out {A} (m : method CentralResume A) C T S F :
  triple (at_r (along (holds false C (vars T S)) F)) (on_resume m)
    (fun _ => at_r (end_with S)) (fun _ => at_r (end_with S)).
Proof.
  intros st [[(Hc & Ha & (Hs & Ht & Hz & Hr) & Hq) Hf] Hob].
  unfold on_resume, get_local, get_own, update_local, update_own. meth. cbn.
  set (l := local (self st)) in *. assert (rl_app l = None) as Hn by by destruct (rl_app l).
  destruct (rl_session l) as [[x|h]|] eqn:Hl.
  2, 3: split; [|done]; apply end_intro; [done|exact Hs|done|by eapply rounds_pos|done].
  destruct (m x) as [[a|e] y] eqn:Hm; cbn; (split; [|done]).
  all: apply end_intro; [done|exact Hs|done|by eapply rounds_pos|done].
Qed.

(** The ticket, while there is no session. *)
Lemma at_on_ticket {A} (m : method Ticket A) (Phi : A -> Ticket -> Ticket -> Prop) S F :
  (forall tk a tk', m tk = (Ok a, tk') -> Phi a tk tk') ->
  triple (at_r (along (holds false no_session (vars some_ticket S)) F)) (on_ticket m)
    (fun a => at_r (fun l t => exists tk tk', Phi a tk tk' /\
       along (holds false no_session (vars (this_ticket tk') S)) (fun t => F t /\ ticket_ok profile d0 tk t) l t))
    (fun _ => at_r (along (holds false no_session (vars any_ticket S)) F)).
Proof.
  intros Hok st [[(Hc & Ha & (Hs & Ht & Hz & Hr) & Hq) Hf] Hob].
  unfold on_ticket, get_vars, get_local, get_own, update_local, update_own. meth. cbn.
  set (l := local (self st)) in *.
  destruct (x_ticket (rl_vars l)) as [tk|] eqn:Htk.
  2: by split.
  assert (forall tk', no_session (set_session_ticket tk' <$> rl_session l) (rl_app l) \/
                      dead (set_session_ticket tk' <$> rl_session l)) as Hcc.
  { intros tk'. destruct Hc as [Hc|(s & Hc & Hd)]; rewrite Hc; [by left|right].
    exists (set_session_ticket tk' s). split; [done|by apply dead_set_ticket]. }
  destruct (m tk) as [[a|e] tk'] eqn:Hm; cbn; (split; [|done]); cycle 1.
  { split; [|done]. split; [apply Hcc|]. split; [done|by split]. }
  exists tk, tk'. split; [by eapply Hok|]. split; [|split; [done|by apply Ht]].
  split; [apply Hcc|split; [done|by split]].
Qed.

(** [store.save] of the session's ticket, which it leaves as it is. *)
Lemma at_save_ticket x tk S F :
  session_ticket x = Some tk -> (forall t, F t -> ticket_ok profile d0 tk t) ->
  triple (at_r (along (holds false (is_session x) (vars (this_ticket tk) S)) F)) (save_ticket file_size)
    (fun _ => at_r (along (holds false (is_session x) (vars (this_ticket tk) S)) F))
    (fun _ => at_r (end_with S)).
Proof.
  intros Hx Hok. unfold save_ticket. apply (step_ask _ _ _ _ Now). intros now.
  intros st [[(Hc & Ha & ([Hs Hk] & Ht & Hz & Hr) & Hq) Hf] Hob].
  unfold get_vars, update_vars, get_local, get_own, update_local, update_own. meth. cbn.
  set (l := local (self st)) in *. assert (rl_app l = None) as Hn by by destruct (rl_app l).
  rewrite Ht. destruct (ts_save (file_size tk) now (x_store (rl_vars l), tk)) as [[u|e] [s' tk']] eqn:Hsave; cbn.
  - pose proof (store_ok_save profile d0 _ _ _ _ _ _ _ _ Hsave (Hok _ Hf) Hs) as Hs'.
    apply save_step in Hsave as (_ & He & _). rewrite (He u eq_refl).
    split; [|done]. split; [|done]. split; [|split; [done|by split]].
    destruct Hc as [Hc|(s & Hc & Hd)].
    + left. unfold is_session in Hc |- *. cbn. fold l. rewrite Hc. cbn. f_equal. by apply set_same_ticket.
    + right. exists (set_session_ticket tk s). cbn. fold l. rewrite Hc. split; [done|]. by apply dead_set_ticket.
  - pose proof (store_ok_save profile d0 _ _ _ _ _ _ _ _ Hsave (Hok _ Hf) Hs) as Hs'.
    split; [|done]. apply end_intro; [done|done|done|by eapply rounds_pos|done].
Qed.

Lemma at_own b C V F x :
  triple (at_r (along (holds b C V) F)) (own x)
    (fun _ => at_r (along (holds b (is_session x) V) F)) (fun _ => at_r (along (holds b C V) F)).
Proof.
  unfold own. apply step_own_local. intros l0.
  eapply step_update with (J' := along (holds b (is_session x) V) F); [|by apply at_update].
  intros h t [_ [(Hc & Hr) Hf]]. split; [|done]. split; [by left|done].
Qed.

Lemma at_delete b C T S F pr pe :
  triple (at_r (along (holds b C (vars T S)) F)) (on_store (ts_delete pr pe))
    (fun _ => at_r (along (holds b C (vars T S)) F)) (fun _ => at_r (along (holds b C (vars T S)) F)).
Proof.
  intros st [[(Hc & Ha & ([Hs Hk] & Hr) & Hq) Hf] Hob].
  unfold on_store, get_vars, update_vars, get_local, get_own, update_local, update_own. meth. cbn.
  set (l := local (self st)) in *.
  destruct (ts_delete pr pe (x_store (rl_vars l))) as [[u|e] s'] eqn:Hd; cbn.
  all: pose proof (store_ok_delete profile d0 _ _ _ _ _ _ Hd Hs); split; [|done].
  all: split; [split; [done|split; [done|by split]]|done].
Qed.

Lemma at_load b C T S F peer :
  triple (at_r (along (holds b C (vars T S)) F)) (load_ticket profile peer)
    (fun o => at_r (fun l t => some_ticket o t /\ along (holds b C (vars T S)) F l t))
    (fun _ => at_r (along (holds b C (vars T S)) F)).
Proof.
  unfold load_ticket. apply (step_ask _ _ _ _ Now). intros now.
  intros st [[(Hc & Ha & ([Hs Hk] & Hr) & Hq) Hf] Hob].
  unfold on_store, get_vars, update_vars, get_local, get_own, update_local, update_own. meth. cbn.
  set (l := local (self st)) in *.
  destruct (ts_load profile peer now (x_store (rl_vars l))) as [[o|e] s'] eqn:Hd; cbn.
  all: pose proof (store_ok_load profile d0 _ _ _ _ _ _ Hd Hs) as [Hs' Ho]; split; [|done].
  - split; [by apply Ho|]. split; [split; [done|split; [done|by split]]|done].
  - split; [split; [done|split; [done|by split]]|done].
Qed.

(** ** One exchange *)

Variables (peer : string) (allow_resume force_full : bool).
Variables (negative : option string) (replay_finish : option bytes).
Hypothesis Htampered : negative = Some "init-mac"%string -> tampered.
Hypothesis Hreplayed : forall t d, G t -> replay_finish = Some d -> replayed d t.

(** Where the exchange stands before it has a session. *)
Definition F0 (t : list observed) : Prop := G t /\ level4_ok profile t.
#[local] Instance F0_lasting : Lasting F0.
Proof. apply _. Qed.

Abbreviation before F := (along (holds false no_session (vars some_ticket zeroed)) F).

Lemma before_end F : implies (before F) (end_with zeroed).
Proof. apply holds_end; [by right|done]. Qed.

(** The lifecycle modes change the ticket, and may drop it. *)
Lemma at_adjust_ticket F (f : Ticket -> Ticket) :
  (forall tk, same_secret (f tk) tk /\ t_valid (f tk) = t_valid tk) ->
  triple (at_r (before F)) (on_ticket (update f)) (fun _ => at_r (before F)) (fun _ => at_r (end_with zeroed)).
Proof.
  intros Hf. eapply triple_conseq;
    [intros s Hs; exact Hs|apply (at_on_ticket _ (fun _ tk tk' => tk' = f tk)); by intros tk a tk' [= _ <-]| |].
  - intros u s [(tk & tk' & -> & (Hc & Ha & (Hs & Ht & Hr) & Hq) & HF & Hp & Hk) Ho]. split; [|done].
    split; [|done]. split; [done|]. split; [done|]. split; [|done]. split; [done|]. split; [|done].
    intros tk0. rewrite Ht. intros [= <-]. destruct (Hf tk) as [Hss Hv]. split; [by rewrite (proj1 Hss)|].
    rewrite Hv. intros Hval. eapply known_same; [exact Hss|auto].
  - intros x s. apply at_implies. apply holds_end; [by right|done].
Qed.

Lemma at_check_ticket F now :
  triple (at_r (before F))
    (try_except (fun x => match x with ResumeError _ => true | _ => false end)
      (fun exc =>
         match exc with
         | ResumeError reason => update_vars (on_result (set_fallback (Some (reason_name reason))))
         | _ => mret tt
         end;;
         on_store (ts_delete profile peer);;
         update_vars (set_ticket None))
      (on_ticket (Ticket_check profile peer now)))
    (fun _ => at_r (before F)) (fun _ => at_r (end_with zeroed)).
Proof.
  set (J := along (holds false no_session (vars any_ticket zeroed)) F).
  assert (implies J (end_with zeroed)) as HJ by (apply holds_end; [by right|done]).
  eapply triple_except with (E' := fun _ => at_r J).
  - eapply triple_conseq; [intros s Hs; exact Hs|apply (at_on_ticket _ (fun _ tk tk' => tk' = tk))| |done].
    { intros tk a tk' [(_ & -> & _)|((x & ?) & _)]%Ticket_check_cases; done. }
    intros u s [(tk & tk' & -> & (Hc & Ha & (Hs & Ht & Hr) & Hq) & HF & Hk) Ho]. split; [|done].
    split; [|done]. split; [done|]. split; [done|]. split; [|done]. split; [done|]. split; [|done].
    intros tk0. rewrite Ht. by intros [= <-].
  - intros x _. eapply step_at with (R := fun _ => J) (J' := J); [|done|].
    { destruct x; try by apply triple_ret. apply at_update.
      intros h t [(Hc & Ha & ((Hs & Hk) & Ht & Hz & Hp & Hn & Hfb) & Hq) HF]. split; [|done]. split; [done|].
      split; [done|]. split; [|done]. by split_and!. }
    intros u. apply step_same; [apply at_delete|done|]. intros v.
    apply at_update. intros h t [(Hc & Ha & (Hs & _ & Hr) & Hq) HF]. split; [|done]. split; [done|].
    split; [done|]. split; [|done]. split; [done|]. split; [|done]. by intros tk [=].
  - intros x s _. by apply at_implies.
Qed.

Lemma at_obtain_ticket :
  triple (at_r (before G)) (obtain_ticket profile peer allow_resume negative)
    (fun _ => at_r (before F0)) (fun _ => at_r (end_with zeroed)).
Proof.
  unfold obtain_ticket. set (J := before G). assert (Kept J) as HJ by apply _.
  pose proof (before_end G) as HJe. fold J in HJe. pose proof (before_end F0) as H0e.
  apply step_update with (J' := J); [by intros h t Hj|].
  eapply step_at; [apply (at_start_notify _ J); [done|intros c l t _; by apply Hfree]|done|].
  forget. apply step_same; [apply at_require_link|done|]. intros u.
  eapply step_at with (R := fun _ => before F0) (J' := J); [|done|].
  { destruct (Z.eqb_spec profile V11) as [Hp|Hp].
    - eapply step_at; [apply at_attest_v11; [apply _|apply _|done|done]|done|]. intros sec.
      apply at_pure. intros _. by apply triple_ret.
    - apply triple_ret. intros s. apply (at_implies allowed). intros l t [Hh Hg]. by split_and!. }
  intros v. apply step_same; [|done|].
  { destruct (negb allow_resume); [apply at_delete|by apply triple_ret]. }
  intros w. eapply step_at with
    (R := fun o l t => some_ticket o t /\ before F0 l t) (J' := before F0); [|done|].
  { destruct allow_resume; [apply at_load|]. apply triple_ret. intros s. apply (at_implies allowed).
    intros l t Hj. split; [by intros tk [=]|done]. }
  intros o. eapply step_update with (J' := before F0).
  { intros h t [Ho [(Hc & Ha & (Hs & _ & Hr) & Hq) HF]]. split; [|done]. by split_and!. }
  destruct (_ || _); [|by apply triple_ret].
  apply step_raise_when; [done|]. intros _.
  eapply step_at; [apply at_adjust_ticket; intros tk; by destruct (is_negative _ _)|done|]. intros x.
  apply (step_ask _ _ _ _ Now). intros now. apply at_check_ticket.
Qed.

(** ** Resumption *)

Definition F_init (tk : Ticket) (sid nc : bytes) (t : list observed) : Prop :=
  F0 t /\ E_init profile d0 tk sid nc t.
#[local] Instance F_init_lasting tk sid nc : Lasting (F_init tk sid nc).
Proof. apply _. Qed.

Abbreviation resuming c tk F :=
  (along (holds false (is_session (SResume c)) (vars (this_ticket tk) zeroed)) F).

Lemma resuming_end c tk F : implies (resuming c tk F) (end_with zeroed).
Proof. apply holds_end; [left; apply is_session_linked|done]. Qed.

(** What [send_init] leaves: the frame is INIT, or INIT tampered with. *)
Definition init_sent (init : bytes) (l : resume_locals) (t : list observed) : Prop :=
  exists tk sid nc, (negative = Some "init-mac"%string \/ init = init_of profile tk sid nc) /\
    resuming (c_wait tk sid nc) tk
      (fun t => F_init tk sid nc t /\ wrote CHAR_CONTROL_UUID init t) l t.

Lemma at_send_init :
  triple (at_r (before F0)) (send_init negative) (fun init => at_r (init_sent init))
    (fun _ => at_r (end_with zeroed)).
Proof.
  unfold send_init. apply (step_ask _ _ _ _ Now). intros now.
  apply (step_ask _ _ _ _ (Urandom 16)). intros sid. apply (step_ask _ _ _ _ (Urandom 32)). intros nc.
  eapply step_at; [apply (at_on_ticket _ (fun c tk tk' => tk' = tk /\ t_valid tk = true /\
      t_successful_resumes tk < MAX_RESUMES /\ c = c_new tk sid nc)); by apply resume_init_Ok| |].
  { apply holds_end; [by right|done]. }
  intros c. apply at_ex. intros tk. apply at_ex. intros tk'. apply at_pure. intros (-> & Hv & Hm & ->).
  set (F := fun t => F0 t /\ ticket_ok profile d0 tk t).
  eapply step_at; [apply at_own|apply holds_end; [by right|done]|]. intros u.
  eapply step_at; [apply (at_on_resume _ _ (fun w y =>
      resume_sizes (t_profile tk) (t_root tk) (t_rid tk) sid nc /\
      w = init_frame (t_profile tk) (t_root tk) (t_rid tk) sid nc /\ y = c_wait tk sid nc));
      intros x w y; apply resume_begin_Ok|done|].
  intros w. apply at_ex. intros y. apply at_pure. intros (Hz & -> & ->).
  eapply triple_weaken with (P' := fun s => t_profile tk = profile /\ at_r (resuming (c_wait tk sid nc) tk F) s).
  { intros s [[Hh Hf] Ho]. split; [by destruct Hf as [_ [Hp _]]|by split]. }
  apply triple_pure. intros Hp. rewrite Hp in *. fold (init_of profile tk sid nc).
  eapply at_weaken with (J' := resuming (c_wait tk sid nc) tk (F_init tk sid nc)).
  { intros l t [Hh [HF [_ Hk]]]. split; [done|]. split; [done|]. split; [auto|]. split; [done|].
    split; [done|]. split; [apply HF|done]. }
  pose proof (resuming_end (c_wait tk sid nc) tk (F_init tk sid nc)) as HJ.
  eapply step_at with (R := fun init l t => (init = init_of profile tk sid nc \/
      negative = Some "init-mac"%string /\ tamper (init_of profile tk sid nc) = Ok init) /\
      resuming (c_wait tk sid nc) tk (F_init tk sid nc) l t) (J' := resuming (c_wait tk sid nc) tk (F_init tk sid nc));
    [|done|].
  { unfold is_negative. destruct (bool_decide_reflect (negative = Some "init-mac"%string)) as [Hn|Hn].
    - apply triple_run; [|by intros x Ht s Hs]. intros init Ht s. apply (at_implies allowed).
      intros l t Hj. split; [by right|done].
    - apply triple_ret. intros s. apply (at_implies allowed). intros l t Hj. split; [by left|done]. }
  intros init. apply at_pure. intros Hinit.
  eapply step_at; [apply at_send; [apply _|apply _|]|done|].
  { intros t [Hf He]. split; [apply Hf|]. right. left. exists tk, sid, nc. split; [done|].
    destruct Hinit as [->|[Hn Ht]]; [by left|right; auto]. }
  intros v. apply triple_ret. intros s. apply (at_implies allowed). intros l t Hj. exists tk, sid, nc.
  split; [|done]. destruct Hinit as [->|[Hn _]]; [by right|by left].
Qed.

Lemma init_ticket tk sid nc t : F_init tk sid nc t -> ticket_ok profile d0 tk t.
Proof. intros [_ (Hk & Hp & _)]. by split. Qed.

Lemma at_resume_rejected c tk F :
  (forall t, F t -> F0 t /\ ticket_ok profile d0 tk t) ->
  triple (at_r (resuming c tk F)) (resume_rejected negative)
    (fun _ => at_r (before F0)) (fun _ => at_r (end_with zeroed)).
Proof.
  intros HF. unfold resume_rejected. apply step_raise_when; [apply resuming_end|]. intros _.
  set (J := along (holds false (fun _ _ => True) (vars some_ticket zeroed)) F0).
  eapply step_update with (J' := J).
  { intros h t [(Hc & Ha & ((Hs & Hk) & Ht & Hz & Hp & Hn & Hfb) & Hq) Hf]. apply HF in Hf as [Hf Htk].
    split; [|done]. split; [by left|]. split; [done|]. split; [|done]. split; [by split|].
    split; [by intros tk'; rewrite Ht; intros [= <-]|]. by split_and!. }
  eapply step_update with (J' := J).
  { intros h t [(Hc & Hr) Hf]. split; [|done]. split; [by left|done]. }
  eapply step_update with (J' := before F0); [|by apply at_update].
  intros h t [(Hc & Hr) Hf]. split; [|done]. split; [by left|done].
Qed.

Lemma at_negative_accept tk sid nc init raw F :
  Lasting F -> (forall t, F t -> F_init tk sid nc t) ->
  negative = Some "init-mac"%string \/ init = init_of profile tk sid nc ->
  triple (at_r (resuming (c_wait tk sid nc) tk F)) (negative_accept profile negative init raw)
    (fun _ => at_r (fun l t => (negative <> Some "init-mac" /\ negative <> Some "replay-init" /\
                                negative <> Some "accept-mac")%string /\
                               resuming (c_wait tk sid nc) tk F l t))
    (fun _ => at_r (end_with zeroed)).
Proof.
  intros HL HF Hinit. unfold negative_accept, is_negative.
  pose proof (resuming_end (c_wait tk sid nc) tk F) as HJ.
  apply step_raise_when; [done|]. intros Hm%bool_decide_eq_false. destruct Hinit as [Hinit| ->]; [done|].
  eapply step_at with (R := fun _ l t => negative <> Some "replay-init"%string /\
    resuming (c_wait tk sid nc) tk F l t) (J' := end_with zeroed); [|done|].
  { destruct (bool_decide_reflect (negative = Some "replay-init"%string)) as [Hr|Hr].
    - eapply step_at; [apply at_send; [apply _|done|]|done|].
      { intros t Hf%HF. split; [apply Hf|]. right. left. exists tk, sid, nc.
        split; [apply Hf|by left]. }
      intros u. eapply step_at; [apply at_receive_reply; apply _|apply resuming_end|]. intros reply.
      apply step_result; [apply resuming_end|]. intros f _. apply at_raise, resuming_end.
    - apply triple_ret. intros s. by apply (at_implies allowed). }
  intros u. apply at_pure. intros Hr.
  destruct (bool_decide_reflect (negative = Some "accept-mac"%string)) as [Ha|Ha].
  - apply step_result; [done|]. intros raw' _.
    eapply step_at with (R := fun _ => end_with zeroed) (J' := end_with zeroed); [|done|intros v; by apply at_raise].
    eapply triple_except with (E' := fun _ => at_r (end_with zeroed)); [|intros x _; case_match; by apply at_raise|done].
    eapply step_at; [apply at_on_resume_out|done|]. intros w. by apply triple_ret.
  - apply triple_ret. intros s. by apply (at_implies allowed).
Qed.

(** The application object of an open session. *)
Definition ivs_of (x : any_session) (k : traffic_keys) : Prop :=
  exists ivs, supplied_ivs x = Ok ivs /\
    match ivs with
    | Some v => v = (kd_iv_c2p k, kd_iv_p2c k)
    | None => derive_iv_base (kd_c2p k) (kd_sid k) APP_C2P V11 = Ok (kd_iv_c2p k) /\
              derive_iv_base (kd_p2c k) (kd_sid k) APP_P2C V11 = Ok (kd_iv_p2c k)
    end.

Lemma hybrid_opens x k a :
  profile = V08 -> open_with profile k x -> HybridApplication_init x = Ok a ->
  ResumeHybrid.session a = x /\ app_counts profile k 0 0 (HybridFields (c2p a) (p2c a)).
Proof.
  intros Hp (_ & _ & Hsid & Hid & Hc & Hq) (_ & c & p & -> & Hci & Hpi)%hybrid_init_Ok.
  rewrite Hid in Hci, Hpi. split; [done|]. unfold app_counts. rewrite Hp. change (V08 =? V08) with true. cbn iota.
  apply channel_init_Ok in Hci as (H1' & H2' & H3' & _ & H5'); [|done].
  apply channel_init_Ok in Hpi as (G1 & G2 & _ & G4 & _); [|done].
  exists c, p. split; [done|]. split_and!; congruence.
Qed.

Lemma central_opens x k ivs u a :
  profile = V11 -> open_with profile k x -> ivs_of x k -> supplied_ivs x = Ok ivs ->
  CentralApplication_init (fst <$> ivs) (snd <$> ivs) x = (Ok u, a) ->
  handshake a = x /\
  app_counts profile k 0 0 (CentralFields (app_profile a) (iv_c2p a) (iv_p2c a) (tx_c2p a) (rx_p2c a)).
Proof.
  intros Hp (_ & Hprof & Hsid & Hid & Hc & Hq) (ivs' & Hi & Hk) Hi' (_ & c & p & -> & Hci & Hpi)%central_init_Ok.
  rewrite Hi in Hi'. injection Hi' as <-. split; [done|]. unfold app_counts. rewrite Hp.
  change (V11 =? V08) with false. cbn iota. cbn [app_profile iv_c2p iv_p2c tx_c2p rx_p2c]. rewrite Hprof, Hp.
  destruct ivs' as [v|]; cbn [fmap option_fmap option_map fst snd] in Hci, Hpi.
  - subst. done.
  - rewrite Hprof, Hid, ?Hc, ?Hq, Hp in Hci, Hpi. destruct Hk as [Hk1 Hk2]. congruence.
Qed.

Lemma at_new_application x k V S F :
  (forall v t, V v t -> vars_end profile d0 S v t) -> open_with profile k x ->
  (profile = V11 -> ivs_of x k) ->
  triple (at_r (along (holds false (is_session x) V) F)) (new_application profile)
    (fun _ => at_r (along (holds true (app_at profile k 0 0) V) F)) (fun _ => at_r (end_with S)).
Proof.
  intros HV Hopen Hivs. unfold new_application. apply step_own_local. intros l0.
  assert (forall l t, l0 = l /\ along (holds false (is_session x) V) F l t -> end_with S l t) as Hend.
  { intros l t [_ [(_ & Ha & Hv & Hq) _]]. split; [|split; [by apply HV|done]]. by destruct (rl_app l). }
  destruct (rl_session l0) as [s|] eqn:Hl0; [|by apply at_raise].
  eapply triple_weaken with (P' := fun st => (s = x \/ dead_session s) /\
    at_r (fun l t => l0 = l /\ along (holds false (is_session x) V) F l t) st).
  { intros st [[-> Hj] Ho]. split; [|by split]. destruct Hj as [([Hc|(y & Hy & Hd)] & _) _].
    - left. unfold is_session in Hc. congruence.
    - right. congruence. }
  apply triple_pure. intros Hs. destruct (Z.eqb_spec profile V08) as [Hp|Hp].
  - apply step_result; [exact Hend|]. intros a Hinit.
    destruct Hs as [->|Hs%dead_insecure]; [|apply hybrid_init_Ok in Hinit as [? _]; congruence].
    destruct (hybrid_opens x k a Hp Hopen Hinit) as [Hx Hcount]. apply at_update.
    intros h t [-> [(_ & _ & Hr) HF]]. split; [|done]. split; [|done]. left. cbn. rewrite Hx.
    exists x, (HybridFields (c2p a) (p2c a)). done.
  - assert (profile = V11) as Hp' by by destruct Hprofile.
    apply step_result; [exact Hend|]. intros ivs Hsup.
    destruct (CentralApplication_init (fst <$> ivs) (snd <$> ivs) s) as [[u|e] a] eqn:Hinit.
    + destruct Hs as [->|Hs%dead_insecure]; [|apply central_init_Ok in Hinit as [? _]; congruence].
      destruct (central_opens x k ivs u a Hp' Hopen (Hivs Hp') Hsup Hinit) as [Hx Hcount]. apply at_update.
      intros h t [-> [(_ & _ & Hr) HF]]. split; [|done]. split; [|done]. left. cbn. rewrite Hx. by eexists x, _.
    + eapply step_update with (J' := end_with S); [|by apply at_raise].
      intros h t Hj. destruct (Hend _ _ Hj) as (Hn & Hv & Hq). split; [done|by split].
Qed.

(** The keys of the resumed session. *)
Definition keys_resumed (tk : Ticket) (sid nc np : bytes) : traffic_keys :=
  let r := ref_keys profile (t_root tk) (t_rid tk) sid nc np in
  mkTrafficKeys sid (k_app_c2p r) (k_app_p2c r) (k_iv_c2p r) (k_iv_p2c r).

Lemma resumed_opens tk sid nc np :
  t_profile tk = profile -> blen sid = 16 ->
  open_with profile (keys_resumed tk sid nc np) (SResume (c_secure tk sid nc np)) /\
  ivs_of (SResume (c_secure tk sid nc np)) (keys_resumed tk sid nc np).
Proof.
  intros Hp Hs. unfold open_with, ivs_of, keys_resumed, c_secure. rewrite Hp.
  split; [by split_and!|]. by eexists.
Qed.

Abbreviation opened_at p k F :=
  (along (holds true (app_at profile k 0 0) (vars_at profile d0 some_ticket zeroed fell p n0)) F).

Lemma used_ticket_ok tk t : ticket_ok profile d0 tk t -> ticket_ok profile d0 (Ticket_used tk) t.
Proof.
  intros [Hp Hk]. unfold Ticket_used. cbn. destruct (_ >=? MAX_RESUMES); [by split|].
  split; [done|]. intros Hv. eapply known_same; [|by apply Hk]. done.
Qed.

Lemma at_resume_accepted tk sid nc raw :
  let F := fun t => (F_init tk sid nc t /\ wrote CHAR_CONTROL_UUID (init_of profile tk sid nc) t) /\ raw ∈ heard t in
  triple (at_r (resuming (c_wait tk sid nc) tk F)) (resume_accepted file_size profile replay_finish raw)
    (fun _ => at_r (fun l t => replay_finish = None /\ exists k,
       opened_at "resume"%string k (fun t => F0 t /\ resumed_keys profile d0 k t) l t))
    (fun _ => at_r (end_with zeroed)).
Proof.
  intros F. assert (Lasting F) as HFL by apply _. unfold resume_accepted.
  eapply triple_weaken with (P' := fun s =>
    (t_profile tk = profile /\ resume_sizes (t_profile tk) (t_root tk) (t_rid tk) sid nc) /\
    at_r (resuming (c_wait tk sid nc) tk F) s).
  { intros s [[Hh [[[H0' (H1' & H2' & H3' & H4' & H5')] Hw] Hr]] Ho]. split; [by rewrite H2'|]. by split_and!. }
  apply triple_pure. intros [Hp Hz].
  eapply step_at; [apply (at_on_resume _ _ (fun w y => exists np, blen np = 32 /\
      raw = accept_frame (t_profile tk) (t_root tk) (t_rid tk) sid nc np /\
      w = finish_c_frame (t_profile tk) (t_root tk) (t_rid tk) sid nc np /\ y = c_wait_finish tk sid nc np));
      intros x w y; by apply resume_accept_Ok|done|].
  intros w. apply at_ex. intros y. apply at_pure. intros (np & Hnp & -> & -> & ->). rewrite Hp in *.
  change (c_ticket (c_wait_finish tk sid nc np)) with tk.
  set (F1 := fun t => F0 t /\ E_accept profile d0 tk sid nc np t).
  eapply at_weaken with (J' := resuming (c_wait_finish tk sid nc np) tk F1).
  { intros l t [Hh [[[H0' Hi] Hw] Hr]]. rewrite Hp in Hr. split; [done|]. split; [done|]. split; [exact Hi|by split_and!]. }
  eapply step_at; [apply at_send; [apply _|apply _|]|apply resuming_end|].
  { intros t [Hf He]. split; [apply Hf|]. right. right. left. exists tk, sid, nc, np. split; [done|].
    destruct replay_finish as [d|] eqn:Hd; [right|by left]. cbn. eapply Hreplayed; [apply Hf|done]. }
  intros u. eapply step_at; [apply at_receive_reply; apply _|apply resuming_end|]. intros reply.
  set (F2 := fun t => (F1 t /\ wrote CHAR_CONTROL_UUID (finish_c_frame profile (t_root tk) (t_rid tk) sid nc np) t) /\
                      reply ∈ heard t).
  eapply step_at with (R := fun _ l t => replay_finish = None /\
    resuming (c_wait_finish tk sid nc np) tk F2 l t) (J' := end_with zeroed); [|done|].
  { destruct replay_finish as [d|]; cbn [default].
    - apply step_result; [apply resuming_end|]. intros f _. apply at_raise, resuming_end.
    - apply triple_ret. intros s. by apply (at_implies allowed). }
  intros v. apply at_pure. intros Hnone.
  assert (Lasting F2) as HF2 by apply _.
  eapply step_at; [apply (at_on_resume _ _ (fun _ y =>
      reply = finish_p_frame (t_profile tk) (t_root tk) (t_rid tk) sid nc np /\ y = c_secure tk sid nc np));
      intros x a y; apply resume_finish_Ok; by rewrite Hp|done|].
  intros z. apply at_ex. intros y. apply at_pure. intros [-> ->].
  change (c_ticket (c_secure tk sid nc np)) with (Ticket_used tk).
  set (k := keys_resumed tk sid nc np).
  set (F3 := fun t => F0 t /\ ticket_ok profile d0 (Ticket_used tk) t /\ resumed_keys profile d0 k t /\
     wrote CHAR_CONTROL_UUID (finish_c_frame profile (t_root tk) (t_rid tk) sid nc np) t).
  eapply at_weaken with (J' := resuming (c_secure tk sid nc np) (Ticket_used tk) F3).
  { intros l t [Hh [[[H0' He] Hw] Hr]]. split; [done|]. split; [done|].
    split; [apply used_ticket_ok, (init_ticket tk sid nc); split; [done|by destruct He]|].
    split; [|done]. exists tk, sid, nc, np. rewrite Hp in Hr.
    split; [split; [exact He|by split]|done]. }
  assert (Lasting F3) as HF3 by apply _.
  eapply step_at; [apply at_save_ticket; [done|by intros t (_ & ? & _)]|done|]. intros a.
  apply step_vars. intros x.
  eapply step_at with (J' := end_with zeroed)
    (R := fun _ => along (holds false (is_session (SResume (c_secure tk sid nc np)))
             (vars_at profile d0 (this_ticket (Ticket_used tk)) zeroed fell "resume" n0)) F3); [|done|].
  { destruct (x_ticket x) as [t0|]; [|apply at_raise; intros l t [_ Hj]; by eapply resuming_end].
    apply at_update. intros h t [-> [(Hc & Ha & (Hs & Ht & Hz' & (_ & Hn & Hfb)) & Hq) Hf]].
    split; [|done]. by split_and!. }
  intros b. destruct (resumed_opens tk sid nc np Hp ltac:(apply Hz)) as [Hopen Hivs].
  eapply step_at; [apply (at_new_application _ k _ zeroed); [|done|done]|done|].
  { intros x' t Hv. eapply vars_at_end; [exact Hn0| |exact Hv]. done. }
  intros c. apply at_update. intros h t [(Hc & Ha & ((Hs & Hk) & Ht & Hz' & Hr) & Hq) (H0' & Htk & Hres & Hw)].
  split; [done|]. exists k. split; [|by split]. split; [done|]. split; [done|]. split; [|done].
  split; [split; [done|]|split; [|by split]].
  - intros f [= <-]. exact Hw.
  - intros tk'. cbn. rewrite Ht. by intros [= <-].
Qed.

(** The modes in which an exchange can succeed. *)
Definition quiet_mode : Prop :=
  (negative <> Some "init-mac" /\ negative <> Some "accept-mac" /\
   negative <> Some "replay-init" /\ negative <> Some "replay-finish")%string.

Hypothesis Hreplay_mode : negative = Some "replay-finish"%string -> replay_finish <> None.

(** After the attempt to resume: no session yet, or a resumed one. *)
Definition after_resume (l : resume_locals) (t : list observed) : Prop :=
  before F0 l t \/
  quiet_mode /\ exists k, opened_at "resume"%string k (fun t => F0 t /\ resumed_keys profile d0 k t) l t.

Lemma at_try_resume :
  triple (at_r (before F0)) (try_resume file_size profile negative replay_finish)
    (fun _ => at_r after_resume) (fun _ => at_r (end_with zeroed)).
Proof.
  unfold try_resume. eapply step_at; [apply at_send_init|done|]. intros init.
  apply at_ex. intros tk. apply at_ex. intros sid. apply at_ex. intros nc. apply at_pure. intros Hinit.
  eapply step_at; [apply at_receive_reply; apply _|apply resuming_end|]. intros raw.
  set (F := fun t => (F_init tk sid nc t /\ wrote CHAR_CONTROL_UUID init t) /\ raw ∈ heard t).
  apply step_result; [apply resuming_end|]. intros frame _. destruct (frame.1 =? REJECT).
  - eapply triple_conseq; [intros s Hs; exact Hs|apply at_resume_rejected| |done].
    + intros t [[Hf _] _]. split; [apply Hf|by eapply init_ticket].
    + intros u s. apply at_implies. by left.
  - eapply step_at; [apply at_negative_accept; [apply _|by intros t [[Hf _] _]|done]|done|]. intros u.
    apply at_pure. intros (Hm1 & Hm2 & Hm3). destruct Hinit as [Hinit| ->]; [done|].
    eapply triple_conseq; [intros s Hs; exact Hs|apply at_resume_accepted| |done].
    intros v s. apply at_implies. intros l t [Hnone Hk]. right. split; [|done].
    split_and!; [done..|]. intros Hr%Hreplay_mode. congruence.
Qed.

(** ** The full handshake *)

Definition buffers (s e : bytes) : bytes -> bytes -> Prop := fun x y => x = s /\ y = e.

Abbreviation with_full h S F :=
  (along (holds false (is_session (SFull h)) (vars some_ticket S)) F).

Lemma full_end h S F : implies (with_full h S F) (end_with anything).
Proof. apply holds_end; [left; apply is_session_linked|done]. Qed.

(** The encapsulation to the key that was read. *)
Definition encapsulated (pk ct ss : bytes) (t : list observed) : Prop :=
  read_key pk t /\ blen pk = PK_SIZE /\ exists coins, encapsulate pk coins = Ok (ct, ss).
#[local] Instance encapsulated_lasting pk ct ss : Lasting (encapsulated pk ct ss).
Proof. apply _. Qed.

(** The START frame, with a key pair under v0.8. *)
Definition start_made (sid : bytes) (keys : option (ec_private * bytes)) (start : bytes) : Prop :=
  match keys with
  | Some (private, public) =>
      profile = V08 /\ public = ec_public_bytes private /\
      start = full_wire profile Phase7.PHASE7_START7_AUTH (sid ++ public)
  | None => profile = V11 /\ start = full_wire profile V1Smp.V1_START_CP3 sid
  end.

Lemma at_make_start :
  triple (at_r (with_full (f_new profile) (buffers [] []) F0)) (make_start profile)
    (fun r => at_r (fun l t => exists ss,
       let '(pk, ct, sid, keys, start) := r in start_made sid keys start /\
       with_full (f_new profile) (buffers ss []) (fun t => F0 t /\ encapsulated pk ct ss t) l t))
    (fun _ => at_r (end_with anything)).
Proof.
  unfold make_start. set (J := with_full _ _ F0). pose proof (full_end (f_new profile) (buffers [] []) F0) as HJ.
  assert (Kept J) as HK by apply _.
  eapply step_at; [apply (at_read_public_key _ J); [done|intros c l t _; by apply Hfree]|done|]. intros pk.
  set (J1 := along J (read_key pk)). assert (implies J1 (end_with anything)) as HJ1 by by apply implies_along.
  apply step_same; [apply at_require_link|done|]. intros u.
  apply step_result; [done|]. intros pk' [Hpk _]%sized_Ok.
  apply (step_ask _ _ _ _ Coins). intros coins. apply step_result; [done|]. intros [ct ss] Hct. cbn [fst snd].
  set (F := fun t => F0 t /\ encapsulated pk ct ss t).
  pose proof (full_end (f_new profile) (buffers ss []) F) as HJ2.
  eapply step_update with (J' := with_full (f_new profile) (buffers ss []) F).
  { intros h t [[(Hc & Ha & (Hs & Ht & [Hz1 Hz2] & Hr) & Hq) Hf] Hk]. split; [|split; [done|]].
    - split; [done|]. split; [done|]. split; [|done]. split; [exact Hs|]. split; [exact Ht|]. split; [by split|exact Hr].
    - split; [done|]. split; [exact Hpk|by exists coins]. }
  apply (step_ask _ _ _ _ (Urandom 16)). intros sid.
  destruct (Z.eqb_spec profile V08) as [Hp|Hp].
  - apply (step_ask _ _ _ _ Coins). intros coins'. apply step_result; [done|]. intros public Hpub.
    apply step_result; [done|]. intros start (_ & _ & ->)%encode_full_Ok.
    apply triple_ret. intros s. apply (at_implies allowed). intros l t Hj. exists ss. split; [|done].
    split; [done|]. split; [|done]. unfold Phase7.serialize_p256_public_key in Hpub.
    destruct (negb _); [done|]. apply bind_Ok in Hpub as (b & _ & Hpub). apply bind_Ok in Hpub as ([] & _ & Hpub).
    by apply Ok_inj in Hpub.
  - apply step_result; [done|]. intros start (_ & _ & ->)%encode_full_Ok.
    apply triple_ret. intros s. apply (at_implies allowed). intros l t Hj. exists ss. split; [|done].
    split; [|done]. by destruct Hprofile.
Qed.

Lemma at_exchange_start h S F start :
  Lasting F -> (forall t, F t -> G t /\ control_ok t start) ->
  triple (at_r (with_full h S F)) (exchange_start profile start)
    (fun ready => at_r (fun l t => ~ dead (rl_session l) /\
       with_full h S (fun t => (F t /\ wrote CHAR_CONTROL_UUID start t) /\
                               full_wire profile ready.1 ready.2 ∈ heard t) l t))
    (fun _ => at_r (end_with anything)).
Proof.
  intros HF Hok. unfold exchange_start.
  eapply step_at; [apply at_send; [apply _|done|exact Hok]|apply full_end|]. intros u.
  eapply step_at; [apply at_receive_live; apply _|apply full_end|]. intros raw.
  apply triple_run.
  - intros [s p] (_ & _ & ->)%parse_full_Ok st. by apply (at_implies allowed).
  - intros x _ st. apply at_implies. intros l t [_ Hj]. by eapply full_end.
Qed.

Lemma anything_end S : implies (end_with S) (end_with anything).
Proof. by apply end_with_mono. Qed.

Lemma at_begin_full ss e pk ct sid ecdh cp pp sec F :
  triple (at_r (with_full (f_new profile) (buffers ss e) F)) (begin_full pk ct sid ecdh cp pp sec)
    (fun _ => at_r (fun l t => exists canonical ikm,
       full_inputs profile ss pk ct sid ecdh cp pp sec canonical ikm /\
       with_full (f_wait_auth profile canonical ikm sid) (buffers ss e) F l t))
    (fun _ => at_r (end_with anything)).
Proof.
  unfold begin_full. apply step_vars. intros x.
  eapply triple_weaken with (P' := fun s => x_secret x = ss /\
    at_r (with_full (f_new profile) (buffers ss e) F) s).
  { intros s [[-> Hj] Ho]. split; [|by split]. by destruct Hj as [(_ & _ & (_ & _ & [Hz _] & _) & _) _]. }
  apply triple_pure. intros ->.
  eapply triple_conseq; [intros s Hs; exact Hs|apply (at_on_full _ _ (fun _ y => exists canonical ikm,
      full_inputs profile ss pk ct sid ecdh cp pp sec canonical ikm /\
      y = f_wait_auth profile canonical ikm sid)); intros z a y; apply begin_full_Ok| |].
  - intros u s [(y & (canonical & ikm & Hin & ->) & _ & Hj) Ho]. split; [|done]. by exists canonical, ikm.
  - intros x' s. apply at_implies, anything_end.
Qed.

(** READY confirmed, or the SAS answered: what FINISHED_C waits for. *)
Definition answered (g : full_terms) (confirmed : bool) (t : list observed) : Prop :=
  F0 t /\ E_ready profile g t /\ (profile = V08 -> Did (Confirm (sas_text profile g)) (Ok confirmed) ∈ t).
#[local] Instance answered_lasting g b : Lasting (answered g b).
Proof.
  intros t u (Hf & Hr & Hc). split; [by apply F0_lasting|]. split; [by apply E_ready_lasting|].
  intros Hp. apply (lasting_did _). auto.
Qed.

Abbreviation waiting g S F :=
  (with_full (f_wait_auth profile (g_canonical g) (g_ikm g) (g_sid g)) S F).

Lemma at_agree_v08 pk ct ss sid private ready :
  profile = V08 ->
  let start := full_wire profile Phase7.PHASE7_START7_AUTH (sid ++ ec_public_bytes private) in
  triple (at_r (with_full (f_new profile) (buffers ss [])
     (fun t => ((F0 t /\ delivered_to pk ct ss t) /\ wrote CHAR_CONTROL_UUID start t) /\
               full_wire profile ready.1 ready.2 ∈ heard t)))
    (agree_v08 pk ct sid private (ec_public_bytes private) ready)
    (fun confirmed => at_r (fun l t => exists g, waiting g anything (answered g confirmed) l t))
    (fun _ => at_r (end_with anything)).
Proof.
  intros Hp start. set (F := fun t => _ /\ full_wire profile ready.1 ready.2 ∈ heard t).
  assert (Lasting F) as HFL by apply _.
  unfold agree_v08. apply step_raise_when; [apply full_end|]. intros Hsub%negb_false_iff%Z.eqb_eq.
  apply step_result; [apply full_end|]. intros ecdh Hecdh.
  assert (ecdh = ec_exchange private ready.2) as ->.
  { unfold Phase7.derive_p256_ecdh_shared_secret in Hecdh. apply bind_Ok in Hecdh as (pp & [_ ->]%Phase7.load_p256_Ok & Hecdh).
    apply bind_Ok in Hecdh as ([] & _ & Hecdh). by apply Ok_inj in Hecdh. }
  eapply step_update with (J' := with_full (f_new profile) (buffers ss (ec_exchange private ready.2)) F).
  { intros h t [(Hc & Ha & (Hs & Ht & [Hz _] & Hr) & Hq) Hf]. split; [|done].
    split; [done|]. split; [done|]. split; [|done]. split; [exact Hs|]. split; [exact Ht|]. by split. }
  eapply step_at; [apply at_begin_full|done|]. intros u. apply at_ex. intros canonical. apply at_ex. intros ikm.
  apply at_pure. intros Hin.
  set (g := mkFullTerms ss pk ct sid (ec_public_bytes private) ready.2 canonical ikm).
  set (F1 := fun t => F0 t /\ E_ready profile g t).
  eapply step_update with (J' := waiting g anything F1).
  { intros h t [(Hc & Ha & (Hs & Ht & _ & Hr) & Hq) [[[Hf Hd] Hw] Hh]]. split.
    - split; [done|]. split; [done|]. split; [|done]. split; [exact Hs|]. by split.
    - split; [done|]. split; [split; [apply Hf|exact Hd]|]. unfold agreed_terms, start_frame, ready_frame.
      rewrite (proj2 (Z.eqb_eq profile V08) Hp). cbn iota. split; [by exists private|].
      split; [exact Hw|]. by rewrite <- Hsub. }
  eapply step_at; [apply (at_on_full _ _ (fun s y => s = sas_text profile g /\
      y = f_wait_auth profile canonical ikm sid)); intros z a y; by apply full_sas_Ok|apply anything_end|].
  intros sas. apply at_ex. intros y. apply at_pure. intros [-> ->].
  eapply at_weaken with (J' := waiting g anything F1); [by intros l t [_ Hj]|].
  eapply triple_conseq; [intros s Hs; exact Hs
    |apply (at_perform allowed (waiting g anything F1) (Confirm (sas_text profile g))); [apply _|]| |].
  - intros l t [_ [Hf He]]. apply Hexch; [apply Hf|]. split; [done|by exists g].
  - intros b s. apply (at_implies allowed). intros l t [[Hh [Hf He]] Hd]. exists g. split; [done|]. by split_and!.
  - intros x s. apply at_implies, full_end.
Qed.

Lemma at_agree_v11 pk ct ss sid canonical ikm ready :
  profile = V11 ->
  full_inputs profile ss pk ct sid None None None (Some sec_info_v11) canonical ikm ->
  let start := full_wire profile V1Smp.V1_START_CP3 sid in
  triple (at_r (fun l t => ~ dead (rl_session l) /\
     with_full (f_wait_auth profile canonical ikm sid) (buffers ss [])
     (fun t => ((F0 t /\ delivered_to pk ct ss t) /\ wrote CHAR_CONTROL_UUID start t) /\
               full_wire profile ready.1 ready.2 ∈ heard t) l t))
    (agree_v11 ready)
    (fun confirmed => at_r (fun l t => exists g, waiting g anything (answered g confirmed) l t))
    (fun _ => at_r (end_with anything)).
Proof.
  intros Hp Hin start. set (F := fun t => _ /\ full_wire profile ready.1 ready.2 ∈ heard t).
  set (g := mkFullTerms ss pk ct sid [] ready.2 canonical ikm).
  unfold agree_v11. apply step_own_local. intros l0.
  pose proof (full_end (f_wait_auth profile canonical ikm sid) (buffers ss []) F) as HJ.
  set (J := with_full _ _ F) in *.
  assert (implies (fun l t => l0 = l /\ ~ dead (rl_session l) /\ J l t) (end_with anything)) as HJ0
    by (intros l t (_ & _ & Hj); by apply HJ).
  destruct (rl_session l0) as [[c|h]|] eqn:Hl0; [by apply at_raise| |by apply at_raise].
  apply step_raise_when; [done|]. intros [Hsub Hth]%orb_false_iff.
  apply negb_false_iff in Hsub, Hth. apply Z.eqb_eq in Hsub. apply bool_decide_eq_true in Hth.
  apply triple_ret. intros st [(-> & Hlive & [(Hc & Ha & (Hs & Ht & _ & Hr) & Hq) Hf]) Ho]. split; [|done]. exists g.
  destruct Hc as [Hc|Hc]; [|done]. unfold is_session in Hc. rewrite Hl0 in Hc. injection Hc as ->.
  destruct Hf as [[[Hf Hd] Hw] Hh]. split.
  - split; [by left|]. split; [done|]. split; [|done]. split; [exact Hs|]. by split.
  - split; [done|]. split; [|by rewrite Hp]. split; [split; [apply Hf|exact Hd]|].
    unfold agreed_terms, start_frame, ready_frame.
    rewrite (proj2 (Z.eqb_neq profile V08)) by (by rewrite Hp). cbn iota.
    split; [split; [done|]; by split|]. cbn [g g_sid g_public g_ready]. rewrite app_nil_r.
    split; [exact Hw|]. by rewrite <- Hsub.
Qed.

(** The keys of the full handshake; the IV bases matter under v1.1 only. *)
Definition base_iv (key sid : bytes) (dir : Z) : bytes :=
  match derive_iv_base key sid dir V11 with Ok v => v | Err _ => [] end.
Definition keys_agreed (g : full_terms) : traffic_keys :=
  let c := r_app_c2p profile (g_canonical g) (g_ikm g) in
  let p := r_app_p2c profile (g_canonical g) (g_ikm g) in
  mkTrafficKeys (g_sid g) c p (base_iv c (g_sid g) APP_C2P) (base_iv p (g_sid g) APP_P2C).

Lemma base_iv_Ok key sid dir :
  blen key = 32 -> blen sid = 16 -> dir = APP_C2P \/ dir = APP_P2C ->
  derive_iv_base key sid dir V11 = Ok (base_iv key sid dir).
Proof.
  intros Hk Hs Hd. unfold base_iv. destruct (derive_iv_base key sid dir V11) as [v|x] eqn:He; [done|].
  exfalso. revert He. unfold derive_iv_base, _direction. rewrite Hk, Hs.
  assert (forall s, _profile_label V11 s = Ok (ref_label V11 s)) as Hl.
  { intros s. apply profile_label_Ok. split; [by right; right|done]. }
  destruct Hd as [-> | ->]; cbn [negb orb Z.eqb Pos.eqb APP_C2P APP_P2C raise_if mbind result_bind].
  all: by rewrite Hl.
Qed.

Lemma agreed_opens g peer' now :
  agreed_terms profile g ->
  let x := SFull (f_secure profile (g_canonical g) (g_ikm g) (g_sid g) peer' now) in
  open_with profile (keys_agreed g) x /\ (profile = V11 -> ivs_of x (keys_agreed g)).
Proof.
  intros Hg x. assert (blen (g_sid g) = 16) as Hs.
  { unfold agreed_terms in Hg. destruct (profile =? V08).
    - by destruct Hg as (private & _ & _ & Hs & _).
    - by destruct Hg as (_ & _ & _ & Hs & _). }
  split; [by split_and!|]. intros Hp. exists None. split; [done|].
  unfold keys_agreed. cbn [kd_c2p kd_p2c kd_sid kd_iv_c2p kd_iv_p2c].
  assert (forall canonical ikm, blen (r_app_c2p profile canonical ikm) = 32 /\
    blen (r_app_p2c profile canonical ikm) = 32) as Hk.
  { intros canonical ikm. unfold r_app_c2p, r_app_p2c. destruct (profile =? V08); split; apply blen_hmac_sha256. }
  destruct (Hk (g_canonical g) (g_ikm g)) as [H1' H2'].
  split; apply base_iv_Ok; try assumption; [by left|by right].
Qed.

Abbreviation opened k S F :=
  (along (holds true (app_at profile k 0 0) (vars some_ticket S)) F).

Lemma opened_end k S F : implies (opened k S F) (end_with anything).
Proof. apply holds_end; [left; apply app_at_linked|done]. Qed.

Lemma agreed_full_keys g t : agreed_terms profile g -> E_finished profile g t -> full_keys profile (keys_agreed g) t.
Proof.
  intros Hg Hf. exists g. split; [done|]. do 3 (split; [done|]). intros Hp.
  destruct (agreed_opens g EmptyString 0 Hg) as [_ Hi]. destruct (Hi Hp) as (ivs & Hs & Hk).
  cbn in Hs. injection Hs as <-. exact Hk.
Qed.

(** The ticket of the new session, in place of the old one. *)
Lemma step_replace_ticket {B} g peer' now F Q (k : coroutine B) :
  (forall t, F t -> E_finished profile g t) ->
  let x := SFull (f_secure profile (g_canonical g) (g_ikm g) (g_sid g) peer' now) in
  triple (at_r (along (holds false (is_session x)
       (vars (this_ticket (r_ticket profile (g_canonical g) (g_ikm g) peer' now)) anything)) F)) k Q
    (fun _ => at_r (end_with anything)) ->
  triple (at_r (fun l t => rl_session l = Some x /\ along (holds false (is_session x) (vars some_ticket anything)) F l t))
    (update_vars (fun x => set_ticket (Ticket_clear <$> x_ticket x) x);;
     l ← get_local;
     update_vars (set_ticket (rl_session l ≫= session_ticket));;
     save_ticket file_size;; k) Q
    (fun _ => at_r (end_with anything)).
Proof.
  intros HF x Hk. set (tk := r_ticket profile (g_canonical g) (g_ikm g) peer' now) in *.
  set (J := fun T => along (holds false (is_session x) (vars T anything)) F).
  assert (forall T, implies (J T) (end_with anything)) as HJ.
  { intros T. apply holds_end; [left; apply is_session_linked|done]. }
  apply step_update with (J' := fun l t => rl_session l = Some x /\ J any_ticket l t).
  { intros h t [Hx [(Hc & Ha & (Hs & Ht & Hz & Hr) & Hq) Hf]]. split; [exact Hx|]. split; [|done]. by split_and!. }
  apply step_own_local. intros l0.
  apply step_update with (J' := J (this_ticket tk)).
  { intros h t (-> & Hx & [(Hc & Ha & (Hs & Ht & Hz & Hr) & Hq) Hf]). rewrite Hx.
    split; [|done]. by split_and!. }
  eapply step_at; [apply at_save_ticket; [done|]|done|by intros u].
  intros t Hf%HF. split; [done|]. intros _. right. by exists g, peer', now.
Qed.

Lemma at_finish_full confirmed :
  triple (at_r (fun l t => exists g, waiting g anything (answered g confirmed) l t))
    (finish_full file_size profile peer confirmed)
    (fun _ => at_r (fun l t => exists k, opened k anything (fun t => F0 t /\ full_keys profile k t) l t))
    (fun _ => at_r (end_with anything)).
Proof.
  unfold finish_full. apply at_ex. intros g.
  eapply step_at; [apply (at_on_full _ _ (fun w y => confirmed = true /\
      w = r_finished_c profile (g_canonical g) (g_ikm g) /\
      y = f_wait_finished profile (g_canonical g) (g_ikm g) (g_sid g))); intros z a y; by apply finish_c_Ok|done|].
  intros w. apply at_ex. intros y. apply at_pure. intros (-> & -> & ->).
  set (S1 := is_session (SFull (f_wait_finished profile (g_canonical g) (g_ikm g) (g_sid g)))).
  set (F1 := fun t => F0 t /\ E_confirmed profile g t).
  eapply at_weaken with (J' := along (holds false S1 (vars some_ticket anything)) F1).
  { intros l t [_ [Hh (Hf & He & Hd)]]. split; [done|]. by split. }
  assert (forall F, implies (along (holds false S1 (vars some_ticket anything)) F) (end_with anything)) as HJ.
  { intros F. apply holds_end; [left; apply is_session_linked|done]. }
  eapply step_at; [apply at_send; [apply _|apply _|]|apply HJ|].
  { intros t [Hf He]. split; [apply Hf|]. do 4 right. by exists g. }
  intros u. eapply step_at; [apply at_receive_reply; apply _|apply HJ|]. intros reply.
  apply (step_ask _ _ _ _ Now). intros now.
  eapply step_at; [apply (at_on_full _ _ (fun _ y => reply = r_finished_p profile (g_canonical g) (g_ikm g) /\
      y = f_secure profile (g_canonical g) (g_ikm g) (g_sid g) peer now)); intros z a y; by apply finish_p_Ok|done|].
  intros v. apply at_ex. intros y. apply at_pure. intros [-> ->].
  set (x := SFull (f_secure profile (g_canonical g) (g_ikm g) (g_sid g) peer now)).
  set (F2 := fun t => F0 t /\ E_finished profile g t).
  eapply at_weaken with (J' := fun l t => rl_session l = Some x /\
    along (holds false (is_session x) (vars some_ticket anything)) F2 l t).
  { intros l t [Hx [Hh [[[Hf He] Hw] Hr]]]. split; [done|]. split; [done|]. by split. }
  apply step_replace_ticket; [by intros t [_ He]|]. set (tk := r_ticket profile (g_canonical g) (g_ikm g) peer now).
  eapply triple_weaken with (P' := fun s => agreed_terms profile g /\
    at_r (along (holds false (is_session x) (vars (this_ticket tk) anything)) F2) s).
  { intros s [[Hh Hf] Ho]. split; [|by split]. by destruct Hf as [_ [[[_ [Hg _]] _] _]]. }
  apply triple_pure. intros Hg. destruct (agreed_opens g peer now Hg) as [Hopen Hivs].
  eapply triple_conseq; [intros s Hs; exact Hs
    |apply (at_new_application x (keys_agreed g) _ anything); [|exact Hopen|exact Hivs]| |done].
  { intros y t Hv. by eapply vars_at_end; [exact Hn0| |exact Hv]. }
  intros b s. apply (at_implies allowed). intros l t [(Hc & Ha & (Hs & Ht & Hr) & Hq) [Hf He]].
  exists (keys_agreed g). split; [|by split; [|apply agreed_full_keys]].
  split; [exact Hc|]. split; [done|]. split; [|done]. split; [done|]. split; [|done].
  intros tk' Hk. rewrite Ht in Hk. injection Hk as <-. split; [done|]. intros _. right. by exists g, peer, now.
Qed.

Lemma at_deliver pk ct ss S h :
  triple (at_r (with_full h S (fun t => F0 t /\ encapsulated pk ct ss t))) (write_fragmented_ciphertext ct)
    (fun _ => at_r (with_full h S (fun t => F0 t /\ delivered_to pk ct ss t)))
    (fun _ => at_r (end_with anything)).
Proof.
  set (J := with_full h S _).
  eapply triple_conseq; [intros s Hs; exact Hs|apply (at_write_ciphertext _ J ct); [apply _|]| |].
  - intros f Hf c l t [_ [[Hg _] (Hr & Hpk & coins & He)]]. apply Hexch; [done|]. left.
    split; [done|]. by exists pk, coins, ct, ss.
  - intros n s. apply (at_implies allowed). intros l t [[Hh [Hf (Hr & _ & coins & He)]] (mtu & frames & Hfr & Hw)].
    split; [done|]. split; [done|]. by exists coins, mtu, frames.
  - intros x s. apply at_implies, full_end.
Qed.

(** START may be sent. *)
Lemma start_ok g t : F0 t -> delivered_to (g_pk g) (g_ct g) (g_ss g) t -> control_ok t (start_frame profile g).
Proof. intros [_ Hl] Hd. right. right. right. left. exists g. by split; [split|]. Qed.

Lemma at_full_body :
  triple (at_r (with_full (f_new profile) (buffers [] []) F0)) (full_body file_size profile peer)
    (fun _ => at_r (fun l t => exists k, opened k anything (fun t => F0 t /\ full_keys profile k t) l t))
    (fun _ => at_r (end_with anything)).
Proof.
  unfold full_body. eapply step_at; [apply at_make_start|done|]. intros [[[[pk ct] sid] keys] start].
  apply at_ex. intros ss. apply at_pure. intros Hstart.
  eapply step_at; [apply at_deliver|done|]. intros n. set (F := fun t => F0 t /\ delivered_to pk ct ss t).
  destruct keys as [[private public]|]; cbn [start_made] in Hstart.
  - destruct Hstart as (Hp & -> & ->).
    replace (profile =? V11) with false by by rewrite Hp.
    apply step_same; [by apply triple_ret|apply full_end|]. intros u.
    eapply step_at; [apply (at_exchange_start _ _ F); [apply _|]|done|].
    { intros t [Hf Hd]. split; [apply Hf|].
      set (g := mkFullTerms ss pk ct sid (ec_public_bytes private) [] [] []).
      replace (full_wire _ _ _) with (start_frame profile g); [by apply start_ok|].
      unfold start_frame. by rewrite (proj2 (Z.eqb_eq profile V08) Hp). }
    intros ready. eapply at_weaken; [intros l t [_ Hj]; exact Hj|].
    eapply step_at; [by apply at_agree_v08|done|]. intros b. apply at_finish_full.
  - destruct Hstart as [Hp ->].
    replace (profile =? V11) with true by by rewrite Hp.
    eapply step_at with (J' := end_with anything) (R := fun _ l t => exists canonical ikm,
      full_inputs profile ss pk ct sid None None None (Some sec_info_v11) canonical ikm /\
      with_full (f_wait_auth profile canonical ikm sid) (buffers ss []) F l t); [|done|].
    { eapply step_at; [apply (at_attest_v11 _ _ _ F); [apply _|apply _|done|by intros t [[Hg _] _]]|apply full_end|].
      intros sec. apply at_pure. intros ->.
      eapply at_weaken; [|apply at_begin_full]. intros l t [Hh [Hf _]]. by split. }
    intros u. apply at_ex. intros canonical. apply at_ex. intros ikm. apply at_pure. intros Hin.
    eapply step_at; [apply (at_exchange_start _ _ F); [apply _|]|done|].
    { intros t [Hf Hd]. split; [apply Hf|].
      set (g := mkFullTerms ss pk ct sid [] [] [] []).
      replace (full_wire _ _ _) with (start_frame profile g); [by apply start_ok|].
      unfold start_frame. rewrite (proj2 (Z.eqb_neq profile V08)) by (by rewrite Hp). cbn. by rewrite app_nil_r. }
    intros ready. eapply step_at; [by apply at_agree_v11|done|]. intros b. apply at_finish_full.
Qed.

Lemma at_wipe_secrets b C T F :
  triple (at_r (along (holds b C (vars T anything)) F)) wipe_secrets
    (fun _ => at_r (along (holds b C (vars T zeroed)) F)) (fun _ => at_r (end_with zeroed)).
Proof.
  apply at_update. intros h t [(Hc & Ha & (Hs & Ht & _ & Hr) & Hq) Hf]. split; [|done].
  split; [done|]. split; [done|]. split; [|done]. split; [exact Hs|]. split; [exact Ht|]. split; [|exact Hr].
  split; cbn; by rewrite wipe_wipe.
Qed.

Lemma at_full_handshake :
  triple (at_r (before F0)) (full_handshake file_size profile peer force_full negative)
    (fun _ => at_r (fun l t => quiet_mode /\ exists k, opened k zeroed (fun t => F0 t /\ full_keys profile k t) l t))
    (fun _ => at_r (end_with zeroed)).
Proof.
  unfold full_handshake, is_negative. apply step_raise_when; [apply before_end|]. intros Hm.
  assert quiet_mode as Hquiet.
  { repeat rewrite orb_false_iff in Hm. destruct Hm as [[[H1'%bool_decide_eq_false H2'%bool_decide_eq_false]
      H3'%bool_decide_eq_false] H4'%bool_decide_eq_false]. by split_and!. }
  clear Hm. apply step_vars. intros x.
  eapply step_at with (R := fun _ => before F0) (J' := end_with zeroed); [|done|].
  { destruct (_ && _) eqn:Hb; [|apply triple_ret; intros s; apply (at_implies allowed); by intros l t [_ Hj]].
    apply andb_true_iff in Hb as [Hn%bool_decide_eq_true _].
    apply at_update. intros h t [-> [(Hc & Ha & ((Hs & Hk) & Ht & Hz & Hp & Hr & Hfb) & Hq) Hf]]. split; [|done].
    split; [done|]. split; [done|]. split; [|done].
      split; [by split|]. split; [exact Ht|]. split; [exact Hz|]. split; [exact Hp|]. split; [exact Hr|].
      intros Hfell. by apply Hfb in Hfell. }
  intros u. apply step_result; [apply before_end|]. intros h Hinit.
  assert (h = f_new profile) as ->.
  { unfold FullHandshake_init in Hinit. rewrite domain_eq in Hinit by done. cbn in Hinit.
    by apply Ok_inj in Hinit. }
  eapply step_at; [apply at_own|apply before_end|]. intros v.
  eapply step_update with (J' := with_full (f_new profile) (buffers [] []) F0).
  { intros h t [(Hc & Ha & (Hs & Ht & _ & Hr) & Hq) Hf]. split; [|done].
    split; [exact Hc|]. split; [done|]. split; [|done]. split; [exact Hs|]. split; [exact Ht|].
    split; [by split|exact Hr]. }
  eapply triple_finally with (Q' := fun _ => at_r (fun l t => exists k, opened k anything (fun t => F0 t /\ full_keys profile k t) l t))
    (E' := fun _ => at_r (end_with anything)); [apply at_full_body| |].
  - intros a. apply at_ex. intros k.
    eapply triple_conseq; [intros s Hs; exact Hs|apply at_wipe_secrets| |done].
    intros w s. apply (at_implies allowed). intros l t Hj. split; [done|by exists k].
  - intros y. apply at_update. intros h' t (Hn & (Hv & _ & Hr) & Hq). apply end_intro; [done|done| |done|done].
    split; cbn; by rewrite wipe_wipe.
Qed.

(** ** The application rounds *)

(** The variables while the application object is in use. *)
Definition playing (p : string) (n : Z) (x : resume_vars) (t : list observed) : Prop :=
  vars_at profile d0 some_ticket zeroed fell p n x t /\ r_app_secure (x_result x) = true.
#[local] Instance playing_lasting p n x : Lasting (playing p n x).
Proof. apply _. Qed.

Abbreviation in_use k tx rx p n F := (along (holds true (app_at profile k tx rx) (playing p n)) F).

Lemma in_use_end k tx rx p n F : 0 <= n -> implies (in_use k tx rx p n F) (end_with zeroed).
Proof.
  intros Hn l t [(Hs & Hb & [Hv _] & Hq) _]. split; [|split; [by eapply vars_at_end|done]].
  intros Hnone. destruct Hs as [Hs%app_at_linked|(x & Hx & _)]; congruence.
Qed.

(** Either kind of application object, at the same point. *)
Definition hybrid_at (k : traffic_keys) (tx rx : Z) (a : HybridApplication any_session) : Prop :=
  open_with profile k (ResumeHybrid.session a) /\ app_counts profile k tx rx (HybridFields (c2p a) (p2c a)).
Definition central_at (k : traffic_keys) (tx rx : Z) (a : CentralApplication any_session) : Prop :=
  open_with profile k (handshake a) /\
  app_counts profile k tx rx (CentralFields (app_profile a) (iv_c2p a) (iv_p2c a) (tx_c2p a) (rx_p2c a)).

(** An exit of a method of the application object. *)
Lemma use_end p n l t :
  0 <= n -> rl_session l <> None -> playing p n (rl_vars l) t -> queue_heard l t -> end_with zeroed l t.
Proof. intros Hn Hs [Hv _] Hq. split; [done|]. split; [by eapply vars_at_end|done]. Qed.

Lemma at_on_hybrid {A} (m : method (HybridApplication any_session) A) k tx rx tx' rx' (Phi : A -> Prop) p n F :
  0 <= n ->
  (forall a r a', m a = (Ok r, a') ->
     as_secure (ResumeHybrid.session a) = true /\ (hybrid_at k tx rx a -> Phi r /\ hybrid_at k tx' rx' a')) ->
  triple (at_r (in_use k tx rx p n F)) (on_hybrid m)
    (fun r => at_r (fun l t => Phi r /\ in_use k tx' rx' p n F l t)) (fun _ => at_r (end_with zeroed)).
Proof.
  intros Hn Hok st [[(Hc & Ha & Hv & Hq) Hf] Hob].
  unfold on_hybrid, get_local, get_own, update_local, update_own. meth. cbn.
  set (l := local (self st)) in *. assert (rl_session l <> None) as Hl.
  { destruct Hc as [Hc%app_at_linked|(s & Hs & _)]; congruence. }
  destruct (rl_app l) as [[c q|pr ivc ivp t1 r1]|] eqn:Hla.
  2, 3: split; [by eapply use_end|done].
  destruct (rl_session l) as [s|] eqn:Hls; [|done].
  destruct (m (mkHybridApplication s c q)) as [[a|e] y] eqn:Hm; cbn; (split; [|done]).
  2: by apply (use_end p n).
  destruct (Hok _ _ _ Hm) as [Hsec Hpost]. cbn [ResumeHybrid.session handshake] in Hsec. destruct Hc as [Hc|(s' & [= <-] & Hd%dead_insecure)]; [|congruence].
  destruct Hc as (x & f & [= <-] & Hopen & [= <-] & Hcount). destruct Hpost as [Hphi [Ho' Hc']]; [by split|].
  split; [done|]. split; [|done]. split; [|by split]. left. by eexists _, _.
Qed.

Lemma at_on_central {A} (m : method (CentralApplication any_session) A) k tx rx tx' rx' (Phi : A -> Prop) p n F :
  0 <= n ->
  (forall a r a', m a = (Ok r, a') ->
     as_secure (handshake a) = true /\ (central_at k tx rx a -> Phi r /\ central_at k tx' rx' a')) ->
  triple (at_r (in_use k tx rx p n F)) (on_central m)
    (fun r => at_r (fun l t => Phi r /\ in_use k tx' rx' p n F l t)) (fun _ => at_r (end_with zeroed)).
Proof.
  intros Hn Hok st [[(Hc & Ha & Hv & Hq) Hf] Hob].
  unfold on_central, get_local, get_own, update_local, update_own. meth. cbn.
  set (l := local (self st)) in *. assert (rl_session l <> None) as Hl.
  { destruct Hc as [Hc%app_at_linked|(s & Hs & _)]; congruence. }
  destruct (rl_app l) as [[c q|pr ivc ivp t1 r1]|] eqn:Hla.
  1, 3: split; [by eapply use_end|done].
  destruct (rl_session l) as [s|] eqn:Hls; [|done].
  destruct (m (mkCentralApplication s pr ivc ivp t1 r1)) as [[a|e] y] eqn:Hm; cbn; (split; [|done]).
  2: by apply (use_end p n).
  destruct (Hok _ _ _ Hm) as [Hsec Hpost]. cbn [ResumeHybrid.session handshake] in Hsec. destruct Hc as [Hc|(s' & [= <-] & Hd%dead_insecure)]; [|congruence].
  destruct Hc as (x & f & [= <-] & Hopen & [= <-] & Hcount). destruct Hpost as [Hphi [Ho' Hc']]; [by split|].
  split; [done|]. split; [|done]. split; [|by split]. left. by eexists _, _.
Qed.

Lemma hybrid_ping_at k i mtu iv rx a w a' :
  profile = V08 -> hybrid_encrypt_ping i mtu iv a = (Ok w, a') ->
  as_secure (ResumeHybrid.session a) = true /\
  (hybrid_at k i rx a -> ping_wire profile k i CHAR_DATA_UUID (ping_text i) w /\ hybrid_at k (i + 1) rx a').
Proof.
  intros Hp (Hs & c & q & Hac & Haq & He & ->)%hybrid_ping_ok. split; [done|].
  intros [Hopen Hcount]. unfold hybrid_at, app_counts, ping_wire in *.
  rewrite (proj2 (Z.eqb_eq profile V08) Hp) in *. rewrite Hac, Haq in Hcount.
  destruct Hcount as (c0 & q0 & [= <- <-] & (Hk1 & Hk2 & Hk3 & Hk4) & Hk). rewrite Hk1, Hk2, Hk3, Hk4 in He.
  split; [done|]. split; [done|]. exists (after_send c), q. split; [done|]. split; [|done].
  cbn. by rewrite Hk4.
Qed.

Lemma hybrid_pong_at k i mtu tx raw a u a' :
  profile = V08 -> hybrid_accept_pong raw i mtu a = (Ok u, a') ->
  as_secure (ResumeHybrid.session a) = true /\
  (hybrid_at k tx i a -> pong_wire profile k i (ping_text i) raw /\ hybrid_at k tx (i + 1) a').
Proof.
  intros Hp (Hs & c & q & Hac & Haq & He & ->)%hybrid_pong_ok. split; [done|].
  intros [Hopen Hcount]. unfold hybrid_at, app_counts, pong_wire in *.
  rewrite (proj2 (Z.eqb_eq profile V08) Hp) in *. rewrite Hac, Haq in Hcount.
  destruct Hcount as (c0 & q0 & [= <- <-] & Hk & (Hk1 & Hk2 & Hk3)). rewrite Hk1, Hk2, Hk3 in He.
  split; [exact He|]. split; [done|]. by exists c, (after_recv i q).
Qed.

Lemma central_ping_at k i mtu challenge rx a w a' :
  profile = V11 -> encrypt_ping challenge mtu a = (Ok w, a') ->
  as_secure (handshake a) = true /\
  (central_at k i rx a -> ping_wire profile k i CHAR_CONTROL_UUID challenge w /\ central_at k (i + 1) rx a').
Proof.
  intros Hp (Hs & _ & _ & _ & He & ->)%encrypt_ping_ok. split; [done|].
  intros [(Ho1 & Ho2 & Ho3 & Ho4 & Ho5 & Ho6) Hcount]. unfold central_at, app_counts, ping_wire in *.
  rewrite (proj2 (Z.eqb_neq profile V08)) in * by (by rewrite Hp). cbn in *.
  injection Hcount as Hc1 Hc2 Hc3 Hc4 Hc5. rewrite Ho4, Ho5, Hc1, Hc2, Hc4 in He.
  split; [done|]. split; [done|]. by rewrite Hc1, Hc2, Hc3, Hc4, Hc5.
Qed.

Lemma central_pong_at k i mtu challenge tx raw a u a' :
  profile = V11 -> accept_pong raw challenge mtu a = (Ok u, a') ->
  as_secure (handshake a) = true /\
  (central_at k tx i a -> pong_wire profile k i challenge raw /\ central_at k tx (i + 1) a').
Proof.
  intros Hp (Hs & _ & He & ->)%accept_pong_ok. split; [done|].
  intros [(Ho1 & Ho2 & Ho3 & Ho4 & Ho5 & Ho6) Hcount]. unfold central_at, app_counts, pong_wire in *.
  rewrite (proj2 (Z.eqb_neq profile V08)) in * by (by rewrite Hp). cbn in *.
  injection Hcount as Hc1 Hc2 Hc3 Hc4 Hc5. rewrite Ho4, Ho6, Hc1, Hc3, Hc5 in He.
  split; [done|]. split; [done|]. by rewrite Hc1, Hc2, Hc3, Hc4, Hc5.
Qed.

(** [i] rounds were made with these keys. *)
Definition rounds_made (Fk : list observed -> Prop) (k : traffic_keys) (i : Z) (t : list observed) : Prop :=
  (G t /\ agreed_keys profile d0 k t /\ Fk t) /\ traffic profile k i t.
#[local] Instance rounds_made_lasting Fk k i : Lasting Fk -> Lasting (rounds_made Fk k i).
Proof. intros HF. apply _. Qed.

Lemma app_traffic_next k i u challenge d raw t :
  0 <= i -> traffic profile k i t -> ping_wire profile k i u challenge d -> wrote u d t ->
  pong_wire profile k i challenge raw -> raw ∈ heard t -> traffic profile k (i + 1) t.
Proof.
  intros Hi Ht Hp Hw Hq Hh j Hj. destruct (decide (j = i)) as [->|Hne]; [by exists u, challenge, d, raw|].
  apply Ht. lia.
Qed.

(** After the PING, and after the PONG. *)
Definition pinged Fk k i u challenge (t : list observed) : Prop :=
  rounds_made Fk k i t /\ exists d, ping_wire profile k i u challenge d /\ wrote u d t.
#[local] Instance pinged_lasting Fk k i u c : Lasting Fk -> Lasting (pinged Fk k i u c).
Proof.
  intros HF t v [Hr (d & Hd & Hw)]. split; [by apply (rounds_made_lasting _ _ _ HF)|].
  exists d. split; [done|by apply wrote_lasting].
Qed.

Definition ponged Fk k i u challenge raw (t : list observed) : Prop :=
  pinged Fk k i u challenge t /\ raw ∈ heard t.
#[local] Instance ponged_lasting Fk k i u c raw : Lasting Fk -> Lasting (ponged Fk k i u c raw).
Proof. intros HF. apply _. Qed.

Lemma ponged_next Fk k i u challenge raw t :
  0 <= i -> ponged Fk k i u challenge raw t -> pong_wire profile k i challenge raw -> rounds_made Fk k (i + 1) t.
Proof.
  intros Hi [[[Hf Ht] (d & Hd & Hw)] Hh] Hp. split; [done|]. by eapply app_traffic_next.
Qed.

(** The PING may be sent. *)
Lemma ping_allowed Fk k i u challenge d c t :
  0 <= i < round_count profile -> rounds_made Fk k i t -> ping_wire profile k i u challenge d ->
  allowed t (WriteGatt c u d).
Proof. intros Hi [(Hg & Hk & _) _] Hp. apply Hexch; [done|]. right. right. by exists k, i, challenge. Qed.

Lemma at_count Fk k i p :
  triple (at_r (in_use k (i + 1) (i + 1) p (n0 + i) (rounds_made Fk k (i + 1)))) (update_vars (on_result add_round))
    (fun _ => at_r (in_use k (i + 1) (i + 1) p (n0 + (i + 1)) (rounds_made Fk k (i + 1))))
    (fun _ => at_r (end_with zeroed)).
Proof.
  apply at_update. intros h t [(Hc & Ha & [(Hs & Ht & Hz & Hp & Hn & Hfb) Hsec] & Hq) Hf]. split; [|done].
  split; [done|]. split; [done|]. split; [|done]. split; [|done]. split; [exact Hs|]. split; [exact Ht|].
  split; [exact Hz|]. split; [done|]. split; [|exact Hfb]. cbn. rewrite Hn. lia.
Qed.

Lemma at_app_round Fk k i p :
  Lasting Fk -> 0 <= i < round_count profile ->
  triple (at_r (in_use k i i p (n0 + i) (rounds_made Fk k i))) (round profile i)
    (fun _ => at_r (in_use k (i + 1) (i + 1) p (n0 + (i + 1)) (rounds_made Fk k (i + 1))))
    (fun _ => at_r (end_with zeroed)).
Proof.
  intros HF Hi. assert (0 <= n0 + i) as Hn by lia.
  assert (forall tx rx F, implies (in_use k tx rx p (n0 + i) F) (end_with zeroed)) as HJ.
  { intros tx rx F. by apply in_use_end. }
  unfold round. apply step_same; [apply at_require_link|apply HJ|]. intros u.
  eapply step_at with (J' := end_with zeroed)
    (R := fun _ => in_use k (i + 1) (i + 1) p (n0 + i) (rounds_made Fk k (i + 1))); [|done|intros w; apply at_count].
  destruct (Z.eqb_spec profile V08) as [Hp|Hp].
  - apply step_mtu. intros mtu. apply (step_ask _ _ _ _ (Urandom GCM_IV_SIZE)). intros iv.
    eapply step_at; [apply (at_on_hybrid _ k i i (i + 1) i
      (fun w => ping_wire profile k i CHAR_DATA_UUID (ping_text i) w)); [done|];
      intros a w a'; by apply hybrid_ping_at|done|].
    intros wire. apply at_pure. intros Hw. set (J := in_use k (i + 1) i p (n0 + i) (rounds_made Fk k i)).
    eapply step_at; [apply (at_write_secure_data _ J); [apply _|]|apply HJ|].
    { intros c l t [_ Hf]. by eapply ping_allowed. }
    intros v. eapply at_weaken with (J' := in_use k (i + 1) i p (n0 + i) (pinged Fk k i CHAR_DATA_UUID (ping_text i))).
    { intros l t [[Hh Hf] Hwr]. split; [done|]. split; [done|]. by exists wire. }
    eapply step_at; [apply at_receive_reply; apply _|apply HJ|]. intros raw. apply step_mtu. intros mtu'.
    eapply triple_conseq; [intros s Hs; exact Hs
      |apply (at_on_hybrid _ k (i + 1) i (i + 1) (i + 1) (fun _ => pong_wire profile k i (ping_text i) raw)); [done|];
       intros a w a'; by apply hybrid_pong_at| |done].
    intros w s. apply at_implies. intros l t [Hpong [Hh Hf]]. split; [done|]. by eapply ponged_next; [lia| |].
  - assert (profile = V11) as Hp' by by destruct Hprofile.
    apply (step_ask _ _ _ _ (Urandom 16)). intros challenge. apply step_mtu. intros mtu.
    eapply step_at; [apply (at_on_central _ k i i (i + 1) i
      (fun w => ping_wire profile k i CHAR_CONTROL_UUID challenge w)); [done|];
      intros a w a'; by apply central_ping_at|done|].
    intros wire. apply at_pure. intros Hw. set (J := in_use k (i + 1) i p (n0 + i) (rounds_made Fk k i)).
    eapply step_at; [apply (at_send_control _ J); [apply _|]|apply HJ|].
    { intros c l t [_ Hf]. by eapply ping_allowed. }
    intros v. eapply at_weaken with (J' := in_use k (i + 1) i p (n0 + i) (pinged Fk k i CHAR_CONTROL_UUID challenge)).
    { intros l t [[Hh Hf] Hwr]. split; [done|]. split; [done|]. by exists wire. }
    eapply step_at; [apply at_receive_reply; apply _|apply HJ|]. intros raw. apply step_mtu. intros mtu'.
    eapply triple_conseq; [intros s Hs; exact Hs
      |apply (at_on_central _ k (i + 1) i (i + 1) (i + 1) (fun _ => pong_wire profile k i challenge raw)); [done|];
       intros a w a'; by apply central_pong_at| |done].
    intros w s. apply at_implies. intros l t [Hpong [Hh Hf]]. split; [done|]. by eapply ponged_next; [lia| |].
Qed.

Lemma at_application_rounds Fk k p :
  Lasting Fk -> (forall t, Fk t -> G t /\ agreed_keys profile d0 k t) ->
  triple (at_r (along (holds true (app_at profile k 0 0) (vars_at profile d0 some_ticket zeroed fell p n0)) Fk))
    (application_rounds profile)
    (fun _ => at_r (in_use k (round_count profile) (round_count profile) p (n0 + round_count profile)
                      (rounds_made Fk k (round_count profile))))
    (fun _ => at_r (end_with zeroed)).
Proof.
  intros HF Hk. unfold application_rounds.
  eapply step_update with (J' := in_use k 0 0 p (n0 + 0) (rounds_made Fk k 0)).
  { intros h t [(Hc & Ha & (Hs & Ht & Hz & Hp & Hn & Hfb) & Hq) Hf]. split.
    - split; [done|]. split; [done|]. split; [|done]. split; [|done]. split; [exact Hs|]. split; [exact Ht|].
      split; [exact Hz|]. split; [exact Hp|]. split; [cbn; lia|exact Hfb].
    - destruct (Hk t Hf). split; [done|]. intros i Hi. lia. }
  apply step_update with (J' := in_use k 0 0 p (n0 + 0) (rounds_made Fk k 0)); [by intros h t Hj|].
  set (N := round_count profile). set (Post := in_use k N N p (n0 + N) (rounds_made Fk k N)).
  assert (0 <= N) as HN by (unfold N, round_count; by destruct (profile =? V08)).
  eapply step_at with (R := fun _ => Post) (J' := end_with zeroed); [|done|].
  { unfold Post, N, round_count. pose proof (fun i => at_app_round Fk k i p HF) as Hr. unfold round_count in Hr.
    destruct (profile =? V08); cbn [for_each].
    - eapply step_at; [apply (Hr 0); lia|done|]. intros u1. eapply step_at; [apply (Hr 1); lia|done|]. intros u2.
      eapply step_at; [apply (Hr 2); lia|done|]. intros u3. by apply triple_ret.
    - eapply step_at; [apply (Hr 0); lia|done|]. intros u1. eapply step_at; [apply (Hr 1); lia|done|]. intros u2.
      by apply triple_ret. }
  intros u. apply step_own_local. intros l. eapply at_weaken with (J' := Post); [by intros l' t [_ Hj]|].
  apply triple_raise_when; [|done]. intros _ s. apply at_implies. apply in_use_end. lia.
Qed.

(** ** The whole exchange *)

(** What an exchange that returns has to show. *)
Definition exchange_report (r : Result) (t : list observed) : Prop :=
  r_app_secure r = true /\ rounds r = n0 + round_count profile /\ (fell = true -> fallback_reason r <> None) /\
  exists k, traffic profile k (round_count profile) t /\
    (r_path r = "resume"%string /\ resumed_keys profile d0 k t \/ r_path r = path0 /\ full_keys profile k t).
#[export] Instance exchange_report_lasting r : Lasting (exchange_report r).
Proof.
  intros t u (H1' & H2' & H3' & k & Ht & Hk). do 3 (split; [done|]). exists k.
  split; [by apply traffic_lasting|]. destruct Hk as [[Hp Hk]|[Hp Hk]]; [left|right]; split; try done.
  - by apply resumed_keys_lasting.
  - by apply full_keys_lasting.
Qed.

(** The result [r] of an exchange, and the variables when its body is done. *)
Definition reported (res r : Result) (t : list observed) : Prop :=
  r = res /\ G t /\ quiet_mode /\ exchange_report res t.
#[export] Instance reported_lasting res r : Lasting (reported res r).
Proof. apply _. Qed.

Lemma in_use_report k p Fk :
  (forall t, Fk t -> G t /\ quiet_mode /\
     (p = "resume"%string /\ resumed_keys profile d0 k t \/ p = path0 /\ full_keys profile k t)) ->
  let N := round_count profile in
  implies (in_use k N N p (n0 + N) (rounds_made Fk k N))
    (fun l t => reported (x_result (rl_vars l)) (x_result (rl_vars l)) t /\ end_with zeroed l t).
Proof.
  intros HF N l t Hj. split.
  - destruct Hj as [(_ & _ & [(_ & _ & _ & Hp & Hn & Hfb) Hsec] & _) [(Hg & _ & Hk) Ht]].
    apply HF in Hk as (_ & Hq & Hk). split; [done|]. split; [done|]. split; [done|]. split; [done|].
    split; [done|]. split; [done|]. exists k. split; [done|]. by rewrite Hp.
  - eapply in_use_end; [|exact Hj]. unfold N, round_count. destruct (profile =? V08); lia.
Qed.

Lemma at_play k p Fk :
  Lasting Fk ->
  (forall t, Fk t -> G t /\ quiet_mode /\
     (p = "resume"%string /\ resumed_keys profile d0 k t \/ p = path0 /\ full_keys profile k t)) ->
  triple (at_r (along (holds true (app_at profile k 0 0) (vars_at profile d0 some_ticket zeroed fell p n0)) Fk))
    (application_rounds profile;; x ← get_vars; mret (x_result x))
    (fun res => at_r (fun l t => reported res (x_result (rl_vars l)) t /\ end_with zeroed l t))
    (fun _ => at_r (end_with zeroed)).
Proof.
  intros HL HF. eapply step_at; [apply (at_application_rounds Fk k p HL)|done|].
  { intros t Hf. destruct (HF t Hf) as (Hg & _ & [[_ Hk]|[_ Hk]]); (split; [done|]); [by left|by right]. }
  intros u. apply step_vars. intros x. apply triple_ret. intros s. apply (at_implies allowed).
  intros l t [-> Hj]. by eapply in_use_report.
Qed.

Definition resumed_at k (t : list observed) : Prop := F0 t /\ resumed_keys profile d0 k t.
#[local] Instance resumed_at_lasting k : Lasting (resumed_at k).
Proof. apply _. Qed.

Lemma at_exchange_body :
  triple (at_r (before G)) (exchange_body file_size profile peer allow_resume force_full negative replay_finish)
    (fun res => at_r (fun l t => reported res (x_result (rl_vars l)) t /\ end_with zeroed l t))
    (fun _ => at_r (end_with zeroed)).
Proof.
  unfold exchange_body. eapply step_at; [apply at_obtain_ticket|done|]. intros u. apply step_vars. intros x.
  eapply at_weaken with (J' := before F0); [by intros l t [_ Hj]|].
  eapply step_at with (R := fun _ => after_resume) (J' := end_with zeroed); [|done|].
  { destruct (_ && _); [apply at_try_resume|]. apply triple_ret. intros s. apply (at_implies allowed). by left. }
  intros v. apply step_own_local. intros l0.
  destruct (bool_decide_reflect (rl_app l0 = None)) as [Ha|Ha].
  - eapply at_weaken with (J' := before F0).
    { intros l t [-> [Hj|(_ & k & [(_ & Hb & _) _])]]; [done|]. exfalso. by rewrite Ha in Hb. }
    eapply step_at; [apply at_full_handshake|done|]. intros w. apply at_pure. intros Hq. apply at_ex. intros k.
    apply (at_play k path0); [apply _|]. intros t [[Hg _] Hk]. split; [done|]. split; [done|]. by right.
  - eapply at_weaken with (J' := fun l t => quiet_mode /\ exists k, opened_at "resume"%string k (resumed_at k) l t).
    { intros l t [-> [[(_ & Hb & _) _]|Hj]]; [|exact Hj]. exfalso. destruct (rl_app l); [discriminate Hb|done]. }
    apply at_pure. intros Hq. apply at_ex. intros k.
    eapply step_at with (R := fun _ => opened_at "resume"%string k (resumed_at k)) (J' := opened_at "resume"%string k (resumed_at k));
      [by apply triple_ret| |].
    { intros l t [(Hs & _ & Hv & Hqu) _]. split; [|split; [by eapply vars_at_end|done]].
      intros Hn. destruct Hs as [Hs%app_at_linked|(y & Hy & _)]; congruence. }
    intros w. apply (at_play k "resume"); [apply _|].
    intros t [[Hg _] Hk]. split; [done|]. split; [done|]. by left.
Qed.

Lemma at_leave_exchange Phi :
  (forall r, Lasting (Phi r)) ->
  triple (at_r (fun l t => Phi (x_result (rl_vars l)) t /\ end_with zeroed l t)) leave_exchange
    (fun _ => at_r (wiped profile d0 Phi)) (fun _ => at_r (wiped profile d0 Phi)).
Proof.
  intros HP. unfold leave_exchange.
  set (V := fun l t => vars_end profile d0 zeroed (rl_vars l) t /\ Phi (x_result (rl_vars l)) t).
  apply step_update with (J' := fun l t => wiped_app (rl_app l) /\ V l t).
  { intros h t [Hp (Hn & Hv & _)]. split; [by apply wiped_app_clear|].
    destruct (app_clear_rest (local h)) as (_ & _ & _ & _ & He). unfold V. cbn. by rewrite He. }
  apply step_update with (J' := fun l t => (wiped_session (rl_session l) /\ wiped_app (rl_app l)) /\ V l t).
  { intros h t [Ha Hv]. split; [|done]. split; [apply wiped_session_clear|done]. }
  apply step_update with (J' := wiped profile d0 Phi).
  { intros h t [[Hs Ha] Hv]. unfold on_local, ticket_clear. cbn [local].
    destruct (x_ticket (rl_vars (local h))) as [tk|] eqn:Htk.
    - split; [|exact Hv]. split; [by apply wiped_set_ticket|]. split; [done|]. cbn. unfold Ticket_clear. cbn.
      by rewrite wipe_wipe.
    - split; [|exact Hv]. rewrite Htk. by split_and!. }
  apply (at_stop_notify _ (wiped profile d0 Phi)); [apply _|]. intros c l t _. by apply Hfree.
Qed.

(** One call of [_exchange], from cleared objects. *)
Lemma at_resume_exchange :
  triple (at_r (wiped profile d0 (fun r t => G t /\ result_at fell path0 n0 r)))
    (_exchange file_size profile peer allow_resume force_full negative replay_finish)
    (fun res => at_r (wiped profile d0 (reported res)))
    (fun _ => at_r (wiped profile d0 no_report)).
Proof.
  unfold _exchange, begin_exchange. eapply triple_bind with (R := fun _ => at_r (before G)).
  - apply step_raw_client. intros snapshot.
    apply step_update with (J' := before G).
    { intros h t (_ & (Hs & Hz & _) & Hg & Hr). split; [|done]. split; [by left|]. split; [done|].
      split; [|by intros b Hb%elem_of_nil]. split; [exact Hs|]. split; [by intros tk [=]|]. by split. }
    by apply at_update.
  - intros u. eapply triple_finally with
      (Q' := fun res => at_r (fun l t => reported res (x_result (rl_vars l)) t /\ end_with zeroed l t))
      (E' := fun _ => at_r (end_with zeroed)); [apply at_exchange_body| |].
    + intros res. eapply triple_conseq; [intros s Hs; exact Hs|apply (at_leave_exchange (reported res)), _|done|].
      intros x s. apply at_implies. by apply wiped_implies.
    + intros x. eapply at_weaken; [|apply (at_leave_exchange no_report), _]. by intros l t Hj.
Qed.
End Exchange.

(** * A run *)

Section Session.
Context {W : Type} `{Env W, Kem, KdfLaws, Aead, P256}.
Variables (file_size : Ticket -> Z) (profile : Z) (d0 : dict ticket_file).
Hypothesis Hprofile : valid_profile profile.
Variables (force_full : bool) (negative : option string) (replay_finish : option bytes).

(** The test modes: a corrupted INIT; an old FINISH_C, the one given or one that
    this run sent before. *)
Definition tampered_mode : Prop := negative = Some "init-mac"%string.
Definition replayed_frame (d : bytes) (t : list observed) : Prop :=
  replay_finish = Some d \/ negative = Some "replay-finish"%string /\ wrote CHAR_CONTROL_UUID d t.

Definition session_exchange : list observed -> action -> Prop :=
  exchange_policy profile d0 tampered_mode replayed_frame.

(** "pre-l4": one INIT of zeros, to a peripheral that is not paired. *)
Definition pre_l4_policy (t : list observed) (a : action) : Prop :=
  match a with
  | InspectPairing => profile = V11
  | WriteGatt _ u d =>
      u = CHAR_CONTROL_UUID /\ d = resume_wire V11 INIT (zeros 96) /\
      exists state, Did InspectPairing (Ok state) ∈ t /\ is_paired state = false
  | _ => False
  end.

(** Under v1.1 the exchange is behind the gate of [_run_v1]. *)
Definition runner_policy : list observed -> action -> Prop :=
  if bool_decide (negative = Some "pre-l4"%string) then pre_l4_policy
  else if profile =? V08 then fun t a => free_request a \/ session_exchange t a
  else v1_policy None false session_exchange.

(** What a run that returns a result has to show. *)
Definition run_report (r : Result) (t : list observed) : Prop :=
  (profile = V11 -> gate None t) /\ r_app_secure r = true /\
  exists k, traffic profile k (round_count profile) t /\
    ((r_path r = "resume"%string /\ resumed_keys profile d0 k t \/
      (r_path r = "full"%string \/ fallback_reason r <> None) /\ full_keys profile k t)) /\
    (fallback_reason r = None -> rounds r = round_count profile) /\ round_count profile <= rounds r.

Abbreviation at_s := (at_ (W := W) runner_policy).
Abbreviation rest := (wiped profile d0).
Abbreviation coroutine := (method (io W (host resume_locals))).
Implicit Types J : resume_locals -> list observed -> Prop.

(** The replayed frame, if any, is a legitimate one. *)
Definition replay_ok (rf : option bytes) (t : list observed) : Prop :=
  forall d, rf = Some d -> replayed_frame d t.
#[local] Instance replay_ok_lasting rf : Lasting (replay_ok rf).
Proof. intros t u Hr d Hd. destruct (Hr d Hd) as [Ho|[Hn Hw]]; [by left|right]. split; [done|by apply wrote_lasting]. Qed.

(** The start and the end of an attempt. *)
Definition ready_for (fell : bool) (p : string) (n : Z) (rf : option bytes) (r : Result) (t : list observed) : Prop :=
  replay_ok rf t /\ result_at fell p n r.
Definition attempted (fell : bool) (p : string) (n : Z) (mode : option string) (r : Result) (t : list observed) : Prop :=
  (profile = V11 -> gate None t) /\ quiet_mode mode /\ exchange_report profile d0 fell p n r t.
#[local] Instance ready_for_lasting fell p n rf r : Lasting (ready_for fell p n rf r).
Proof. apply _. Qed.
#[local] Instance attempted_lasting fell p n mode r : Lasting (attempted fell p n mode r).
Proof. intros t u (Hg & Hq & Hr). split; [intros Hp; apply gate_lasting; auto|]. split; [done|by apply exchange_report_lasting]. Qed.

Lemma exchange_attempted G fell p n mode res r t :
  (G t -> profile = V11 -> gate None t) ->
  reported profile d0 G fell p n mode res r t -> r = res /\ attempted fell p n mode r t.
Proof. intros HG (-> & Hg & Hq & Hr). split; [done|]. split; [auto|done]. Qed.

Section Attempt.
Variables (fell : bool) (path0 : string) (n0 : Z).
Hypothesis Hn0 : 0 <= n0.
Variables (peer : string) (force : bool) (mode : option string) (rf : option bytes).
Hypothesis Hmode : mode = None \/ mode = negative.
Hypothesis Hrf : mode = Some "replay-finish"%string -> rf <> None.
Hypothesis Hpre : negative <> Some "pre-l4"%string.

Lemma mode_tampered : mode = Some "init-mac"%string -> tampered_mode.
Proof using Hmode. unfold tampered_mode. destruct Hmode as [He|He]; rewrite He; [intros [=]|exact id]. Qed.

Lemma at_attempt_v08 :
  profile = V08 ->
  triple (at_s (rest (ready_for fell path0 n0 rf))) (_exchange file_size profile peer true force mode rf)
    (fun res => at_s (rest (fun r t => r = res /\ attempted fell path0 n0 mode r t)))
    (fun _ => at_s (rest no_report)).
Proof.
  intros Hp. unfold runner_policy. rewrite bool_decide_eq_false_2 by done.
  rewrite (proj2 (Z.eqb_eq profile V08) Hp). set (policy := fun t a => _ \/ _).
  eapply triple_conseq; [|apply (at_resume_exchange file_size profile d0 Hprofile tampered_mode replayed_frame policy
    (replay_ok rf) ltac:(intros t a Hf; by left) ltac:(intros t a _ He; by right) fell path0 n0 Hn0 peer true force mode rf mode_tampered); [|done]| |done].
  - by intros s Hs.
  - intros t d Hr Hd. by apply Hr.
  - intros res s. apply at_implies, wiped_implies. intros r t. apply exchange_attempted. intros _ Hv. by rewrite Hp in Hv.
Qed.

(** What [after_l4] is called with. *)
Definition behind_gate (t : list observed) : Prop := gate None t /\ replay_ok rf t.
#[local] Instance behind_gate_lasting : Lasting behind_gate.
Proof. apply _. Qed.

Abbreviation at_v1 := (at_ (W := W) (v1_policy None false session_exchange)).

Lemma at_after_l4 :
  profile = V11 ->
  triple (at_v1 (along (rest (ready_for fell path0 n0 rf)) (gate None)))
    (after_l4 file_size profile peer force mode rf)
    (fun _ => at_v1 (rest (attempted fell path0 n0 mode))) (fun _ => at_v1 (rest no_report)).
Proof.
  intros Hp. unfold after_l4. apply step_get_v1. intros r0.
  set (J := rest (fun r t => behind_gate t /\ result_at fell path0 n0 r)).
  apply step_update with (J' := J).
  { intros h t [_ [(Ho & (Hs & Hz & Hn) & Hr & Hp') Hg]]. split; [exact Ho|]. split; [|by split; [split|]].
    split; [exact Hs|by split]. }
  apply step_vars. intros x. eapply at_weaken with (J' := J); [by intros l t [_ Hj]|].
  assert (forall t a, free_request a -> v1_policy None false session_exchange t a) as Hfree by by intros t [] Hf.
  assert (forall t a, behind_gate t -> session_exchange t a -> v1_policy None false session_exchange t a) as Hexch.
  { intros t a [Hg _] He. destruct a; cbn in He |- *; try done. by right. }
  eapply step_at; [apply (at_resume_exchange file_size profile d0 Hprofile tampered_mode replayed_frame _
    behind_gate Hfree Hexch fell path0 n0 Hn0 peer _ force mode rf mode_tampered); [|done]|done|].
  - intros t d [_ Hr] Hd. by apply Hr.
  - intros res. apply triple_ret. intros s. apply at_implies, wiped_implies. intros r t Hr.
    eapply exchange_attempted; [|exact Hr]. by intros [Hg _] _.
Qed.

Lemma at_attempt :
  triple (at_s (rest (ready_for fell path0 n0 rf))) (attempt file_size profile peer force mode rf)
    (fun res => at_s (rest (fun r t => r = res /\ attempted fell path0 n0 mode r t)))
    (fun _ => at_s (rest no_report)).
Proof.
  unfold attempt. destruct (Z.eqb_spec profile V08) as [Hp|Hp]; [by apply at_attempt_v08|].
  assert (profile = V11) as Hp' by by destruct Hprofile.
  unfold runner_policy. rewrite bool_decide_eq_false_2 by done. rewrite (proj2 (Z.eqb_neq profile V08) Hp).
  eapply step_at with (R := fun _ => rest (attempted fell path0 n0 mode)) (J' := rest no_report); [|done|].
  - eapply triple_except with (E' := fun _ => at_v1 (rest no_report)); [|intros x _; by apply at_raise|done].
    apply (at_run_v1 None false session_exchange _ (rest (ready_for fell path0 n0 rf)) (rest no_report)
      (fun _ => rest (attempted fell path0 n0 mode))).
    + by apply wiped_implies.
    + by apply at_after_l4.
    + split; [by apply wiped_implies|by intros l t Hj].
    + intros _. by apply wiped_implies.
  - intros info. apply step_vars. intros x. apply triple_ret. intros s. apply at_implies.
    intros l t [-> (Ho & Hv & Ha)]. split; [exact Ho|]. split; [exact Hv|]. by split.
Qed.
End Attempt.

Lemma at_start_session J mode :
  (forall h t, J (local h) t -> J (on_local (set_rl_vars (on_result (fun _ => Result_init))) h).(local) t) ->
  implies J (rest no_report) ->
  triple (at_s J) (start_session mode)
    (fun _ => at_s (fun l t => match mode with Some m => m ∈ NEGATIVE_MODES | None => True end /\
       J l t /\ result_at false "full" 0 (x_result (rl_vars l))))
    (fun _ => at_s (rest no_report)).
Proof.
  intros HJ HJx. unfold start_session. apply step_same; [by intros s Hs|done|]. intros found.
  apply step_same; [destruct found; [by apply triple_ret|by apply at_raise]|done|]. intros peer.
  eapply step_update with (J' := fun l t => J l t /\ result_at false "full" 0 (x_result (rl_vars l))).
  { intros h t Hj. split; [by apply HJ|by split_and!]. }
  apply step_raise_when; [intros l t [Hj _]; by apply HJx|]. intros Hm. apply triple_ret. intros s.
  apply at_implies. intros l t Hj. split; [|done]. destruct mode; [|done].
  by apply negb_false_iff, bool_decide_eq_true in Hm.
Qed.

(** A new result keeps what was wiped. *)
Lemma wiped_new_result Phi Psi h t :
  Psi Result_init t -> rest Phi (local h) t ->
  rest Psi (local (on_local (set_rl_vars (on_result (fun _ => Result_init))) h)) t.
Proof.
  intros HP (Ho & ([Hs Hf] & Hz & Hn) & _). split; [exact Ho|]. split; [|exact HP].
  split; [|by split]. split; [exact Hs|]. by intros f [=].
Qed.

Lemma at_reconnect_peer (Phi : Result -> list observed -> Prop) :
  (forall r, Lasting (Phi r)) -> negative <> Some "pre-l4"%string ->
  triple (at_s (rest Phi)) reconnect_v1_peer (fun _ => at_s (rest Phi)) (fun _ => at_s (rest Phi)).
Proof.
  intros HP Hpre. assert (forall t a, free_request a -> runner_policy t a) as Hfree.
  { intros t a Hf. unfold runner_policy. rewrite bool_decide_eq_false_2 by done.
    destruct (profile =? V08); [by left|]. by destruct a. }
  apply (at_reconnect_v1_peer runner_policy (rest Phi)); [apply _|intros c l t _; by apply Hfree..].
Qed.

(** ** The test of the gate *)

Lemma at_pre_l4 J :
  negative = Some "pre-l4"%string -> Kept J ->
  triple (at_s J) (pre_l4 profile) (fun _ _ => False) (fun _ => at_s J).
Proof.
  intros Hn HK. unfold pre_l4, runner_policy. rewrite bool_decide_eq_true_2 by done.
  set (Un := fun t : list observed => exists state, Did InspectPairing (Ok state) ∈ t /\ is_paired state = false).
  assert (Lasting Un) as HUn.
  { intros t u (st & Hd & Hp). exists st. split; [by apply (lasting_did _)|done]. }
  eapply step_at with (R := fun b l t => J l t /\ (b = false -> profile = V11 /\ Un t)) (J' := J); [|done|].
  { destruct (Z.eqb_spec profile V11) as [Hp|Hp]; cbn [negb].
    - eapply step_at; [apply (at_perform pre_l4_policy J InspectPairing); [done|by intros]|done|]. intros st.
      apply triple_ret. intros s. apply at_implies. intros l t [Hj Hd]. split; [done|]. intros Hf. split; [done|].
      by exists st.
    - apply triple_ret. intros s. apply at_implies. intros l t Hj. by split. }
  intros b. apply step_raise_when; [by intros l t [Hj _]|]. intros ->.
  eapply at_weaken with (J' := fun l t => profile = V11 /\ along J Un l t).
  { intros l t [Hj Hu]. destruct (Hu eq_refl). by split. }
  apply at_pure. intros Hp.
  eapply step_at with (R := fun _ => J) (J' := J); [|done|intros u; by apply at_raise].
  eapply triple_except with (E' := fun _ => at_ pre_l4_policy J); [|intros x _; case_match; by apply at_raise|done].
  apply step_result; [by apply implies_along|]. intros init (_ & _ & ->)%encode_Ok. rewrite Hp.
  eapply triple_conseq; [intros s Hs; exact Hs|apply (at_send_control pre_l4_policy (along J Un)); [apply _|]| |].
  - intros c l t [_ Hu]. by split_and!.
  - intros u s. apply at_implies. by intros l t [[Hj _] _].
  - intros x s. apply at_implies. by intros l t [Hj _].
Qed.

(** ** The fallback *)

Definition returned (res : Result) (r : Result) (t : list observed) : Prop :=
  r = res /\ run_report res t.

Lemma first_attempt mode res :
  (forall r t, r = res /\ attempted false "full" 0 mode r t -> returned res r t).
Proof.
  intros r t (-> & Hg & _ & Hs & Hn & _ & k & Ht & Hk). split; [done|]. split; [done|]. split; [done|].
  exists k. split; [done|]. split; [destruct Hk as [Hk|[Hp Hk]]; [by left|right; by split; [left|]]|].
  split; [by intros _|lia].
Qed.

Lemma second_attempt p n res :
  0 <= n -> (forall r t, r = res /\ attempted true p n None r t -> returned res r t).
Proof.
  intros Hn r t (-> & Hg & _ & Hs & Hr & Hf & k & Ht & Hk). split; [done|]. split; [done|]. split; [done|].
  specialize (Hf eq_refl). exists k. split; [done|].
  split; [destruct Hk as [Hk|[Hp Hk]]; [by left|right; by split; [right|]]|]. split; [done|lia].
Qed.

Lemma at_attempt_or_fall_back peer force rf :
  negative <> Some "pre-l4"%string -> (negative = Some "replay-finish"%string -> rf <> None) ->
  (negative = None -> rf = replay_finish) ->
  triple (at_s (rest (ready_for false "full" 0 rf))) (attempt_or_fall_back file_size profile peer force negative rf)
    (fun res => at_s (fun l t => quiet_mode negative /\ rest (returned res) l t))
    (fun _ => at_s (rest no_report)).
Proof.
  intros Hpre Hrf Hsame. unfold attempt_or_fall_back.
  eapply triple_except with (E' := fun _ => at_s (rest no_report)).
  - eapply triple_conseq; [intros s Hs; exact Hs|apply at_attempt; [done|by right|done|done]| |done].
    intros res s. apply (at_implies runner_policy). intros l t Hj. split; [apply Hj|].
    revert Hj. by apply wiped_implies, first_attempt.
  - intros x _. apply step_raise_when; [done|]. intros [_ Hm]%orb_false_iff.
    apply negb_false_iff, bool_decide_eq_true in Hm.
    set (Psi := fun (r : Result) (t : list observed) => fallback_reason r <> None).
    eapply step_update with (J' := rest Psi).
    { intros h t (Ho & ([Hs Hf] & Hz & Hn) & _). split; [exact Ho|]. split; [|done]. split; [|by split]. by split. }
    eapply step_at; [apply at_reconnect_peer; [apply _|done]|by apply wiped_implies|]. intros ok.
    apply step_raise_when; [by apply wiped_implies|]. intros _.
    eapply at_weaken with (J' := fun l t => exists p n, 0 <= n /\ rest (ready_for true p n rf) l t).
    { intros l t (Ho & Hv & Hf). exists (r_path (x_result (rl_vars l))), (rounds (x_result (rl_vars l))).
      split; [by destruct Hv as (_ & _ & Hn)|]. split; [exact Ho|]. split; [exact Hv|]. split; [intros d Hd; left; by rewrite <- Hsame|].
      by split_and!. }
    apply at_ex. intros p. apply at_ex. intros n. apply at_pure. intros Hn.
    eapply triple_conseq; [intros s Hs; exact Hs|apply at_attempt; [done|by left|done|done]| |done].
    intros res s. apply (at_implies runner_policy). intros l t Hj. split; [by rewrite Hm; split_and!|].
    revert Hj. by apply wiped_implies, second_attempt.
  - done.
Qed.

(** ** The call *)

Lemma at_run_session :
  triple (at_s (rest no_report)) (run_session file_size profile force_full negative replay_finish)
    (fun res => at_s (fun l t => (negative = None \/ negative = Some "expired" \/ negative = Some "max-uses")%string /\
                                 rest (returned res) l t))
    (fun _ => at_s (rest no_report)).
Proof.
  unfold run_session.
  eapply step_at; [apply (at_start_session (rest no_report)); [intros h t; by apply wiped_new_result|done]|done|].
  intros peer. apply at_pure. intros Hmode.
  eapply at_weaken with (J' := rest (ready_for false "full" 0 replay_finish)).
  { intros l t [(Ho & Hv & _) Hr]. split; [exact Ho|]. split; [exact Hv|]. split; [|done].
    intros d Hd. by left. }
  set (J := rest (ready_for false "full" 0 replay_finish)).
  assert (implies J (rest no_report)) as HJ by by apply wiped_implies.
  destruct (bool_decide_reflect (negative = Some "pre-l4"%string)) as [Hn|Hpre].
  { eapply triple_conseq; [intros s Hs; exact Hs|apply (at_pre_l4 J Hn); apply _|done|].
    intros x s. by apply at_implies. }
  assert (quiet_mode negative ->
    (negative = None \/ negative = Some "expired" \/ negative = Some "max-uses")%string) as Hquiet.
  { intros (Hq1 & Hq2 & Hq3 & Hq4). destruct negative as [m|]; [|by left]. right.
    unfold NEGATIVE_MODES in Hmode. set_unfold in Hmode.
    destruct Hmode as [->|[->|[->|[->|[->|[->|[->|[]]]]]]]]; try done; [by left|by right]. }
  destruct (_ && _) eqn:Hreplay.
  - apply andb_true_iff in Hreplay as [Hneg%bool_decide_eq_true Hnone%bool_decide_eq_true].
    eapply step_at; [apply at_attempt; [done|by left|done|done]|done|]. intros seeded.
    set (J1 := rest (fun r t => r = seeded /\ attempted false "full" 0 None r t)).
    assert (implies J1 (rest no_report)) as HJ1 by by apply wiped_implies.
    apply step_raise_when; [done|]. intros _.
    destruct (_finish_c_for_test seeded) as [old|] eqn:Hold; [|by apply at_raise].
    eapply step_at with (R := fun f l t => f = old /\ J1 l t) (J' := rest no_report); [|done|].
    { apply triple_ret. intros s. by apply (at_implies runner_policy). }
    intros f. apply at_pure. intros ->.
    set (J2 := rest (fun r t => replay_ok (Some old) t)).
    eapply at_weaken with (J' := J2).
    { intros l t (Ho & ([Hs Hf] & Hz & Hn) & [He _]). split; [exact Ho|]. split; [by split|].
      intros d [= <-]. right. split; [done|]. apply Hf. by rewrite He. }
    apply step_same; [apply (at_reconnect_peer (fun r t => replay_ok (Some old) t)); [apply _|done]|by apply wiped_implies|]. intros ok.
    apply step_raise_when; [by apply wiped_implies|]. intros _.
    eapply step_at; [apply (at_start_session J2); [intros h t Hj; eapply wiped_new_result; [|exact Hj]; apply Hj|by apply wiped_implies]|done|].
    intros peer'. apply at_pure. intros _.
    eapply at_weaken with (J' := rest (ready_for false "full" 0 (Some old))).
    { intros l t [(Ho & Hv & Hr) Hres]. split; [exact Ho|]. split; [exact Hv|]. by split. }
    eapply triple_conseq; [intros s Hs; exact Hs|apply at_attempt_or_fall_back; [done|done|by rewrite Hneg]| |done].
    intros res s. apply (at_implies runner_policy). intros l t [Hq Hj]. by split; [apply Hquiet|].
  - eapply triple_conseq; [intros s Hs; exact Hs|apply at_attempt_or_fall_back; [done| |done]| |done].
    + intros Hneg Hnone. by rewrite Hneg, Hnone in Hreplay.
    + intros res s. apply (at_implies runner_policy). intros l t [Hq Hj]. by split; [apply Hquiet|].
Qed.

(** Before the call: the directory [d0], and no object of an exchange. *)
Definition fresh_variables (x : resume_vars) : Prop :=
  directory (x_store x) = d0 /\ NoDup (keys d0) /\ x_ticket x = None /\ x_secret x = [] /\ x_ecdh x = [] /\
  x_result x = Result_init.

Lemma ticket_peer files pr pe tk : parse_ticket files pr pe = Ok tk -> t_peer tk = pe.
Proof.
  intros (_ & f & _ & Hst)%parse_ticket_Ok.
  destruct Hst as (_ & raw & rh & kh & ? & _ & _ & _ & _ & _ & _ & _ & _ & _ & _ & _ & _ & _ & Hp & _). exact Hp.
Qed.

Lemma fresh_wiped l t :
  rl_session l = None -> rl_app l = None -> fresh_variables (rl_vars l) -> rest no_report l t.
Proof.
  intros Hs Ha (Hd & Hn & Ht & Hx & He & Hr). split; [by rewrite Hs, Ha, Ht|]. split; [|done].
  split; [|split; [by rewrite Hx, He|by rewrite Hr]]. split; [|by rewrite Hr; intros f [=]].
  split; [by rewrite Hd|]. rewrite Hd. intros pr pe tk Hp Hpr. left. exists tk.
  by rewrite (ticket_profile _ _ _ _ Hp), (ticket_peer _ _ _ _ Hp).
Qed.

(** No object of an exchange, and fresh variables. *)
Definition fresh_host (h : host resume_locals) : Prop :=
  rl_session (local h) = None /\ rl_app (local h) = None /\ fresh_variables (rl_vars (local h)).

#[export] Instance resume_contract :
  Contract fresh_host (run_session file_size profile force_full negative replay_finish)
    (fun l t => obeys runner_policy t /\ wiped profile d0 no_report l t)
    (fun res t => (negative = None \/ negative = Some "expired" \/ negative = Some "max-uses")%string /\
                  run_report res t).
Proof.
  intros s Ht (Hs & Ha & Hv).
  assert (at_s (rest no_report) s) as Hi by (split; [by apply fresh_wiped|rewrite Ht; apply obeys_nil]).
  pose proof (at_run_session s Hi) as Hrun.
  destruct (run_session _ _ _ _ _ s) as [[res|x] s'].
  - destruct Hrun as [[Hm Hw] Ho]. split; [split; [done|by apply (wiped_implies profile d0 (returned res))]|].
    intros ? [= <-]. split; [done|]. by destruct Hw as (_ & _ & _ & Hr).
  - by destruct Hrun as [Hw Ho].
Qed.

(** C3. A run of [run_session] against any peripheral, with any timing and any
    failures. An INIT is sent only for a live ticket, one of the directory or one
    a full handshake of this run issued, and under v1.1 after the strict Level 4
    attestation; FINISH_C only for the ACCEPT of that ticket, session and nonce;
    START only when the ciphertext was delivered, FINISHED_C only for the agreed
    transcript and, under v0.8, a confirmed SAS; a PING only under the keys of a
    verified resumption or full handshake. However the run ends, the session, the
    application object and the ticket are cleared, the buffers are zero, and every
    ticket that can be loaded is one of those. A run that returns a
    result made all its rounds under such keys: those of the resumption for the
    path "resume", those of the full handshake otherwise or after a fallback.
    Three test modes send something else: init-mac an INIT with a changed bit,
    replay-finish an old FINISH_C, pre-l4 one INIT of zeros to an unpaired peer. *)
Theorem resume_run_safe (s : io W (host resume_locals)) :
  trace s = [] -> rl_session (local (self s)) = None -> rl_app (local (self s)) = None ->
  fresh_variables (rl_vars (local (self s))) ->
  let '(r, s') := run_session file_size profile force_full negative replay_finish s in
  obeys runner_policy (trace s') /\ wiped profile d0 no_report (local (self s')) (trace s') /\
  forall res, r = Ok res ->
    (negative = None \/ negative = Some "expired" \/ negative = Some "max-uses")%string /\
    run_report res (trace s').
Proof.
  intros Ht Hs Ha Hv. pose proof (resume_contract s Ht (conj Hs (conj Ha Hv))) as Hc.
  destruct (run_session _ _ _ _ _ s) as [r s']. by destruct Hc as [[Ho Hw] Hd].
Qed.
End Session.

(** * A peripheral

    It answers either protocol of a profile with the reference frames, under the
    ticket it shares with the Central, and can go silent once its first session
    is open. *)
Module ResumePeer.
Record session_data := mkSessionData {
  d_sid : bytes; d_c2p : bytes; d_p2c : bytes; d_iv_c2p : bytes; d_iv_p2c : bytes }.

Record peer := mkPeer {
  fragments : list bytes;
  pending : bytes * bytes;           (* resumption: session id and nonce; or transcript and keying material *)
  sid_full : bytes;
  open_session : option session_data;
  pings : Z;
  silent : bool;
}.

Section Peer.
Context `{Kem, Kdf, Aead, P256}.
Variables (profile : Z) (root rid : bytes).

Definition public_key : bytes := (oqs_generate_keypair [x17]).1.
Definition own_key : ec_private := ec_generate [x33].

Definition opened_session (sid c p ivc ivp : bytes) (w : peer) : peer :=
  mkPeer (fragments w) (pending w) (sid_full w) (Some (mkSessionData sid c p ivc ivp)) 0 (silent w).

Definition answer_resume (w : peer) (s : Z) (pl : bytes) : result (bytes * peer) :=
  let np := zeros 32 in
  if s =? INIT then
    let sid := bslice 16 32 pl in let nc := bslice 32 64 pl in
    Ok (accept_frame profile root rid sid nc np,
        mkPeer (fragments w) (sid, nc) (sid_full w) None 0 (silent w))
  else
    let '(sid, nc) := pending w in
    let k := ref_keys profile root rid sid nc np in
    Ok (finish_p_frame profile root rid sid nc np,
        opened_session sid (k_app_c2p k) (k_app_p2c k) (k_iv_c2p k) (k_iv_p2c k) w).

Definition answer_start (w : peer) (pl : bytes) : result (bytes * peer) :=
  ct ← reassemble_data (fragments w);
  ss ← oqs_decap_secret (oqs_generate_keypair [x17]).2 ct;
  let sid := bto 16 pl in
  let public := ec_public_bytes own_key in
  ci ← (if profile =? V08
        then full_canonical profile ss public_key ct sid (Some (ec_exchange own_key (bfrom 16 pl)))
               (Some (bfrom 16 pl)) (Some public) None
        else full_canonical profile ss public_key ct sid None None None (Some sec_info_v11));
  mret (full_wire profile (if profile =? V08 then Phase7.PHASE7_READY7_AUTH else V1Smp.V1_READY_CP3)
          (if profile =? V08 then public else sha256 ci.1),
        mkPeer (fragments w) ci sid None 0 (silent w)).

Definition answer_finished (w : peer) : result (bytes * peer) :=
  let '(canonical, ikm) := pending w in
  let sid := sid_full w in
  let c := r_app_c2p profile canonical ikm in let p := r_app_p2c profile canonical ikm in
  ivc ← (if profile =? V08 then Ok [] else derive_iv_base c sid APP_C2P profile);
  ivp ← (if profile =? V08 then Ok [] else derive_iv_base p sid APP_P2C profile);
  mret (r_finished_p profile canonical ikm, opened_session sid c p ivc ivp w).

Definition next_ping (w : peer) : peer :=
  mkPeer (fragments w) (pending w) (sid_full w) (open_session w) (pings w + 1) (silent w).

Definition answer_ping (w : peer) (k : session_data) (d : bytes) : result (bytes * peer) :=
  pong ← (if profile =? V08
          then Ok (channel_wire (pings w) MSG_TYPE_DATA (zeros 12)
                     (aes_gcm_encrypt (d_p2c k) (zeros 12) (pong_text (pings w))
                        (channel_aad (d_sid k) PERIPHERAL_ROLE (pings w) MSG_TYPE_DATA)))
          else challenge ← decrypt_application (d_c2p k) (d_iv_c2p k) (d_sid k) d APP_C2P (pings w) profile;
               encrypt_application (d_p2c k) (d_iv_p2c k) (d_sid k) APP_P2C (pings w) PONG challenge profile);
  mret (pong, next_ping w).

Definition answer_control (w : peer) (d : bytes) : result (bytes * peer) :=
  if bool_decide (d = full_wire V11 V1Smp.V1_SEC_QUERY []) then Ok (sec_info_v11, w)
  else match parse d profile None with
       | Ok (s, pl) => answer_resume w s pl
       | Err _ =>
           match open_session w with
           | Some k => answer_ping w k d
           | None => f ← parse_full profile d;
                     if blen f.2 =? 32 then answer_finished w else answer_start w f.2
           end
       end.

Definition answer_write (w : peer) (u : string) (d : bytes) : result (option bytes * peer) :=
  if bool_decide (u = CHAR_CIPHERTEXT_UUID)
  then Ok (None, mkPeer (fragments w ++ [d]) (pending w) (sid_full w) (open_session w) (pings w) (silent w))
  else if silent w && bool_decide (open_session w <> None) then Ok (None, w)
  else if bool_decide (u = CHAR_DATA_UUID)
  then match open_session w with
       | Some k => a ← answer_ping w k d; mret (Some a.1, a.2)
       | None => Ok (None, w)
       end
  else a ← answer_control w d; mret (Some a.1, a.2).

#[export] Instance environment : Env peer := {
  ask q w := match q as q return World.answer q * peer with
             | IsConnected _ => (true, w)
             | MtuSize _ => (247, w)
             | Urandom n => (zeros n, w)
             | Coins => ([x2a], w)
             | TimerFired | GuardFailed => (false, w)
             | Now => (5, w)
             end;
  await a w :=
    match a as a return list event * result (value a) * peer with
    | ReadGatt _ _ => ([], Ok public_key, w)
    | WriteGatt _ u d =>
        match answer_write w u d with
        | Ok (Some b, w') => ([Notified b true], Ok tt, w')
        | Ok (None, w') => ([], Ok tt, w')
        | Err _ => ([], Ok tt, w)
        end
    | Confirm _ => ([], Ok true, w)
    | InspectPairing => ([], Ok (Pairing.mkPairingState true false "ENCRYPTION"), w)
    | PairNumericComparison | PairJustWorks => ([], Err (OtherException None), w)
    | FindByName _ => ([], Ok None, w)
    | FindByAddress _ => ([], Ok (Some (mkDevice "peer" "aa")), w)
    | Connect _ => ([], Ok tt, mkPeer [] ([], []) [] None 0 false)
    | StartNotify _ _ | Disconnect _ | StopNotify _ _ | Wait | Unpair => ([], Ok tt, w)
    end;
}.
End Peer.

Definition demo_ticket_file (profile : Z) : ticket_file :=
  mkTicketFile 300 (JObject
    [("schema", JInt 1); ("profile", JInt profile); ("peer", JStr "AA");
     ("resume_id", JStr (hex (zeros 16))); ("k_resume", JStr (hex (zeros 32)));
     ("created_at", JFloat 1); ("successful_resume_count", JInt 0)]%string).

Definition initial (profile : Z) (stored silent : bool) : io peer (host resume_locals) :=
  mkIo (mkPeer [] ([], []) [] None 0 silent)
    (mkHost (mkClient DEVICE_NAME (Some (mkLink 0 false)) (Some (mkDevice "peer" "aa")) None None None None false) 3
       (mkResumeLocals (mkV1Run [] (V1CP1Result_init "") false false) false [] None None None
          (mkResumeVars None [] []
             (mkTicketStore (if stored then [(file_name profile "AA", demo_ticket_file profile)] else []) NO_TICKET)
             Result_init))) [].

Definition outcome (profile : Z) (stored silent force_full : bool) (negative : option string) :=
  @run_session peer (@environment Toy.kem Toy.aead Toy.p256 profile (zeros 32) (zeros 16))
    Toy.kem Toy.kdf Toy.aead Toy.p256 (fun _ => 300) profile force_full negative None
    (initial profile stored silent).
End ResumePeer.

(** A v0.8 session resumed with the ticket of the directory. *)
Lemma resume_run_safe_witness :
  exists res s', ResumePeer.outcome V08 true false false None = (Ok res, s') /\ r_path res = "resume"%string /\
    rounds res = 3 /\
    @run_report Toy.kem Toy.aead Toy.p256 V08 [(file_name V08 "AA", ResumePeer.demo_ticket_file V08)] res (trace s').
Proof.
  assert (match ResumePeer.outcome V08 true false false None with
          | (Ok res, _) => r_path res = "resume"%string /\ rounds res = 3
          | _ => False
          end) as Hok by (vm_compute; split; reflexivity).
  pose proof (@resume_run_safe ResumePeer.peer (@ResumePeer.environment Toy.kem Toy.aead Toy.p256 V08 (zeros 32) (zeros 16))
    Toy.kem Toy.kdf Toy.kdf_laws Toy.aead Toy.p256 (fun _ => 300) V08
    [(file_name V08 "AA", ResumePeer.demo_ticket_file V08)] ltac:(by left) false None None
    (ResumePeer.initial V08 true false) eq_refl eq_refl eq_refl
    ltac:(split_and!; try reflexivity; apply NoDup_singleton)) as Hs.
  assert (ResumePeer.outcome V08 true false false None =
    @run_session ResumePeer.peer (@ResumePeer.environment Toy.kem Toy.aead Toy.p256 V08 (zeros 32) (zeros 16))
      Toy.kem Toy.kdf Toy.aead Toy.p256 (fun _ => 300) V08 false None None (ResumePeer.initial V08 true false))
    as He by reflexivity.
  rewrite <- He in Hs. clear He. generalize dependent (ResumePeer.outcome V08 true false false None).
  intros [[res|x] s'] Hok Hs; [|destruct Hok]. exists res, s'. destruct Hok as [Hp Hr]. destruct Hs as (_ & _ & Hres).
  exact (conj eq_refl (conj Hp (conj Hr (proj2 (Hres res eq_refl))))).
Defined.

(** The two attempts share the result object: when the resumed session times out
    in its rounds, the full handshake of the fallback is reported as "resume". *)
Lemma fallback_reported_as_resume :
  match (ResumePeer.outcome V08 true true false None).1 with
  | Ok res => r_path res = "resume"%string /\ fallback_reason res = Some "TIMEOUT"%string /\ rounds res = 3
  | Err _ => False
  end.
Proof. vm_compute. split_and!; reflexivity. Qed.
