(* ===== verification/CommandLine.v ===== *)
(** src/src/central/main.py, the command line: the options of [parse_args], the
    combinations it refuses, and the runner [main] chooses. Parsing the words of
    the command line is argparse's. *)

From S2P Require Import Prelude Py.
Open Scope Z_scope.

(** * Options *)

(** The mutually exclusive group: at most one of its switches. *)
Inductive execution_mode :=
  | legacy                     (* none of them *)
  | demo
  | v08_resume_hybrid
  | v11_smp_l4_mlkem_resume
  | phase2_e2e
  | phase3_secure
  | phase5_auth_pq
  | phase6_c2p
  | phase6_bidirectional
  | phase7_hybrid_e2e
  | phase7_auth_hybrid
  | v1_smp_l4_mlkem.

#[global] Instance execution_mode_eq_dec : EqDecision execution_mode.
Proof. solve_decision. Defined.

(** What argparse returns; an option with choices is one of them or [None]. *)
Record args := mkArgs {
  device : string;
  no_sas_confirm : bool;
  mode : execution_mode;
  resume_full : bool;
  resume_negative_test_only : option string;
  phase3_negative : option string;
  phase5_negative : option string;
  phase6_negative : option string;
  phase7_negative_test_only : option string;
  v1_negative : option string;
  v1_cp2 : bool;
  v1_cp3 : bool;
  v1_cp4 : bool;
  v1_unpair_first : bool;
  v1_pairing_timeout : Z;
  mtu : option Z;
  log_level : string;
}.

Definition is_mode (m : execution_mode) (a : args) : bool := bool_decide (mode a = m).

(** [args.phase3_negative or ...]: no choice is the empty string. *)
Definition given (o : option string) : bool := match o with Some _ => true | None => false end.

Definition new_profile (a : args) : bool := is_mode v08_resume_hybrid a || is_mode v11_smp_l4_mlkem_resume a.

(** [parser.error(message)] ends the process with status 2. *)
Definition error_if (c : bool) (message : string) : string + unit :=
  if c then inl message else inr tt.

#[global] Instance sum_ret E : MRet (sum E) := fun A a => inr a.
#[global] Instance sum_bind E : MBind (sum E) :=
  fun A B f m => match m with inl e => inl e | inr a => f a end.

(** The checks after [parser.parse_args]. *)
Definition parse_args (a : args) : string + args :=
  error_if ((resume_full a || given (resume_negative_test_only a)) && negb (new_profile a))
    "--resume-full / --resume-negative-test-only require v0.8 or v1.1";;
  error_if (new_profile a && (no_sas_confirm a || given (phase3_negative a) || given (phase5_negative a)
      || given (phase6_negative a) || given (phase7_negative_test_only a) || given (v1_negative a)
      || v1_unpair_first a || v1_cp2 a || v1_cp3 a || v1_cp4 a))
    "new profiles require their own options and explicit authentication";;
  error_if (resume_full a && given (resume_negative_test_only a))
    "--resume-full cannot be combined with a resume negative experiment";;
  error_if (bool_decide (resume_negative_test_only a = Some "pre-l4"%string)
            && negb (is_mode v11_smp_l4_mlkem_resume a))
    "pre-l4 requires --v11-smp-l4-mlkem-resume";;
  error_if (v1_cp4 a && (negb (is_mode v1_smp_l4_mlkem a) || v1_cp2 a || v1_cp3 a || given (v1_negative a)))
    "--v1-cp4 requires --v1-smp-l4-mlkem; incompatible with --v1-cp2 / --v1-cp3 / --v1-negative";;
  error_if (v1_cp3 a && (negb (is_mode v1_smp_l4_mlkem a) || v1_cp2 a || given (v1_negative a)))
    "--v1-cp3 requires --v1-smp-l4-mlkem; incompatible with --v1-cp2 / --v1-negative";;
  error_if (v1_cp2 a && (negb (is_mode v1_smp_l4_mlkem a) || given (v1_negative a)))
    "--v1-cp2 requires --v1-smp-l4-mlkem and cannot use --v1-negative";;
  error_if ((given (v1_negative a) || v1_unpair_first a) && negb (is_mode v1_smp_l4_mlkem a))
    "--v1-negative / --v1-unpair-first require --v1-smp-l4-mlkem";;
  (if is_mode v1_smp_l4_mlkem a then
     error_if (no_sas_confirm a) "--no-sas-confirm is not allowed with --v1-smp-l4-mlkem";;
     error_if (given (phase3_negative a) || given (phase5_negative a) || given (phase6_negative a)
               || given (phase7_negative_test_only a))
       "v1.0 cannot be combined with another phase's negative switches"
   else mret tt);;
  error_if (given (phase7_negative_test_only a) && negb (is_mode phase7_auth_hybrid a))
    "--phase7-negative-test-only requires --phase7-auth-hybrid";;
  (if is_mode phase7_auth_hybrid a then
     error_if (no_sas_confirm a) "--no-sas-confirm is not allowed with --phase7-auth-hybrid";;
     error_if (given (phase3_negative a) || given (phase5_negative a) || given (phase6_negative a))
       "Phase 7 cannot be combined with another phase's negative switches"
   else mret tt);;
  mret a.

(** * Dispatch *)

(** The checkpoint of [_run_v1_smp_l4_mlkem_cli]. *)
Inductive checkpoint := CP1 | CP2 | CP3 | CP4.

(** The coroutine [main] awaits, with the options it reads. *)
Inductive runner :=
  | run_resumption (v08 : bool) (force_full : bool) (negative : option string)
  | run_v1 (cp : checkpoint) (negative : option string) (unpair_first : bool)
  | run_phase6_bidirectional (negative : option string)
  | run_phase7_auth (negative : option string)
  | run_phase7_hybrid
  | run_phase6_c2p
  | run_phase5 (negative : option string)
  | run_phase3 (negative : option string)
  | run_phase2
  | run_legacy (demo : bool) (auto_accept : bool).

Definition v1_checkpoint (a : args) : checkpoint :=
  if v1_cp4 a then CP4 else if v1_cp3 a then CP3 else if v1_cp2 a then CP2 else CP1.

(** [main]: the status it returns at once, or what it runs. *)
Definition main (a : args) : Z + runner :=
  if new_profile a
  then inr (run_resumption (is_mode v08_resume_hybrid a) (resume_full a) (resume_negative_test_only a))
  else if is_mode v1_smp_l4_mlkem a
  then inr (run_v1 (v1_checkpoint a) (v1_negative a) (v1_unpair_first a))
  else if given (phase3_negative a) && negb (is_mode phase3_secure a) then inl 2
  else if given (phase5_negative a) && negb (is_mode phase5_auth_pq a) then inl 2
  else if (is_mode phase5_auth_pq a || is_mode phase6_c2p a || is_mode phase6_bidirectional a
           || is_mode phase7_auth_hybrid a) && no_sas_confirm a then inl 2
  else if given (phase6_negative a) && negb (is_mode phase6_bidirectional a) then inl 2
  else if is_mode phase6_bidirectional a then inr (run_phase6_bidirectional (phase6_negative a))
  else if is_mode phase7_auth_hybrid a
  then if no_sas_confirm a then inl 2 else inr (run_phase7_auth (phase7_negative_test_only a))
  else if is_mode phase7_hybrid_e2e a
  then if no_sas_confirm a then inl 2 else inr run_phase7_hybrid
  else if is_mode phase6_c2p a then inr run_phase6_c2p
  else if is_mode phase5_auth_pq a then inr (run_phase5 (phase5_negative a))
  else if is_mode phase3_secure a then inr (run_phase3 (phase3_negative a))
  else if is_mode phase2_e2e a then inr run_phase2
  else inr (run_legacy (is_mode demo a) (no_sas_confirm a)).

(** The whole command line: an error of the parser, a status, or a runner. *)
Definition command (a : args) : Z + runner :=
  match parse_args a with
  | inl _ => inl 2
  | inr a => main a
  end.

(** * What a command line can start *)

(** The negative switches, by the tests they ask for. *)
Inductive negative_switch :=
  | ResumeNegative | Phase3Negative | Phase5Negative | Phase6Negative | Phase7Negative | V1Negative.

(** The negative switches of a command line that were given, with their values. *)
Definition switches (a : args) : list (negative_switch * string) :=
  omap (fun '(s, o) => (fun v => (s, v)) <$> o)
    [(ResumeNegative, resume_negative_test_only a); (Phase3Negative, phase3_negative a);
     (Phase5Negative, phase5_negative a); (Phase6Negative, phase6_negative a);
     (Phase7Negative, phase7_negative_test_only a); (V1Negative, v1_negative a)].

(** The test a run is, when it is one. *)
Definition switch_of (r : runner) : option (negative_switch * string) :=
  match r with
  | run_resumption _ _ n => (fun v => (ResumeNegative, v)) <$> n
  | run_v1 _ n _ => (fun v => (V1Negative, v)) <$> n
  | run_phase6_bidirectional n => (fun v => (Phase6Negative, v)) <$> n
  | run_phase7_auth n => (fun v => (Phase7Negative, v)) <$> n
  | run_phase5 n => (fun v => (Phase5Negative, v)) <$> n
  | run_phase3 n => (fun v => (Phase3Negative, v)) <$> n
  | run_phase7_hybrid | run_phase6_c2p | run_phase2 | run_legacy _ _ => None
  end.

(** The mode a switch needs. *)
Definition fits (s : negative_switch) (m : execution_mode) : bool :=
  match s, m with
  | ResumeNegative, (v08_resume_hybrid | v11_smp_l4_mlkem_resume)
  | Phase3Negative, phase3_secure | Phase5Negative, phase5_auth_pq | Phase6Negative, phase6_bidirectional
  | Phase7Negative, phase7_auth_hybrid | V1Negative, v1_smp_l4_mlkem => true
  | _, _ => false
  end.

(** The modes whose runs may go on without the person's comparison. *)
Definition unattended (m : execution_mode) : bool :=
  match m with legacy | demo | phase2_e2e | phase3_secure => true | _ => false end.

(** The checkpoint switches that were given. *)
Definition checkpoints (a : args) : list checkpoint :=
  (if v1_cp2 a then [CP2] else []) ++ (if v1_cp3 a then [CP3] else []) ++ (if v1_cp4 a then [CP4] else []).

(** The options fit together. *)
Definition consistent (a : args) : Prop :=
  Forall (fun s => fits s.1 (mode a) = true) (switches a) /\
  (no_sas_confirm a = true -> unattended (mode a) = true) /\
  (resume_full a = true -> fits ResumeNegative (mode a) = true /\ resume_negative_test_only a = None) /\
  (resume_negative_test_only a = Some "pre-l4"%string -> mode a = v11_smp_l4_mlkem_resume) /\
  (v1_unpair_first a = true -> mode a = v1_smp_l4_mlkem) /\
  (length (checkpoints a) <= 1)%nat /\
  (checkpoints a <> [] -> mode a = v1_smp_l4_mlkem /\ v1_negative a = None).

(** The runs whose SAS or Numeric Comparison authenticates the exchange. *)
Definition authenticated_run (r : runner) : bool :=
  match r with
  | run_phase2 | run_phase3 _ | run_legacy _ _ => false
  | _ => true
  end.

Lemma error_if_inv {A} c m (k : string + A) x : (error_if c m;; k) = inr x -> c = false /\ k = inr x.
Proof. by destruct c. Qed.

Lemma given_false o : given o = false -> o = None.
Proof. by destruct o. Qed.

Lemma error_if_then {A} c m (n : string + unit) (k : string + A) x :
  ((error_if c m;; n);; k) = inr x -> c = false /\ (n;; k) = inr x.
Proof. by destruct c. Qed.

(** Splits [... || ... = false], and options that were not given. *)
Ltac not_given :=
  repeat match goal with
         | H : _ || _ = false |- _ => apply orb_false_iff in H as [? ?]
         | H : given _ = false |- _ => apply given_false in H
         end.

(** What the parser lets through. *)
Lemma parse_args_inv a b :
  parse_args a = inr b ->
  b = a /\
  (new_profile a = false -> resume_full a = false /\ resume_negative_test_only a = None) /\
  (resume_full a = true -> resume_negative_test_only a = None) /\
  (resume_negative_test_only a = Some "pre-l4"%string -> is_mode v11_smp_l4_mlkem_resume a = true) /\
  (new_profile a = true -> no_sas_confirm a = false /\ phase3_negative a = None /\ phase5_negative a = None /\
     phase6_negative a = None /\ v1_unpair_first a = false) /\
  (is_mode v1_smp_l4_mlkem a = false ->
     v1_unpair_first a = false /\ v1_negative a = None /\ v1_cp2 a = false /\ v1_cp3 a = false /\ v1_cp4 a = false) /\
  (is_mode v1_smp_l4_mlkem a = true ->
     no_sas_confirm a = false /\ phase3_negative a = None /\ phase5_negative a = None /\ phase6_negative a = None) /\
  (is_mode phase7_auth_hybrid a = false -> phase7_negative_test_only a = None) /\
  (v1_cp4 a = true -> v1_cp2 a = false /\ v1_cp3 a = false /\ v1_negative a = None) /\
  (v1_cp3 a = true -> v1_cp2 a = false /\ v1_negative a = None) /\
  (v1_cp2 a = true -> v1_negative a = None).
Proof.
  unfold parse_args. intros H. do 8 (apply error_if_inv in H as [? H]).
  assert (b = a /\ (is_mode v1_smp_l4_mlkem a = true ->
            no_sas_confirm a = false /\ given (phase3_negative a) || given (phase5_negative a)
            || given (phase6_negative a) || given (phase7_negative_test_only a) = false) /\
          given (phase7_negative_test_only a) && negb (is_mode phase7_auth_hybrid a) = false) as (-> & Hv1 & Hp7).
  { destruct (is_mode v1_smp_l4_mlkem a).
    - apply error_if_then in H as [? H]. apply error_if_inv in H as [? H]. apply error_if_inv in H as [? H].
      split; [|done].
      destruct (is_mode phase7_auth_hybrid a); [|by injection H].
      apply error_if_then in H as [? H]. apply error_if_inv in H as [? H]. by injection H.
    - apply (error_if_inv _ "--phase7-negative-test-only requires --phase7-auth-hybrid") in H as [? H].
      split; [|done].
      destruct (is_mode phase7_auth_hybrid a); [|by injection H].
      apply error_if_then in H as [? H]. apply error_if_inv in H as [? H]. by injection H. }
  clear H. split; [done|].
  assert ((resume_full a = true -> resume_negative_test_only a = None) /\
    (resume_negative_test_only a = Some "pre-l4"%string -> is_mode v11_smp_l4_mlkem_resume a = true)) as [Hrf Hpre].
  { split.
    - intros Hf. rewrite Hf in *. cbn in *. by apply given_false.
    - intros Hp. rewrite (bool_decide_eq_true_2 _ Hp) in *. cbn in *. by apply negb_false_iff. }
  destruct (new_profile a), (is_mode v1_smp_l4_mlkem a), (is_mode phase7_auth_hybrid a), (v1_cp4 a), (v1_cp3 a),
    (v1_cp2 a); cbn in *; rewrite ?andb_true_r, ?orb_true_r in *; try discriminate; not_given;
    try (destruct (Hv1 eq_refl) as [? Hp]; not_given); repeat split; intros; first [done|by apply Hrf|by apply Hpre].
Qed.

(** The mode a runner belongs to. *)
Definition mode_of (r : runner) : execution_mode :=
  match r with
  | run_resumption v08 _ _ => if v08 then v08_resume_hybrid else v11_smp_l4_mlkem_resume
  | run_v1 _ _ _ => v1_smp_l4_mlkem
  | run_phase6_bidirectional _ => phase6_bidirectional
  | run_phase7_auth _ => phase7_auth_hybrid
  | run_phase7_hybrid => phase7_hybrid_e2e
  | run_phase6_c2p => phase6_c2p
  | run_phase5 _ => phase5_auth_pq
  | run_phase3 _ => phase3_secure
  | run_phase2 => phase2_e2e
  | run_legacy d _ => if d then demo else legacy
  end.

(** Decides the hypothesis [command a = inr r] one test at a time. *)
Ltac by_cases :=
  repeat match goal with
         | H : inl _ = inr _ |- _ => discriminate H
         | H : inr _ = inr _ |- _ => injection H as <-
         | H : context [if ?b then _ else _] |- _ => destruct b eqn:?; cbn in H
         end.

(** Evaluates the comparisons of two modes. *)
Ltac compare_modes :=
  repeat match goal with
         | H : context [bool_decide (@eq execution_mode ?x ?y)] |- _ =>
             let b := eval vm_compute in (bool_decide (x = y)) in change (bool_decide (x = y)) with b in H
         | |- context [bool_decide (@eq execution_mode ?x ?y)] =>
             let b := eval vm_compute in (bool_decide (x = y)) in change (bool_decide (x = y)) with b
         end; cbn in *.

(** ** Consistent options *)

Lemma switch_fit m s o l :
  Forall (fun s => fits s.1 m = true) (omap (fun '(s, o) => (fun v : string => (s, v)) <$> o) ((s, o) :: l)) <->
  (o = None \/ fits s m = true) /\
  Forall (fun s => fits s.1 m = true) (omap (fun '(s, o) => (fun v : string => (s, v)) <$> o) l).
Proof. destruct o; cbn; [rewrite list.Forall_cons; cbn|]; intuition congruence. Qed.

Lemma switches_fit a :
  Forall (fun s => fits s.1 (mode a) = true) (switches a) <->
  (resume_negative_test_only a = None \/ fits ResumeNegative (mode a) = true) /\
  (phase3_negative a = None \/ fits Phase3Negative (mode a) = true) /\
  (phase5_negative a = None \/ fits Phase5Negative (mode a) = true) /\
  (phase6_negative a = None \/ fits Phase6Negative (mode a) = true) /\
  (phase7_negative_test_only a = None \/ fits Phase7Negative (mode a) = true) /\
  (v1_negative a = None \/ fits V1Negative (mode a) = true).
Proof. unfold switches. rewrite !switch_fit. cbn. rewrite list.Forall_nil. tauto. Qed.

Lemma checkpoints_one a :
  (length (checkpoints a) <= 1)%nat -> (checkpoints a <> [] -> v1_negative a = None) ->
  (v1_cp4 a = true -> v1_cp2 a = false /\ v1_cp3 a = false /\ v1_negative a = None) /\
  (v1_cp3 a = true -> v1_cp2 a = false /\ v1_negative a = None) /\
  (v1_cp2 a = true -> v1_negative a = None).
Proof.
  unfold checkpoints. destruct (v1_cp2 a), (v1_cp3 a), (v1_cp4 a); cbn; intros Hl Hn; try lia;
    repeat split; intros; try done; by apply Hn.
Qed.

(** Decides the options that are left. *)
Ltac by_options :=
  repeat match goal with
         | H : true = true -> _ |- _ => specialize (H eq_refl)
         | H : _ /\ _ |- _ => destruct H
         | H : _ \/ _ |- _ => destruct H
         | H : ?x = None |- _ => is_var x; subst x
         | H : ?x = false |- _ => is_var x; subst x
         | H : ?x <> ?x |- _ => by destruct H
         | H : false = true |- _ => discriminate H
         | H : true = false |- _ => discriminate H
         | H : Some _ = None |- _ => discriminate H
         | H : None = Some _ |- _ => discriminate H
         | H : @eq execution_mode _ _ |- _ => discriminate H
         | |- context [bool_decide (?x = Some _)] => case_bool_decide; subst; try discriminate; cbn
         | |- context [given ?x] => is_var x; destruct x; cbn
         | |- context [?b && _] => is_var b; destruct b; cbn
         | |- context [?b || _] => is_var b; destruct b; cbn
         | |- context [if ?b then _ else _] => is_var b; destruct b; cbn
         end.

(** The converse of what [main] and [parse_args] check. *)
Lemma consistent_runs a : consistent a -> exists r, command a = inr r.
Proof.
  intros (Hs & Hno & Hfull & Hpre & Hun & Hone & Hcp). apply switches_fit in Hs as (H0 & H3 & H5 & H6 & H7 & H1).
  destruct (checkpoints_one a Hone (fun Hn => proj2 (Hcp Hn))) as (C4 & C3 & C2).
  assert (bool_decide (mode a = v1_smp_l4_mlkem) = false -> v1_cp2 a = false /\ v1_cp3 a = false /\ v1_cp4 a = false) as Hno1.
  { intros Hm%bool_decide_eq_false. unfold checkpoints in Hcp.
    destruct (v1_cp2 a), (v1_cp3 a), (v1_cp4 a); try done; destruct Hm; apply Hcp; discriminate. }
  assert (bool_decide (mode a = v1_smp_l4_mlkem) = false -> v1_unpair_first a = false) as Hun'.
  { intros Hm%bool_decide_eq_false. destruct (v1_unpair_first a); [by destruct Hm; apply Hun|done]. }
  assert (no_sas_confirm a = false \/ unattended (mode a) = true) as Hno'
    by (destruct (no_sas_confirm a); [right; by apply Hno|by left]).
  assert (resume_full a = false \/ fits ResumeNegative (mode a) = true /\ resume_negative_test_only a = None) as Hfull'
    by (destruct (resume_full a); [right; by apply Hfull|by left]).
  assert (resume_negative_test_only a <> Some "pre-l4"%string \/ mode a = v11_smp_l4_mlkem_resume) as Hpre'
    by (destruct (decide (resume_negative_test_only a = Some "pre-l4"%string)); [right; by apply Hpre|by left]).
  clear Hcp Hone Hno Hfull Hpre Hun. unfold command, parse_args, new_profile, is_mode, error_if.
  destruct a as [dev no m full r3 p3 p5 p6 p7 v1n c2 c3 c4 un pt mt ll]. cbn in *.
  destruct m; compare_modes;
    repeat match goal with
           | H : false = false -> _ |- _ => specialize (H eq_refl)
           | H : true = false -> _ |- _ => clear H
           | H : _ /\ _ |- _ => destruct H
           | H : _ \/ false = true |- _ => destruct H as [H|H]; [|discriminate H]
           | H : _ \/ true = true |- _ => clear H
           | H : _ \/ false = true /\ _ |- _ => destruct H as [H|[H _]]; [|discriminate H]
           | H : ?x = None |- _ => subst x
           | H : ?x = false |- _ => subst x
           end; cbn; by_options; unfold main; cbn; by_options; eauto.
Qed.

(** The options a run reads besides its test. *)
Definition reads_options (r : runner) (a : args) : Prop :=
  match r with
  | run_resumption _ full _ => full = resume_full a
  | run_v1 cp _ unpair => checkpoints a = (match cp with CP1 => [] | _ => [cp] end) /\ unpair = v1_unpair_first a
  | run_legacy _ auto => auto = no_sas_confirm a
  | _ => True
  end.

Lemma command_status a status : command a = inl status -> status = 2.
Proof.
  unfold command. destruct (parse_args a) as [|b]; [by intros [= <-]|]. unfold main.
  repeat match goal with |- context [if ?c then _ else _] => destruct c end; congruence.
Qed.

Lemma runs_options a r :
  command a = inr r ->
  mode_of r = mode a /\ reads_options r a /\ switches a = option_list (switch_of r) /\
  (authenticated_run r = true -> no_sas_confirm a = false).
Proof.
  unfold command. destruct (parse_args a) as [m|b] eqn:Hp; [done|].
  apply parse_args_inv in Hp as (-> & Hold & _ & _ & Hnew & Hno & Hv1 & H7 & H4 & H3 & H2).
  unfold main, switches, reads_options, checkpoints, new_profile, is_mode, v1_checkpoint in *.
  destruct (mode a) eqn:Hm; compare_modes;
    repeat match goal with
           | H : true = true -> _ |- _ => specialize (H eq_refl)
           | H : false = false -> _ |- _ => specialize (H eq_refl)
           | H : _ /\ _ |- _ => destruct H
           | H : ?x = None |- _ => rewrite H in *; clear H
           | H : ?x = false |- _ => rewrite H in *; clear H
           end; cbn in *.
  all: intros Hr.
  all: repeat match type of Hr with
              | context [given ?o] => destruct o; cbn in Hr
              | context [no_sas_confirm ?x] => destruct (no_sas_confirm x); cbn in Hr
              end; try discriminate Hr; try (injection Hr as <-; cbn; by split_and!).
  all: injection Hr as <-; cbn.
  all: try (destruct (resume_negative_test_only a); by split_and!).
  destruct (v1_cp4 a); [destruct (H4 eq_refl) as (-> & -> & ->); by split_and!|].
  destruct (v1_cp3 a); [destruct (H3 eq_refl) as (-> & ->); by split_and!|].
  destruct (v1_cp2 a); [rewrite (H2 eq_refl)|]; split_and!; try done; by destruct (v1_negative a).
Qed.

Lemma switch_of_fits r : Forall (fun s => fits s.1 (mode_of r) = true) (option_list (switch_of r)).
Proof.
  destruct r as [[] ? n|? n ?|n|n| | |n|n| |? ?]; try destruct n; cbn; auto using list.Forall_cons_2, list.Forall_nil_2.
Qed.

Lemma unattended_mode r : authenticated_run r = false -> unattended (mode_of r) = true.
Proof. by destruct r as [[]| | | | | | | | |[]]. Qed.

Lemma runs_consistent a r : command a = inr r -> consistent a.
Proof.
  intros Hc. destruct (runs_options a r Hc) as (Hm & _ & Hs & Hn).
  unfold command in Hc. destruct (parse_args a) as [|b] eqn:Hp; [done|].
  apply parse_args_inv in Hp as (-> & Hold & Hfull & Hpre & _ & Hno & _ & _ & C4 & C3 & C2).
  unfold consistent. rewrite Hs, <- Hm. split_and!.
  - apply switch_of_fits.
  - intros Ha. apply unattended_mode. destruct (authenticated_run r); [by rewrite Hn in Ha|done].
  - intros Hf. split; [|by apply Hfull]. rewrite Hm. unfold new_profile, is_mode in Hold.
    destruct (mode a); try done; destruct (Hold eq_refl); congruence.
  - intros Hr%Hpre. rewrite Hm. by apply bool_decide_eq_true in Hr.
  - intros Hu. rewrite Hm. unfold is_mode in Hno.
    case_bool_decide; [done|]. destruct (Hno eq_refl); congruence.
  - unfold checkpoints. destruct (v1_cp4 a); [destruct (C4 eq_refl) as (-> & -> & _); cbn; lia|].
    destruct (v1_cp3 a); [destruct (C3 eq_refl) as (-> & _); cbn; lia|]. destruct (v1_cp2 a); cbn; lia.
  - unfold checkpoints, is_mode in *. intros Hne. rewrite Hm. case_bool_decide as Hv.
    + split; [done|]. destruct (v1_cp4 a); [by apply C4|]. destruct (v1_cp3 a); [by apply C3|].
      destruct (v1_cp2 a); [by apply C2|done].
    + destruct (Hno eq_refl) as (_ & _ & E2 & E3 & E4). rewrite E2, E3, E4 in Hne. done.
Qed.

(** C9. The command line starts exactly what it was asked for: a consistent line starts a run of its mode (and only
    a consistent one does; any other ends with status 2), the run is the negative test of the one switch given,
    which belongs to that mode, or no test when none was given, it takes the checkpoint, [--resume-full] and
    [--v1-unpair-first] as they were given, and a run that authenticates never has [--no-sas-confirm]. *)
Theorem command_explicit a :
  match command a with
  | inl status => status = 2 /\ ~ consistent a
  | inr r =>
      consistent a /\ mode_of r = mode a /\ reads_options r a /\ switches a = option_list (switch_of r) /\
      (authenticated_run r = true -> no_sas_confirm a = false)
  end.
Proof.
  destruct (command a) as [status|r] eqn:Hc.
  - split; [by eapply command_status|]. intros [r Hr]%consistent_runs. congruence.
  - split; [by eapply runs_consistent|by apply runs_options].
Qed.

(** A negative test of v1.0. *)
Definition demo_args : args :=
  mkArgs "PQ-BLE-Device" false v1_smp_l4_mlkem false None None None None None (Some "nc-reject"%string)
    false false false true 90 None "INFO".

Lemma command_explicit_witness :
  command demo_args = inr (run_v1 CP1 (Some "nc-reject"%string) true) /\
  switches demo_args = [(V1Negative, "nc-reject"%string)] /\ no_sas_confirm demo_args = false.
Proof.
  assert (command demo_args = inr (run_v1 CP1 (Some "nc-reject"%string) true)) as Hc by reflexivity.
  pose proof (command_explicit demo_args) as Ht. rewrite Hc in Ht.
  destruct Ht as (_ & _ & _ & Hn & Hs). exact (conj Hc (conj Hn (Hs eq_refl))).
Defined.
