(* ===== verification/CentralCli.v ===== *)
(** src/src/central/main.py: the coroutines that [main] awaits. Each makes its own
    client, scans and connects, awaits one runner, maps what comes back to an exit
    status, and disconnects. Printing and logging are left out; what is evaluated
    to be printed is kept where it can raise.

    The variables of an awaited coroutine are new when it is called, and so is the
    client; what the callbacks did to older ones is forgotten. *)

From S2P Require Import Prelude Py Interfaces World BleClient Runs Constants CommandLine V1Central Runner.
From S2P Require V1Smp V1Cp3 Cp2Central Cp3Central MlkemE2E Phase3Secure Phase5Auth Phase6Central Phase7Auth Phase7Hybrid.
From S2P Require Resumption ResumeStore ResumeCentral SessionStore Handshake CentralChannel.

#[local] Existing Instances Phase5Auth.phase5_program Cp2Central.cp2_program Cp2Central.cp2_v1_locals
  Cp3Central.cp3_program Cp3Central.cp3_v1_locals ResumeCentral.resume_program ResumeCentral.resume_v1_locals
  Handshake.handshake_program CentralChannel.channel_program.

Open Scope Z_scope.

(** [data.decode("ascii")]; [UnicodeDecodeError] is a [ValueError]. *)
Definition decode_ascii (data : bytes) : result bytes :=
  if forallb (fun x => Z_of_byte x <? 128) data then Ok data
  else Err (ValueError "'ascii' codec can't decode byte: ordinal not in range(128)").

(** * The shapes *)

Section Shapes.
Context {W L : Type} `{Env W, Program L}.

Abbreviation coroutine := (method (io W (host L))).

(** [client = BLECentralClient(device_name=args.device)] *)
Definition new_client (device_name : string) : coroutine unit :=
  update_own (on_client (fun _ => BLECentralClient_init device_name)).

Definition new_locals (l : L) : coroutine unit := update_own (on_local (fun _ => l)).

(** [try: m; except Exception: ...], where the handler only logs. *)
Definition best_effort (m : coroutine unit) : coroutine unit :=
  try_except is_exception (fun _ => mret tt) m.

(** Scanning in phases 2, 3, 5 and 6: [None] is a failure, after a disconnection. *)
Definition scan : coroutine (option bool) :=
  try_except is_exception (fun _ => best_effort disconnect;; mret None)
    (connected ← scan_and_connect; mret (Some connected)).

(** The whole coroutine of those phases, given its second [try] block. *)
Definition own_connection (device_name : string) (block : coroutine Z) : coroutine Z :=
  new_client device_name;;
  connected ← scan;
  match connected with
  | Some true => try_finally (best_effort disconnect) block
  | Some false | None => mret 1
  end.

(** [try: ...; return 0], with [except] clauses that end with [return 0] for the
    exceptions of [passed] and with [return 1] for the others. *)
Definition report (passed : exn -> bool) (body : coroutine unit) : coroutine Z :=
  try_except is_exception (fun exc => mret (if passed exc then 0 else 1)) (body;; mret 0).

(** [try: m; finally: cleanup], where [cleanup] may return a status of its own. *)
Definition finally_return (cleanup : coroutine (option Z)) (m : coroutine (option Z)) : coroutine (option Z) :=
  fun s => let (r, t) := m s in
           match cleanup t with
           | (Ok None, u) => (r, u)
           | (Ok (Some status), u) => (Ok (Some status), u)
           | (Err x, u) => (Err x, u)
           end.

(** The [except] clauses that let a negative test that passed fall through
    ([None]); everything else is status 1, and such an exception too when no
    negative test was asked for. *)
Definition negative_outcome (passed : exn -> bool) (negative_test : option string) (x : exn) : option Z :=
  if passed x && given negative_test then None else Some 1.

(** The [try] block of those coroutines, and what follows the [finally] block. *)
Definition scan_and_report (passed : exn -> bool) (negative_test : option string) (body : coroutine unit)
  : coroutine (option Z) :=
  try_except is_exception (fun exc => mret (negative_outcome passed negative_test exc))
    (connected ← scan_and_connect;
     if (connected : bool) then body;; mret (Some 0) else mret (Some 1)).

Definition status (outcome : option Z) : Z := default 0 outcome.
End Shapes.

(** * The coroutines *)

Section Runners.
Context {W : Type} `{Env W, Kem, Kdf, Aead, P256}.

Definition phase2_body : method (io W (host (runner unit))) unit :=
  result ← MlkemE2E.run_phase2_e2e;
  raise_when (negb (MlkemE2E.matches result))
    (ExperimentError "Phase 2 runner returned mismatched diagnostic checksums").

Definition _run_phase2_e2e_cli (device_name : string) : method (io W (host (runner unit))) Z :=
  own_connection device_name (report (fun _ => false) phase2_body).

Definition phase3_body (negative : option string) : method (io W (host (runner Phase3Secure.phase3_vars))) unit :=
  result ← Phase3Secure.run_phase3_secure negative;
  run (decode_ascii (Phase3Secure.plaintext result));;
  mret tt.

Definition _run_phase3_secure_cli (device_name : string) (negative : option string)
  : method (io W (host (runner Phase3Secure.phase3_vars))) Z :=
  own_connection device_name (report (fun _ => false) (phase3_body negative)).

Definition phase5_body (negative : option string) : method (io W (host Phase5Auth.phase5_locals)) unit :=
  result ← Phase5Auth.run_phase5_auth_pq negative;
  raise_when (given negative)
    (Phase5NegativeTestFailed "NEGATIVE TEST FAIL: corrupted authentication unexpectedly completed");;
  run (decode_ascii (Phase5Auth.plaintext result));;
  mret tt.

Definition phase5_passed (x : exn) : bool :=
  match x with Phase5NegativeTestPassed _ => true | _ => false end.

Definition _run_phase5_auth_pq_cli (device_name : string) (negative : option string)
  : method (io W (host Phase5Auth.phase5_locals)) Z :=
  own_connection device_name (report phase5_passed (phase5_body negative)).

(** The texts of one round trip. *)
Definition decode_round_trip (r : Phase6Central.Phase6RoundTripResult) : result unit :=
  decode_ascii (Phase6Central.c2p_plaintext r);;
  decode_ascii (Phase6Central.p2c_plaintext r);;
  mret tt.

Definition phase6_c2p_body : method (io W (host (runner Phase6Central.phase6_vars))) unit :=
  result ← Phase6Central.run_phase6_c2p;
  round_trip ← run (match Phase6Central.round_trips result with r :: _ => Ok r | [] => Err IndexError end);
  run (decode_round_trip round_trip).

Definition _run_phase6_c2p_cli (device_name : string) : method (io W (host (runner Phase6Central.phase6_vars))) Z :=
  own_connection device_name (report (fun _ => false) phase6_c2p_body).

Definition phase6_bidirectional_body (negative : option string)
  : method (io W (host (runner Phase6Central.phase6_vars))) unit :=
  result ← Phase6Central.run_phase6_bidirectional 3 negative;
  raise_when (given negative)
    (Phase6NegativeTestFailed "NEGATIVE TEST FAIL: deliberately invalid Phase 6 traffic unexpectedly completed");;
  for_each (fun round_trip => run (decode_round_trip round_trip)) (Phase6Central.round_trips result).

Definition phase6_passed (x : exn) : bool :=
  match x with Phase6NegativeTestPassed _ => true | _ => false end.

Definition _run_phase6_bidirectional_cli (device_name : string) (negative : option string)
  : method (io W (host (runner Phase6Central.phase6_vars))) Z :=
  own_connection device_name (report phase6_passed (phase6_bidirectional_body negative)).

Definition phase7_hybrid_body : method (io W (host (runner Phase7Hybrid.hybrid_vars))) unit :=
  Phase7Hybrid.run_phase7_hybrid_e2e;; mret tt.

Definition _run_phase7_hybrid_e2e_cli (device_name : string)
  : method (io W (host (runner Phase7Hybrid.hybrid_vars))) Z :=
  new_client device_name;;
  try_finally (best_effort disconnect)
    (report (fun _ => false)
       (connected ← scan_and_connect;
        raise_when (negb connected) (RuntimeError "Could not find the device");;
        phase7_hybrid_body)).

(** The runner waits at most 10 s for a notification. *)
Definition phase7_auth_body (negative_test : option string)
  : method (io W (host (runner Phase7Auth.phase7_vars))) unit :=
  Phase7Auth.run_phase7_authenticated_hybrid negative_test false (10 * SECOND);;
  raise_when (given negative_test) (Phase7AuthError "CP4 negative test returned a positive result").

Definition phase7_passed (x : exn) : bool :=
  match x with Phase7NegativeTestPassed _ => true | _ => false end.

Definition _run_phase7_auth_hybrid_cli (device_name : string) (negative_test : option string)
  : method (io W (host (runner Phase7Auth.phase7_vars))) Z :=
  new_client device_name;;
  outcome ← finally_return
    (try_except is_exception (fun _ => mret (if given negative_test then Some 1 else None))
       (disconnect;; mret None))
    (scan_and_report phase7_passed negative_test (phase7_auth_body negative_test));
  mret (status outcome).
End Runners.

(** * v1.0 *)

Section V1.
Context {W L : Type} `{Env W, V1Locals L}.
Variables (run_v1_cp : option string -> bool -> method (io W (host L)) V1CP1Result).
Variables (new : L) (checks : method (io W (host L)) unit) (clears : bool).

Abbreviation coroutine := (method (io W (host L))).

(** Between the connection and "PASS". *)
Definition v1_body (negative_test : option string) (unpair_first : bool) : coroutine unit :=
  new_locals new;;
  run_v1_cp negative_test unpair_first;;
  raise_when (given negative_test) (V1Error "CP1 negative test returned a positive result");;
  checks.

Definition v1_passed (x : exn) : bool :=
  match x with V1NegativeTestPassed _ => true | _ => false end.

(** [obj = getattr(client, ..., None); if obj is not None: obj.clear()] *)
Definition clear_held (slot : BLECentralClient -> option ref) : coroutine unit :=
  h ← get_own;
  match slot (client h) with
  | Some o => update_own (on_local (clear_object o))
  | None => mret tt
  end.

Definition leave_v1_cli : coroutine unit :=
  (if clears then clear_held _v1_cp4_session;; clear_held _v1_cp3_session else mret tt);;
  best_effort disconnect.

Definition _run_v1_smp_l4_mlkem_cli (device_name : string) (negative_test : option string)
    (unpair_first : bool) : coroutine Z :=
  new_client device_name;;
  outcome ← try_finally leave_v1_cli
    (scan_and_report v1_passed negative_test (v1_body negative_test unpair_first));
  mret (status outcome).
End V1.

Definition new_v1_run : v1_run := mkV1Run [] (V1CP1Result_init "") false false.

Definition new_cp2_locals : Cp2Central.cp2_locals :=
  Cp2Central.mkCp2Locals new_v1_run false false false [] [].

Definition new_cp3_locals : Cp3Central.cp3_locals :=
  Cp3Central.mkCp3Locals new_v1_run false false false false false 0 None [] V1Cp3.CentralHandshake_init
    false false false None None None [].

Section Checks.
Context {W : Type} `{Env W}.

Definition cp2_checks : method (io W (host Cp2Central.cp2_locals)) unit :=
  h ← get_own;
  let l := local h in
  raise_when (negb (Cp2Central.diagnostic_match l && Cp2Central.start_sent l && Cp2Central.ready_received l))
    (V1Error "CP2 returned without a verified diagnostic exchange").

(** The session and the application object of a new client can only be those of
    this run. *)
Definition session_secure (h : host Cp3Central.cp3_locals) : bool :=
  bool_decide (_v1_cp3_session (client h) = Some Cp3Central.SESSION)
  && bool_decide (V1Cp3.state (Cp3Central.session (local h)) = V1Cp3.APP_SECURE).

Definition two_rounds (h : host Cp3Central.cp3_locals) : bool :=
  (Cp3Central.authenticated_rounds (local h) =? 2)
  && bool_decide (_v1_cp4_session (client h) = Some Cp3Central.APPLICATION)
  && match Cp3Central.app (local h) with
     | Some f => (Cp3Central.fa_tx f =? 2) && (Cp3Central.fa_rx f =? 2)
     | None => false
     end
  && bool_decide (_v1_notify_link (client h) = _client (client h)).

Definition cp3_checks (cp4 : bool) : method (io W (host Cp3Central.cp3_locals)) unit :=
  h ← get_own;
  let l := local h in
  raise_when (negb (Cp3Central.start_sent l && Cp3Central.transcript_match l && Cp3Central.finished_c_sent l
                    && Cp3Central.finished_p_verified l && Cp3Central.app_secure l))
    (V1Error "CP3 returned without both FINISHED and APP_SECURE");;
  raise_when (negb (session_secure h)) (V1Error "CP3 connection/session invalidated before reporting");;
  connected ← is_connected;
  raise_when (negb connected || negb (bool_decide (_client (client h) = _v1_cp3_link (client h))))
    (V1Error "CP3 connection/session invalidated before reporting");;
  raise_when (cp4 && negb (two_rounds h))
    (V1Error "CP4 returned without two authenticated rounds on a live subscription").
End Checks.

(** * v0.8 and v1.1 *)

Definition new_resume_locals (store : ResumeStore.TicketStore) : ResumeCentral.resume_locals :=
  ResumeCentral.mkResumeLocals new_v1_run false [] None None None
    (ResumeCentral.mkResumeVars None [] [] store ResumeCentral.Result_init).

Section Resume.
Context {W : Type} `{Env W, Kem, Kdf, Aead, P256}.
Variables (file_size : Resumption.Ticket -> Z) (store : ResumeStore.TicketStore).

Definition resumption_body (v08 force_full : bool) (negative : option string)
  : method (io W (host ResumeCentral.resume_locals)) unit :=
  new_locals (new_resume_locals store);;
  ResumeCentral.run_session file_size (if v08 then Resumption.V08 else Resumption.V11) force_full negative None;;
  mret tt.

Definition resumption_passed (x : exn) : bool :=
  match x with NegativePassed _ => true | _ => false end.

(** Nothing guards the disconnection. *)
Definition _run_resumption_cli (device_name : string) (v08 force_full : bool) (negative : option string)
  : method (io W (host ResumeCentral.resume_locals)) Z :=
  new_client device_name;;
  try_finally disconnect
    (try_except is_exception (fun exc => mret (if resumption_passed exc then 0 else 1))
       (connected ← scan_and_connect;
        if (connected : bool) then resumption_body v08 force_full negative;; mret 0 else mret 1)).
End Resume.

(** * The legacy run: [main] from [_load_legacy_components] on

    The handshake and the channel are objects of this coroutine; a notification
    goes to the handler that subscribed last, which is the channel's from
    [start_receiving] on. *)
Record legacy_locals := mkLegacyLocals {
  lg_handshake : Handshake.CentralHandshake;
  lg_channel : option CentralChannel.CentralSecureChannel;
}.

#[export] Instance legacy_program `{Aead} : Program legacy_locals := {
  clear_object _ l := l;
  on_data x b data l :=
    match lg_channel l with
    | Some ch => mkLegacyLocals (lg_handshake l) (Some (on_data x b data ch))
    | None => mkLegacyLocals (on_data x b data (lg_handshake l)) None
    end;
}.

(** Whitespace of [str.strip], and [str.lower], in ASCII. *)
Definition is_blank (c : Ascii.ascii) : bool :=
  let n := Ascii.nat_of_ascii c in ((9 <=? n) && (n <=? 13) || (28 <=? n) && (n <=? 32))%nat.

Definition lower_char (c : Ascii.ascii) : Ascii.ascii :=
  let n := Ascii.nat_of_ascii c in
  if ((65 <=? n) && (n <=? 90))%nat then Ascii.ascii_of_nat (n + 32) else c.

Definition lower (s : string) : string :=
  String.string_of_list_ascii (map lower_char (String.list_ascii_of_string s)).

Definition blank (s : string) : bool := forallb is_blank (String.list_ascii_of_string s).

(** [isinstance(exc, RuntimeError)]. *)
Definition is_runtime_error (x : exn) : bool :=
  match x with
  | RuntimeError _ | Phase5StateError _ | Phase5AuthError _ | Phase5NegativeTestFailed _
  | Phase5NegativeTestPassed _ | Phase7AuthError _ | Phase7NegativeTestPassed _ | V1Error _
  | V1ErrorFrom _ _ | V1NegativeTestInconclusive _ | V1NegativeTestPassed _ | NegativePassed _
  | PairingError _ | Phase6BidirectionalError _ | Phase6NegativeTestFailed _
  | Phase6NegativeTestPassed _ | ExperimentError _ => true
  | _ => false
  end.

(** [except KeyboardInterrupt]. *)
Definition is_keyboard_interrupt (x : exn) : bool := bool_decide (x = KeyboardInterrupt).

(** The SAS callback of --no-sas-confirm answers without asking anybody. *)
Definition sas_callback {W} (auto_accept : bool) (e : Env W) : Env W :=
  if auto_accept then
    {| ask := @ask W e;
       await a w := match a as a return list event * result (value a) * W with
                    | Confirm _ => ([], Ok true, w)
                    | a => @await W e a w
                    end |}
  else e.

Section Legacy.
Context {W : Type} `{E : Env W, Kem, Kdf, Aead}.

Abbreviation coroutine := (method (io W (host legacy_locals))).

Definition update_legacy (f : legacy_locals -> legacy_locals) : coroutine unit := update_own (on_local f).

(** A coroutine of the handshake, before there is a channel. *)
Definition in_handshake {A} (m : method (io W (host Handshake.CentralHandshake)) A) : coroutine A :=
  fun s =>
    let h := self s in
    let (r, t) := m (mkIo (world s) (mkHost (client h) (links h) (lg_handshake (local h))) (trace s)) in
    (r, mkIo (world t) (mkHost (client (self t)) (links (self t))
                          (mkLegacyLocals (local (self t)) (lg_channel (local h)))) (trace t)).

(** A coroutine of the channel. *)
Definition in_channel {A} (m : method (io W (host CentralChannel.CentralSecureChannel)) A) : coroutine A :=
  fun s =>
    let h := self s in
    match lg_channel (local h) with
    | None => (Err AttributeError, s)
    | Some ch =>
        let (r, t) := m (mkIo (world s) (mkHost (client h) (links h) ch) (trace s)) in
        (r, mkIo (world t) (mkHost (client (self t)) (links (self t))
                              (mkLegacyLocals (lg_handshake (local h)) (Some (local (self t))))) (trace t))
    end.

Definition SESSION_STORE_PATH : string := "data/keys/session_store.json".

(** [store = SessionStore(SESSION_STORE_PATH)] and its listing. *)
Definition open_store (sessions : SessionStore.json_file) : coroutine unit :=
  now ← query_env Now;
  store ← run (SessionStore.SessionStore_init SESSION_STORE_PATH REHANDSHAKE_HOURS REHANDSHAKE_SESSIONS sessions now);
  new_locals (mkLegacyLocals (Handshake.CentralHandshake_init (Some store)) None);;
  in_handshake (Handshake.on_store SessionStore.count);;
  n ← in_handshake (Handshake.on_store SessionStore.count);
  if 0 <? n then
    ids ← in_handshake (Handshake.on_store SessionStore.list_ids);
    for_each (fun _ => query_env Now;; mret tt) ids
  else mret tt.

(** The interactive loop, given the lines that are typed until the end of input;
    the task that prints what is received is not part of it. *)
Fixpoint interactive (typed : list string) : coroutine unit :=
  perform Wait;;
  match typed with
  | [] => mret tt
  | message :: rest =>
      if bool_decide (lower message = "quit"%string) then mret tt
      else
        (if blank message then mret tt else in_channel (CentralChannel.send (lit message)));;
        interactive rest
  end.

(** --demo; it returns 0 whether or not a notification arrives. *)
Definition run_demo : coroutine unit :=
  in_channel (CentralChannel.start_receiving false);;
  send_control (lit "START");;
  in_channel (CentralChannel.receive (10 * SECOND));;
  mret tt.

(** The [try] block after the handshake. *)
Definition use_channel (demo : bool) (typed : list string) (session_key : bytes) : coroutine unit :=
  h ← get_own;
  channel ← run (CentralChannel.CentralSecureChannel_init session_key (Handshake._session_id (lg_handshake (local h))));
  update_legacy (fun l => mkLegacyLocals (lg_handshake l) (Some channel));;
  if demo then run_demo
  else in_channel (CentralChannel.start_receiving true);; interactive typed.

(** The [try] block: [handshake = CentralHandshake(client, session_store=store)], ... *)
Definition legacy_body (demo auto_accept : bool) (typed : list string) : coroutine unit :=
  update_legacy (fun l =>
    mkLegacyLocals (Handshake.CentralHandshake_init (Handshake._store (lg_handshake l))) None);;
  session_key ← in_handshake (@Handshake.run_handshake W (sas_callback auto_accept E) _ _);
  use_channel demo typed session_key.

(** The [finally] block. *)
Definition leave_legacy : coroutine unit :=
  h ← get_own;
  match lg_channel (local h) with Some _ => in_channel CentralChannel.stop | None => mret tt end;;
  disconnect.

(** A control-C during the block is logged, and the coroutine still returns 0. *)
Definition legacy_main (sessions : SessionStore.json_file) (typed : list string) (device_name : string)
    (demo auto_accept : bool) : coroutine Z :=
  open_store sessions;;
  new_client device_name;;
  connected ← scan_and_connect;
  if negb connected then mret 1
  else try_finally leave_legacy
         (try_except is_keyboard_interrupt (fun _ => mret 0)
            (try_except is_runtime_error (fun _ => mret 1) (legacy_body demo auto_accept typed;; mret 0))).
End Legacy.

(** * What [main] awaits *)

(** The variables of each run. *)
Definition locals_of (r : CommandLine.runner) : Type :=
  match r with
  | run_resumption _ _ _ => ResumeCentral.resume_locals
  | run_v1 CP1 _ _ => v1_run
  | run_v1 CP2 _ _ => Cp2Central.cp2_locals
  | run_v1 (CP3 | CP4) _ _ => Cp3Central.cp3_locals
  | run_phase6_bidirectional _ | run_phase6_c2p => runner Phase6Central.phase6_vars
  | run_phase7_auth _ => runner Phase7Auth.phase7_vars
  | run_phase7_hybrid => runner Phase7Hybrid.hybrid_vars
  | run_phase5 _ => Phase5Auth.phase5_locals
  | run_phase3 _ => runner Phase3Secure.phase3_vars
  | run_phase2 => runner unit
  | run_legacy _ _ => legacy_locals
  end.

Section Dispatch.
Context {W : Type} `{Env W, Kem, Kdf, Aead, P256}.
Variables (file_size : Resumption.Ticket -> Z) (store : ResumeStore.TicketStore).
Variables (sessions : SessionStore.json_file) (typed : list string).

#[export] Instance program_of (r : CommandLine.runner) : Program (locals_of r) :=
  match r return Program (locals_of r) with
  | run_resumption _ _ _ => ResumeCentral.resume_program
  | run_v1 CP1 _ _ => v1_program
  | run_v1 CP2 _ _ => Cp2Central.cp2_program
  | run_v1 (CP3 | CP4) _ _ => Cp3Central.cp3_program
  | run_phase6_bidirectional _ | run_phase6_c2p => runner_program _
  | run_phase7_auth _ => runner_program _
  | run_phase7_hybrid => runner_program _
  | run_phase5 _ => Phase5Auth.phase5_program
  | run_phase3 _ => runner_program _
  | run_phase2 => runner_program _
  | run_legacy _ _ => legacy_program
  end.

(** The coroutine of a runner, with the options it was given. *)
Definition start (device_name : string) (r : CommandLine.runner) : method (io W (host (locals_of r))) Z :=
  match r return method (io W (host (locals_of r))) Z with
  | run_resumption v08 full negative => _run_resumption_cli file_size store device_name v08 full negative
  | run_v1 CP1 negative unpair =>
      _run_v1_smp_l4_mlkem_cli run_v1_cp1 new_v1_run (mret tt) false device_name negative unpair
  | run_v1 CP2 negative unpair =>
      _run_v1_smp_l4_mlkem_cli Cp2Central.run_v1_cp2 new_cp2_locals cp2_checks false device_name negative unpair
  | run_v1 CP3 negative unpair =>
      _run_v1_smp_l4_mlkem_cli Cp3Central.run_v1_cp3 new_cp3_locals (cp3_checks false) true device_name negative unpair
  | run_v1 CP4 negative unpair =>
      _run_v1_smp_l4_mlkem_cli Cp3Central.run_v1_cp4 new_cp3_locals (cp3_checks true) true device_name negative unpair
  | run_phase6_bidirectional negative => _run_phase6_bidirectional_cli device_name negative
  | run_phase6_c2p => _run_phase6_c2p_cli device_name
  | run_phase7_auth negative => _run_phase7_auth_hybrid_cli device_name negative
  | run_phase7_hybrid => _run_phase7_hybrid_e2e_cli device_name
  | run_phase5 negative => _run_phase5_auth_pq_cli device_name negative
  | run_phase3 negative => _run_phase3_secure_cli device_name negative
  | run_phase2 => _run_phase2_e2e_cli device_name
  | run_legacy d auto_accept => legacy_main sessions typed device_name d auto_accept
  end.

(** What is awaited once the client is connected, up to "PASS". *)
Definition body_of (r : CommandLine.runner) : method (io W (host (locals_of r))) unit :=
  match r return method (io W (host (locals_of r))) unit with
  | run_resumption v08 full negative => resumption_body file_size store v08 full negative
  | run_v1 CP1 negative unpair => v1_body run_v1_cp1 new_v1_run (mret tt) negative unpair
  | run_v1 CP2 negative unpair => v1_body Cp2Central.run_v1_cp2 new_cp2_locals cp2_checks negative unpair
  | run_v1 CP3 negative unpair => v1_body Cp3Central.run_v1_cp3 new_cp3_locals (cp3_checks false) negative unpair
  | run_v1 CP4 negative unpair => v1_body Cp3Central.run_v1_cp4 new_cp3_locals (cp3_checks true) negative unpair
  | run_phase6_bidirectional negative => phase6_bidirectional_body negative
  | run_phase6_c2p => phase6_c2p_body
  | run_phase7_auth negative => phase7_auth_body negative
  | run_phase7_hybrid => phase7_hybrid_body
  | run_phase5 negative => phase5_body negative
  | run_phase3 negative => phase3_body negative
  | run_phase2 => phase2_body
  | run_legacy d auto_accept => legacy_body d auto_accept typed
  end.
End Dispatch.
