(* ===== verification/CliShapes.v ===== *)
(** The shapes of the coroutines of CentralCli: what an outcome of each shape says
    of the block inside it. A status 0 comes from a block that ran between one
    connection and one disconnection; nothing but a cancellation or an interrupt
    escapes, and no session stays shared. *)

From S2P Require Import Prelude Py World BleClient Policy CommandLine V1Central Runner CentralCli.
Open Scope Z_scope.

(** * Connecting and disconnecting *)

Section Connection.
Context {W L : Type} `{Env W, Program L}.
Implicit Types (s : io W (host L)) (h : host L).

Lemma perform_outcome a s :
  exists evs, trace (perform a s).2 = trace s ++ Did a (perform a s).1 :: map Heard evs /\
    self (perform a s).2 = fold_left (fun x e => hear e x) evs (self s).
Proof. unfold perform. destruct (await a (world s)) as [[evs r] w]. by exists evs. Qed.

(** Kept by every callback. *)
Definition heard_keeps (I : host L -> Prop) : Prop := forall e h, I h -> I (hear e h).

Lemma events_keep I evs h : heard_keeps I -> I h -> I (fold_left (fun x e => hear e x) evs h).
Proof. intros HI. revert h. induction evs as [|e evs IH]; intros h Hh; cbn; [done|]. by apply IH, HI. Qed.

Lemma idle_heard : heard_keeps (fun h => idle (client h)).
Proof. intros e h Hi. by apply hear_idle. Qed.

(** The requests of a successful scan, and the link they leave. *)
Definition connected_to (name : string) (t : list observed) (x : BLECentralClient) : Prop :=
  exists c, _client x = Some c /\ ops t = [FindByName name; Connect c] /\ Did (Connect c) (Ok tt) ∈ t.

Definition closing (a : action) : Prop :=
  match a with Disconnect _ | StopNotify _ _ => True | _ => False end.

(** [t] was added, and it only closes. *)
Definition closes s s' : Prop := exists t, trace s' = trace s ++ t /\ Forall closing (ops t).

Lemma closes_same s s' : trace s' = trace s -> closes s s'.
Proof. intros Ht. exists []. by rewrite app_nil_r. Qed.

Lemma closes_trans s1 s2 s3 : closes s1 s2 -> closes s2 s3 -> closes s1 s3.
Proof.
  intros (t & Ht & Hc) (u & Hu & Hd). exists (t ++ u). rewrite Hu, Ht, app_assoc. split; [done|].
  rewrite ops_app. by apply Forall_app.
Qed.

(** [J]: what the callbacks keep of the variables. *)
Section Kept.
Variable J : L -> Prop.
Context {HJ : Kept (fun l _ => J l)}.

Lemma local_heard : heard_keeps (fun h => J (local h)).
Proof. intros e h Hj. by apply (hear_kept (fun l _ => J l) e h []). Qed.

Lemma local_clear h : J (local h) -> J (local (clear_v1_cp3 h)).
Proof. intros Hj. by apply (clear_v1_cp3_kept (fun l _ => J l) h []). Qed.

Lemma disconnect_outcome s :
  let (r, s') := disconnect s in
  idle (client (self s')) /\ closes s s' /\ (J (local (self s)) -> J (local (self s'))).
Proof.
  unfold disconnect, is_connected, backend, raw_client, get_own, update_own. meth. cbn [self world trace].
  pose proof (clear_v1_cp3_idle (self s)) as (Hi & _ & _). rewrite clear_v1_cp3_client.
  destruct (_client (client (self s))) as [c|] eqn:Hc; cycle 1.
  { cbn. split; [done|]. split; [by apply closes_same|apply local_clear]. }
  unfold query_env. cbn [self world trace]. destruct (ask (IsConnected c) (world s)) as [[] w]; cycle 1.
  { cbn. split; [done|]. split; [by apply closes_same|apply local_clear]. }
  cbn [self world trace]. rewrite clear_v1_cp3_client, Hc. cbn [answer].
  destruct (perform_outcome (Disconnect c) (mkIo w (clear_v1_cp3 (self s)) (trace s))) as (evs & Ht & Hs).
  destruct (perform _ _) as [r s']. cbn [fst snd self trace] in *. rewrite Hs. split_and!.
  - by apply (events_keep (fun h => idle (client h))); [apply idle_heard|].
  - eexists. split; [exact Ht|]. cbn. rewrite ops_heard. by repeat constructor.
  - intros Hj. by apply (events_keep (fun h => J (local h))); [apply local_heard|apply local_clear].
Qed.

Lemma scan_outcome s :
  idle (client (self s)) ->
  let (r, s') := scan_and_connect s in
  idle (client (self s')) /\ (J (local (self s)) -> J (local (self s'))) /\
  exists t, trace s' = trace s ++ t /\
    (r = Ok true -> connected_to (_device_name (client (self s))) t (client (self s'))).
Proof.
  intros Hi. unfold scan_and_connect, get_own, update_own, new_link, mtu_size, raw_client, get_own, update_own.
  meth. cbn [self world trace].
  set (name := _device_name (client (self s))).
  destruct (perform_outcome (FindByName name) s) as (evs & Ht & Hs).
  destruct (perform (FindByName name) s) as [[[d|]|x] s1]; cbn [fst snd] in *; cycle 1.
  { cbn. rewrite Hs. split; [by apply (events_keep (fun h => idle (client h))); [apply idle_heard|]|].
    split; [by apply (events_keep (fun h => J (local h))), local_heard|]. by eexists. }
  { rewrite Hs. split; [by apply (events_keep (fun h => idle (client h))); [apply idle_heard|]|].
    split; [by apply (events_keep (fun h => J (local h))), local_heard|]. by eexists. }
  cbn [self world trace client links local on_client].
  set (h2 := clear_v1_cp3 _).
  assert (idle (client h2)) as Hi2 by apply clear_v1_cp3_idle.
  assert (J (local (self s)) -> J (local h2)) as Hj2.
  { intros Hj. apply local_clear. cbn. rewrite Hs. by apply (events_keep (fun h => J (local h))); [apply local_heard|]. }
  set (c := mkLink (links h2) false).
  destruct (perform_outcome (Connect c)
    (mkIo (world s1) (on_client (fun x => set_client (Some c) (_device x) x)
       (mkHost (client h2) (links h2 + 1) (local h2))) (trace s1))) as (evs' & Ht' & Hs').
  assert (forall r s', self s' = fold_left (fun x e => hear e x) evs'
       (on_client (fun x => set_client (Some c) (_device x) x) (mkHost (client h2) (links h2 + 1) (local h2))) ->
     trace s' = trace s1 ++ Did (Connect c) r :: map Heard evs' ->
     _client (client (self s')) = Some c /\ idle (client (self s')) /\
     (J (local (self s)) -> J (local (self s'))) /\
     trace s' = trace s ++ (Did (FindByName name) (Ok (Some d)) :: map Heard evs) ++ Did (Connect c) r :: map Heard evs') as Hend.
  { intros r s' Hs2 Ht2. rewrite Hs2, Ht2, Ht, <- app_assoc. split_and!.
    - by rewrite events_client.
    - by apply (events_keep (fun h => idle (client h))); [apply idle_heard|].
    - intros Hj. by apply (events_keep (fun h => J (local h))); [apply local_heard|apply Hj2].
    - done. }
  destruct (perform (Connect c) _) as [[[]|x] s2]; cbn [fst snd self trace] in *;
    destruct (Hend _ s2 Hs' Ht') as (Hcl & Hid & Hjj & Htr); cycle 1.
  { split; [done|]. split; [done|]. eexists. split; [exact Htr|done]. }
  rewrite Hcl. unfold query_env. destruct (ask (MtuSize c) (world s2)) as [m w]. cbn [self trace].
  split; [done|]. split; [done|]. eexists. split; [exact Htr|]. intros _. exists c. split; [done|].
  rewrite ops_app. cbn. rewrite !ops_heard. split; [done|].
  right. apply elem_of_app. right. by left.
Qed.
End Kept.

(** An exception of the scan is one of the backend. *)
Lemma scan_raises s x s' : scan_and_connect s = (Err x, s') -> exists a w, (await a w).1.2 = Err x.
Proof.
  unfold scan_and_connect, get_own, update_own, new_link, mtu_size, raw_client, get_own, update_own, perform.
  meth. cbn [self world trace].
  destruct (await (FindByName _) (world s)) as [[evs r] w] eqn:Hf.
  destruct r as [[d|]|y]; [|done|]; cycle 1.
  { intros [= <- _]. eexists (FindByName _), (world s). by rewrite Hf. }
  cbn [self world trace].
  match goal with |- context [await (Connect ?c) ?v] => destruct (await (Connect c) v) as [[evs' r] w'] eqn:Hc end.
  destruct r as [[]|y]; cycle 1.
  { intros [= <- _]. eexists (Connect _), _. by rewrite Hc. }
  cbn [self world trace]. destruct (_client _); [|done].
  unfold query_env. by destruct (ask _ _).
Qed.
End Connection.

(** * The shapes *)

Section Shapes.
Context {W L : Type} `{Env W, Program L}.
Implicit Types (s : io W (host L)) (body : method (io W (host L)) unit).

(** [body] ran between one connection to [name] and one disconnection, from
    variables of [J]; it returned, or raised an exception of [passed]. *)
Definition ran (name : string) body (passed : exn -> bool) (J : L -> Prop) s s' : Prop :=
  exists s1 r s2,
    (exists t, trace s1 = trace s ++ t /\ connected_to name t (client (self s1)) /\ J (local (self s1))) /\
    body s1 = (r, s2) /\ (r = Ok tt \/ exists x, r = Err x /\ passed x = true) /\ closes s2 s'.

(** A cancellation or an interrupt: what [except Exception] does not catch. *)
Definition aborted {A} (r : result A) : Prop := exists x, r = Err x /\ is_exception x = false.

Lemma aborted_inv {A} (r : result A) : aborted r -> r = Err CancelledError \/ r = Err KeyboardInterrupt.
Proof. intros (x & -> & Hx). destruct x; try discriminate Hx; auto. Qed.

Lemma aborted_err {A} x : is_exception x = false -> aborted (Err x : result A).
Proof. by exists x. Qed.
#[local] Hint Resolve aborted_err : core.

(** Status 0 or 1, or a cancellation or an interrupt. *)
Definition settled (r : result Z) : Prop := r = Ok 0 \/ r = Ok 1 \/ aborted r.

Definition any_locals : L -> Prop := fun _ => True.

#[export] Instance kept_any : Kept (fun l _ => any_locals l).
Proof. by split. Qed.

Lemma best_effort_outcome s :
  let (r, s') := best_effort disconnect s in
  idle (client (self s')) /\ closes s s' /\ (r = Ok tt \/ aborted r).
Proof.
  unfold best_effort, try_except. pose proof (disconnect_outcome any_locals s) as Hd.
  destruct (disconnect s) as [[[]|x] s']; destruct Hd as (Hi & Hc & _).
  - split_and!; [done|done|by left].
  - destruct (is_exception x) eqn:Hx; [split_and!; [done|done|by left]|].
    split_and!; [done|done|]. right. by apply aborted_err.
Qed.

Lemma new_client_eq name s :
  new_client name s =
    (Ok tt, mkIo (world s) (mkHost (BLECentralClient_init name) (links (self s)) (local (self s))) (trace s)).
Proof. done. Qed.

(** The state of a new client. *)
Abbreviation started name s :=
  (mkIo (world s) (mkHost (BLECentralClient_init name) (links (self s)) (local (self s))) (trace s)).

Lemma report_outcome passed body s :
  let (r, s') := report passed body s in
  settled r /\ (r = Ok 0 -> exists q, body s = (q, s') /\ (q = Ok tt \/ exists x, q = Err x /\ passed x = true)).
Proof.
  unfold report, try_except. meth. destruct (body s) as [[[]|x] s'].
  - split; [by left|]. intros _. exists (Ok tt). split; [done|by left].
  - destruct (is_exception x) eqn:Hx.
    + destruct (passed x) eqn:Hp; (split; [unfold settled; auto|]); [|done].
      intros _. exists (Err x). eauto.
    + split; [unfold settled; auto|done].
Qed.

(** A block that is followed by a disconnection. *)
Lemma finally_outcome {A} (m : method (io W (host L)) A) s :
  let (r, s') := try_finally (best_effort disconnect) m s in
  idle (client (self s')) /\ exists q s1, m s = (q, s1) /\ closes s1 s' /\ (r = q \/ aborted r).
Proof.
  unfold try_finally. destruct (m s) as [q s1]. pose proof (best_effort_outcome s1) as Hb.
  destruct (best_effort disconnect s1) as [u s']. destruct Hb as (Hi & Hc & [->|(x & -> & Hx)]);
    (split; [done|]); exists q, s1; auto.
Qed.

Lemma own_connection_outcome name passed body s :
  let (r, s') := own_connection name (report passed body) s in
  settled r /\ idle (client (self s')) /\ (r = Ok 0 -> ran name body passed any_locals s s').
Proof.
  unfold own_connection, scan, try_except. unfold mbind, method_bind, mret, method_ret. rewrite new_client_eq.
  pose proof (scan_outcome any_locals (started name s)) as Hs.
  destruct (scan_and_connect _) as [[[]|x] s1]; destruct Hs as (Hi & _ & t & Ht & Hc); try done.
  - pose proof (finally_outcome (report passed body) s1) as Hf.
    destruct (try_finally _ _ s1) as [r s']. destruct Hf as (Hi' & q & s2 & Hm & Hcl & Hr).
    pose proof (report_outcome passed body s1) as Hrep. rewrite Hm in Hrep. destruct Hrep as [Hset Hz].
    split; [destruct Hr as [->|Ha]; [done|unfold settled; auto]|]. split; [done|]. intros ->.
    destruct Hr as [<-|(? & [=] & _)]. destruct (Hz eq_refl) as (q & Hb & Hq). exists s1, q, s2.
    split; [|done]. exists t. split; [done|]. split; [by apply Hc|done].
  - split; [unfold settled; auto|]. split; [done|done].
  - pose proof (best_effort_outcome s1) as Hb. destruct (is_exception x) eqn:Hx; cycle 1.
    { split; [unfold settled; auto|done]. }
    destruct (best_effort disconnect s1) as [u s']. destruct Hb as (Hi' & _ & [->|(y & -> & Hy)]);
      (split; [unfold settled; auto|]); by split.
Qed.

(** The block that scans inside, with the exceptions of the backend kept apart. *)
Section ScanInside.
Variables (passed : exn -> bool) (name : string).
Hypothesis Hforeign : forall (a : action) (w : W) x, (await a w).1.2 = Err x -> passed x = false.

(** Status 0 or a fall-through, after a run of the body from [s] to [s']. *)
Definition ran_to body (ok : exn -> bool) s s' : Prop :=
  exists s1 r t, trace s1 = trace s ++ t /\ connected_to name t (client (self s1)) /\
    body s1 = (r, s') /\ (r = Ok tt \/ exists x, r = Err x /\ ok x = true).

Lemma ran_of body ok s s1 s' : ran_to body ok s s1 -> closes s1 s' -> ran name body ok any_locals s s'.
Proof. intros (s0 & r & t & Ht & Hc & Hb & Hr) Hcl. exists s0, r, s1. by split; [exists t|]. Qed.

Lemma scan_and_report_outcome negative body s :
  let (r, s') := scan_and_report passed negative body (started name s) in
  (exists o, (r = Ok o /\ (o = None \/ o = Some 0 \/ o = Some 1)) \/ aborted r) /\
  forall o, r = Ok o -> status o = 0 -> ran_to body (fun x => passed x && given negative) s s'.
Proof.
  unfold scan_and_report, try_except. unfold mbind, method_bind, mret, method_ret.
  pose proof (scan_outcome any_locals (started name s)) as Hs. pose proof (scan_raises (started name s)) as Hx.
  destruct (scan_and_connect _) as [[[]|x] s1]; destruct Hs as (_ & _ & t & Ht & Hc); try done.
  - destruct (body s1) as [[[]|x] s'] eqn:Hb.
    + split; [exists (Some 0); by auto|]. intros o [= <-] _.
      exists s1, (Ok tt), t. split_and!; [done|by apply Hc|done|by left].
    + destruct (is_exception x) eqn:Hex; cycle 1.
      { split; [exists None; right; by apply aborted_err|done]. }
      unfold negative_outcome. destruct (passed x && given negative) eqn:Hp.
      * split; [exists None; by auto|]. intros o [= <-] _.
        exists s1, (Err x), t. split_and!; [done|by apply Hc|done|right; by exists x].
      * split; [exists (Some 1); by auto|]. by intros o [= <-].
  - split; [exists (Some 1); by auto|]. by intros o [= <-].
  - destruct (Hx x s1 eq_refl) as (a & w & Ha). unfold negative_outcome. rewrite (Hforeign a w x Ha). cbn.
    destruct (is_exception x) eqn:Hex.
    + split; [exists (Some 1); by auto|]. by intros o [= <-].
    + split; [exists None; right; by apply aborted_err|done].
Qed.

(** The coroutine of the hybrid agreement of v0.7: not finding the device is an
    exception of the block. *)
Lemma inside_outcome body exc s :
  is_exception exc = true -> passed exc = false ->
  let (r, s') := (new_client name;;
                  try_finally (best_effort disconnect)
                    (report passed (connected ← scan_and_connect; raise_when (negb connected) exc;; body))) s in
  settled r /\ idle (client (self s')) /\ (r = Ok 0 -> ran name body passed any_locals s s').
Proof.
  intros Hexc Hp. unfold mbind at 1, method_bind at 1. rewrite new_client_eq.
  set (inner := (connected ← scan_and_connect; raise_when (negb connected) exc;; body)).
  pose proof (finally_outcome (report passed inner) (started name s)) as Hf.
  destruct (try_finally _ _ _) as [r s']. destruct Hf as (Hi & q & s1 & Hm & Hcl & Hr).
  pose proof (report_outcome passed inner (started name s)) as Hrep. rewrite Hm in Hrep. destruct Hrep as [Hset Hz].
  split; [destruct Hr as [->|Ha]; [done|unfold settled; auto]|]. split; [done|]. intros ->.
  destruct Hr as [<-|(? & [=] & _)]. destruct (Hz eq_refl) as (q & Hb & Hq). apply (ran_of _ _ _ s1); [|done].
  revert Hb. unfold inner, mbind, method_bind.
  pose proof (scan_outcome any_locals (started name s)) as Hs. pose proof (scan_raises (started name s)) as Hx.
  destruct (scan_and_connect _) as [[[]|x] s2]; destruct Hs as (_ & _ & t & Ht & Hc); try done; cbn.
  - intros Hb. exists s2, q, t. split_and!; [done|by apply Hc|done|done].
  - intros [= <- <-]. destruct Hq as [|(x & [= <-] & Hpx)]; congruence.
  - intros [= <- <-]. destruct Hq as [|(y & [= <-] & Hpx)]; [done|].
    destruct (Hx x s2 eq_refl) as (a & w & Ha). by rewrite (Hforeign a w x Ha) in Hpx.
Qed.

Abbreviation allowed negative := (fun x => passed x && given negative).

(** A disconnection whose failure is a status in a negative test. *)
Definition disconnect_or (negative : option string) : method (io W (host L)) (option Z) :=
  try_except is_exception (fun _ => mret (if given negative then Some 1 else None)) (disconnect;; mret None).

Lemma disconnect_or_outcome negative s :
  let (r, s') := disconnect_or negative s in
  idle (client (self s')) /\ closes s s' /\ (r = Ok None \/ r = Ok (Some 1) \/ aborted r).
Proof.
  unfold disconnect_or, try_except, mbind, method_bind, mret, method_ret.
  pose proof (disconnect_outcome any_locals s) as Hd.
  destruct (disconnect s) as [[[]|x] s']; destruct Hd as (Hi & Hc & _); [by auto|].
  destruct (is_exception x) eqn:Hx; [destruct (given negative); by auto|].
  split_and!; [done|done|auto].
Qed.

Lemma auth_outcome negative body s :
  let (r, s') := (new_client name;;
                  outcome ← finally_return (disconnect_or negative) (scan_and_report passed negative body);
                  mret (status outcome)) s in
  settled r /\ idle (client (self s')) /\ (r = Ok 0 -> ran name body (allowed negative) any_locals s s').
Proof.
  unfold mbind, method_bind. rewrite new_client_eq. unfold finally_return.
  pose proof (scan_and_report_outcome negative body s) as Hs.
  destruct (scan_and_report _ _ _ _) as [q s1]. destruct Hs as [(o & Ho) Hz].
  pose proof (disconnect_or_outcome negative s1) as Hd.
  destruct (disconnect_or negative s1) as [u s']. destruct Hd as (Hi & Hc & [->|[->|(x & -> & Hx)]]); cycle 1.
  { split; [unfold settled, status; auto|]. by split. }
  { split; [unfold settled; auto|]. by split. }
  destruct Ho as [[-> Ho]|(x & -> & Hx)]; cycle 1.
  { split; [unfold settled; auto|]. by split. }
  cbn. split; [destruct Ho as [->|[->| ->]]; unfold settled; cbn; auto|]. split; [done|].
  intros [= Hst]. by apply (ran_of _ _ _ s1); [apply (Hz o)|].
Qed.
End ScanInside.

(** ** v1.0: the shared objects are cleared before the disconnection *)

Lemma clear_held_eq slot s : exists h, clear_held slot s = (Ok tt, mkIo (world s) h (trace s)).
Proof. unfold clear_held, get_own, update_own. meth. destruct (slot _); [by eexists|]. by destruct s; eexists. Qed.

Lemma leave_v1_outcome clears s :
  let (r, s') := leave_v1_cli clears s in
  idle (client (self s')) /\ closes s s' /\ (r = Ok tt \/ aborted r).
Proof.
  assert (exists h, (if clears then clear_held _v1_cp4_session;; clear_held _v1_cp3_session else mret tt) s =
            (Ok tt, mkIo (world s) h (trace s))) as [h Hh].
  { destruct clears; [|by destruct s; eexists]. unfold mbind, method_bind.
    destruct (clear_held_eq _v1_cp4_session s) as [h ->].
    by destruct (clear_held_eq _v1_cp3_session (mkIo (world s) h (trace s))) as [h' ->]; eexists. }
  unfold leave_v1_cli, mbind at 1, method_bind at 1. rewrite Hh.
  apply (best_effort_outcome (mkIo (world s) h (trace s))).
Qed.

Section V1Shape.
Variable name : string.
Hypothesis Hforeign : forall (a : action) (w : W) x, (await a w).1.2 = Err x -> v1_passed x = false.

Lemma v1_outcome clears negative body s :
  let (r, s') := (new_client name;;
                  outcome ← try_finally (leave_v1_cli clears) (scan_and_report v1_passed negative body);
                  mret (status outcome)) s in
  settled r /\ idle (client (self s')) /\
  (r = Ok 0 -> ran name body (fun x => v1_passed x && given negative) any_locals s s').
Proof.
  unfold mbind, method_bind. rewrite new_client_eq. unfold try_finally.
  pose proof (scan_and_report_outcome v1_passed name Hforeign negative body s) as Hs.
  destruct (scan_and_report _ _ _ _) as [q s1]. destruct Hs as [(o & Ho) Hz].
  pose proof (leave_v1_outcome clears s1) as Hd.
  destruct (leave_v1_cli clears s1) as [u s']. destruct Hd as (Hi & Hc & [->|(x & -> & Hx)]); cycle 1.
  { split; [unfold settled; auto|]. by split. }
  destruct Ho as [[-> Ho]|(x & -> & Hx)]; cycle 1.
  { split; [unfold settled; auto|]. by split. }
  cbn. split; [destruct Ho as [->|[->| ->]]; unfold settled; cbn; auto|]. split; [done|].
  intros [= Hst]. by apply (ran_of _ _ _ _ s1); [apply (Hz o)|].
Qed.
End V1Shape.

(** ** v0.8 and v1.1: nothing guards the disconnection *)

Section ResumeShape.
Variable name : string.
Hypothesis Hforeign : forall (a : action) (w : W) x, (await a w).1.2 = Err x -> resumption_passed x = false.

Lemma resumption_outcome body s :
  let (r, s') := (new_client name;;
    try_finally disconnect
      (try_except is_exception (fun exc => mret (if resumption_passed exc then 0 else 1))
         (connected ← scan_and_connect; if (connected : bool) then body;; mret 0 else mret 1))) s in
  (settled r \/ exists t x s2, disconnect t = (Err x, s2) /\ r = Err x) /\ idle (client (self s')) /\
  (r = Ok 0 -> ran name body resumption_passed any_locals s s').
Proof.
  unfold mbind at 1, method_bind at 1. rewrite new_client_eq. unfold try_finally.
  set (block := try_except _ _ _).
  assert (let (q, s1) := block (started name s) in
          settled q /\ (q = Ok 0 -> ran_to name body resumption_passed s s1)) as Hb.
  { unfold block, try_except, mbind, method_bind, mret, method_ret.
    pose proof (scan_outcome any_locals (started name s)) as Hs. pose proof (scan_raises (started name s)) as Hx.
    destruct (scan_and_connect _) as [[[]|x] s1]; destruct Hs as (_ & _ & t & Ht & Hc); try done.
    - destruct (body s1) as [[[]|x] s2] eqn:Hbody.
      + split; [by left|]. intros _. exists s1, (Ok tt), t. split_and!; [done|by apply Hc|done|by left].
      + destruct (is_exception x) eqn:Hex; [|split; [unfold settled; auto|done]].
        destruct (resumption_passed x) eqn:Hp; (split; [unfold settled; auto|]); [|done].
        intros _. exists s1, (Err x), t. split_and!; [done|by apply Hc|done|right; by exists x].
    - split; [unfold settled; auto|done].
    - destruct (Hx x s1 eq_refl) as (a & w & Ha). rewrite (Hforeign a w x Ha).
      destruct (is_exception x) eqn:Hex; (split; [unfold settled; auto|done]). }
  destruct (block (started name s)) as [q s1]. destruct Hb as [Hq Hz].
  pose proof (disconnect_outcome any_locals s1) as Hd.
  destruct (disconnect s1) as [[[]|x] s'] eqn:Hdis; destruct Hd as (Hi & Hc & _).
  - split; [by left|]. split; [done|]. intros ->. by apply (ran_of _ _ _ _ s1); [apply Hz|].
  - split; [right; by exists s1, x, s'|]. by split.
Qed.
End ResumeShape.
End Shapes.
