(* ===== verification/CliSafety.v ===== *)
(** What an exit status of the Central means: the coroutines of CentralCli against
    any peripheral. A status 0 is earned by a run that the theorems on the runners
    describe, between one connection and one disconnection, or by an interrupt of
    the legacy run; and however a coroutine ends, it leaves no session shared and
    nothing but a cancellation or an interrupt escapes. The runners enter through their contracts, which hold inside the
    larger runs because a coroutine does not read the trace. *)

From S2P Require Import Prelude Py Interfaces World BleClient Runs Policy Constants CommandLine V1Central Runner CentralCli CliShapes.
From S2P Require V1Smp V1Cp3 Cp2Central Cp3Central MlkemE2E Phase3Secure Phase5Auth Phase6Central Phase7Auth Phase7Hybrid.
From S2P Require Resumption ResumeStore ResumeCentral ResumeEvidence ResumeSafety Dict SessionStore Handshake CentralChannel.
Open Scope Z_scope.

#[local] Existing Instances Phase5Auth.phase5_program Cp2Central.cp2_program Cp2Central.cp2_v1_locals
  Cp3Central.cp3_program Cp3Central.cp3_v1_locals ResumeCentral.resume_program ResumeCentral.resume_v1_locals
  Handshake.handshake_program CentralChannel.channel_program.

(** * What the bodies promise *)

Section Promises.
Context {W L : Type}.

(** A step that makes no request. *)
Definition quiet {A} (m : method (io W (host L)) A) : Prop := forall s, trace (m s).2 = trace s.

Lemma quiet_run {A} (r : result A) : quiet (run r).
Proof. by intros s. Qed.

Lemma quiet_raise_when c x : quiet (raise_when c x).
Proof. by intros s. Qed.

Lemma quiet_bind {A B} (m : method (io W (host L)) A) (k : A -> method (io W (host L)) B) :
  quiet m -> (forall a, quiet (k a)) -> quiet (a ← m; k a).
Proof.
  intros Hm Hk s. specialize (Hm s). unfold mbind, method_bind.
  destruct (m s) as [[a|x] s']; [by rewrite Hk|done].
Qed.

Lemma quiet_for_each {A} (f : A -> method (io W (host L)) unit) l :
  (forall a, quiet (f a)) -> quiet (for_each f l).
Proof.
  intros Hf. induction l as [|a l IH]; [by intros s|]. by apply quiet_bind.
Qed.

(** A runner followed by checks: the checks make no request, and pass only when
    [G] holds. *)
Lemma contract_then {A B} (before before' : host L -> Prop) (m : method (io W (host L)) A) (k : A -> method (io W (host L)) B)
    ends returns (ends' returns' : list observed -> Prop) (G : Prop) :
  Contract before m ends returns -> (forall h, before' h -> before h) ->
  (forall a, quiet (k a)) -> (forall a s b s', k a s = (Ok b, s') -> G) ->
  (forall l t, ends l t -> ends' t) -> (forall l a t, ends l t -> returns a t -> G -> returns' t) ->
  Contract before' (a ← m; k a) (fun _ => ends') (fun _ => returns').
Proof.
  intros Hm Hbb Hq HG He Hr s Ht Hb. specialize (Hm s Ht (Hbb _ Hb)). unfold mbind, method_bind.
  destruct (m s) as [[a|x] s1]; destruct Hm as [Hm Ha]; [|split; [by eapply He|done]].
  pose proof (Hq a s1) as Hqa. destruct (k a s1) as [r s'] eqn:Hk. cbn in Hqa. rewrite Hqa.
  split; [by eapply He|]. intros b ->. eapply Hr; [exact Hm|by apply Ha|by eapply HG].
Qed.

Lemma contract_new {A} (before before' : host L -> Prop) l (m : method (io W (host L)) A) ends returns :
  Contract before m ends returns -> (forall h, before' h -> before (on_local (fun _ => l) h)) ->
  Contract before' (new_locals l;; m) ends returns.
Proof. intros Hm Hb s Ht Hs. unfold new_locals, update_own. meth. apply Hm; [done|by apply Hb]. Qed.

Lemma contract_weaken {A} (before before' : host L -> Prop) (m : method (io W (host L)) A) ends returns
    (ends' returns' : list observed -> Prop) :
  Contract before m ends returns -> (forall h, before' h -> before h) ->
  (forall l t, ends l t -> ends' t) -> (forall l a t, ends l t -> returns a t -> returns' t) ->
  Contract before' m (fun _ => ends') (fun _ => returns').
Proof.
  intros Hm Hb He Hr s Ht Hs. specialize (Hm s Ht (Hb _ Hs)). destruct (m s) as [r s'].
  destruct Hm as [Hm Ha]. split; [by eapply He|]. intros a ->. eapply Hr; [exact Hm|by apply Ha].
Qed.
End Promises.

(** A check that was passed. *)
Lemma not_given o : given o = false -> o = None.
Proof. by destruct o. Qed.

Ltac quiet :=
  repeat first [ intros ? | apply quiet_run | apply quiet_raise_when | apply quiet_for_each
               | apply quiet_bind | done ].

(** ** The keys of the legacy session file *)

Definition file_keys (sessions : SessionStore.json_file) : list (string * bytes) :=
  match sessions with
  | SessionStore.Json raw =>
      omap (fun '(sid, j) => match SessionStore.j_session_key j with
                             | Some h => match Dict.fromhex h with Ok k => Some (sid, k) | Err _ => None end
                             | None => None
                             end) raw
  | _ => []
  end.

Lemma load_entries_keys now cutoff uses raw d d' :
  SessionStore.load_entries now cutoff uses raw d = Ok d' ->
  (NoDup (Dict.keys d) -> NoDup (Dict.keys d')) /\
  forall sid e, (sid, e) ∈ d' -> (sid, e) ∈ d \/
    (sid, SessionStore.session_key e) ∈ file_keys (SessionStore.Json raw).
Proof.
  revert d. induction raw as [|[sid j] raw IH]; intros d; cbn [SessionStore.load_entries].
  { intros [= ->]. split; [done|by left]. }
  destruct (SessionStore.from_dict now j) as [e|x] eqn:He; [|done]. intros [Hn Hk]%IH. split.
  { intros Hd. apply Hn. destruct (_ && _); [by apply Dict.NoDup_dict_set|done]. }
  assert (file_keys (SessionStore.Json ((sid, j) :: raw)) =
            (sid, SessionStore.session_key e) :: file_keys (SessionStore.Json raw)) as ->.
  { unfold file_keys. cbn. unfold SessionStore.from_dict in He.
    destruct (SessionStore.j_session_key j) as [h|]; [|done]. destruct (Dict.fromhex h); [|done].
    by injection He as <-. }
  intros sid' e' [Hin|Hin]%Hk; [|by right; right].
  destruct (_ && _); [|by left]. apply Dict.elem_of_dict_set in Hin as [[= -> ->]|Hin]; [|by left].
  right. by left.
Qed.

Lemma new_store_keeps path hours uses sessions now st :
  SessionStore.SessionStore_init path hours uses sessions now = Ok st ->
  Handshake.keeps (file_keys sessions) st.
Proof.
  unfold SessionStore.SessionStore_init. intros (u & _ & H)%bind_Ok. revert H.
  unfold SessionStore._load_from_disk. meth. cbn [SessionStore.file].
  destruct sessions as [| |raw]; [intros [= <-]; split; [by constructor|]; intros ?? Hin; inversion Hin..|].
  destruct (SessionStore.load_entries _ _ _ raw _) as [d|x] eqn:Hl; [|done]. intros [= <-].
  apply load_entries_keys in Hl as [Hn Hk]. split.
  - apply Hn. by constructor.
  - intros sid e [Hin|Hin]%Hk; [inversion Hin|done].
Qed.

(** ** The legacy run *)

Section LegacyFrames.
Context {W : Type}.

Lemma framed_in_handshake {A} (m : method (io W (host Handshake.CentralHandshake)) A) :
  Framed m -> Framed (in_handshake m).
Proof.
  intros Hm t s. unfold in_handshake, past. cbn [world self trace].
  specialize (Hm t (mkIo (world s) (mkHost (client (self s)) (links (self s)) (lg_handshake (local (self s)))) (trace s))).
  unfold past in Hm. cbn [world self trace] in Hm. rewrite Hm. clear Hm.
  lazymatch goal with |- context [m ?s0] => by destruct (m s0) as [r s'] end.
Qed.

Lemma framed_in_channel {A} (m : method (io W (host CentralChannel.CentralSecureChannel)) A) :
  Framed m -> Framed (in_channel m).
Proof.
  intros Hm t s. unfold in_channel, past. cbn [world self trace].
  destruct (lg_channel (local (self s))) as [ch|]; [|done].
  specialize (Hm t (mkIo (world s) (mkHost (client (self s)) (links (self s)) ch) (trace s))).
  unfold past in Hm. cbn [world self trace] in Hm. rewrite Hm. clear Hm.
  lazymatch goal with |- context [m ?s0] => by destruct (m s0) as [r s'] end.
Qed.

Lemma asks_in_handshake {A} P (m : method (io W (host Handshake.CentralHandshake)) A) :
  Asks P m -> Asks P (in_handshake m).
Proof.
  intros Hm s. unfold in_handshake.
  lazymatch goal with |- context [m ?s0] => pose proof (Hm s0) as Hs; destruct (m s0) as [r s'] end.
  exact Hs.
Qed.

Lemma asks_in_channel {A} P (m : method (io W (host CentralChannel.CentralSecureChannel)) A) :
  Asks P m -> Asks P (in_channel m).
Proof.
  intros Hm s. unfold in_channel. destruct (lg_channel (local (self s))) as [ch|]; cycle 1.
  { exists []. cbn. by rewrite app_nil_r. }
  lazymatch goal with |- context [m ?s0] => pose proof (Hm s0) as Hs; destruct (m s0) as [r s'] end.
  exact Hs.
Qed.
End LegacyFrames.

Ltac framed_legacy :=
  repeat lazymatch goal with
         | |- Framed (in_channel _) => apply framed_in_channel
         | |- Framed (in_handshake _) => apply framed_in_handshake
         | _ => framed_step
         end.

Ltac asks_legacy :=
  repeat lazymatch goal with
         | |- Asks _ (in_channel _) => apply asks_in_channel
         | |- Asks _ (in_handshake _) => apply asks_in_handshake
         | _ => asks_step
         end.

(** ** The requests of the legacy run *)

(** The requests of the handshake: it reads the key, and writes ciphertext frames
    and requests to resume. *)
Definition handshake_request (a : action) : Prop :=
  match a with
  | ReadGatt _ u => u = CHAR_PUBKEY_UUID
  | WriteGatt _ u d =>
      u = CHAR_CIPHERTEXT_UUID \/
      u = CHAR_CONTROL_UUID /\ exists sid, d = RESUME_MAGIC ++ RESUME_REQ ++ sid
  | StartNotify _ u | StopNotify _ u => u = CHAR_DATA_UUID
  | Confirm _ | Wait => True
  | _ => False
  end.

(** The requests of the channel, whose messages are control messages. *)
Definition channel_request (a : action) : Prop :=
  match a with
  | WriteGatt _ u _ => u = CHAR_CONTROL_UUID
  | StartNotify _ u | StopNotify _ u => u = CHAR_DATA_UUID
  | Wait => True
  | _ => False
  end.

Section LegacyRequests.
Context {W : Type} `{E : Env W, Kem, Kdf, Aead}.

Lemma build_resume_request_Ok sid msg :
  Session.build_resume_request sid = Ok msg -> msg = RESUME_MAGIC ++ RESUME_REQ ++ sid.
Proof. unfold Session.build_resume_request. destruct (raise_if _ _); [by intros [= <-]|done]. Qed.

Lemma asks_handshake : Asks handshake_request Handshake.run_handshake.
Proof.
  assert (forall n d, Asks handshake_request (Handshake.poll n d)) as Hp.
  { intros n d. induction n; cbn [Handshake.poll]; asks; done. }
  assert (forall ids, Asks handshake_request (Handshake.try_sessions ids)) as Ht.
  { intros ids. induction ids; cbn [Handshake.try_sessions]; asks; try done.
    right. split; [done|]. exists a. by apply build_resume_request_Ok. }
  asks; try done; by left.
Qed.

Lemma asks_use_channel d typed key : Asks channel_request (use_channel d typed key).
Proof.
  assert (forall n t, Asks channel_request (CentralChannel.receive_loop n t)) as Hr.
  { intros n t. induction n; cbn [CentralChannel.receive_loop]; asks; done. }
  assert (Asks channel_request (interactive typed)) as Hi.
  { induction typed; cbn [interactive]; asks_legacy; done. }
  asks_legacy; done.
Qed.
End LegacyRequests.

Section LegacyRun.
Context {W : Type} `{E : Env W, Kem, Kdf, Aead}.
Variable sessions : SessionStore.json_file.

(** The store holds keys of the file. *)
Definition legacy_kept (l : legacy_locals) : Prop :=
  forall st, Handshake._store (lg_handshake l) = Some st -> Handshake.keeps (file_keys sessions) st.

#[export] Instance legacy_kept_kept : Kept (fun l _ => legacy_kept l).
Proof. split; [|done..]. intros x b data l _ Hl. cbn. by destruct (lg_channel l). Qed.

(** Neither requests nor a key of another origin. *)
Definition silent {A} (m : method (io W (host legacy_locals)) A) : Prop :=
  forall s, trace (m s).2 = trace s /\ (legacy_kept (local (self s)) -> legacy_kept (local (self (m s).2))).

Lemma silent_bind {A B} (m : method (io W (host legacy_locals)) A) (k : A -> method (io W (host legacy_locals)) B) :
  silent m -> (forall a, silent (k a)) -> silent (a ← m; k a).
Proof.
  intros Hm Hk s. destruct (Hm s) as [Ht Hl]. unfold mbind, method_bind.
  destruct (m s) as [[a|x] s']; cbn [snd] in *; [|done]. destruct (Hk a s') as [Ht' Hl'].
  rewrite Ht'. auto.
Qed.

Lemma silent_query q : silent (query_env q).
Proof. intros s. unfold query_env. by destruct (ask q (world s)). Qed.

Lemma silent_ret {A} (a : A) : silent (mret a).
Proof. by intros s. Qed.

Lemma silent_store {A} (m : Z -> method SessionStore.SessionStore A) :
  (forall now st, Handshake.keeps (file_keys sessions) st -> exists a st', m now st = (Ok a, st') /\
     Handshake.keeps (file_keys sessions) st') ->
  silent (in_handshake (Handshake.on_store m)).
Proof.
  intros Hm s. unfold in_handshake, Handshake.on_store, Handshake.get_local, Handshake.update_local, get_own, update_own, query_env.
  meth. cbn [world self trace]. destruct (ask Now (world s)) as [now w]. cbn [world self trace local].
  destruct (Handshake._store (lg_handshake (local (self s)))) as [st|] eqn:Hst; cbn; [|by split; [done|intros Hk st1 Hs; apply Hk]].
  destruct (m now st) as [r st'] eqn:Hr. cbn. split; [done|]. intros Hk st1 [= <-].
  destruct (Hm now st (Hk st Hst)) as (a & st2 & Heq & Hk2). rewrite Hr in Heq. by injection Heq as -> ->.
Qed.

Lemma open_store_outcome s :
  let (r, s') := open_store sessions s in
  trace s' = trace s /\ (r = Ok tt -> legacy_kept (local (self s'))).
Proof.
  unfold open_store. unfold mbind at 1, method_bind at 1. unfold query_env.
  destruct (ask Now (world s)) as [now w]. unfold mbind at 1, method_bind at 1, run.
  destruct (SessionStore.SessionStore_init _ _ _ _ _) as [st|x] eqn:Hst; [|by split].
  apply new_store_keeps in Hst. unfold mbind at 1, method_bind at 1, new_locals at 1, update_own at 1.
  match goal with |- context [_ ?s0] => match type of s0 with io W (host legacy_locals) =>
    match s0 with mkIo _ (on_local _ _) _ => set (s2 := s0) end end end.
  assert (legacy_kept (local (self s2))) as Hk by by intros st' [= <-].
  match goal with |- context [?m s2] => assert (silent m) as Hm end.
  { apply silent_bind; [apply silent_store|intros _].
    { intros n st' H'. destruct (Handshake.count_keeps _ n st' H') as (? & ? & ? & ?). eauto. }
    apply silent_bind; [apply silent_store|intros n].
    { intros n st' H'. destruct (Handshake.count_keeps _ n st' H') as (? & ? & ? & ?). eauto. }
    destruct (0 <? n); [|apply silent_ret]. apply silent_bind; [apply silent_store|intros ids].
    { intros m st' H'. destruct (Handshake.list_ids_keeps _ m st' H') as (? & ? & ? & ?). eauto. }
    induction ids as [|i ids IH]; [apply silent_ret|]. cbn [for_each]. apply silent_bind; [|intros _; exact IH].
    apply silent_bind; [apply silent_query|intros _; apply silent_ret]. }
  destruct (Hm s2) as [Ht Hl]. match goal with |- context [?m s2] => destruct (m s2) as [r s'] end.
  cbn in Ht. split; [done|]. intros _. by apply Hl.
Qed.

#[export] Instance framed_handshake : Framed Handshake.run_handshake.
Proof.
  assert (forall n d, Framed (Handshake.poll n d)) as Hp.
  { intros n d. induction n; cbn [Handshake.poll]; framed. }
  assert (forall ids, Framed (Handshake.try_sessions ids)) as Ht.
  { intros ids. induction ids; cbn [Handshake.try_sessions]; framed. }
  framed.
Qed.

Lemma framed_receive timeout : Framed (CentralChannel.receive timeout).
Proof.
  assert (forall n d, Framed (CentralChannel.receive_loop n d)) as Hr.
  { intros n d. induction n; cbn [CentralChannel.receive_loop]; framed. }
  framed.
Qed.

Lemma framed_use_channel d typed key : Framed (use_channel d typed key).
Proof.
  pose proof framed_receive as Hr.
  assert (Framed (interactive typed)) as Hi.
  { induction typed; cbn [interactive]; framed_legacy. }
  framed_legacy.
Qed.

(** The handshake gave a key: that of the file for a session the peripheral
    accepted, or that of an exchange whose SAS was accepted. *)
Definition legacy_earned (t : list observed) : Prop :=
  exists t1 t2 c key, t = t1 ++ t2 /\
    (Handshake.resumed_key c (file_keys sessions) key t1 \/ Handshake.confirmed_key c key t1).

(** The channel is used only once the handshake gave a key. *)
Definition legacy_obeyed (t : list observed) : Prop :=
  exists t1 t2, t = t1 ++ t2 /\ Forall handshake_request (ops t1) /\ Forall channel_request (ops t2) /\
    (t2 = [] \/ exists c key,
       Handshake.resumed_key c (file_keys sessions) key t1 \/ Handshake.confirmed_key c key t1).

Lemma legacy_contract d auto typed :
  Contract (fun h => (exists c, _client (client h) = Some c) /\ legacy_kept (local h))
    (legacy_body d auto typed) (fun _ => legacy_obeyed) (fun _ => legacy_earned).
Proof.
  intros s Ht [[c Hc] Hk].
  match goal with |- context [legacy_body d auto typed s] => set (body := legacy_body d auto typed s) end.
  assert (body = (key ← in_handshake (@Handshake.run_handshake W (sas_callback auto E) _ _); use_channel d typed key)
    (mkIo (world s) (on_local (fun l => mkLegacyLocals
       (Handshake.CentralHandshake_init (Handshake._store (lg_handshake l))) None) (self s)) (trace s))) as -> by done.
  unfold mbind, method_bind. set (s0 := mkIo _ _ _).
  set (s1 := mkIo (world s0) (mkHost (client (self s0)) (links (self s0)) (lg_handshake (local (self s0)))) (trace s0)).
  assert (Handshake.pt c (file_keys sessions) Handshake.no_facts s1) as Hpt.
  { split; [split|by split]; cbn; [by intros b Hb%elem_of_nil|exact Hk]. }
  pose proof (@Handshake.pt_run W (sas_callback auto E) _ _ c (file_keys sessions) s1 Hpt) as Hrun.
  destruct (@asks_handshake W (sas_callback auto E) _ _ s1) as (t1 & Ht1 & Hasks).
  change (trace s1) with (trace s) in Ht1. rewrite Ht in Ht1. cbn in Ht1.
  unfold in_handshake at 1. fold s1.
  destruct (@Handshake.run_handshake W (sas_callback auto E) _ _ s1) as [[key|x] s2]; cbn [snd] in Ht1; cycle 1.
  { split; [|done]. exists t1, []. rewrite app_nil_r. split_and!; [done..|by constructor|by left]. }
  destruct Hrun as [Hreason _]. cbn beta iota.
  set (s3 := mkIo _ _ _). pose proof (framed_use_channel d typed key) as Hf.
  pose proof (framed_apart (use_channel d typed key) s3 Hf) as Ha. rewrite Ha. clear Ha.
  destruct (asks_use_channel d typed key (mkIo (world s3) (self s3) [])) as (t2 & Ht2 & Hchannel).
  destruct (use_channel d typed key (mkIo (world s3) (self s3) [])) as [r s']. cbn in Ht2. split.
  - exists (trace s2), (trace s'). split; [done|]. rewrite Ht1, Ht2. split_and!; [done|done|].
    right. rewrite <- Ht1. by exists c, key.
  - intros _ _. exists (trace s2), (trace s'), c, key. by split.
Qed.

Lemma leave_legacy_closes s :
  let (r, s') := leave_legacy s in closes s s'.
Proof.
  assert (forall s0, let (r, s1) := in_channel CentralChannel.stop s0 in closes s0 s1) as Hstop.
  { intros s0. unfold in_channel. destruct (lg_channel _) as [ch|]; [|by apply closes_same].
    unfold CentralChannel.stop, stop_notify, is_connected, backend, raw_client, get_own, update_own. meth. cbn [self world trace].
    destruct (_client (client (clear_v1_cp3 _))) as [c|] eqn:Hc; [|by apply closes_same].
    unfold query_env. cbn [self world trace]. destruct (ask _ _) as [[] w]; [|by apply closes_same].
    cbn [self world trace answer]. rewrite Hc.
    match goal with |- context [perform ?a ?s1] => destruct (perform_outcome a s1) as (evs & Ht & _); destruct (perform a s1) as [r s2] end.
    cbn [fst snd trace] in Ht. eexists. cbn. split; [exact Ht|]. cbn. rewrite ops_heard. by repeat constructor. }
  unfold leave_legacy. unfold mbind, method_bind, get_own.
  destruct (lg_channel _) as [ch|].
  - specialize (Hstop s). destruct (in_channel _ s) as [[[]|x] s1]; [|done].
    pose proof (disconnect_outcome legacy_kept s1) as Hd. destruct (disconnect s1) as [r s2].
    eapply closes_trans; [exact Hstop|apply Hd].
  - pose proof (disconnect_outcome legacy_kept s) as Hd. unfold mret, method_ret. destruct (disconnect s) as [r s2]. apply Hd.
Qed.

Lemma legacy_zero typed name d auto s s' :
  legacy_main sessions typed name d auto s = (Ok 0, s') ->
  ran name (legacy_body d auto typed) is_keyboard_interrupt legacy_kept s s'.
Proof.
  unfold legacy_main. unfold mbind at 1, method_bind at 1.
  pose proof (open_store_outcome s) as Ho. destruct (open_store sessions s) as [[[]|x] s0]; [|done].
  destruct Ho as [Ht0 Hk0]. specialize (Hk0 eq_refl). unfold mbind at 1, method_bind at 1. rewrite new_client_eq.
  unfold mbind at 1, method_bind at 1.
  set (sn := mkIo _ _ _). pose proof (scan_outcome legacy_kept sn) as Hs.
  destruct (scan_and_connect sn) as [[[]|x] s1]; [|done..]. destruct Hs as (_ & Hk & t & Ht & Hc); [done|].
  cbn [negb]. unfold try_finally, try_except. unfold mbind, method_bind, mret, method_ret.
  destruct (legacy_body d auto typed s1) as [[[]|x] s2] eqn:Hb.
  - pose proof (leave_legacy_closes s2) as Hcl. destruct (leave_legacy s2) as [[[]|x] s3]; [|done].
    intros [= <-]. exists s1, (Ok tt), s2. split; [|by auto]. exists t. rewrite Ht. cbn. rewrite Ht0.
    split; [done|]. split; [by apply Hc|]. by apply Hk.
  - destruct (is_runtime_error x).
    + by destruct (leave_legacy s2) as [[[]|y] s3].
    + destruct (is_keyboard_interrupt x) eqn:Hx; cycle 1.
      { by destruct (leave_legacy s2) as [[[]|y] s3]. }
      pose proof (leave_legacy_closes s2) as Hcl. destruct (leave_legacy s2) as [[[]|y] s3]; [|done].
      intros [= <-]. exists s1, (Err x), s2. split; [|split_and!; [done|right; by exists x|done]].
      exists t. rewrite Ht. cbn. rewrite Ht0. split; [done|]. split; [by apply Hc|]. by apply Hk.
Qed.
End LegacyRun.

(** * What a status means *)

Section Status.
Context {W : Type} `{Env W, Kem, KdfLaws, Aead, P256}.
Variables (file_size : Resumption.Ticket -> Z) (store : ResumeStore.TicketStore).
Variables (sessions : SessionStore.json_file) (typed : list string).

Definition profile_of (v08 : bool) : Z := if v08 then Resumption.V08 else Resumption.V11.

(** The requests of a run, however it ends. *)
Definition obeyed (r : CommandLine.runner) (t : list observed) : Prop :=
  match r with
  | run_resumption v08 _ n =>
      obeys (ResumeSafety.runner_policy (profile_of v08) (ResumeStore.directory store) n None) t
  | run_v1 CP1 n unpair => obeys (v1_policy n unpair cp1_exchange) t
  | run_v1 CP2 n unpair => obeys (v1_policy n unpair Cp2Central.cp2_exchange) t
  | run_v1 CP3 n unpair => obeys (v1_policy n unpair (Cp3Central.cp3_exchange false)) t
  | run_v1 CP4 n unpair => obeys (v1_policy n unpair (Cp3Central.cp3_exchange true)) t
  | run_phase6_bidirectional n => obeys (Phase6Central.phase6_policy 3 n) t
  | run_phase6_c2p => obeys (Phase6Central.phase6_policy 1 None) t
  | run_phase7_auth n => obeys (Phase7Auth.phase7_policy n) t
  | run_phase7_hybrid => obeys Phase7Hybrid.hybrid_policy t
  | run_phase5 n => exists c, Phase5Auth.within_script n c t
  | run_phase3 _ => obeys Phase3Secure.phase3_policy t
  | run_phase2 => obeys MlkemE2E.phase2_policy t
  | run_legacy _ _ => legacy_obeyed sessions t
  end.

(** What a run that was not a negative test has done, and which negative modes
    end that way. *)
Definition earned (r : CommandLine.runner) (t : list observed) : Prop :=
  match r with
  | run_resumption v08 _ n =>
      (n = None \/ n = Some "expired" \/ n = Some "max-uses")%string /\
      exists res, ResumeSafety.run_report (profile_of v08) (ResumeStore.directory store) res t
  | run_v1 CP1 n _ => n = None /\ exists res, cp1_done None res t
  | run_v1 CP2 n _ => n = None /\ exists res, Cp2Central.cp2_done None res t
  | run_v1 CP3 n _ => n = None /\ exists res, Cp3Central.cp3_done None false res t
  | run_v1 CP4 n _ => n = None /\ exists res, Cp3Central.cp3_done None true res t
  | run_phase6_bidirectional n => n = None /\ exists res, Phase6Central.phase6_done 3 None res t
  | run_phase6_c2p => exists res, Phase6Central.phase6_done 1 None res t
  | run_phase7_auth n => n = None /\ exists res, Phase7Auth.phase7_done None res t
  | run_phase7_hybrid => exists res, Phase7Hybrid.hybrid_done res t
  | run_phase5 n => n = None /\ exists c res, Phase5Auth.phase5_done None c res t
  | run_phase3 n => exists res, Phase3Secure.phase3_done n res t
  | run_phase2 => exists res, MlkemE2E.phase2_done res t
  | run_legacy _ _ => legacy_earned sessions t
  end.

Definition is_legacy (r : CommandLine.runner) : bool :=
  match r with run_legacy _ _ => true | _ => false end.

(** The exception by which a negative test passes. *)
Definition test_passed (r : CommandLine.runner) (x : exn) : bool :=
  match r with
  | run_resumption _ _ _ => resumption_passed x
  | run_v1 _ n _ => v1_passed x && given n
  | run_phase6_bidirectional _ => phase6_passed x
  | run_phase7_auth n => phase7_passed x && given n
  | run_phase5 _ => phase5_passed x
  | _ => false
  end.

(** The exceptions that give status 0. *)
Definition excused (r : CommandLine.runner) (x : exn) : bool :=
  match r with
  | run_legacy _ _ => is_keyboard_interrupt x
  | r => test_passed r x
  end.

Lemma excused_inv r x :
  excused r x = true -> test_passed r x = true \/ is_legacy r = true /\ x = KeyboardInterrupt.
Proof. destruct r; try (intros Hx; by left). intros Hx%bool_decide_eq_true. by right. Qed.

(** What the variables satisfy when a body begins. *)
Definition begins (r : CommandLine.runner) : locals_of r -> Prop :=
  match r return locals_of r -> Prop with
  | run_legacy _ _ => legacy_kept sessions
  | _ => fun _ => True
  end.

Definition ready (r : CommandLine.runner) (h : host (locals_of r)) : Prop :=
  (exists c, _client (client h) = Some c) /\ begins r (local h).

Abbreviation body := (body_of file_size store typed).

(** ** The bodies do not read the trace *)

Lemma framed_round_trips l rs : Framed (Phase6Central.round_trips_of l rs).
Proof. revert rs. induction l; intros rs; cbn [Phase6Central.round_trips_of]; framed. Qed.

Lemma framed_legacy_body d auto : Framed (legacy_body d auto typed).
Proof.
  pose proof framed_use_channel as Hu.
  pose proof (@framed_handshake W (sas_callback auto H) _ _) as Hh. framed_legacy.
Qed.

Lemma framed_body r : Framed (body r).
Proof.
  pose proof framed_round_trips as Hr. pose proof framed_legacy_body as Hl.
  destruct r as [v08 full n|[] n unpair|n|n| | |n|n| |d auto]; cbn [body_of]; [framed..|apply Hl].
Qed.

(** ** The contracts of the bodies *)

Lemma quiet_cp3_checks cp4 : quiet (cp3_checks (W := W) cp4).
Proof.
  unfold cp3_checks. intros s. unfold get_own, is_connected, raw_client, query_env, get_own. meth. cbn [self world trace].
  destruct (raise_if _ _); [|done]. destruct (raise_if _ _); [|done].
  destruct (_client _); cbn [self world trace]; [destruct (ask _ _) as [b w]; cbn [self world trace]|];
    (destruct (raise_if _ _); [|done]); by destruct (raise_if _ _).
Qed.

Lemma quiet_cp2_checks : quiet (cp2_checks (W := W)).
Proof. intros s. unfold cp2_checks, get_own. meth. by destruct (raise_if _ _). Qed.

(** The check that no negative test was asked for was passed. *)
Lemma positive_then {L B} n exc (k : method (io W (host L)) B) s b s' :
  (raise_when (given n) exc;; k) s = (Ok b, s') -> n = None.
Proof. unfold raise_when. meth. destruct n; [by cbn|done]. Qed.

Lemma contract_v1 {L} `{V1Locals L} (run : option string -> bool -> method (io W (host L)) V1CP1Result)
    new checks n unpair (before before' : host L -> Prop) ends
    (returns : V1CP1Result -> list observed -> Prop) (ends' returns' : list observed -> Prop) :
  Contract before (run n unpair) ends returns -> quiet checks ->
  (forall h, before' h -> before (on_local (fun _ => new) h)) ->
  (forall l t, ends l t -> ends' t) -> (forall a t, returns a t -> n = None -> returns' t) ->
  Contract before' (v1_body run new checks n unpair) (fun _ => ends') (fun _ => returns').
Proof.
  intros Hc Hq Hb He Hr. apply (contract_new before); [|exact Hb].
  eapply contract_then with (G := n = None); [exact Hc|done| | |exact He|].
  - intros a. apply quiet_bind; [apply quiet_raise_when|intros _; exact Hq].
  - intros a s b s'. apply positive_then.
  - intros l a t _ Ha. by apply (Hr a).
Qed.

(** The trace is what the contract is about. *)
Ltac from c := eapply contract_then with (G := True); [apply c|done|quiet|by intros|try done|].

Lemma contract_body r :
  NoDup (Dict.keys (ResumeStore.directory store)) ->
  Contract (ready r) (body r) (fun _ => obeyed r) (fun _ => earned r).
Proof.
  intros Hd. destruct r as [v08 full n|[] n unpair|n|n| | |n|n| |d auto]; cbn [body_of].
  - apply (contract_new (ResumeSafety.fresh_host (ResumeStore.directory store))); [|intros h _; by split_and!].
    eapply contract_then with (G := True);
      [apply (ResumeSafety.resume_contract file_size (profile_of v08)); destruct v08; ((by left) || (by right))|done|quiet|by intros| |].
    + by intros l t [Ho _].
    + intros l res t _ [Hn Hr] _. split; [done|]. by exists res.
  - eapply contract_v1; [apply cp1_contract|quiet|done|done|]. intros res t Hr ->. split; [done|]. by eexists.
  - eapply contract_v1; [apply Cp2Central.cp2_contract|apply quiet_cp2_checks|done|by intros l t [Ho _]|].
    intros res t Hr ->. split; [done|]. by eexists.
  - eapply contract_v1; [apply Cp3Central.cp3_contract|apply quiet_cp3_checks|done|by intros l t [Ho _]|].
    intros res t Hr ->. split; [done|]. by eexists.
  - eapply contract_v1; [apply Cp3Central.cp4_contract|apply quiet_cp3_checks|done|by intros l t [Ho _]|].
    intros res t Hr ->. split; [done|]. by eexists.
  - eapply contract_then with (G := n = None); [apply (Phase6Central.phase6_contract 3 n)|done|quiet|..].
    + intros a s b s'. apply positive_then.
    + by intros l t [Ho _].
    + intros l res t _ Hr ->. split; [done|]. by exists res.
  - eapply contract_then with (G := n = None); [apply (Phase7Auth.phase7_contract n false)|done|quiet|..].
    + intros a s b s'. destruct n; [by cbn|done].
    + by intros l t [Ho _].
    + intros l res t _ Hr ->. split; [done|]. by exists res.
  - from Phase7Hybrid.hybrid_contract; [by intros l t [Ho _]|]. intros l res t _ Hr _. by exists res.
  - from (Phase6Central.phase6_contract 1 None); [by intros l t [Ho _]|]. intros l res t _ Hr _. by exists res.
  - intros s Ht [[c Hc] _].
    assert (Contract (fun h => _client (client h) = Some c) (phase5_body n)
      (fun _ => obeyed (run_phase5 n)) (fun _ => earned (run_phase5 n))) as Hp; [|by apply Hp].
    eapply contract_then with (G := n = None); [apply (Phase5Auth.phase5_contract n c)|done|quiet|..].
    + intros a s0 b s'. apply positive_then.
    + intros l t Hs. by exists c.
    + intros l res t _ Hr ->. split; [done|]. by exists c, res.
  - from (Phase3Secure.phase3_contract n). intros l res t _ Hr _. by exists res.
  - from MlkemE2E.phase2_contract. intros l res t _ Hr _. by exists res.
  - eapply contract_weaken; [apply (legacy_contract sessions d auto typed)|done..].
Qed.

(** ** The coroutines *)

(** Exceptions of this program that stand for a negative test that passed: the
    backend raises its own. *)
Definition negative_result (x : exn) : bool := v1_passed x || phase7_passed x || resumption_passed x.

Definition is_resumption (r : CommandLine.runner) : bool :=
  match r with run_resumption _ _ _ => true | _ => false end.

(** Status 0 or 1, a cancellation, or for the resumption runs an exception of the
    disconnection. *)
Definition ends_settled (r : CommandLine.runner) (res : result Z) : Prop :=
  settled res \/
  is_resumption r = true /\
    exists (t s2 : io W (host ResumeCentral.resume_locals)) x, disconnect t = (Err x, s2) /\ res = Err x.

(** The outcome [p] of a coroutine. *)
Definition meets {L} `{Program L} (ends : result Z -> Prop) name (b : method (io W (host L)) unit) passed
    (s : io W (host L)) (p : result Z * io W (host L)) : Prop :=
  ends p.1 /\ idle (client (self p.2)) /\ (p.1 = Ok 0 -> ran name b passed any_locals s p.2).

Lemma meets_of {L} `{Program L} (ends ends' : result Z -> Prop) name (b : method (io W (host L)) unit) passed
    (s : io W (host L)) (p : result Z * io W (host L)) :
  (let (r, s') := p in ends r /\ idle (client (self s')) /\ (r = Ok 0 -> ran name b passed any_locals s s')) ->
  (forall r, ends r -> ends' r) -> meets ends' name b passed s p.
Proof. destruct p as [r s']. intros (He & Hi & Hz) Hw. split; [by apply Hw|by split]. Qed.

Section Foreign.
Variable name : string.
(** The backend does not raise the exceptions of a negative test. *)
Hypothesis Hforeign : forall (a : action) (w : W) x, (await a w).1.2 = Err x -> negative_result x = false.

Lemma foreign_v1 (a : action) (w : W) x : (await a w).1.2 = Err x -> v1_passed x = false.
Proof. intros Hx. apply Hforeign in Hx. unfold negative_result in Hx. by destruct (v1_passed x). Qed.

Lemma foreign_7 (a : action) (w : W) x : (await a w).1.2 = Err x -> phase7_passed x = false.
Proof. intros Hx. apply Hforeign in Hx. unfold negative_result in Hx. by destruct (phase7_passed x), (v1_passed x). Qed.

Lemma foreign_resumption (a : action) (w : W) x : (await a w).1.2 = Err x -> resumption_passed x = false.
Proof.
  intros Hx. apply Hforeign in Hx. unfold negative_result in Hx.
  by destruct (resumption_passed x), (phase7_passed x), (v1_passed x).
Qed.

Lemma start_outcome r s :
  is_legacy r = false ->
  meets (ends_settled r) name (body r) (excused r) s (start file_size store sessions typed name r s).
Proof.
  destruct r as [v08 full n|[] n unpair|n|n| | |n|n| |d auto]; intros Hl; [| | | | | | | | | | | |discriminate Hl].
  - eapply meets_of; [apply (resumption_outcome name foreign_resumption)|].
    intros r [Hs|(t & x & s2 & Ht & Hx)]; [by left|right]. split; [done|]. by exists t, s2, x.
  - eapply meets_of; [apply (v1_outcome name foreign_v1)|by left].
  - eapply meets_of; [apply (v1_outcome name foreign_v1)|by left].
  - eapply meets_of; [apply (v1_outcome name foreign_v1)|by left].
  - eapply meets_of; [apply (v1_outcome name foreign_v1)|by left].
  - eapply meets_of; [apply own_connection_outcome|by left].
  - eapply meets_of; [apply (auth_outcome _ name foreign_7)|by left].
  - eapply meets_of; [by apply (inside_outcome (fun _ => false))|by left].
  - eapply meets_of; [apply own_connection_outcome|by left].
  - eapply meets_of; [apply own_connection_outcome|by left].
  - eapply meets_of; [apply own_connection_outcome|by left].
  - eapply meets_of; [apply own_connection_outcome|by left].
Qed.

Lemma start_zero r s s' :
  start file_size store sessions typed name r s = (Ok 0, s') ->
  ran name (body r) (excused r) (begins r) s s'.
Proof.
  destruct (is_legacy r) eqn:Hl.
  - destruct r; try discriminate Hl. apply legacy_zero.
  - intros Hz. pose proof (start_outcome r s Hl) as (_ & _ & Hr). rewrite Hz in Hr. specialize (Hr eq_refl).
    by destruct r as [|[]| | | | | | | |].
Qed.
End Foreign.

(** C7. A status 0 is earned. Whatever the peripheral, the link, the timing and
    the person do, and whichever run [main] starts, when its coroutine returns 0:
    it found the named device and connected to it once; then the runner made its
    requests under its own policy (the legacy run used its channel only once it
    had a key); and after that nothing but an unsubscription and a disconnection
    was asked for. Either the runner did what its theorem says of a run that
    returns (for the authenticated modes, only without a negative switch; the
    legacy run has a key of its file that the peripheral accepted, or one whose
    SAS was accepted, by the person or by --no-sas-confirm), or it raised an exception that gives status 0: that by
    which a negative test passes, which for v0.7 and v1.0 counts only when one was
    asked for, or a KeyboardInterrupt in the legacy run, which gives 0 even before
    there is a key. *)
Theorem exit_zero_earned name r s s' :
  NoDup (Dict.keys (ResumeStore.directory store)) ->
  (forall (a : action) (w : W) x, (await a w).1.2 = Err x -> negative_result x = false) ->
  start file_size store sessions typed name r s = (Ok 0, s') ->
  exists before t after,
    trace s' = trace s ++ before ++ t ++ after /\
    (exists c, ops before = [FindByName name; Connect c] /\ Did (Connect c) (Ok tt) ∈ before) /\
    obeyed r t /\ Forall closing (ops after) /\
    (earned r t \/
     exists s1 x s2, body r s1 = (Err x, s2) /\ trace s2 = trace s1 ++ t /\
       (test_passed r x = true \/ is_legacy r = true /\ x = KeyboardInterrupt)).
Proof.
  intros Hd Hf Hz. apply (start_zero name Hf) in Hz as (s1 & q & s2 & (t1 & Ht1 & (c & Hc & Ho & Hdid) & Hb) & Hbody & Hq & t3 & Ht3 & Hcl).
  assert (ready r (self s1)) as Hready by (split; [by exists c|exact Hb]).
  pose proof (contract_after _ _ _ _ s1 (framed_body r) (contract_body r Hd) Hready) as Hrun.
  rewrite Hbody in Hrun. destruct Hrun as (t & Ht & Hob & He).
  exists t1, t, t3. split; [by rewrite Ht3, Ht, Ht1, <- !app_assoc|].
  split; [by exists c|]. split; [done|]. split; [done|].
  destruct Hq as [->|(x & -> & Hx)]; [left; by apply (He tt)|]. right. exists s1, x, s2.
  split_and!; [done|done|by apply excused_inv].
Qed.

(** C8. Every failure becomes a status. However a coroutine of the command line
    ends, except the legacy one, no session or application object is shared any
    more, and the outcome is status 0, status 1, or a cancellation or control-C
    that no [except Exception] catches; only the resumption runs let an exception
    through, and it is one of the disconnection, which nothing guards there. *)
Theorem exit_settled name r s :
  is_legacy r = false ->
  (forall (a : action) (w : W) x, (await a w).1.2 = Err x -> negative_result x = false) ->
  let (res, s') := start file_size store sessions typed name r s in
  idle (client (self s')) /\
  (res = Ok 0 \/ res = Ok 1 \/ res = Err CancelledError \/ res = Err KeyboardInterrupt \/
   is_resumption r = true /\
     exists (t s2 : io W (host ResumeCentral.resume_locals)) x, disconnect t = (Err x, s2) /\ res = Err x).
Proof.
  intros Hl Hf. pose proof (start_outcome name Hf r s Hl) as (He & Hi & _).
  destruct (start _ _ _ _ name r s) as [res s']. split; [exact Hi|]. cbn [fst] in He.
  destruct He as [[->|[->|[-> | ->]%aborted_inv]]|Hr]; auto 6.
Qed.
End Status.

(** * The peripheral of [Phase5Auth.Honest], in range *)
Module InRange.
Definition environment : Env Phase5Auth.Honest.peripheral :=
  let e := @Phase5Auth.Honest.environment Toy.kem Toy.kdf Toy.aead in
  {| ask := @ask _ e;
     await a w := match a as a return list event * result (value a) * Phase5Auth.Honest.peripheral with
                  | FindByName n => ([], Ok (Some (mkDevice n "00:11:22:33:44:55")), w)
                  | a => @await _ e a w
                  end |}.

(** Its errors are its own. *)
Lemma foreign (a : action) (w : Phase5Auth.Honest.peripheral) x :
  (@await _ environment a w).1.2 = Err x -> negative_result x = false.
Proof.
  destruct a; cbn; try discriminate; try (intros [= <-]; reflexivity).
  destruct (bool_decide _); [discriminate|].
  destruct (@Phase5Auth.Honest.on_control Toy.kem Toy.kdf Toy.aead w data). discriminate.
Qed.

Definition store : ResumeStore.TicketStore := ResumeStore.mkTicketStore [] NO_TICKET.

Definition initial : io Phase5Auth.Honest.peripheral (host Phase5Auth.phase5_locals) :=
  mkIo (Phase5Auth.Honest.mkPeripheral [x17] [] [] [] Phase5Auth.Honest.no_keys)
    (mkHost (BLECentralClient_init "") 0 Phase5Auth.phase5_start_locals) [].

Definition outcome (negative : option string) :=
  @start _ environment Toy.kem Toy.kdf Toy.aead Toy.p256 (fun _ => 0) store SessionStore.Absent [] DEVICE_NAME
    (run_phase5 negative) initial.
End InRange.

Lemma exit_zero_earned_witness :
  (InRange.outcome None).1 = Ok 0 /\
  exists before t after, trace (InRange.outcome None).2 = before ++ t ++ after /\
    (exists c, Did (Connect c) (Ok tt) ∈ before) /\
    @obeyed Toy.kem Toy.kdf Toy.aead Toy.p256 InRange.store SessionStore.Absent (run_phase5 None) t.
Proof.
  assert ((InRange.outcome None).1 = Ok 0) as Hok by (vm_compute; reflexivity).
  pose proof (fun s' => @exit_zero_earned _ InRange.environment Toy.kem Toy.kdf Toy.kdf_laws Toy.aead Toy.p256
                (fun _ => 0) InRange.store SessionStore.Absent [] DEVICE_NAME (run_phase5 None) InRange.initial s'
                NoDup_nil_2 InRange.foreign) as Hs.
  assert (InRange.outcome None = @start _ InRange.environment Toy.kem Toy.kdf Toy.aead Toy.p256 (fun _ => 0)
    InRange.store SessionStore.Absent [] DEVICE_NAME (run_phase5 None) InRange.initial) as He by reflexivity.
  rewrite <- He in Hs. clear He.
  generalize dependent (InRange.outcome None). intros [r s'] Hok Hs. cbn [fst snd] in *. subst r.
  destruct (Hs s' eq_refl) as (before & t & after & Ht & (c & _ & Hc) & Ho & _).
  exact (conj eq_refl (ex_intro _ before (ex_intro _ t (ex_intro _ after (conj Ht (conj (ex_intro _ c Hc) Ho)))))).
Defined.

(** A negative test that passes. *)
Lemma exit_settled_witness :
  (InRange.outcome (Some "finished-c"%string)).1 = Ok 0 /\
  idle (client (self (InRange.outcome (Some "finished-c"%string)).2)).
Proof.
  assert ((InRange.outcome (Some "finished-c"%string)).1 = Ok 0) as Hok by (vm_compute; reflexivity).
  pose proof (@exit_settled _ InRange.environment Toy.kem Toy.kdf Toy.aead Toy.p256 (fun _ => 0)
                InRange.store SessionStore.Absent [] DEVICE_NAME (run_phase5 (Some "finished-c"%string))
                InRange.initial eq_refl InRange.foreign) as Hs.
  assert (InRange.outcome (Some "finished-c"%string) = @start _ InRange.environment Toy.kem Toy.kdf Toy.aead Toy.p256
    (fun _ => 0) InRange.store SessionStore.Absent [] DEVICE_NAME (run_phase5 (Some "finished-c"%string))
    InRange.initial) as He by reflexivity.
  rewrite <- He in Hs. clear He.
  generalize dependent (InRange.outcome (Some "finished-c"%string)). intros [r s'] Hok Hs.
  exact (conj Hok (proj1 Hs)).
Defined.
